(** * IRTK: the ternary voxel-function traversal engine

    A shallow embedding of [irtkForEachTernaryVoxelFunction.h]: the traversal
    bodies [irtkTernaryForEachVoxelBody_Const] and
    [irtkTernaryForEachVoxelIfBody_Const] and the entry points
    [ForEachScalar], [ForEachVoxel], [ForEachVoxelIf], [ParallelForEachVoxel],
    [ParallelForEachVoxelIf] built on them; and of [Initialize] and [Run] of
    [irtkGradientImageFilter], which come with the header in the same file.

    The header repeats the same text four times, once per pattern of const
    and non-const images; the four sections differ only in the [const]
    qualifiers, so one embedding stands for all of them.

    The engine never looks at what a voxel functor computes: every functor
    call returns [void] and no branch of the engine depends on functor state.
    What the engine does is therefore the sequence of calls it makes into the
    client code, and that sequence is what the embedding computes: a traversal
    body yields the list of functor invocations in program order, an entry
    point yields a [result] holding the log of invocations, [join] calls and
    text written to [cerr]. The only client code whose answer steers the
    engine is the domain predicate, which is a parameter.

    C++ [int] is modelled by [Z]. The loop counters never leave the interval
    between the loop bounds, so they cannot overflow; stride and index
    arithmetic is taken in [Z], which agrees with the program on every run
    free of signed overflow (undefined behaviour in C++). A pointer is a base
    (null, or the voxel buffer of an image) and an offset in voxels, and
    pointer arithmetic adds to the offset, on the null base as on any other.
    Two overloads call themselves; they take a fuel argument that bounds the
    depth of the call chain, and a call that needs more is [OutOfFuel]. *)

From Stdlib Require Import ZArith List Lia Bool String QArith Sorted Permutation.
Import ListNotations.
Local Open Scope Z_scope.

(* ===================================================================== *)
(** ** Images and pointers *)
(* ===================================================================== *)

(** Modelled from the spec: [irtkImageAttributes] is declared in
    [irtkImageAttributes.h], which is not among the analysed sources. The
    record holds the fields the engine reads, under the names its code uses:
    the four extents, of type [int], and [_dt], the temporal spacing, a
    [double] that the engine only ever tests against zero. *)
Record irtkImageAttributes := {
  _x : Z; _y : Z; _z : Z; _t : Z;
  _dt : Q
}.

(** The C++ conversion of a floating-point value to [bool]. *)
Definition nonzero (d : Q) : bool := negb (Qeq_bool d 0).

(** A pointer is a base and an offset counted in voxels.  [Null] is the
    base of the null pointer; [Buffer n] is the voxel buffer number [n]. *)
Inductive base := Null | Buffer (n : nat).

Record pointer := { block : base; offset : Z }.

Definition NULL : pointer := {| block := Null; offset := 0 |}.

(** [p + n] on pointers. *)
Definition ptr_add (p : pointer) (n : Z) : pointer :=
  {| block := block p; offset := offset p + n |}.

Definition is_null (p : pointer) : bool :=
  match block p with
  | Null => offset p =? 0
  | Buffer _ => false
  end.

(** Modelled from the spec: [irtkGenericImage] is declared in [irtkImage.h],
    which is not among the analysed sources.  The spec gives an image its
    attributes, a total voxel count, an is-empty query and a raw contiguous
    pointer to its voxel buffer, row-major with x fastest. The count and the
    emptiness flag are kept as independent fields, so nothing proved below
    depends on how the class derives them. *)
Record irtkGenericImage := {
  _attr : irtkImageAttributes;
  _NumberOfVoxels : Z;
  _IsEmpty : bool;
  _matrix : nat
}.

Definition GetX (im : irtkGenericImage) : Z := _x (_attr im).
Definition GetY (im : irtkGenericImage) : Z := _y (_attr im).
Definition GetZ (im : irtkGenericImage) : Z := _z (_attr im).
Definition GetT (im : irtkGenericImage) : Z := _t (_attr im).
Definition GetTSize (im : irtkGenericImage) : Q := _dt (_attr im).
Definition GetNumberOfVoxels (im : irtkGenericImage) : Z := _NumberOfVoxels im.
Definition IsEmpty (im : irtkGenericImage) : bool := _IsEmpty im.

(** Modelled from the spec: [GetPointerToVoxels()], the start of the buffer. *)
Definition GetPointerToVoxels (im : irtkGenericImage) : pointer :=
  {| block := Buffer (_matrix im); offset := 0 |}.

(** Modelled from the spec: the flat position of voxel (i, j, k, l) in a
    row-major buffer with x fastest. *)
Definition VoxelToIndex (im : irtkGenericImage) (i j k l : Z) : Z :=
  i + GetX im * (j + GetY im * (k + GetZ im * l)).

(** Modelled from the spec: [GetPointerToVoxels(i, j, k, l)]. *)
Definition GetPointerToVoxelsAt (im : irtkGenericImage) (i j k l : Z) : pointer :=
  ptr_add (GetPointerToVoxels im) (VoxelToIndex im i j k l).

(* ===================================================================== *)
(** ** Ranges *)
(* ===================================================================== *)

(** [blocked_range<int>]: the half-open interval from [rbegin] to [rend]. *)
Record blocked_range := { rbegin : Z; rend : Z }.

(** [blocked_range2d<int>]. *)
Record blocked_range2d := { rows2 : blocked_range; cols2 : blocked_range }.

(** [blocked_range3d<int>]; its constructor takes pages, rows, columns. *)
Record blocked_range3d := {
  pages : blocked_range; rows : blocked_range; cols : blocked_range
}.

(* ===================================================================== *)
(** ** Functor invocations *)
(* ===================================================================== *)

(** The two functor members of a body: [_VoxelFunc] and [_OutsideFunc]. *)
Inductive functor_id := VoxelFunc | OutsideFunc.

(** The two call forms of a voxel functor, without the pointers:
    [f(i, j, k, l, ...)] and [f(im, idx, ...)]. *)
Inductive args :=
| Coord (i j k l : Z)
| Index (im : irtkGenericImage) (idx : Z).

(** The three image cursors [p1], [p2], [p3] of a traversal. *)
Record cursors := { p1 : pointer; p2 : pointer; p3 : pointer }.

Record invocation := {
  callee : functor_id;
  arguments : args;
  ptrs : cursors
}.

(** [p1 += s, p2 += s, p3 += s]. *)
Definition advance (s : Z) (c : cursors) : cursors :=
  {| p1 := ptr_add (p1 c) s; p2 := ptr_add (p2 c) s; p3 := ptr_add (p3 c) s |}.

(** The state a traversal threads through its loops: the cursors and the
    invocations made so far, oldest first. *)
Definition state := (cursors * list invocation)%type.

(** One functor call at the current cursors. *)
Definition call (f : functor_id) (a : args) (st : state) : state :=
  (fst st, snd st ++ [{| callee := f; arguments := a; ptrs := fst st |}]).

(** The pointer part of a loop's increment expression. *)
Definition bump (s : Z) (st : state) : state := (advance s (fst st), snd st).

(* ===================================================================== *)
(** ** Counted loops *)
(* ===================================================================== *)

(** [iterate n i step s] runs [step i], [step (i+1)], ... [n] times. *)
Fixpoint iterate {St : Type} (n : nat) (i : Z) (step : Z -> St -> St) (s : St) : St :=
  match n with
  | O => s
  | S n' => iterate n' (i + 1) step (step i s)
  end.

(** [for (int i = b; i < e; ++i) step]: the loop runs [e - b] times when
    [b < e] and not at all otherwise ([For_unfold] below states it with the
    loop's own guard). *)
Definition For {St : Type} (b e : Z) (step : Z -> St -> St) (s : St) : St :=
  iterate (Z.to_nat (e - b)) b step s.

(* ===================================================================== *)
(** ** Traversal bodies *)
(* ===================================================================== *)

Module irtkTernaryForEachVoxelBody_Const.

(** The three image references, and [_k], [_l] of the base class
    [irtkForEachVoxelBody]. *)
Record t := {
  im1 : irtkGenericImage;
  im2 : irtkGenericImage;
  im3 : irtkGenericImage;
  _k : Z;
  _l : Z
}.

(** [operator ()(const irtkImageAttributes &)]: process entire image. *)
Definition run_attr (b : t) (attr : irtkImageAttributes) : list invocation :=
  let c := {| p1 := if IsEmpty (im1 b) then NULL else (GetPointerToVoxels (im1 b));
              p2 := if IsEmpty (im2 b) then NULL else (GetPointerToVoxels (im2 b));
              p3 := if IsEmpty (im3 b) then NULL else (GetPointerToVoxels (im3 b)) |} in
  let T := if nonzero (_dt attr) then _t attr else 1 in
  snd (For 0 T (fun l =>
       For 0 (_z attr) (fun k =>
       For 0 (_y attr) (fun j =>
       For 0 (_x attr) (fun i st =>
         bump 1 (call VoxelFunc (Coord i j k l) st))))) (c, [])).

(** [operator ()(const blocked_range<int> &)]: process 1D image region. *)
Definition run_1d (b : t) (re : blocked_range) : list invocation :=
  let c := {| p1 := if IsEmpty (im1 b) then NULL else (ptr_add (GetPointerToVoxels (im1 b)) (rbegin re));
              p2 := if IsEmpty (im2 b) then NULL else (ptr_add (GetPointerToVoxels (im2 b)) (rbegin re));
              p3 := if IsEmpty (im3 b) then NULL else (ptr_add (GetPointerToVoxels (im3 b)) (rbegin re)) |} in
  snd (For (rbegin re) (rend re) (fun idx st =>
         bump 1 (call VoxelFunc (Index (im3 b) idx) st)) (c, [])).

(** [operator ()(const blocked_range2d<int> &)]: process 2D image region. *)
Definition run_2d (b : t) (re : blocked_range2d) : list invocation :=
  let bi := rbegin (cols2 re) in
  let bj := rbegin (rows2 re) in
  let ei := rend (cols2 re) in
  let ej := rend (rows2 re) in
  let s1 := GetX (im3 b) - (ei - bi) in
  let c := {| p1 := if IsEmpty (im1 b) then NULL else (GetPointerToVoxelsAt (im1 b) bi bj (_k b) (_l b));
              p2 := if IsEmpty (im2 b) then NULL else (GetPointerToVoxelsAt (im2 b) bi bj (_k b) (_l b));
              p3 := if IsEmpty (im3 b) then NULL else (GetPointerToVoxelsAt (im3 b) bi bj (_k b) (_l b)) |} in
  snd (For bj ej (fun j st => bump s1 (
       For bi ei (fun i st =>
         bump 1 (call VoxelFunc (Coord i j (_k b) (_l b)) st)) st)) (c, [])).

(** [operator ()(const blocked_range3d<int> &)]: process 3D image region. *)
Definition run_3d (b : t) (re : blocked_range3d) : list invocation :=
  let bi := rbegin (cols re) in
  let bj := rbegin (rows re) in
  let bk := rbegin (pages re) in
  let ei := rend (cols re) in
  let ej := rend (rows re) in
  let ek := rend (pages re) in
  let s1 := GetX (im3 b) - (ei - bi) in
  let s2 := (GetY (im3 b) - (ej - bj)) * GetX (im3 b) in
  let c := {| p1 := if IsEmpty (im1 b) then NULL else (GetPointerToVoxelsAt (im1 b) bi bj bk (_l b));
              p2 := if IsEmpty (im2 b) then NULL else (GetPointerToVoxelsAt (im2 b) bi bj bk (_l b));
              p3 := if IsEmpty (im3 b) then NULL else (GetPointerToVoxelsAt (im3 b) bi bj bk (_l b)) |} in
  snd (For bk ek (fun k st => bump s2 (
       For bj ej (fun j st => bump s1 (
       For bi ei (fun i st =>
         bump 1 (call VoxelFunc (Coord i j k (_l b)) st)) st)) st)) (c, [])).

End irtkTernaryForEachVoxelBody_Const.

(** The [Domain] template parameter: its two static [IsInside] overloads,
    for the coordinate form and for the flat-index form. *)
Record Domain := {
  IsInside : irtkGenericImage -> Z -> Z -> Z -> Z -> pointer -> bool;
  IsInsideIdx : irtkGenericImage -> Z -> pointer -> bool
}.

Module irtkTernaryForEachVoxelIfBody_Const.

Record t := {
  im1 : irtkGenericImage;
  im2 : irtkGenericImage;
  im3 : irtkGenericImage;
  _k : Z;
  _l : Z
}.

(** [operator ()(const irtkImageAttributes &)]: process entire image. *)
Definition run_attr (D : Domain) (b : t) (attr : irtkImageAttributes) : list invocation :=
  let c := {| p1 := if IsEmpty (im1 b) then NULL else (GetPointerToVoxels (im1 b));
              p2 := if IsEmpty (im2 b) then NULL else (GetPointerToVoxels (im2 b));
              p3 := if IsEmpty (im3 b) then NULL else (GetPointerToVoxels (im3 b)) |} in
  let T := if nonzero (_dt attr) then _t attr else 1 in
  snd (For 0 T (fun l =>
       For 0 (_z attr) (fun k =>
       For 0 (_y attr) (fun j =>
       For 0 (_x attr) (fun i st =>
         bump 1 (if IsInside D (im3 b) i j k l (p3 (fst st))
                 then call VoxelFunc (Coord i j k l) st
                 else call OutsideFunc (Coord i j k l) st))))) (c, [])).

(** [operator ()(const blocked_range<int> &)]: process 1D image region. *)
Definition run_1d (D : Domain) (b : t) (re : blocked_range) : list invocation :=
  let c := {| p1 := if IsEmpty (im1 b) then NULL else (ptr_add (GetPointerToVoxels (im1 b)) (rbegin re));
              p2 := if IsEmpty (im2 b) then NULL else (ptr_add (GetPointerToVoxels (im2 b)) (rbegin re));
              p3 := if IsEmpty (im3 b) then NULL else (ptr_add (GetPointerToVoxels (im3 b)) (rbegin re)) |} in
  snd (For (rbegin re) (rend re) (fun idx st =>
         bump 1 (if IsInsideIdx D (im3 b) idx (p3 (fst st))
                 then call VoxelFunc (Index (im3 b) idx) st
                 else call OutsideFunc (Index (im3 b) idx) st)) (c, [])).

(** [operator ()(const blocked_range2d<int> &)]: process 2D image region. *)
Definition run_2d (D : Domain) (b : t) (re : blocked_range2d) : list invocation :=
  let bi := rbegin (cols2 re) in
  let bj := rbegin (rows2 re) in
  let ei := rend (cols2 re) in
  let ej := rend (rows2 re) in
  let s1 := GetX (im3 b) - (ei - bi) in
  let c := {| p1 := if IsEmpty (im1 b) then NULL else (GetPointerToVoxelsAt (im1 b) bi bj (_k b) (_l b));
              p2 := if IsEmpty (im2 b) then NULL else (GetPointerToVoxelsAt (im2 b) bi bj (_k b) (_l b));
              p3 := if IsEmpty (im3 b) then NULL else (GetPointerToVoxelsAt (im3 b) bi bj (_k b) (_l b)) |} in
  snd (For bj ej (fun j st => bump s1 (
       For bi ei (fun i st =>
         bump 1 (if IsInside D (im3 b) i j (_k b) (_l b) (p3 (fst st))
                 then call VoxelFunc (Coord i j (_k b) (_l b)) st
                 else call OutsideFunc (Coord i j (_k b) (_l b)) st)) st)) (c, [])).

(** [operator ()(const blocked_range3d<int> &)]: process 3D image region. *)
Definition run_3d (D : Domain) (b : t) (re : blocked_range3d) : list invocation :=
  let bi := rbegin (cols re) in
  let bj := rbegin (rows re) in
  let bk := rbegin (pages re) in
  let ei := rend (cols re) in
  let ej := rend (rows re) in
  let ek := rend (pages re) in
  let s1 := GetX (im3 b) - (ei - bi) in
  let s2 := (GetY (im3 b) - (ej - bj)) * GetX (im3 b) in
  let c := {| p1 := if IsEmpty (im1 b) then NULL else (GetPointerToVoxelsAt (im1 b) bi bj bk (_l b));
              p2 := if IsEmpty (im2 b) then NULL else (GetPointerToVoxelsAt (im2 b) bi bj bk (_l b));
              p3 := if IsEmpty (im3 b) then NULL else (GetPointerToVoxelsAt (im3 b) bi bj bk (_l b)) |} in
  snd (For bk ek (fun k st => bump s2 (
       For bj ej (fun j st => bump s1 (
       For bi ei (fun i st =>
         bump 1 (if IsInside D (im3 b) i j k (_l b) (p3 (fst st))
                 then call VoxelFunc (Coord i j k (_l b)) st
                 else call OutsideFunc (Coord i j k (_l b)) st)) st)) st)) (c, [])).

End irtkTernaryForEachVoxelIfBody_Const.

Module Body := irtkTernaryForEachVoxelBody_Const.
Module IfBody := irtkTernaryForEachVoxelIfBody_Const.

(* ===================================================================== *)
(** ** What an entry point does *)
(* ===================================================================== *)

(** The functor object a [join] call is made on: the caller's functor
    ([vf.join(body._VoxelFunc)] in an entry point) or the functor copy held
    by a body ([body.join(rhs)] at the end of a forked partition). *)
Inductive receiver := CallersFunctor | BodysFunctor.

Inductive event :=
| Invoke (inv : invocation)
| Join (f : functor_id) (r : receiver)
| Cerr (msg : string).

(** How a call of an entry point ends.  [Undefined] is an integer division
    by zero; [OutOfFuel] is a call chain longer than the fuel given. *)
Inductive result :=
| Returns (log : list event)
| Exits (status : Z) (log : list event)
| Undefined (log : list event)
| OutOfFuel.

(** Statement sequencing: the second statement runs only when the first
    returns. *)
Definition andthen (r k : result) : result :=
  match r with
  | Returns l =>
      match k with
      | Returns l' => Returns (l ++ l')
      | Exits s l' => Exits s (l ++ l')
      | Undefined l' => Undefined (l ++ l')
      | OutOfFuel => OutOfFuel
      end
  | _ => r
  end.

Notation "a ;; b" := (andthen a b) (at level 61, right associativity).

(** [if (c) stmt;] *)
Definition when (c : bool) (stmt : result) : result :=
  if c then stmt else Returns [].

(** The functor calls a body made, as events. *)
Definition run (calls : list invocation) : result := Returns (map Invoke calls).

(** [a / b] on [int]: truncating, undefined for a zero divisor. *)
Definition int_div (a b : Z) : option Z :=
  if b =? 0 then None else Some (Z.quot a b).

(** The static part of a voxel functor type.  Its call operator and its
    [join] show up as events. *)
Record functor := { IsReduction : bool }.

(** Modelled from the spec: [irtkNaryVoxelFunction::NOP], the default
    outside functor, a no-op capability that is not a reduction; it is
    declared in [irtkVoxelFunction.h], which is not among the analysed
    sources. *)
Definition NOP : functor := {| IsReduction := false |}.

Definition _irtkforeachternaryvoxelfunction_must_not_be_reduction : result :=
  Exits 1 [Cerr ("(Parallel)ForEachVoxel(If): Voxel reductions must be passed by reference!"
                 ++ " Pass voxel functor object(s) as last argument(s) instead of first.")%string].

(* ===================================================================== *)
(** ** The fork-join scheduler *)
(* ===================================================================== *)

(** Modelled from the spec: the scheduler behind [parallel_for] and
    [parallel_reduce] is an external library. The spec has it partition a
    range recursively, each split bisecting a range into two sub-ranges whose
    union is the original and whose intersection is empty, run an independent
    body copy on each partition, and for a reduction join the functors of
    sibling partitions after both complete.  A [schedule] is the tree of
    splits the scheduler chose for one call: [Fork axis m l r] splits the
    range at [m] along [axis] (0: pages, 1: rows, 2: columns; a linear range
    has one axis) and continues with [l] and [r]; a split point outside the
    range is not a split. *)
Inductive schedule :=
| Run
| Fork (axis : nat) (m : Z) (l r : schedule).

Definition split1 (m : Z) (re : blocked_range) : option (blocked_range * blocked_range) :=
  if (rbegin re <? m) && (m <? rend re)
  then Some ({| rbegin := rbegin re; rend := m |}, {| rbegin := m; rend := rend re |})
  else None.

Class Splittable (R : Type) := split_at : nat -> Z -> R -> option (R * R).

#[export] Instance split_blocked_range : Splittable blocked_range :=
  fun _ m re => split1 m re.

#[export] Instance split_blocked_range2d : Splittable blocked_range2d :=
  fun axis m re =>
    match axis with
    | 1%nat => option_map (fun '(a, b) => ({| rows2 := a; cols2 := cols2 re |},
                                           {| rows2 := b; cols2 := cols2 re |}))
                          (split1 m (rows2 re))
    | _ => option_map (fun '(a, b) => ({| rows2 := rows2 re; cols2 := a |},
                                       {| rows2 := rows2 re; cols2 := b |}))
                      (split1 m (cols2 re))
    end.

#[export] Instance split_blocked_range3d : Splittable blocked_range3d :=
  fun axis m re =>
    match axis with
    | 0%nat => option_map (fun '(a, b) =>
                 ({| pages := a; rows := rows re; cols := cols re |},
                  {| pages := b; rows := rows re; cols := cols re |}))
                 (split1 m (pages re))
    | 1%nat => option_map (fun '(a, b) =>
                 ({| pages := pages re; rows := a; cols := cols re |},
                  {| pages := pages re; rows := b; cols := cols re |}))
                 (split1 m (rows re))
    | _ => option_map (fun '(a, b) =>
                 ({| pages := pages re; rows := rows re; cols := a |},
                  {| pages := pages re; rows := rows re; cols := b |}))
                 (split1 m (cols re))
    end.

(** Modelled from the spec: [parallel_for(re, body)].  The log lists the
    partitions' invocations in the order of the schedule tree; the scheduler
    guarantees no order between partitions, so only properties that do not
    depend on the order between partitions are proved of such a log. *)
Fixpoint parallel_for {R : Type} `{Splittable R}
  (sch : schedule) (re : R) (body : R -> list invocation) : list event :=
  match sch with
  | Run => map Invoke (body re)
  | Fork axis m l r =>
      match split_at axis m re with
      | Some (re1, re2) => parallel_for l re1 body ++ parallel_for r re2 body
      | None => map Invoke (body re)
      end
  end.

(** Modelled from the spec: [parallel_reduce(re, body)]; [join] is what
    the body's [join] member does when two sibling partitions are done. *)
Fixpoint parallel_reduce {R : Type} `{Splittable R}
  (sch : schedule) (re : R) (body : R -> list invocation) (join : list event)
  : list event :=
  match sch with
  | Run => map Invoke (body re)
  | Fork axis m l r =>
      match split_at axis m re with
      | Some (re1, re2) =>
          parallel_reduce l re1 body join ++ parallel_reduce r re2 body join ++ join
      | None => map Invoke (body re)
      end
  end.

(** Modelled from the spec: [irtkForEachVoxelBody::join], which joins the
    functor copies of two bodies. *)
Definition Body_join : list event := [Join VoxelFunc BodysFunctor].

(** Modelled from the spec: [irtkForEachVoxelIfBody::join], which joins
    both functor copies. *)
Definition IfBody_join : list event :=
  [Join VoxelFunc BodysFunctor; Join OutsideFunc BodysFunctor].

(* ===================================================================== *)
(** ** Entry points, image arguments by reference *)
(* ===================================================================== *)

(** In every entry point below the functor arguments come first and the
    images last, whatever their order in the source.  An entry point whose
    name ends in [_v] takes its functor(s) by value; one with [_nop] takes a
    single functor and supplies [NOP] as the outside functor; [_attr], [_1d],
    [_2d], [_3d] take an explicit [irtkImageAttributes] or range. A parallel
    entry point takes the schedule of the scheduler as its first argument. *)

Module ByReference.
Section EntryPoints.

(** The constructor of the base class [irtkForEachVoxelBody] sets the
    body's [_k] and [_l]; it is declared in [irtkVoxelFunction.h], which is
    not among the analysed sources, so the two initial values are parameters. *)
Variables init_k init_l : Z.

Definition body (im1 im2 im3 : irtkGenericImage) : Body.t :=
  {| Body.im1 := im1; Body.im2 := im2; Body.im3 := im3;
     Body._k := init_k; Body._l := init_l |}.

Definition ifbody (im1 im2 im3 : irtkGenericImage) : IfBody.t :=
  {| IfBody.im1 := im1; IfBody.im2 := im2; IfBody.im3 := im3;
     IfBody._k := init_k; IfBody._l := init_l |}.

(** [vf.join(body._VoxelFunc)] and [of.join(body._OutsideFunc)]. *)
Definition vf_join : result := Returns [Join VoxelFunc CallersFunctor].
Definition of_join : result := Returns [Join OutsideFunc CallersFunctor].

(* --------------------------------------------------------------------- *)
(** *** ForEachVoxel *)

Definition ForEachScalar (vf : functor) (im1 im2 im3 : irtkGenericImage) : result :=
  let re := {| rbegin := 0; rend := GetNumberOfVoxels im3 |} in
  run (Body.run_1d (body im1 im2 im3) re) ;;
  vf_join.

Definition ForEachScalar_v (vf : functor) (im1 im2 im3 : irtkGenericImage) : result :=
  when (IsReduction vf) _irtkforeachternaryvoxelfunction_must_not_be_reduction ;;
  ForEachScalar vf im1 im2 im3.

Definition ForEachVoxel (vf : functor) (im1 im2 im3 : irtkGenericImage) : result :=
  if nonzero (GetTSize im3) then
    ForEachScalar vf im1 im2 im3
  else
    match int_div (GetNumberOfVoxels im3) (GetT im3) with
    | None => Undefined []
    | Some n =>
        let re := {| rbegin := 0; rend := n |} in
        run (Body.run_1d (body im1 im2 im3) re) ;;
        vf_join
    end.

Definition ForEachVoxel_v (vf : functor) (im1 im2 im3 : irtkGenericImage) : result :=
  when (IsReduction vf) _irtkforeachternaryvoxelfunction_must_not_be_reduction ;;
  ForEachVoxel vf im1 im2 im3.

Definition ForEachVoxel_attr (vf : functor) (attr : irtkImageAttributes)
  (im1 im2 im3 : irtkGenericImage) : result :=
  run (Body.run_attr (body im1 im2 im3) attr) ;;
  vf_join.

Definition ForEachVoxel_attr_v (vf : functor) (attr : irtkImageAttributes)
  (im1 im2 im3 : irtkGenericImage) : result :=
  when (IsReduction vf) _irtkforeachternaryvoxelfunction_must_not_be_reduction ;;
  ForEachVoxel_attr vf attr im1 im2 im3.

Definition ForEachVoxel_1d (vf : functor) (re : blocked_range)
  (im1 im2 im3 : irtkGenericImage) : result :=
  run (Body.run_1d (body im1 im2 im3) re) ;;
  vf_join.

Definition ForEachVoxel_1d_v (vf : functor) (re : blocked_range)
  (im1 im2 im3 : irtkGenericImage) : result :=
  when (IsReduction vf) _irtkforeachternaryvoxelfunction_must_not_be_reduction ;;
  ForEachVoxel_1d vf re im1 im2 im3.

Definition ForEachVoxel_2d (vf : functor) (re : blocked_range2d)
  (im1 im2 im3 : irtkGenericImage) : result :=
  run (Body.run_2d (body im1 im2 im3) re) ;;
  vf_join.

Definition ForEachVoxel_2d_v (vf : functor) (re : blocked_range2d)
  (im1 im2 im3 : irtkGenericImage) : result :=
  when (IsReduction vf) _irtkforeachternaryvoxelfunction_must_not_be_reduction ;;
  ForEachVoxel_2d vf re im1 im2 im3.

Definition ForEachVoxel_3d (vf : functor) (re : blocked_range3d)
  (im1 im2 im3 : irtkGenericImage) : result :=
  run (Body.run_3d (body im1 im2 im3) re) ;;
  vf_join.

Definition ForEachVoxel_3d_v (vf : functor) (re : blocked_range3d)
  (im1 im2 im3 : irtkGenericImage) : result :=
  when (IsReduction vf) _irtkforeachternaryvoxelfunction_must_not_be_reduction ;;
  ForEachVoxel_3d vf re im1 im2 im3.

(* --------------------------------------------------------------------- *)
(** *** ForEachVoxelIf *)

Definition ForEachScalarIf (D : Domain) (vf of_ : functor)
  (im1 im2 im3 : irtkGenericImage) : result :=
  let re := {| rbegin := 0; rend := GetNumberOfVoxels im3 |} in
  run (IfBody.run_1d D (ifbody im1 im2 im3) re) ;;
  vf_join ;;
  of_join.

Definition ForEachScalarIf_v (D : Domain) (vf of_ : functor)
  (im1 im2 im3 : irtkGenericImage) : result :=
  when (IsReduction vf || IsReduction of_)
       _irtkforeachternaryvoxelfunction_must_not_be_reduction ;;
  ForEachScalarIf D vf of_ im1 im2 im3.

Definition ForEachScalarIf_nop (D : Domain) (vf : functor)
  (im1 im2 im3 : irtkGenericImage) : result :=
  let of_ := NOP in
  ForEachScalarIf D vf of_ im1 im2 im3.

Definition ForEachScalarIf_nop_v (D : Domain) (vf : functor)
  (im1 im2 im3 : irtkGenericImage) : result :=
  when (IsReduction vf) _irtkforeachternaryvoxelfunction_must_not_be_reduction ;;
  ForEachScalarIf_nop D vf im1 im2 im3.

(** The first branch calls [ForEachVoxelIf<Domain>(im1, im2, im3, vf, of)],
    which is this very overload; [fuel] bounds the depth of the recursion. *)
Fixpoint ForEachVoxelIf (fuel : nat) (D : Domain) (vf of_ : functor)
  (im1 im2 im3 : irtkGenericImage) : result :=
  match fuel with
  | O => OutOfFuel
  | S fuel' =>
      if nonzero (GetTSize im3) then
        ForEachVoxelIf fuel' D vf of_ im1 im2 im3
      else
        match int_div (GetNumberOfVoxels im3) (GetT im3) with
        | None => Undefined []
        | Some n =>
            let re := {| rbegin := 0; rend := n |} in
            run (IfBody.run_1d D (ifbody im1 im2 im3) re) ;;
            vf_join ;;
            of_join
        end
  end.

Definition ForEachVoxelIf_v (fuel : nat) (D : Domain) (vf of_ : functor)
  (im1 im2 im3 : irtkGenericImage) : result :=
  when (IsReduction vf || IsReduction of_)
       _irtkforeachternaryvoxelfunction_must_not_be_reduction ;;
  ForEachVoxelIf fuel D vf of_ im1 im2 im3.

Definition ForEachVoxelIf_nop (fuel : nat) (D : Domain) (vf : functor)
  (im1 im2 im3 : irtkGenericImage) : result :=
  let of_ := NOP in
  ForEachVoxelIf fuel D vf of_ im1 im2 im3.

Definition ForEachVoxelIf_nop_v (fuel : nat) (D : Domain) (vf : functor)
  (im1 im2 im3 : irtkGenericImage) : result :=
  when (IsReduction vf) _irtkforeachternaryvoxelfunction_must_not_be_reduction ;;
  ForEachVoxelIf_nop fuel D vf im1 im2 im3.

Definition ForEachVoxelIf_attr (D : Domain) (vf of_ : functor)
  (attr : irtkImageAttributes) (im1 im2 im3 : irtkGenericImage) : result :=
  run (IfBody.run_attr D (ifbody im1 im2 im3) attr) ;;
  vf_join ;;
  of_join.

Definition ForEachVoxelIf_attr_v (D : Domain) (vf of_ : functor)
  (attr : irtkImageAttributes) (im1 im2 im3 : irtkGenericImage) : result :=
  when (IsReduction vf || IsReduction of_)
       _irtkforeachternaryvoxelfunction_must_not_be_reduction ;;
  ForEachVoxelIf_attr D vf of_ attr im1 im2 im3.

Definition ForEachVoxelIf_attr_nop (D : Domain) (vf : functor)
  (attr : irtkImageAttributes) (im1 im2 im3 : irtkGenericImage) : result :=
  let of_ := NOP in
  ForEachVoxelIf_attr D vf of_ attr im1 im2 im3.

Definition ForEachVoxelIf_attr_nop_v (D : Domain) (vf : functor)
  (attr : irtkImageAttributes) (im1 im2 im3 : irtkGenericImage) : result :=
  when (IsReduction vf) _irtkforeachternaryvoxelfunction_must_not_be_reduction ;;
  ForEachVoxelIf_attr_nop D vf attr im1 im2 im3.

Definition ForEachVoxelIf_1d (D : Domain) (vf of_ : functor)
  (re : blocked_range) (im1 im2 im3 : irtkGenericImage) : result :=
  run (IfBody.run_1d D (ifbody im1 im2 im3) re) ;;
  vf_join ;;
  of_join.

Definition ForEachVoxelIf_1d_v (D : Domain) (vf of_ : functor)
  (re : blocked_range) (im1 im2 im3 : irtkGenericImage) : result :=
  when (IsReduction vf || IsReduction of_)
       _irtkforeachternaryvoxelfunction_must_not_be_reduction ;;
  ForEachVoxelIf_1d D vf of_ re im1 im2 im3.

Definition ForEachVoxelIf_2d (D : Domain) (vf of_ : functor)
  (re : blocked_range2d) (im1 im2 im3 : irtkGenericImage) : result :=
  run (IfBody.run_2d D (ifbody im1 im2 im3) re) ;;
  vf_join ;;
  of_join.

Definition ForEachVoxelIf_2d_v (D : Domain) (vf of_ : functor)
  (re : blocked_range2d) (im1 im2 im3 : irtkGenericImage) : result :=
  when (IsReduction vf || IsReduction of_)
       _irtkforeachternaryvoxelfunction_must_not_be_reduction ;;
  ForEachVoxelIf_2d D vf of_ re im1 im2 im3.

Definition ForEachVoxelIf_2d_nop (D : Domain) (vf : functor)
  (re : blocked_range2d) (im1 im2 im3 : irtkGenericImage) : result :=
  let of_ := NOP in
  ForEachVoxelIf_2d D vf of_ re im1 im2 im3.

Definition ForEachVoxelIf_2d_nop_v (D : Domain) (vf : functor)
  (re : blocked_range2d) (im1 im2 im3 : irtkGenericImage) : result :=
  when (IsReduction vf) _irtkforeachternaryvoxelfunction_must_not_be_reduction ;;
  ForEachVoxelIf_2d_nop D vf re im1 im2 im3.

Definition ForEachVoxelIf_3d (D : Domain) (vf of_ : functor)
  (re : blocked_range3d) (im1 im2 im3 : irtkGenericImage) : result :=
  run (IfBody.run_3d D (ifbody im1 im2 im3) re) ;;
  vf_join ;;
  of_join.

Definition ForEachVoxelIf_3d_v (D : Domain) (vf of_ : functor)
  (re : blocked_range3d) (im1 im2 im3 : irtkGenericImage) : result :=
  when (IsReduction vf || IsReduction of_)
       _irtkforeachternaryvoxelfunction_must_not_be_reduction ;;
  ForEachVoxelIf_3d D vf of_ re im1 im2 im3.

Definition ForEachVoxelIf_3d_nop (D : Domain) (vf : functor)
  (re : blocked_range3d) (im1 im2 im3 : irtkGenericImage) : result :=
  let of_ := NOP in
  ForEachVoxelIf_3d D vf of_ re im1 im2 im3.

Definition ForEachVoxelIf_3d_nop_v (D : Domain) (vf : functor)
  (re : blocked_range3d) (im1 im2 im3 : irtkGenericImage) : result :=
  when (IsReduction vf) _irtkforeachternaryvoxelfunction_must_not_be_reduction ;;
  ForEachVoxelIf_3d_nop D vf re im1 im2 im3.

(* --------------------------------------------------------------------- *)
(** *** ParallelForEachVoxel *)

(** The assignment [body._l = l] made by the loops over [body._l]. *)
Definition set_l (b : Body.t) (l : Z) : Body.t :=
  {| Body.im1 := Body.im1 b; Body.im2 := Body.im2 b; Body.im3 := Body.im3 b;
     Body._k := Body._k b; Body._l := l |}.

Definition if_set_l (b : IfBody.t) (l : Z) : IfBody.t :=
  {| IfBody.im1 := IfBody.im1 b; IfBody.im2 := IfBody.im2 b; IfBody.im3 := IfBody.im3 b;
     IfBody._k := IfBody._k b; IfBody._l := l |}.

Definition ParallelForEachScalar (sch : schedule) (vf : functor)
  (im1 im2 im3 : irtkGenericImage) : result :=
  let b := body im1 im2 im3 in
  let re := {| rbegin := 0; rend := GetNumberOfVoxels im3 |} in
  if IsReduction vf then
    Returns (parallel_reduce sch re (Body.run_1d b) Body_join) ;; vf_join
  else
    Returns (parallel_for sch re (Body.run_1d b)).

Definition ParallelForEachScalar_v (sch : schedule) (vf : functor)
  (im1 im2 im3 : irtkGenericImage) : result :=
  when (IsReduction vf) _irtkforeachternaryvoxelfunction_must_not_be_reduction ;;
  ParallelForEachScalar sch vf im1 im2 im3.

Definition ParallelForEachVoxel (sch : schedule) (vf : functor)
  (im1 im2 im3 : irtkGenericImage) : result :=
  if nonzero (GetTSize im3) then
    ParallelForEachScalar sch vf im1 im2 im3
  else
    let b := body im1 im2 im3 in
    match int_div (GetNumberOfVoxels im3) (GetT im3) with
    | None => Undefined []
    | Some n =>
        let re := {| rbegin := 0; rend := n |} in
        if IsReduction vf then
          Returns (parallel_reduce sch re (Body.run_1d b) Body_join) ;; vf_join
        else
          Returns (parallel_for sch re (Body.run_1d b))
    end.

Definition ParallelForEachVoxel_v (sch : schedule) (vf : functor)
  (im1 im2 im3 : irtkGenericImage) : result :=
  when (IsReduction vf) _irtkforeachternaryvoxelfunction_must_not_be_reduction ;;
  ParallelForEachVoxel sch vf im1 im2 im3.

(** [sch l] is the schedule of the scheduler call made while [body._l] is
    [l]. *)
Definition ParallelForEachVoxel_attr (sch : Z -> schedule) (vf : functor)
  (attr : irtkImageAttributes) (im1 im2 im3 : irtkGenericImage) : result :=
  let b := body im1 im2 im3 in
  let re := {| pages := {| rbegin := 0; rend := _z attr |};
               rows := {| rbegin := 0; rend := _y attr |};
               cols := {| rbegin := 0; rend := _x attr |} |} in
  if IsReduction vf then
    (if nonzero (_dt attr) then
       Returns (For 0 (_t attr) (fun l log =>
                  log ++ parallel_reduce (sch l) re (Body.run_3d (set_l b l)) Body_join) [])
     else
       Returns (parallel_reduce (sch (Body._l b)) re (Body.run_3d b) Body_join)) ;;
    vf_join
  else
    if nonzero (_dt attr) then
      Returns (For 0 (_t attr) (fun l log =>
                 log ++ parallel_for (sch l) re (Body.run_3d (set_l b l))) [])
    else
      Returns (parallel_for (sch (Body._l b)) re (Body.run_3d b)).

Definition ParallelForEachVoxel_attr_v (sch : Z -> schedule) (vf : functor)
  (attr : irtkImageAttributes) (im1 im2 im3 : irtkGenericImage) : result :=
  when (IsReduction vf) _irtkforeachternaryvoxelfunction_must_not_be_reduction ;;
  ParallelForEachVoxel_attr sch vf attr im1 im2 im3.

Definition ParallelForEachVoxel_1d (sch : schedule) (vf : functor)
  (re : blocked_range) (im1 im2 im3 : irtkGenericImage) : result :=
  let b := body im1 im2 im3 in
  if IsReduction vf then
    Returns (parallel_reduce sch re (Body.run_1d b) Body_join) ;; vf_join
  else
    Returns (parallel_for sch re (Body.run_1d b)).

Definition ParallelForEachVoxel_1d_v (sch : schedule) (vf : functor)
  (re : blocked_range) (im1 im2 im3 : irtkGenericImage) : result :=
  when (IsReduction vf) _irtkforeachternaryvoxelfunction_must_not_be_reduction ;;
  ParallelForEachVoxel_1d sch vf re im1 im2 im3.

Definition ParallelForEachVoxel_2d (sch : schedule) (vf : functor)
  (re : blocked_range2d) (im1 im2 im3 : irtkGenericImage) : result :=
  let b := body im1 im2 im3 in
  if IsReduction vf then
    Returns (parallel_reduce sch re (Body.run_2d b) Body_join) ;; vf_join
  else
    Returns (parallel_for sch re (Body.run_2d b)).

Definition ParallelForEachVoxel_2d_v (sch : schedule) (vf : functor)
  (re : blocked_range2d) (im1 im2 im3 : irtkGenericImage) : result :=
  when (IsReduction vf) _irtkforeachternaryvoxelfunction_must_not_be_reduction ;;
  ParallelForEachVoxel_2d sch vf re im1 im2 im3.

Definition ParallelForEachVoxel_3d (sch : schedule) (vf : functor)
  (re : blocked_range3d) (im1 im2 im3 : irtkGenericImage) : result :=
  let b := body im1 im2 im3 in
  if IsReduction vf then
    Returns (parallel_reduce sch re (Body.run_3d b) Body_join) ;; vf_join
  else
    Returns (parallel_for sch re (Body.run_3d b)).

Definition ParallelForEachVoxel_3d_v (sch : schedule) (vf : functor)
  (re : blocked_range3d) (im1 im2 im3 : irtkGenericImage) : result :=
  when (IsReduction vf) _irtkforeachternaryvoxelfunction_must_not_be_reduction ;;
  ParallelForEachVoxel_3d sch vf re im1 im2 im3.

(* --------------------------------------------------------------------- *)
(** *** ParallelForEachVoxelIf *)

Definition ParallelForEachScalarIf (sch : schedule) (D : Domain) (vf of_ : functor)
  (im1 im2 im3 : irtkGenericImage) : result :=
  let b := ifbody im1 im2 im3 in
  let re := {| rbegin := 0; rend := GetNumberOfVoxels im3 |} in
  if IsReduction vf || IsReduction of_ then
    Returns (parallel_reduce sch re (IfBody.run_1d D b) IfBody_join) ;;
    vf_join ;;
    of_join
  else
    Returns (parallel_for sch re (IfBody.run_1d D b)).

Definition ParallelForEachScalarIf_v (sch : schedule) (D : Domain) (vf of_ : functor)
  (im1 im2 im3 : irtkGenericImage) : result :=
  when (IsReduction vf || IsReduction of_)
       _irtkforeachternaryvoxelfunction_must_not_be_reduction ;;
  ParallelForEachScalarIf sch D vf of_ im1 im2 im3.

Definition ParallelForEachScalarIf_nop (sch : schedule) (D : Domain) (vf : functor)
  (im1 im2 im3 : irtkGenericImage) : result :=
  let of_ := NOP in
  ParallelForEachScalarIf sch D vf of_ im1 im2 im3.

Definition ParallelForEachScalarIf_nop_v (sch : schedule) (D : Domain) (vf : functor)
  (im1 im2 im3 : irtkGenericImage) : result :=
  when (IsReduction vf) _irtkforeachternaryvoxelfunction_must_not_be_reduction ;;
  ParallelForEachScalarIf_nop sch D vf im1 im2 im3.

(** The first branch calls [ParallelForEachVoxelIf<Domain>(im1, im2, im3,
    vf, of)], which is this very overload; [fuel] bounds the depth of the
    recursion. *)
Fixpoint ParallelForEachVoxelIf (fuel : nat) (sch : schedule) (D : Domain)
  (vf of_ : functor) (im1 im2 im3 : irtkGenericImage) : result :=
  match fuel with
  | O => OutOfFuel
  | S fuel' =>
      if nonzero (GetTSize im3) then
        ParallelForEachVoxelIf fuel' sch D vf of_ im1 im2 im3
      else
        let b := ifbody im1 im2 im3 in
        match int_div (GetNumberOfVoxels im3) (GetT im3) with
        | None => Undefined []
        | Some n =>
            let re := {| rbegin := 0; rend := n |} in
            if IsReduction vf || IsReduction of_ then
              Returns (parallel_reduce sch re (IfBody.run_1d D b) IfBody_join) ;;
              vf_join ;;
              of_join
            else
              Returns (parallel_for sch re (IfBody.run_1d D b))
        end
  end.

Definition ParallelForEachVoxelIf_v (fuel : nat) (sch : schedule) (D : Domain)
  (vf of_ : functor) (im1 im2 im3 : irtkGenericImage) : result :=
  when (IsReduction vf || IsReduction of_)
       _irtkforeachternaryvoxelfunction_must_not_be_reduction ;;
  ParallelForEachVoxelIf fuel sch D vf of_ im1 im2 im3.

Definition ParallelForEachVoxelIf_nop (fuel : nat) (sch : schedule) (D : Domain)
  (vf : functor) (im1 im2 im3 : irtkGenericImage) : result :=
  let of_ := NOP in
  ParallelForEachVoxelIf fuel sch D vf of_ im1 im2 im3.

Definition ParallelForEachVoxelIf_nop_v (fuel : nat) (sch : schedule) (D : Domain)
  (vf : functor) (im1 im2 im3 : irtkGenericImage) : result :=
  when (IsReduction vf) _irtkforeachternaryvoxelfunction_must_not_be_reduction ;;
  ParallelForEachVoxelIf_nop fuel sch D vf im1 im2 im3.

Definition ParallelForEachVoxelIf_attr (sch : Z -> schedule) (D : Domain)
  (vf of_ : functor) (attr : irtkImageAttributes)
  (im1 im2 im3 : irtkGenericImage) : result :=
  let b := ifbody im1 im2 im3 in
  let re := {| pages := {| rbegin := 0; rend := _z attr |};
               rows := {| rbegin := 0; rend := _y attr |};
               cols := {| rbegin := 0; rend := _x attr |} |} in
  if IsReduction vf || IsReduction of_ then
    (if nonzero (_dt attr) then
       Returns (For 0 (_t attr) (fun l log =>
                  log ++ parallel_reduce (sch l) re (IfBody.run_3d D (if_set_l b l)) IfBody_join) [])
     else
       Returns (parallel_reduce (sch (IfBody._l b)) re (IfBody.run_3d D b) IfBody_join)) ;;
    vf_join ;;
    of_join
  else
    if nonzero (_dt attr) then
      Returns (For 0 (_t attr) (fun l log =>
                 log ++ parallel_for (sch l) re (IfBody.run_3d D (if_set_l b l))) [])
    else
      Returns (parallel_for (sch (IfBody._l b)) re (IfBody.run_3d D b)).

Definition ParallelForEachVoxelIf_attr_v (sch : Z -> schedule) (D : Domain)
  (vf of_ : functor) (attr : irtkImageAttributes)
  (im1 im2 im3 : irtkGenericImage) : result :=
  when (IsReduction vf || IsReduction of_)
       _irtkforeachternaryvoxelfunction_must_not_be_reduction ;;
  ParallelForEachVoxelIf_attr sch D vf of_ attr im1 im2 im3.

Definition ParallelForEachVoxelIf_attr_nop (sch : Z -> schedule) (D : Domain)
  (vf : functor) (attr : irtkImageAttributes)
  (im1 im2 im3 : irtkGenericImage) : result :=
  let of_ := NOP in
  ParallelForEachVoxelIf_attr sch D vf of_ attr im1 im2 im3.

Definition ParallelForEachVoxelIf_attr_nop_v (sch : Z -> schedule) (D : Domain)
  (vf : functor) (attr : irtkImageAttributes)
  (im1 im2 im3 : irtkGenericImage) : result :=
  when (IsReduction vf) _irtkforeachternaryvoxelfunction_must_not_be_reduction ;;
  ParallelForEachVoxelIf_attr_nop sch D vf attr im1 im2 im3.

Definition ParallelForEachVoxelIf_1d (sch : schedule) (D : Domain)
  (vf of_ : functor) (re : blocked_range) (im1 im2 im3 : irtkGenericImage) : result :=
  let b := ifbody im1 im2 im3 in
  if IsReduction vf || IsReduction of_ then
    Returns (parallel_reduce sch re (IfBody.run_1d D b) IfBody_join) ;;
    vf_join ;;
    of_join
  else
    Returns (parallel_for sch re (IfBody.run_1d D b)).

Definition ParallelForEachVoxelIf_1d_v (sch : schedule) (D : Domain)
  (vf of_ : functor) (re : blocked_range) (im1 im2 im3 : irtkGenericImage) : result :=
  when (IsReduction vf || IsReduction of_)
       _irtkforeachternaryvoxelfunction_must_not_be_reduction ;;
  ParallelForEachVoxelIf_1d sch D vf of_ re im1 im2 im3.

Definition ParallelForEachVoxelIf_1d_nop (sch : schedule) (D : Domain)
  (vf : functor) (re : blocked_range) (im1 im2 im3 : irtkGenericImage) : result :=
  let of_ := NOP in
  ParallelForEachVoxelIf_1d sch D vf of_ re im1 im2 im3.

Definition ParallelForEachVoxelIf_1d_nop_v (sch : schedule) (D : Domain)
  (vf : functor) (re : blocked_range) (im1 im2 im3 : irtkGenericImage) : result :=
  when (IsReduction vf) _irtkforeachternaryvoxelfunction_must_not_be_reduction ;;
  ParallelForEachVoxelIf_1d_nop sch D vf re im1 im2 im3.

Definition ParallelForEachVoxelIf_2d (sch : schedule) (D : Domain)
  (vf of_ : functor) (re : blocked_range2d) (im1 im2 im3 : irtkGenericImage) : result :=
  let b := ifbody im1 im2 im3 in
  if IsReduction vf || IsReduction of_ then
    Returns (parallel_reduce sch re (IfBody.run_2d D b) IfBody_join) ;;
    vf_join ;;
    of_join
  else
    Returns (parallel_for sch re (IfBody.run_2d D b)).

Definition ParallelForEachVoxelIf_2d_v (sch : schedule) (D : Domain)
  (vf of_ : functor) (re : blocked_range2d) (im1 im2 im3 : irtkGenericImage) : result :=
  when (IsReduction vf || IsReduction of_)
       _irtkforeachternaryvoxelfunction_must_not_be_reduction ;;
  ParallelForEachVoxelIf_2d sch D vf of_ re im1 im2 im3.

Definition ParallelForEachVoxelIf_2d_nop (sch : schedule) (D : Domain)
  (vf : functor) (re : blocked_range2d) (im1 im2 im3 : irtkGenericImage) : result :=
  let of_ := NOP in
  ParallelForEachVoxelIf_2d sch D vf of_ re im1 im2 im3.

Definition ParallelForEachVoxelIf_2d_nop_v (sch : schedule) (D : Domain)
  (vf : functor) (re : blocked_range2d) (im1 im2 im3 : irtkGenericImage) : result :=
  when (IsReduction vf) _irtkforeachternaryvoxelfunction_must_not_be_reduction ;;
  ParallelForEachVoxelIf_2d_nop sch D vf re im1 im2 im3.

Definition ParallelForEachVoxelIf_3d (sch : schedule) (D : Domain)
  (vf of_ : functor) (re : blocked_range3d) (im1 im2 im3 : irtkGenericImage) : result :=
  let b := ifbody im1 im2 im3 in
  if IsReduction vf || IsReduction of_ then
    Returns (parallel_reduce sch re (IfBody.run_3d D b) IfBody_join) ;;
    vf_join ;;
    of_join
  else
    Returns (parallel_for sch re (IfBody.run_3d D b)).

Definition ParallelForEachVoxelIf_3d_v (sch : schedule) (D : Domain)
  (vf of_ : functor) (re : blocked_range3d) (im1 im2 im3 : irtkGenericImage) : result :=
  when (IsReduction vf || IsReduction of_)
       _irtkforeachternaryvoxelfunction_must_not_be_reduction ;;
  ParallelForEachVoxelIf_3d sch D vf of_ re im1 im2 im3.

Definition ParallelForEachVoxelIf_3d_nop (sch : schedule) (D : Domain)
  (vf : functor) (re : blocked_range3d) (im1 im2 im3 : irtkGenericImage) : result :=
  let of_ := NOP in
  ParallelForEachVoxelIf_3d sch D vf of_ re im1 im2 im3.

Definition ParallelForEachVoxelIf_3d_nop_v (sch : schedule) (D : Domain)
  (vf : functor) (re : blocked_range3d) (im1 im2 im3 : irtkGenericImage) : result :=
  when (IsReduction vf) _irtkforeachternaryvoxelfunction_must_not_be_reduction ;;
  ParallelForEachVoxelIf_3d_nop sch D vf re im1 im2 im3.

End EntryPoints.
End ByReference.

(* ===================================================================== *)
(** ** Entry points, image arguments by pointer *)
(* ===================================================================== *)

(** An image pointer is taken to point to an image: the entry points
    dereference their image arguments unconditionally. A call written
    [F( *im1, *im2, *im3, ...)] in the source resolves to the overload of [F]
    that takes the images by reference. *)

Module ByPointer.
Section EntryPoints.

Variables init_k init_l : Z.

Definition body (im1 im2 im3 : irtkGenericImage) : Body.t :=
  ByReference.body init_k init_l im1 im2 im3.

Definition ifbody (im1 im2 im3 : irtkGenericImage) : IfBody.t :=
  ByReference.ifbody init_k init_l im1 im2 im3.

Definition vf_join : result := ByReference.vf_join.
Definition of_join : result := ByReference.of_join.

(* --------------------------------------------------------------------- *)
(** *** ForEachVoxel *)

Definition ForEachScalar (vf : functor) (im1 im2 im3 : irtkGenericImage) : result :=
  let re := {| rbegin := 0; rend := GetNumberOfVoxels im3 |} in
  run (Body.run_1d (body im1 im2 im3) re) ;;
  vf_join.

Definition ForEachScalar_v (vf : functor) (im1 im2 im3 : irtkGenericImage) : result :=
  when (IsReduction vf) _irtkforeachternaryvoxelfunction_must_not_be_reduction ;;
  ByReference.ForEachScalar init_k init_l vf im1 im2 im3.

Definition ForEachVoxel (vf : functor) (im1 im2 im3 : irtkGenericImage) : result :=
  if nonzero (GetTSize im3) then
    ByReference.ForEachScalar init_k init_l vf im1 im2 im3
  else
    match int_div (GetNumberOfVoxels im3) (GetT im3) with
    | None => Undefined []
    | Some n =>
        let re := {| rbegin := 0; rend := n |} in
        run (Body.run_1d (body im1 im2 im3) re) ;;
        vf_join
    end.

Definition ForEachVoxel_v (vf : functor) (im1 im2 im3 : irtkGenericImage) : result :=
  when (IsReduction vf) _irtkforeachternaryvoxelfunction_must_not_be_reduction ;;
  ByReference.ForEachVoxel init_k init_l vf im1 im2 im3.

Definition ForEachVoxel_attr (vf : functor) (attr : irtkImageAttributes)
  (im1 im2 im3 : irtkGenericImage) : result :=
  run (Body.run_attr (body im1 im2 im3) attr) ;;
  vf_join.

Definition ForEachVoxel_attr_v (vf : functor) (attr : irtkImageAttributes)
  (im1 im2 im3 : irtkGenericImage) : result :=
  when (IsReduction vf) _irtkforeachternaryvoxelfunction_must_not_be_reduction ;;
  ByReference.ForEachVoxel_attr init_k init_l vf attr im1 im2 im3.

Definition ForEachVoxel_1d (vf : functor) (re : blocked_range)
  (im1 im2 im3 : irtkGenericImage) : result :=
  run (Body.run_1d (body im1 im2 im3) re) ;;
  vf_join.

Definition ForEachVoxel_1d_v (vf : functor) (re : blocked_range)
  (im1 im2 im3 : irtkGenericImage) : result :=
  when (IsReduction vf) _irtkforeachternaryvoxelfunction_must_not_be_reduction ;;
  ByReference.ForEachVoxel_1d init_k init_l vf re im1 im2 im3.

Definition ForEachVoxel_2d (vf : functor) (re : blocked_range2d)
  (im1 im2 im3 : irtkGenericImage) : result :=
  run (Body.run_2d (body im1 im2 im3) re) ;;
  vf_join.

Definition ForEachVoxel_2d_v (vf : functor) (re : blocked_range2d)
  (im1 im2 im3 : irtkGenericImage) : result :=
  when (IsReduction vf) _irtkforeachternaryvoxelfunction_must_not_be_reduction ;;
  ByReference.ForEachVoxel_2d init_k init_l vf re im1 im2 im3.

Definition ForEachVoxel_3d (vf : functor) (re : blocked_range3d)
  (im1 im2 im3 : irtkGenericImage) : result :=
  run (Body.run_3d (body im1 im2 im3) re) ;;
  vf_join.

Definition ForEachVoxel_3d_v (vf : functor) (re : blocked_range3d)
  (im1 im2 im3 : irtkGenericImage) : result :=
  when (IsReduction vf) _irtkforeachternaryvoxelfunction_must_not_be_reduction ;;
  ByReference.ForEachVoxel_3d init_k init_l vf re im1 im2 im3.

(* --------------------------------------------------------------------- *)
(** *** ForEachVoxelIf *)

Definition ForEachScalarIf (D : Domain) (vf of_ : functor)
  (im1 im2 im3 : irtkGenericImage) : result :=
  let re := {| rbegin := 0; rend := GetNumberOfVoxels im3 |} in
  run (IfBody.run_1d D (ifbody im1 im2 im3) re) ;;
  vf_join ;;
  of_join.

Definition ForEachScalarIf_v (D : Domain) (vf of_ : functor)
  (im1 im2 im3 : irtkGenericImage) : result :=
  when (IsReduction vf || IsReduction of_)
       _irtkforeachternaryvoxelfunction_must_not_be_reduction ;;
  ByReference.ForEachScalarIf init_k init_l D vf of_ im1 im2 im3.

Definition ForEachScalarIf_nop (D : Domain) (vf : functor)
  (im1 im2 im3 : irtkGenericImage) : result :=
  let of_ := NOP in
  ByReference.ForEachScalarIf init_k init_l D vf of_ im1 im2 im3.

Definition ForEachScalarIf_nop_v (D : Domain) (vf : functor)
  (im1 im2 im3 : irtkGenericImage) : result :=
  when (IsReduction vf) _irtkforeachternaryvoxelfunction_must_not_be_reduction ;;
  ByReference.ForEachScalarIf_nop init_k init_l D vf im1 im2 im3.

Definition ForEachVoxelIf (D : Domain) (vf of_ : functor)
  (im1 im2 im3 : irtkGenericImage) : result :=
  if nonzero (GetTSize im3) then
    ByReference.ForEachScalarIf init_k init_l D vf of_ im1 im2 im3
  else
    match int_div (GetNumberOfVoxels im3) (GetT im3) with
    | None => Undefined []
    | Some n =>
        let re := {| rbegin := 0; rend := n |} in
        run (IfBody.run_1d D (ifbody im1 im2 im3) re) ;;
        vf_join ;;
        of_join
    end.

Definition ForEachVoxelIf_v (fuel : nat) (D : Domain) (vf of_ : functor)
  (im1 im2 im3 : irtkGenericImage) : result :=
  when (IsReduction vf || IsReduction of_)
       _irtkforeachternaryvoxelfunction_must_not_be_reduction ;;
  ByReference.ForEachVoxelIf init_k init_l fuel D vf of_ im1 im2 im3.

Definition ForEachVoxelIf_nop (fuel : nat) (D : Domain) (vf : functor)
  (im1 im2 im3 : irtkGenericImage) : result :=
  let of_ := NOP in
  ByReference.ForEachVoxelIf init_k init_l fuel D vf of_ im1 im2 im3.

Definition ForEachVoxelIf_nop_v (fuel : nat) (D : Domain) (vf : functor)
  (im1 im2 im3 : irtkGenericImage) : result :=
  when (IsReduction vf) _irtkforeachternaryvoxelfunction_must_not_be_reduction ;;
  ByReference.ForEachVoxelIf_nop init_k init_l fuel D vf im1 im2 im3.

Definition ForEachVoxelIf_attr (D : Domain) (vf of_ : functor)
  (attr : irtkImageAttributes) (im1 im2 im3 : irtkGenericImage) : result :=
  run (IfBody.run_attr D (ifbody im1 im2 im3) attr) ;;
  vf_join ;;
  of_join.

Definition ForEachVoxelIf_attr_v (D : Domain) (vf of_ : functor)
  (attr : irtkImageAttributes) (im1 im2 im3 : irtkGenericImage) : result :=
  when (IsReduction vf || IsReduction of_)
       _irtkforeachternaryvoxelfunction_must_not_be_reduction ;;
  ByReference.ForEachVoxelIf_attr init_k init_l D vf of_ attr im1 im2 im3.

Definition ForEachVoxelIf_attr_nop (D : Domain) (vf : functor)
  (attr : irtkImageAttributes) (im1 im2 im3 : irtkGenericImage) : result :=
  let of_ := NOP in
  ByReference.ForEachVoxelIf_attr init_k init_l D vf of_ attr im1 im2 im3.

Definition ForEachVoxelIf_attr_nop_v (D : Domain) (vf : functor)
  (attr : irtkImageAttributes) (im1 im2 im3 : irtkGenericImage) : result :=
  when (IsReduction vf) _irtkforeachternaryvoxelfunction_must_not_be_reduction ;;
  ByReference.ForEachVoxelIf_attr_nop init_k init_l D vf attr im1 im2 im3.

Definition ForEachVoxelIf_1d (D : Domain) (vf of_ : functor)
  (re : blocked_range) (im1 im2 im3 : irtkGenericImage) : result :=
  run (IfBody.run_1d D (ifbody im1 im2 im3) re) ;;
  vf_join ;;
  of_join.

Definition ForEachVoxelIf_1d_v (D : Domain) (vf of_ : functor)
  (re : blocked_range) (im1 im2 im3 : irtkGenericImage) : result :=
  when (IsReduction vf || IsReduction of_)
       _irtkforeachternaryvoxelfunction_must_not_be_reduction ;;
  ByReference.ForEachVoxelIf_1d init_k init_l D vf of_ re im1 im2 im3.

Definition ForEachVoxelIf_2d (D : Domain) (vf of_ : functor)
  (re : blocked_range2d) (im1 im2 im3 : irtkGenericImage) : result :=
  run (IfBody.run_2d D (ifbody im1 im2 im3) re) ;;
  vf_join ;;
  of_join.

Definition ForEachVoxelIf_2d_v (D : Domain) (vf of_ : functor)
  (re : blocked_range2d) (im1 im2 im3 : irtkGenericImage) : result :=
  when (IsReduction vf || IsReduction of_)
       _irtkforeachternaryvoxelfunction_must_not_be_reduction ;;
  ByReference.ForEachVoxelIf_2d init_k init_l D vf of_ re im1 im2 im3.

Definition ForEachVoxelIf_2d_nop (D : Domain) (vf : functor)
  (re : blocked_range2d) (im1 im2 im3 : irtkGenericImage) : result :=
  let of_ := NOP in
  ByReference.ForEachVoxelIf_2d init_k init_l D vf of_ re im1 im2 im3.

Definition ForEachVoxelIf_2d_nop_v (D : Domain) (vf : functor)
  (re : blocked_range2d) (im1 im2 im3 : irtkGenericImage) : result :=
  when (IsReduction vf) _irtkforeachternaryvoxelfunction_must_not_be_reduction ;;
  ByReference.ForEachVoxelIf_2d_nop init_k init_l D vf re im1 im2 im3.

Definition ForEachVoxelIf_3d (D : Domain) (vf of_ : functor)
  (re : blocked_range3d) (im1 im2 im3 : irtkGenericImage) : result :=
  run (IfBody.run_3d D (ifbody im1 im2 im3) re) ;;
  vf_join ;;
  of_join.

(** The source passes on the images and the functors and not [re]: the
    call is [ForEachVoxelIf<Domain>( *im1, *im2, *im3, vf, of)], which resolves
    to the overload without a range. *)
Definition ForEachVoxelIf_3d_v (fuel : nat) (D : Domain) (vf of_ : functor)
  (re : blocked_range3d) (im1 im2 im3 : irtkGenericImage) : result :=
  when (IsReduction vf || IsReduction of_)
       _irtkforeachternaryvoxelfunction_must_not_be_reduction ;;
  ByReference.ForEachVoxelIf init_k init_l fuel D vf of_ im1 im2 im3.

Definition ForEachVoxelIf_3d_nop (D : Domain) (vf : functor)
  (re : blocked_range3d) (im1 im2 im3 : irtkGenericImage) : result :=
  let of_ := NOP in
  ByReference.ForEachVoxelIf_3d init_k init_l D vf of_ re im1 im2 im3.

Definition ForEachVoxelIf_3d_nop_v (D : Domain) (vf : functor)
  (re : blocked_range3d) (im1 im2 im3 : irtkGenericImage) : result :=
  when (IsReduction vf) _irtkforeachternaryvoxelfunction_must_not_be_reduction ;;
  ByReference.ForEachVoxelIf_3d_nop init_k init_l D vf re im1 im2 im3.

(* --------------------------------------------------------------------- *)
(** *** ParallelForEachVoxel *)

Definition ParallelForEachScalar (sch : schedule) (vf : functor)
  (im1 im2 im3 : irtkGenericImage) : result :=
  let b := body im1 im2 im3 in
  let re := {| rbegin := 0; rend := GetNumberOfVoxels im3 |} in
  if IsReduction vf then
    Returns (parallel_reduce sch re (Body.run_1d b) Body_join) ;; vf_join
  else
    Returns (parallel_for sch re (Body.run_1d b)).

Definition ParallelForEachScalar_v (sch : schedule) (vf : functor)
  (im1 im2 im3 : irtkGenericImage) : result :=
  when (IsReduction vf) _irtkforeachternaryvoxelfunction_must_not_be_reduction ;;
  ByReference.ParallelForEachScalar init_k init_l sch vf im1 im2 im3.

Definition ParallelForEachVoxel (sch : schedule) (vf : functor)
  (im1 im2 im3 : irtkGenericImage) : result :=
  if nonzero (GetTSize im3) then
    ByReference.ParallelForEachScalar init_k init_l sch vf im1 im2 im3
  else
    let b := body im1 im2 im3 in
    match int_div (GetNumberOfVoxels im3) (GetT im3) with
    | None => Undefined []
    | Some n =>
        let re := {| rbegin := 0; rend := n |} in
        if IsReduction vf then
          Returns (parallel_reduce sch re (Body.run_1d b) Body_join) ;; vf_join
        else
          Returns (parallel_for sch re (Body.run_1d b))
    end.

Definition ParallelForEachVoxel_v (sch : schedule) (vf : functor)
  (im1 im2 im3 : irtkGenericImage) : result :=
  when (IsReduction vf) _irtkforeachternaryvoxelfunction_must_not_be_reduction ;;
  ByReference.ParallelForEachVoxel init_k init_l sch vf im1 im2 im3.

Definition ParallelForEachVoxel_attr (sch : Z -> schedule) (vf : functor)
  (attr : irtkImageAttributes) (im1 im2 im3 : irtkGenericImage) : result :=
  let b := body im1 im2 im3 in
  let re := {| pages := {| rbegin := 0; rend := _z attr |};
               rows := {| rbegin := 0; rend := _y attr |};
               cols := {| rbegin := 0; rend := _x attr |} |} in
  if IsReduction vf then
    (if nonzero (_dt attr) then
       Returns (For 0 (_t attr) (fun l log =>
                  log ++ parallel_reduce (sch l) re
                           (Body.run_3d (ByReference.set_l b l)) Body_join) [])
     else
       Returns (parallel_reduce (sch (Body._l b)) re (Body.run_3d b) Body_join)) ;;
    vf_join
  else
    if nonzero (_dt attr) then
      Returns (For 0 (_t attr) (fun l log =>
                 log ++ parallel_for (sch l) re (Body.run_3d (ByReference.set_l b l))) [])
    else
      Returns (parallel_for (sch (Body._l b)) re (Body.run_3d b)).

Definition ParallelForEachVoxel_attr_v (sch : Z -> schedule) (vf : functor)
  (attr : irtkImageAttributes) (im1 im2 im3 : irtkGenericImage) : result :=
  when (IsReduction vf) _irtkforeachternaryvoxelfunction_must_not_be_reduction ;;
  ByReference.ParallelForEachVoxel_attr init_k init_l sch vf attr im1 im2 im3.

Definition ParallelForEachVoxel_1d (sch : schedule) (vf : functor)
  (re : blocked_range) (im1 im2 im3 : irtkGenericImage) : result :=
  let b := body im1 im2 im3 in
  if IsReduction vf then
    Returns (parallel_reduce sch re (Body.run_1d b) Body_join) ;; vf_join
  else
    Returns (parallel_for sch re (Body.run_1d b)).

Definition ParallelForEachVoxel_1d_v (sch : schedule) (vf : functor)
  (re : blocked_range) (im1 im2 im3 : irtkGenericImage) : result :=
  when (IsReduction vf) _irtkforeachternaryvoxelfunction_must_not_be_reduction ;;
  ByReference.ParallelForEachVoxel_1d init_k init_l sch vf re im1 im2 im3.

Definition ParallelForEachVoxel_2d (sch : schedule) (vf : functor)
  (re : blocked_range2d) (im1 im2 im3 : irtkGenericImage) : result :=
  let b := body im1 im2 im3 in
  if IsReduction vf then
    Returns (parallel_reduce sch re (Body.run_2d b) Body_join) ;; vf_join
  else
    Returns (parallel_for sch re (Body.run_2d b)).

Definition ParallelForEachVoxel_2d_v (sch : schedule) (vf : functor)
  (re : blocked_range2d) (im1 im2 im3 : irtkGenericImage) : result :=
  when (IsReduction vf) _irtkforeachternaryvoxelfunction_must_not_be_reduction ;;
  ByReference.ParallelForEachVoxel_2d init_k init_l sch vf re im1 im2 im3.

Definition ParallelForEachVoxel_3d (sch : schedule) (vf : functor)
  (re : blocked_range3d) (im1 im2 im3 : irtkGenericImage) : result :=
  let b := body im1 im2 im3 in
  if IsReduction vf then
    Returns (parallel_reduce sch re (Body.run_3d b) Body_join) ;; vf_join
  else
    Returns (parallel_for sch re (Body.run_3d b)).

Definition ParallelForEachVoxel_3d_v (sch : schedule) (vf : functor)
  (re : blocked_range3d) (im1 im2 im3 : irtkGenericImage) : result :=
  when (IsReduction vf) _irtkforeachternaryvoxelfunction_must_not_be_reduction ;;
  ByReference.ParallelForEachVoxel_3d init_k init_l sch vf re im1 im2 im3.

(* --------------------------------------------------------------------- *)
(** *** ParallelForEachVoxelIf *)

Definition ParallelForEachScalarIf (sch : schedule) (D : Domain) (vf of_ : functor)
  (im1 im2 im3 : irtkGenericImage) : result :=
  let b := ifbody im1 im2 im3 in
  let re := {| rbegin := 0; rend := GetNumberOfVoxels im3 |} in
  if IsReduction vf || IsReduction of_ then
    Returns (parallel_reduce sch re (IfBody.run_1d D b) IfBody_join) ;;
    vf_join ;;
    of_join
  else
    Returns (parallel_for sch re (IfBody.run_1d D b)).

Definition ParallelForEachScalarIf_v (sch : schedule) (D : Domain) (vf of_ : functor)
  (im1 im2 im3 : irtkGenericImage) : result :=
  when (IsReduction vf || IsReduction of_)
       _irtkforeachternaryvoxelfunction_must_not_be_reduction ;;
  ByReference.ParallelForEachScalarIf init_k init_l sch D vf of_ im1 im2 im3.

Definition ParallelForEachScalarIf_nop (sch : schedule) (D : Domain) (vf : functor)
  (im1 im2 im3 : irtkGenericImage) : result :=
  let of_ := NOP in
  ByReference.ParallelForEachScalarIf init_k init_l sch D vf of_ im1 im2 im3.

Definition ParallelForEachScalarIf_nop_v (sch : schedule) (D : Domain) (vf : functor)
  (im1 im2 im3 : irtkGenericImage) : result :=
  when (IsReduction vf) _irtkforeachternaryvoxelfunction_must_not_be_reduction ;;
  ByReference.ParallelForEachScalarIf_nop init_k init_l sch D vf im1 im2 im3.

(** The first branch calls [ParallelForEachVoxelIf<Domain>( *im1, *im2,
    *im3, vf, of)], the overload taking the images by reference. *)
Definition ParallelForEachVoxelIf (fuel : nat) (sch : schedule) (D : Domain)
  (vf of_ : functor) (im1 im2 im3 : irtkGenericImage) : result :=
  if nonzero (GetTSize im3) then
    ByReference.ParallelForEachVoxelIf init_k init_l fuel sch D vf of_ im1 im2 im3
  else
    let b := ifbody im1 im2 im3 in
    match int_div (GetNumberOfVoxels im3) (GetT im3) with
    | None => Undefined []
    | Some n =>
        let re := {| rbegin := 0; rend := n |} in
        if IsReduction vf || IsReduction of_ then
          Returns (parallel_reduce sch re (IfBody.run_1d D b) IfBody_join) ;;
          vf_join ;;
          of_join
        else
          Returns (parallel_for sch re (IfBody.run_1d D b))
    end.

Definition ParallelForEachVoxelIf_v (fuel : nat) (sch : schedule) (D : Domain)
  (vf of_ : functor) (im1 im2 im3 : irtkGenericImage) : result :=
  when (IsReduction vf || IsReduction of_)
       _irtkforeachternaryvoxelfunction_must_not_be_reduction ;;
  ByReference.ParallelForEachVoxelIf init_k init_l fuel sch D vf of_ im1 im2 im3.

Definition ParallelForEachVoxelIf_nop (fuel : nat) (sch : schedule) (D : Domain)
  (vf : functor) (im1 im2 im3 : irtkGenericImage) : result :=
  let of_ := NOP in
  ByReference.ParallelForEachVoxelIf init_k init_l fuel sch D vf of_ im1 im2 im3.

Definition ParallelForEachVoxelIf_nop_v (fuel : nat) (sch : schedule) (D : Domain)
  (vf : functor) (im1 im2 im3 : irtkGenericImage) : result :=
  when (IsReduction vf) _irtkforeachternaryvoxelfunction_must_not_be_reduction ;;
  ByReference.ParallelForEachVoxelIf_nop init_k init_l fuel sch D vf im1 im2 im3.

Definition ParallelForEachVoxelIf_attr (sch : Z -> schedule) (D : Domain)
  (vf of_ : functor) (attr : irtkImageAttributes)
  (im1 im2 im3 : irtkGenericImage) : result :=
  let b := ifbody im1 im2 im3 in
  let re := {| pages := {| rbegin := 0; rend := _z attr |};
               rows := {| rbegin := 0; rend := _y attr |};
               cols := {| rbegin := 0; rend := _x attr |} |} in
  if IsReduction vf || IsReduction of_ then
    (if nonzero (_dt attr) then
       Returns (For 0 (_t attr) (fun l log =>
                  log ++ parallel_reduce (sch l) re
                           (IfBody.run_3d D (ByReference.if_set_l b l)) IfBody_join) [])
     else
       Returns (parallel_reduce (sch (IfBody._l b)) re (IfBody.run_3d D b) IfBody_join)) ;;
    vf_join ;;
    of_join
  else
    if nonzero (_dt attr) then
      Returns (For 0 (_t attr) (fun l log =>
                 log ++ parallel_for (sch l) re
                          (IfBody.run_3d D (ByReference.if_set_l b l))) [])
    else
      Returns (parallel_for (sch (IfBody._l b)) re (IfBody.run_3d D b)).

Definition ParallelForEachVoxelIf_attr_v (sch : Z -> schedule) (D : Domain)
  (vf of_ : functor) (attr : irtkImageAttributes)
  (im1 im2 im3 : irtkGenericImage) : result :=
  when (IsReduction vf || IsReduction of_)
       _irtkforeachternaryvoxelfunction_must_not_be_reduction ;;
  ByReference.ParallelForEachVoxelIf_attr init_k init_l sch D vf of_ attr im1 im2 im3.

Definition ParallelForEachVoxelIf_attr_nop (sch : Z -> schedule) (D : Domain)
  (vf : functor) (attr : irtkImageAttributes)
  (im1 im2 im3 : irtkGenericImage) : result :=
  let of_ := NOP in
  ByReference.ParallelForEachVoxelIf_attr init_k init_l sch D vf of_ attr im1 im2 im3.

Definition ParallelForEachVoxelIf_attr_nop_v (sch : Z -> schedule) (D : Domain)
  (vf : functor) (attr : irtkImageAttributes)
  (im1 im2 im3 : irtkGenericImage) : result :=
  when (IsReduction vf) _irtkforeachternaryvoxelfunction_must_not_be_reduction ;;
  ByReference.ParallelForEachVoxelIf_attr_nop init_k init_l sch D vf attr im1 im2 im3.

Definition ParallelForEachVoxelIf_1d (sch : schedule) (D : Domain)
  (vf of_ : functor) (re : blocked_range) (im1 im2 im3 : irtkGenericImage) : result :=
  let b := ifbody im1 im2 im3 in
  if IsReduction vf || IsReduction of_ then
    Returns (parallel_reduce sch re (IfBody.run_1d D b) IfBody_join) ;;
    vf_join ;;
    of_join
  else
    Returns (parallel_for sch re (IfBody.run_1d D b)).

Definition ParallelForEachVoxelIf_1d_v (sch : schedule) (D : Domain)
  (vf of_ : functor) (re : blocked_range) (im1 im2 im3 : irtkGenericImage) : result :=
  when (IsReduction vf || IsReduction of_)
       _irtkforeachternaryvoxelfunction_must_not_be_reduction ;;
  ByReference.ParallelForEachVoxelIf_1d init_k init_l sch D vf of_ re im1 im2 im3.

Definition ParallelForEachVoxelIf_1d_nop (sch : schedule) (D : Domain)
  (vf : functor) (re : blocked_range) (im1 im2 im3 : irtkGenericImage) : result :=
  let of_ := NOP in
  ByReference.ParallelForEachVoxelIf_1d init_k init_l sch D vf of_ re im1 im2 im3.

Definition ParallelForEachVoxelIf_1d_nop_v (sch : schedule) (D : Domain)
  (vf : functor) (re : blocked_range) (im1 im2 im3 : irtkGenericImage) : result :=
  when (IsReduction vf) _irtkforeachternaryvoxelfunction_must_not_be_reduction ;;
  ByReference.ParallelForEachVoxelIf_1d_nop init_k init_l sch D vf re im1 im2 im3.

Definition ParallelForEachVoxelIf_2d (sch : schedule) (D : Domain)
  (vf of_ : functor) (re : blocked_range2d) (im1 im2 im3 : irtkGenericImage) : result :=
  let b := ifbody im1 im2 im3 in
  if IsReduction vf || IsReduction of_ then
    Returns (parallel_reduce sch re (IfBody.run_2d D b) IfBody_join) ;;
    vf_join ;;
    of_join
  else
    Returns (parallel_for sch re (IfBody.run_2d D b)).

Definition ParallelForEachVoxelIf_2d_v (sch : schedule) (D : Domain)
  (vf of_ : functor) (re : blocked_range2d) (im1 im2 im3 : irtkGenericImage) : result :=
  when (IsReduction vf || IsReduction of_)
       _irtkforeachternaryvoxelfunction_must_not_be_reduction ;;
  ByReference.ParallelForEachVoxelIf_2d init_k init_l sch D vf of_ re im1 im2 im3.

Definition ParallelForEachVoxelIf_2d_nop (sch : schedule) (D : Domain)
  (vf : functor) (re : blocked_range2d) (im1 im2 im3 : irtkGenericImage) : result :=
  let of_ := NOP in
  ByReference.ParallelForEachVoxelIf_2d init_k init_l sch D vf of_ re im1 im2 im3.

Definition ParallelForEachVoxelIf_2d_nop_v (sch : schedule) (D : Domain)
  (vf : functor) (re : blocked_range2d) (im1 im2 im3 : irtkGenericImage) : result :=
  when (IsReduction vf) _irtkforeachternaryvoxelfunction_must_not_be_reduction ;;
  ByReference.ParallelForEachVoxelIf_2d_nop init_k init_l sch D vf re im1 im2 im3.

Definition ParallelForEachVoxelIf_3d (sch : schedule) (D : Domain)
  (vf of_ : functor) (re : blocked_range3d) (im1 im2 im3 : irtkGenericImage) : result :=
  let b := ifbody im1 im2 im3 in
  if IsReduction vf || IsReduction of_ then
    Returns (parallel_reduce sch re (IfBody.run_3d D b) IfBody_join) ;;
    vf_join ;;
    of_join
  else
    Returns (parallel_for sch re (IfBody.run_3d D b)).

Definition ParallelForEachVoxelIf_3d_v (sch : schedule) (D : Domain)
  (vf of_ : functor) (re : blocked_range3d) (im1 im2 im3 : irtkGenericImage) : result :=
  when (IsReduction vf || IsReduction of_)
       _irtkforeachternaryvoxelfunction_must_not_be_reduction ;;
  ByReference.ParallelForEachVoxelIf_3d init_k init_l sch D vf of_ re im1 im2 im3.

Definition ParallelForEachVoxelIf_3d_nop (sch : schedule) (D : Domain)
  (vf : functor) (re : blocked_range3d) (im1 im2 im3 : irtkGenericImage) : result :=
  let of_ := NOP in
  ByReference.ParallelForEachVoxelIf_3d init_k init_l sch D vf of_ re im1 im2 im3.

Definition ParallelForEachVoxelIf_3d_nop_v (sch : schedule) (D : Domain)
  (vf : functor) (re : blocked_range3d) (im1 im2 im3 : irtkGenericImage) : result :=
  when (IsReduction vf) _irtkforeachternaryvoxelfunction_must_not_be_reduction ;;
  ByReference.ParallelForEachVoxelIf_3d_nop init_k init_l sch D vf re im1 im2 im3.

End EntryPoints.
End ByPointer.


(* ===================================================================== *)
(** ** The gradient image filter *)
(* ===================================================================== *)

(** [irtkGradientImageFilter.cc]: [Initialize] and [Run] of
    [irtkGradientImageFilter<VoxelType>], the central-difference gradient of
    an image. The filter's arithmetic on [VoxelType] and on [double], the
    base class [irtkImageToImage] and the image class are not among the
    analysed sources; they are parameters of the embedding, so what is proved
    of the filter holds whatever they are. An image object is addressed by a
    number. [Get] has no value where the image class defines none, and a run
    that reads there is a [Fault]. *)

Module irtkGradientImageFilter.

(** The values of [_type] that have a [case] label in [Run], and every
    other [int]. *)
Inductive gradient_type :=
| GRADIENT_X
| GRADIENT_Y
| GRADIENT_Z
| GRADIENT_MAGNITUDE
| GRADIENT_VECTOR
| NORMALISED_GRADIENT_VECTOR
| unknown_type (n : Z).

(** The image objects by address, and the next address [new] hands out. *)
Record heap (image : Type) := {
  objects : nat -> image;
  next : nat
}.

Arguments objects {image}.
Arguments next {image}.

(** The members of the filter; a null pointer is [None]. *)
Record members (VoxelType : Type) := {
  _type : gradient_type;
  _UseVoxelSize : bool;
  _UseOrientation : bool;
  _Padding : VoxelType;
  _input : option nat;
  _output : option nat;
  _tmp : option nat
}.

Arguments _type {VoxelType}.
Arguments _UseVoxelSize {VoxelType}.
Arguments _UseOrientation {VoxelType}.
Arguments _Padding {VoxelType}.
Arguments _input {VoxelType}.
Arguments _output {VoxelType}.
Arguments _tmp {VoxelType}.

(** What the filter takes from outside the analysed sources: the
    arithmetic of its two numeric types, the image class, and the members of
    its base class. *)
Class Environment := {
  VoxelType : Type;
  double : Type;
  (** [a > b] on [VoxelType], and [(a - b) / n] in the arithmetic of
      [VoxelType], converted to [double]. *)
  greater : VoxelType -> VoxelType -> bool;
  difference_quotient : VoxelType -> VoxelType -> Z -> double;
  (** [0] and [1E-10] as [double], [d > .0], and [+], [*], [/], [sqrt]. *)
  zero : double;
  epsilon : double;
  positive : double -> bool;
  add : double -> double -> double;
  mul : double -> double -> double;
  div : double -> double -> double;
  sqrt : double -> double;
  (** An image object, and what the traversal engine knows of it: its
      attributes and whether it is empty. *)
  image : Type;
  meta : image -> irtkGenericImage;
  (** [im->Get(x, y, z)], which has a value where the image class defines
      one, and [im->PutAsDouble(x, y, z, t, v)], which leaves the attributes
      of the image as they are. *)
  Get : image -> Z -> Z -> Z -> option VoxelType;
  PutAsDouble : image -> Z -> Z -> Z -> Z -> double -> image;
  meta_PutAsDouble : forall im x y z t v, meta (PutAsDouble im x y z t v) = meta im;
  (** The voxel sizes of an image and the orientation matrix of its
      attributes. *)
  GetXSize : image -> double;
  GetYSize : image -> double;
  GetZSize : image -> double;
  GetWorldToImageOrientation : irtkImageAttributes -> Z -> Z -> double;
  (** [im->Initialize(attr)] and [im->Initialize(attr, t)], and a
      default-constructed image. *)
  image_Initialize : image -> irtkImageAttributes -> option Z -> image;
  new_image : image;
  (** [NameOfClass()] and [RequiresBuffering()] of the filter, which
      answer without changing anything, and [Finalize()] of the base class,
      which may change the filter and the images. *)
  NameOfClass : string;
  RequiresBuffering : bool;
  Finalize : members VoxelType -> heap image -> members VoxelType * heap image
}.

Section Filter.

Context {E : Environment}.

Definition memory : Type := heap image.

Definition t : Type := members VoxelType.

(** What a run does that is seen from outside: the lines of [Debug], the
    lines on [cerr], the voxels it puts, the call of [Finalize]. [Debug] of
    the base class is taken to write its line and do nothing else. *)
Inductive action :=
| Debug (msg : string)
| Stderr (msg : string)
| Put (p : nat) (x y z t : Z) (v : double)
| CallFinalize.

(** How a member function ends: it returns, or ends the program in
    [exit(status)], or reads a voxel that has no value. *)
Inductive outcome (A : Type) :=
| Done (a : A) (log : list action)
| Exit (status : Z) (log : list action)
| Fault (log : list action).

Arguments Done {A}.
Arguments Exit {A}.
Arguments Fault {A}.

Definition store (p : nat) (im : image) (m : memory) : memory :=
  {| objects := fun q => if Nat.eqb q p then im else objects m q; next := next m |}.

(** [new irtkGenericImage<VoxelType>] *)
Definition new (m : memory) : nat * memory :=
  (next m, {| objects := fun q => if Nat.eqb q (next m) then new_image else objects m q;
              next := S (next m) |}).

Definition same_pointer (p q : option nat) : bool :=
  match p, q with
  | Some a, Some b => Nat.eqb a b
  | None, None => true
  | _, _ => false
  end.

Definition Initialize (f : t) (m : memory) : outcome (t * memory) :=
  let log := [Debug "irtkImageToImage::Initialize"] in
  match _input f with
  | None => Exit 1 (log ++ [Stderr (NameOfClass ++ "::Run: Filter has no input")])
  | Some inp =>
  match _output f with
  | None => Exit 1 (log ++ [Stderr (NameOfClass ++ "::Run: Filter has no output")])
  | Some out =>
  if IsEmpty (meta (objects m inp)) then
    Exit 1 (log ++ [Stderr (NameOfClass ++ "::Run: Input is empty")])
  else if GetT (meta (objects m inp)) >? 1 then
    Exit 1 (log ++ [Stderr (NameOfClass ++ "::Run: Only implemented for images with t = 1")])
  else
    let '(f, m, log) :=
      if RequiresBuffering then
        let log := log ++ [Debug "irtkGradientImageFilter::Initialize: Filter requires buffering"] in
        if same_pointer (_input f) (_output f) then
          let log := log ++ [Debug "irtkGradientImageFilter::Initialize: Filter has internal buffer"] in
          let '(p, m) := new m in
          ({| _type := _type f; _UseVoxelSize := _UseVoxelSize f;
              _UseOrientation := _UseOrientation f; _Padding := _Padding f;
              _input := _input f; _output := Some p; _tmp := _output f |}, m, log)
        else
          let log := log ++ [Debug "irtkGradientImageFilter::Initialize: Filter has external buffer"] in
          ({| _type := _type f; _UseVoxelSize := _UseVoxelSize f;
              _UseOrientation := _UseOrientation f; _Padding := _Padding f;
              _input := _input f; _output := _output f; _tmp := None |}, m, log)
      else
        (f, m, log ++ [Debug "irtkGradientImageFilter::Initialize: Filter requires no buffering"]) in
    match _output f with
    | None => Fault log
    | Some out =>
        let attr := _attr (meta (objects m inp)) in
        match _type f with
        | GRADIENT_VECTOR | NORMALISED_GRADIENT_VECTOR =>
            Done (f, store out (image_Initialize (objects m out) attr (Some 3)) m) log
        | _ =>
            if negb (same_pointer (_input f) (_output f))
            then Done (f, store out (image_Initialize (objects m out) attr None) m) log
            else Done (f, m) log
        end
    end
  end end.

(** [c1 = c - 1; if (c1 < 0) c1 = 0;] and
    [c2 = c + 1; if (c2 > n - 1) c2 = n - 1;] *)
Definition lower (c : Z) : Z :=
  let c1 := c - 1 in if c1 <? 0 then 0 else c1.

Definition upper (n c : Z) : Z :=
  let c2 := c + 1 in if c2 >? n - 1 then n - 1 else c2.

(** One of the three derivatives: [get c] reads the voxel at [c] along
    the axis; the conditions of the [if] are evaluated from the left and only
    as far as needed. *)
Definition derivative (pad : VoxelType) (c1 c2 : Z) (get : Z -> option VoxelType)
  : option double :=
  if negb (c1 =? c2) then
    match get c2 with
    | None => None
    | Some a2 =>
        if greater a2 pad then
          match get c1 with
          | None => None
          | Some a1 =>
              if greater a1 pad then
                match get c2, get c1 with
                | Some b2, Some b1 => Some (difference_quotient b2 b1 (c2 - c1))
                | _, _ => None
                end
              else Some zero
          end
        else Some zero
    end
  else Some zero.

Definition vector := (double * double * double)%type.

(** [dx], [dy], [dz] at the voxel (x, y, z). *)
Definition differences (pad : VoxelType) (im : image) (x y z : Z) : option vector :=
  let x1 := lower x in let x2 := upper (GetX (meta im)) x in
  let y1 := lower y in let y2 := upper (GetY (meta im)) y in
  let z1 := lower z in let z2 := upper (GetZ (meta im)) z in
  match derivative pad x1 x2 (fun c => Get im c y z) with
  | None => None
  | Some dx =>
      match derivative pad y1 y2 (fun c => Get im x c z) with
      | None => None
      | Some dy =>
          match derivative pad z1 z2 (fun c => Get im x y c) with
          | None => None
          | Some dz => Some (dx, dy, dz)
          end
      end
  end.

(** [if (_UseVoxelSize) ...] *)
Definition voxel_size (f : t) (im : image) (d : vector) : vector :=
  let '(dx, dy, dz) := d in
  if _UseVoxelSize f then
    (if positive (GetXSize im) then div dx (GetXSize im) else dx,
     if positive (GetYSize im) then div dy (GetYSize im) else dy,
     if positive (GetZSize im) then div dz (GetZSize im) else dz)
  else d.

(** [if (_UseOrientation) ...] *)
Definition orientation (f : t) (R : Z -> Z -> double) (d : vector) : vector :=
  let '(di, dj, dk) := d in
  if _UseOrientation f then
    (add (add (mul di (R 0 0)) (mul dj (R 1 0))) (mul dk (R 2 0)),
     add (add (mul di (R 0 1)) (mul dj (R 1 1))) (mul dk (R 2 1)),
     add (add (mul di (R 0 2)) (mul dj (R 1 2))) (mul dk (R 2 2)))
  else d.

(** [switch (_type)]: the frames put and their values, in the order of
    the calls; [None] is the [default] label. *)
Definition components (f : t) (d : vector) : option (list (Z * double)) :=
  let '(dx, dy, dz) := d in
  match _type f with
  | GRADIENT_X => Some [(0, dx)]
  | GRADIENT_Y => Some [(0, dy)]
  | GRADIENT_Z => Some [(0, dz)]
  | GRADIENT_MAGNITUDE =>
      Some [(0, sqrt (add (add (mul dx dx) (mul dy dy)) (mul dz dz)))]
  | GRADIENT_VECTOR => Some [(0, dx); (1, dy); (2, dz)]
  | NORMALISED_GRADIENT_VECTOR =>
      let norm := sqrt (add (add (mul dx dx) (mul dy dy)) (mul dz dz)) in
      let dx := div dx (add norm epsilon) in
      let dy := div dy (add norm epsilon) in
      let dz := div dz (add norm epsilon) in
      Some [(0, dx); (1, dy); (2, dz)]
  | unknown_type _ => None
  end.

(** The body of the innermost loop. *)
Definition voxel (f : t) (inp out : nat) (R : Z -> Z -> double) (x y z : Z)
  (m : memory) (log : list action) : outcome memory :=
  match differences (_Padding f) (objects m inp) x y z with
  | None => Fault log
  | Some d =>
      match components f (orientation f R (voxel_size f (objects m inp) d)) with
      | None => Exit 1 (log ++ [Stderr (NameOfClass ++ "::Run: Unknown gradient computation")])
      | Some puts =>
          Done (fold_left (fun m '(t, v) =>
                            store out (PutAsDouble (objects m out) x y z t v) m) puts m)
               (log ++ map (fun '(t, v) => Put out x y z t v) puts)
      end
  end.

(** A statement after one that did not return is not run. *)
Definition next_statement {A : Type} (stmt : A -> list action -> outcome A)
  (o : outcome A) : outcome A :=
  match o with
  | Done a log => stmt a log
  | _ => o
  end.

(** The three loops of [Run]. What the loops do to an image is
    [PutAsDouble], which leaves its extents as they are, so the bounds the
    loops test are those at their start. *)
Definition loops (f : t) (inp out : nat) (R : Z -> Z -> double)
  (m : memory) (log : list action) : outcome memory :=
  let im := meta (objects m inp) in
  For 0 (GetZ im) (fun z =>
  For 0 (GetY im) (fun y =>
  For 0 (GetX im) (fun x =>
    next_statement (voxel f inp out R x y z)))) (Done m log).

Definition Run (f : t) (m : memory) : outcome (t * memory) :=
  match Initialize f m with
  | Done (f, m) log =>
      match _input f, _output f with
      | Some inp, Some out =>
          let attr := _attr (meta (objects m inp)) in
          let R := GetWorldToImageOrientation attr in
          match loops f inp out R m log with
          | Done m log => Done (Finalize f m) (log ++ [CallFinalize])
          | Exit s log => Exit s log
          | Fault log => Fault log
          end
      | _, _ => Fault log
      end
  | Exit s log => Exit s log
  | Fault log => Fault log
  end.

End Filter.

Arguments Done {E A}.
Arguments Exit {E A}.
Arguments Fault {E A}.

End irtkGradientImageFilter.

Module GradientFilter := irtkGradientImageFilter.

(* ===================================================================== *)
(** ** Vocabulary of the statements *)
(* ===================================================================== *)

(** [zseq b n] is [b; b+1; ...; b+n-1]. *)
Fixpoint zseq (b : Z) (n : nat) : list Z :=
  match n with
  | O => []
  | S n' => b :: zseq (b + 1) n'
  end.

(** The integers from [b] up to, not including, [e]; empty when [e <= b]. *)
Definition interval (b e : Z) : list Z := zseq b (Z.to_nat (e - b)).

(** The coordinate lists of a row, a plane, a volume and a box, each in
    the order x fastest, then y, z, t. *)
Definition row (j k l bi ei : Z) : list args :=
  map (fun i => Coord i j k l) (interval bi ei).

Definition plane (k l bj ej bi ei : Z) : list args :=
  flat_map (fun j => row j k l bi ei) (interval bj ej).

Definition volume (l bk ek bj ej bi ei : Z) : list args :=
  flat_map (fun k => plane k l bj ej bi ei) (interval bk ek).

Definition box (bl el bk ek bj ej bi ei : Z) : list args :=
  flat_map (fun l => volume l bk ek bj ej bi ei) (interval bl el).

(** Iteration order: [before a a'] when [a] comes first with t compared
    first, then z, y and x last; flat indices compare as integers. *)
Definition before (a a' : args) : Prop :=
  match a, a' with
  | Coord i j k l, Coord i' j' k' l' =>
      l < l' \/ (l = l' /\ (k < k' \/ (k = k' /\ (j < j' \/ (j = j' /\ i < i')))))
  | Index _ idx, Index _ idx' => idx < idx'
  | _, _ => False
  end.

(** [emits F d L]: from cursors [c], the loop fragment [F] makes the
    invocations [L c] and leaves the cursors [d] voxels further. *)
Definition emits (F : state -> state) (d : Z) (L : cursors -> list invocation) : Prop :=
  forall c log, F (c, log) = (advance d c, log ++ L c).

(** The cursors a traversal starts from: null for an empty image, and
    [first im] for any other image [im]. *)
Definition cursors_at (im1 im2 im3 : irtkGenericImage)
  (first : irtkGenericImage -> pointer) : cursors :=
  {| p1 := if IsEmpty im1 then NULL else first im1;
     p2 := if IsEmpty im2 then NULL else first im2;
     p3 := if IsEmpty im3 then NULL else first im3 |}.

Definition body_cursors (b : Body.t) (first : irtkGenericImage -> pointer) : cursors :=
  cursors_at (Body.im1 b) (Body.im2 b) (Body.im3 b) first.

(** The number of iterations of a loop from [b] to [e]. *)
Definition trips (b e : Z) : Z := Z.of_nat (Z.to_nat (e - b)).

(** The domain test the predicated body makes for a call with arguments
    [a]: on image [im] and pointer [p], in the form that matches [a]. *)
Definition inside (D : Domain) (im : irtkGenericImage) (a : args) (p : pointer) : bool :=
  match a with
  | Coord i j k l => IsInside D im i j k l p
  | Index _ idx => IsInsideIdx D im idx p
  end.

(** The same call, made on the inside functor when the test on [im] and
    the third cursor holds and on the outside functor otherwise. *)
Definition route (D : Domain) (im : irtkGenericImage) (inv : invocation) : invocation :=
  {| callee := if inside D im (arguments inv) (p3 (ptrs inv))
               then VoxelFunc else OutsideFunc;
     arguments := arguments inv;
     ptrs := ptrs inv |}.

(** The plain body over the images of a predicated body. *)
Definition plain (b : IfBody.t) : Body.t :=
  {| Body.im1 := IfBody.im1 b; Body.im2 := IfBody.im2 b; Body.im3 := IfBody.im3 b;
     Body._k := IfBody._k b; Body._l := IfBody._l b |}.

(** The states of the two bodies in step: same cursors, and the predicated
    log is the plain log routed. *)
Definition routed (D : Domain) (im : irtkGenericImage) (s s' : state) : Prop :=
  fst s' = fst s /\ snd s' = map (route D im) (snd s).

(** [tracked c0 st]: the cursors stand as many voxels after [c0] as calls
    were made, and so did they at each call. *)
Definition tracked (c0 : cursors) (st : state) : Prop :=
  fst st = advance (Z.of_nat (List.length (snd st))) c0 /\
  forall n inv, nth_error (snd st) n = Some inv -> ptrs inv = advance (Z.of_nat n) c0.

(** The functor calls of a log, in order. *)
Fixpoint invocations (log : list event) : list invocation :=
  match log with
  | [] => []
  | Invoke inv :: t => inv :: invocations t
  | _ :: t => invocations t
  end.

(** The [join] calls of a log, in order. *)
Fixpoint joins (log : list event) : list (functor_id * receiver) :=
  match log with
  | [] => []
  | Join f r :: t => (f, r) :: joins t
  | _ :: t => joins t
  end.

(** The log of a call that returned; empty for any other result. *)
Definition log_of (r : result) : list event :=
  match r with
  | Returns log => log
  | _ => []
  end.

(** The number of splits a schedule makes of a range, that is the number
    of pairs of sibling partitions. *)
Fixpoint forks {R : Type} `{Splittable R} (sch : schedule) (re : R) : nat :=
  match sch with
  | Run => 0
  | Fork axis m l r =>
      match split_at axis m re with
      | Some (re1, re2) => S (forks l re1 + forks r re2)
      | None => 0
      end
  end.

(** The number of elements of a pass without a range as C4 words it:
    per-scalar iteration, over totalVoxels / sizeT elements, when the temporal
    axis is genuine time (a nonzero temporal spacing), and whole-voxel
    iteration, over totalVoxels elements, when it is not. *)
Definition claimed_elements (im3 : irtkGenericImage) : Z :=
  if nonzero (GetTSize im3)
  then Z.quot (GetNumberOfVoxels im3) (GetT im3)
  else GetNumberOfVoxels im3.

(** The number of elements of a pass without a range in the program:
    totalVoxels with a nonzero temporal spacing, totalVoxels / sizeT with a
    zero one; the division is undefined for sizeT = 0. *)
Definition elements (im3 : irtkGenericImage) : option Z :=
  if nonzero (GetTSize im3)
  then Some (GetNumberOfVoxels im3)
  else int_div (GetNumberOfVoxels im3) (GetT im3).

(* ===================================================================== *)
(** ** Concrete inputs *)
(* ===================================================================== *)

(** A domain of 2 x 1 x 1 voxels with sizeT = 0 and temporal spacing 1. *)
Definition attr_no_frames : irtkImageAttributes :=
  {| _x := 2; _y := 1; _z := 1; _t := 0; _dt := 1 |}.

(** An image of 2 x 1 x 1 voxels, one frame, temporal spacing 1. *)
Definition image_2x1 : irtkGenericImage :=
  {| _attr := {| _x := 2; _y := 1; _z := 1; _t := 1; _dt := 1 |};
     _NumberOfVoxels := 2; _IsEmpty := false; _matrix := 1 |}.

(** The domain predicate that holds everywhere. *)
Definition Always : Domain :=
  {| IsInside := fun _ _ _ _ _ _ => true; IsInsideIdx := fun _ _ _ => true |}.

(** A domain of 2 x 1 x 1 voxels with sizeT = 0 and temporal spacing 0. *)
Definition attr_vector_no_frames : irtkImageAttributes :=
  {| _x := 2; _y := 1; _z := 1; _t := 0; _dt := 0 |}.

(** Images of 3 x 3 x 2 voxels, a body over three of them with
    [_k = 1] and [_l = 0], and a 2-D and a 3-D block inside them. *)
Definition image_3x3x2 (buffer : nat) : irtkGenericImage :=
  {| _attr := {| _x := 3; _y := 3; _z := 2; _t := 1; _dt := 0 |};
     _NumberOfVoxels := 18; _IsEmpty := false; _matrix := buffer |}.

Definition body_3x3x2 : Body.t :=
  ByReference.body 1 0 (image_3x3x2 1) (image_3x3x2 2) (image_3x3x2 3).

Definition block_2d : blocked_range2d :=
  {| rows2 := {| rbegin := 1; rend := 3 |}; cols2 := {| rbegin := 0; rend := 2 |} |}.

Definition block_3d : blocked_range3d :=
  {| pages := {| rbegin := 0; rend := 2 |};
     rows := {| rbegin := 1; rend := 3 |};
     cols := {| rbegin := 1; rend := 2 |} |}.

(** The two functor types there are, as far as the engine can tell. *)
Definition no_reduction : functor := {| IsReduction := false |}.
Definition reduction : functor := {| IsReduction := true |}.

(** A vector-valued image of 2 x 1 x 1 voxels: zero temporal spacing. *)
Definition image_vector_2x1 : irtkGenericImage :=
  {| _attr := {| _x := 2; _y := 1; _z := 1; _t := 1; _dt := 0 |};
     _NumberOfVoxels := 2; _IsEmpty := false; _matrix := 1 |}.

(** The 3-D range that holds the voxel (0, 0, 0) alone. *)
Definition first_voxel : blocked_range3d :=
  {| pages := {| rbegin := 0; rend := 1 |};
     rows := {| rbegin := 0; rend := 1 |};
     cols := {| rbegin := 0; rend := 1 |} |}.

(** Two frames of 2 x 1 x 1 voxels, as a time series and as vectors. *)
Definition image_series : irtkGenericImage :=
  {| _attr := {| _x := 2; _y := 1; _z := 1; _t := 2; _dt := 1 |};
     _NumberOfVoxels := 4; _IsEmpty := false; _matrix := 1 |}.

Definition image_vectors : irtkGenericImage :=
  {| _attr := {| _x := 2; _y := 1; _z := 1; _t := 2; _dt := 0 |};
     _NumberOfVoxels := 4; _IsEmpty := false; _matrix := 1 |}.

(** An empty image, and the linear range of the first two elements. *)
Definition image_empty : irtkGenericImage :=
  {| _attr := {| _x := 0; _y := 0; _z := 0; _t := 0; _dt := 1 |};
     _NumberOfVoxels := 0; _IsEmpty := true; _matrix := 0 |}.

Definition two_elements : blocked_range := {| rbegin := 0; rend := 2 |}.


(* ===================================================================== *)
(** ** Vocabulary of the further properties *)
(* ===================================================================== *)

(** A functor call on the inside functor, and the call the predicated
    body makes in its place: on the inside functor when the domain test on
    [im] and the third cursor holds and on the outside functor otherwise. *)
Definition plain_call (a : args) (c : cursors) : invocation :=
  {| callee := VoxelFunc; arguments := a; ptrs := c |}.



(** How far the cursors of a range traversal that started at the voxel
    (bi, bj, bk) stand from their start at the call for [a]: rows are the
    width of [im] apart and pages its width times its height. *)
Definition range_position (im : irtkGenericImage) (bi bj bk : Z) (a : args) : Z :=
  match a with
  | Coord i j k l => (k - bk) * (GetY im * GetX im) + (j - bj) * GetX im + (i - bi)
  | Index _ idx => idx
  end.

(** The result of a sequential pass that returned: its functor calls,
    then one [join] on the caller's functor, or on the caller's inside and
    outside functor. *)
Definition joined_once (calls : list invocation) : result :=
  Returns (map Invoke calls ++ [Join VoxelFunc CallersFunctor]).

Definition joined_both (calls : list invocation) : result :=
  Returns (map Invoke calls
           ++ [Join VoxelFunc CallersFunctor; Join OutsideFunc CallersFunctor]).

(** The result of a parallel pass that returned. With a reduction: the
    log of [parallel_reduce], then one [join] on the caller's functor(s).
    Without: the log of [parallel_for]. *)
Definition scheduled_once {R : Type} `{Splittable R} (reduction : bool)
  (sch : schedule) (re : R) (body : R -> list invocation) : result :=
  Returns (if reduction
           then parallel_reduce sch re body Body_join ++ [Join VoxelFunc CallersFunctor]
           else parallel_for sch re body).

Definition scheduled_both {R : Type} `{Splittable R} (reduction : bool)
  (sch : schedule) (re : R) (body : R -> list invocation) : result :=
  Returns (if reduction
           then parallel_reduce sch re body IfBody_join
                ++ [Join VoxelFunc CallersFunctor; Join OutsideFunc CallersFunctor]
           else parallel_for sch re body).

(** The same for a pass that calls the scheduler once per frame of
    [frames], with the body's [_l] set to the frame. *)
Definition scheduled_frames_once {R : Type} `{Splittable R} (reduction : bool)
  (sch : Z -> schedule) (re : R) (body : Z -> R -> list invocation) (frames : list Z)
  : result :=
  Returns (if reduction
           then flat_map (fun l => parallel_reduce (sch l) re (body l) Body_join) frames
                ++ [Join VoxelFunc CallersFunctor]
           else flat_map (fun l => parallel_for (sch l) re (body l)) frames).

Definition scheduled_frames_both {R : Type} `{Splittable R} (reduction : bool)
  (sch : Z -> schedule) (re : R) (body : Z -> R -> list invocation) (frames : list Z)
  : result :=
  Returns (if reduction
           then flat_map (fun l => parallel_reduce (sch l) re (body l) IfBody_join) frames
                ++ [Join VoxelFunc CallersFunctor; Join OutsideFunc CallersFunctor]
           else flat_map (fun l => parallel_for (sch l) re (body l)) frames).

(** A pass without a range: the pass over the elements of the last image,
    or the division by zero. *)
Definition over_elements (im3 : irtkGenericImage) (pass : blocked_range -> result) : result :=
  match elements im3 with
  | Some n => pass {| rbegin := 0; rend := n |}
  | None => Undefined []
  end.

(** The range [0, z) x [0, y) x [0, x) of the attributes, and the frames
    a whole-domain parallel pass goes through when the body starts with
    [_l = l0]. *)
Definition full_range (attr : irtkImageAttributes) : blocked_range3d :=
  {| pages := {| rbegin := 0; rend := _z attr |};
     rows := {| rbegin := 0; rend := _y attr |};
     cols := {| rbegin := 0; rend := _x attr |} |}.

Definition frames_of (attr : irtkImageAttributes) (l0 : Z) : list Z :=
  if nonzero (_dt attr) then interval 0 (_t attr) else [l0].

(** The functor call for the arguments [a] with every cursor on the voxel
    that [a] names in its image: voxel (i, j, k, l) for the coordinate form,
    element [idx] of the buffer for the flat-index form. *)
Definition call_at (im1 im2 im3 : irtkGenericImage) (a : args) : invocation :=
  let at_ (im : irtkGenericImage) :=
    match a with
    | Coord i j k l => GetPointerToVoxelsAt im i j k l
    | Index _ idx => ptr_add (GetPointerToVoxels im) idx
    end in
  {| callee := VoxelFunc; arguments := a;
     ptrs := {| p1 := at_ im1; p2 := at_ im2; p3 := at_ im3 |} |}.

(** The coordinates of a 2-D range in the slice [k], [l] and of a 3-D range
    in the frame [l], in the order x fastest. *)
Definition coords2 (k l : Z) (re : blocked_range2d) : list args :=
  plane k l (rbegin (rows2 re)) (rend (rows2 re)) (rbegin (cols2 re)) (rend (cols2 re)).

Definition coords3 (l : Z) (re : blocked_range3d) : list args :=
  volume l (rbegin (pages re)) (rend (pages re)) (rbegin (rows re)) (rend (rows re))
         (rbegin (cols re)) (rend (cols re)).

(** The image has the x, y and z extents of the attributes. *)
Definition same_extents (im : irtkGenericImage) (attr : irtkImageAttributes) : Prop :=
  GetX im = _x attr /\ GetY im = _y attr /\ GetZ im = _z attr.

(** The events of a log that are functor calls on [f]. *)
Definition calls_on (f : functor_id) (l : list invocation) : list invocation :=
  filter (fun inv => match callee inv, f with
                     | VoxelFunc, VoxelFunc | OutsideFunc, OutsideFunc => true
                     | _, _ => false
                     end) l.

(** The domain test of the predicated body at the call [inv] of the plain
    body, and the call [inv] made on the outside functor. *)
Definition tested (D : Domain) (im : irtkGenericImage) (inv : invocation) : bool :=
  inside D im (arguments inv) (p3 (ptrs inv)).

Definition to_outside (inv : invocation) : invocation :=
  {| callee := OutsideFunc; arguments := arguments inv; ptrs := ptrs inv |}.

(** The domain predicate that holds nowhere. *)
Definition Never : Domain :=
  {| IsInside := fun _ _ _ _ _ _ => false; IsInsideIdx := fun _ _ _ => false |}.

(** Three images of 2 x 2 x 1 voxels in 2 frames, as a time series. *)
Definition image_2x2_series (buffer : nat) : irtkGenericImage :=
  {| _attr := {| _x := 2; _y := 2; _z := 1; _t := 2; _dt := 1 |};
     _NumberOfVoxels := 8; _IsEmpty := false; _matrix := buffer |}.

(** A schedule that splits the columns at 1, and one that splits the pages
    at 1 and then the rows of the first part at 2. *)
Definition cols_first : schedule := Fork 2 1 Run Run.

Definition pages_then_rows : schedule := Fork 0 1 (Fork 1 2 Run Run) Run.

(* --------------------------------------------------------------------- *)
(** *** The gradient image filter *)

Section GradientVocabulary.

Context {E : GradientFilter.Environment}.

(** The difference quotient of the values [v c2] and [v c1] of two
    neighbours along an axis: zero when the two are the same voxel or when one
    of them is not above the padding value. *)
Definition slope (pad : GradientFilter.VoxelType) (c1 c2 : Z)
  (v : Z -> GradientFilter.VoxelType) : GradientFilter.double :=
  if negb (c1 =? c2) && GradientFilter.greater (v c2) pad && GradientFilter.greater (v c1) pad
  then GradientFilter.difference_quotient (v c2) (v c1) (c2 - c1)
  else GradientFilter.zero.

(** The input [im] has the value [v x y z] at every voxel inside its
    extents. *)
Definition readable (im : GradientFilter.image)
  (v : Z -> Z -> Z -> GradientFilter.VoxelType) : Prop :=
  forall x y z,
    0 <= x < GetX (GradientFilter.meta im) -> 0 <= y < GetY (GradientFilter.meta im) ->
    0 <= z < GetZ (GradientFilter.meta im) ->
    GradientFilter.Get im x y z = Some (v x y z).

(** The three difference quotients at (x, y, z) of an image of values [v],
    between the neighbours one voxel down and one voxel up along each axis,
    the voxel itself standing in for a neighbour outside the image. *)
Definition gradient (pad : GradientFilter.VoxelType) (im : GradientFilter.image)
  (v : Z -> Z -> Z -> GradientFilter.VoxelType) (x y z : Z) : GradientFilter.vector :=
  (slope pad (Z.max 0 (x - 1)) (Z.min (GetX (GradientFilter.meta im) - 1) (x + 1))
         (fun c => v c y z),
   slope pad (Z.max 0 (y - 1)) (Z.min (GetY (GradientFilter.meta im) - 1) (y + 1))
         (fun c => v x c z),
   slope pad (Z.max 0 (z - 1)) (Z.min (GetZ (GradientFilter.meta im) - 1) (z + 1))
         (fun c => v x y c)).

(** The values the filter [f] writes for a voxel of the image [im] whose
    difference quotients are [d], with the frames they go to. Each quotient is
    divided by the voxel size along its axis when [f] uses voxel sizes and the
    size is positive; the three are then multiplied by the orientation matrix
    of the image when [f] uses the orientation; the type of [f] selects one of
    them, their Euclidean norm, the three, or the three divided by the norm
    plus [1E-10]. An unknown type writes nothing. *)
Definition written (f : GradientFilter.t) (im : GradientFilter.image)
  (d : GradientFilter.vector) : list (Z * GradientFilter.double) :=
  let '(dx, dy, dz) := d in
  let scaled := fun q size =>
    if GradientFilter._UseVoxelSize f && GradientFilter.positive size
    then GradientFilter.div q size else q in
  let sx := scaled dx (GradientFilter.GetXSize im) in
  let sy := scaled dy (GradientFilter.GetYSize im) in
  let sz := scaled dz (GradientFilter.GetZSize im) in
  let R := GradientFilter.GetWorldToImageOrientation (_attr (GradientFilter.meta im)) in
  let rotated := fun c own =>
    if GradientFilter._UseOrientation f
    then GradientFilter.add
           (GradientFilter.add (GradientFilter.mul sx (R 0 c)) (GradientFilter.mul sy (R 1 c)))
           (GradientFilter.mul sz (R 2 c))
    else own in
  let gx := rotated 0 sx in
  let gy := rotated 1 sy in
  let gz := rotated 2 sz in
  let norm := GradientFilter.sqrt
                (GradientFilter.add
                   (GradientFilter.add (GradientFilter.mul gx gx) (GradientFilter.mul gy gy))
                   (GradientFilter.mul gz gz)) in
  let unit := fun q => GradientFilter.div q (GradientFilter.add norm GradientFilter.epsilon) in
  match GradientFilter._type f with
  | GradientFilter.GRADIENT_X => [(0, gx)]
  | GradientFilter.GRADIENT_Y => [(0, gy)]
  | GradientFilter.GRADIENT_Z => [(0, gz)]
  | GradientFilter.GRADIENT_MAGNITUDE => [(0, norm)]
  | GradientFilter.GRADIENT_VECTOR => [(0, gx); (1, gy); (2, gz)]
  | GradientFilter.NORMALISED_GRADIENT_VECTOR => [(0, unit gx); (1, unit gy); (2, unit gz)]
  | GradientFilter.unknown_type _ => []
  end.

(** The calls of [PutAsDouble] for the voxel (x, y, z) of the input [im]
    of values [v], on the output at [out]. *)
Definition puts_at (f : GradientFilter.t) (im : GradientFilter.image)
  (v : Z -> Z -> Z -> GradientFilter.VoxelType) (out : nat) (x y z : Z)
  : list GradientFilter.action :=
  map (fun '(t, d) => GradientFilter.Put out x y z t d)
      (written f im (gradient (GradientFilter._Padding f) im v x y z)).

(** The calls of [PutAsDouble] of a whole run, in the order z, y, x with x
    fastest. *)
Definition puts_of (f : GradientFilter.t) (im : GradientFilter.image)
  (v : Z -> Z -> Z -> GradientFilter.VoxelType) (out : nat) : list GradientFilter.action :=
  flat_map (fun z => flat_map (fun y => flat_map (fun x => puts_at f im v out x y z)
    (interval 0 (GetX (GradientFilter.meta im))))
    (interval 0 (GetY (GradientFilter.meta im))))
    (interval 0 (GetZ (GradientFilter.meta im))).

(** The type of the filter has a [case] label in [Run]. *)
Definition known_type (f : GradientFilter.t) : Prop :=
  forall n, GradientFilter._type f <> GradientFilter.unknown_type n.

(** The line of [Debug] every [Initialize] starts with, and the result of
    a refused [Initialize]. *)
Definition started : list GradientFilter.action :=
  [GradientFilter.Debug "irtkImageToImage::Initialize"].

Definition refused {A : Type} (msg : string) : GradientFilter.outcome A :=
  GradientFilter.Exit 1
    (started ++ [GradientFilter.Stderr (GradientFilter.NameOfClass ++ msg)]).


(** What the loops of [Run] keep of the memory [m0] they start from:
    every image but the output, and the next free address. *)
Definition kept (out : nat) (m0 m : GradientFilter.memory) : Prop :=
  (forall p, p <> out -> GradientFilter.objects m p = GradientFilter.objects m0 p) /\
  GradientFilter.next m = GradientFilter.next m0.

(** The number of frames a filter of a known type writes. *)
Definition frames (f : GradientFilter.t) : Z :=
  match GradientFilter._type f with
  | GradientFilter.GRADIENT_VECTOR | GradientFilter.NORMALISED_GRADIENT_VECTOR => 3
  | _ => 1
  end.

End GradientVocabulary.

(** An environment on integers, to run the filter on: voxels and [double]
    are integers, the quotients truncate, an image is its attributes and its
    values at (x, y, z, t), [Get] reads frame 0 inside the extents, every
    voxel has size 1 and the orientation is the identity; buffering is asked
    for, and [Finalize] copies an internal buffer back into the caller's
    image. *)
#[local] Instance integers : GradientFilter.Environment := {|
  GradientFilter.VoxelType := Z;
  GradientFilter.double := Z;
  GradientFilter.greater := Z.gtb;
  GradientFilter.difference_quotient := fun a b n => Z.quot (a - b) n;
  GradientFilter.zero := 0;
  GradientFilter.epsilon := 0;
  GradientFilter.positive := fun d => 0 <? d;
  GradientFilter.add := Z.add;
  GradientFilter.mul := Z.mul;
  GradientFilter.div := Z.quot;
  GradientFilter.sqrt := Z.sqrt;
  GradientFilter.image := (irtkGenericImage * (Z -> Z -> Z -> Z -> Z))%type;
  GradientFilter.meta := fst;
  GradientFilter.Get := fun im x y z =>
    if (0 <=? x) && (x <? GetX (fst im)) && (0 <=? y) && (y <? GetY (fst im))
       && (0 <=? z) && (z <? GetZ (fst im)) && (0 <? GetT (fst im))
    then Some (snd im x y z 0) else None;
  GradientFilter.PutAsDouble := fun im x y z t v =>
    (fst im, fun x' y' z' t' =>
               if (x' =? x) && (y' =? y) && (z' =? z) && (t' =? t)
               then v else snd im x' y' z' t');
  GradientFilter.meta_PutAsDouble := fun _ _ _ _ _ _ => eq_refl;
  GradientFilter.GetXSize := fun _ => 1;
  GradientFilter.GetYSize := fun _ => 1;
  GradientFilter.GetZSize := fun _ => 1;
  GradientFilter.GetWorldToImageOrientation := fun _ i j => if i =? j then 1 else 0;
  GradientFilter.image_Initialize := fun im attr t =>
    ({| _attr := {| _x := _x attr; _y := _y attr; _z := _z attr;
                    _t := match t with Some n => n | None => _t attr end;
                    _dt := _dt attr |};
        _NumberOfVoxels := _NumberOfVoxels (fst im);
        _IsEmpty := false; _matrix := _matrix (fst im) |},
     fun _ _ _ _ => 0);
  GradientFilter.new_image := (image_empty, fun _ _ _ _ => 0);
  GradientFilter.NameOfClass := "irtkGradientImageFilter";
  GradientFilter.RequiresBuffering := true;
  GradientFilter.Finalize := fun f m =>
    match GradientFilter._tmp f, GradientFilter._output f with
    | Some p, Some o =>
        ({| GradientFilter._type := GradientFilter._type f;
            GradientFilter._UseVoxelSize := GradientFilter._UseVoxelSize f;
            GradientFilter._UseOrientation := GradientFilter._UseOrientation f;
            GradientFilter._Padding := GradientFilter._Padding f;
            GradientFilter._input := GradientFilter._input f;
            GradientFilter._output := Some p;
            GradientFilter._tmp := None |},
         {| GradientFilter.objects := fun q =>
              if Nat.eqb q p then GradientFilter.objects m o else GradientFilter.objects m q;
            GradientFilter.next := GradientFilter.next m |})
    | _, _ => (f, m)
    end
|}.

(** A row of three voxels with the values 1, 4, 9, at address 0 of a
    memory whose next free address is 1. *)
Definition values_row (x y z : Z) : Z := (x + 1) * (x + 1).

Definition image_row : GradientFilter.image :=
  ({| _attr := {| _x := 3; _y := 1; _z := 1; _t := 1; _dt := 0 |};
      _NumberOfVoxels := 3; _IsEmpty := false; _matrix := 0 |},
   fun x y z _ => values_row x y z).

Definition memory_row : GradientFilter.memory :=
  {| GradientFilter.objects := fun _ => image_row; GradientFilter.next := 1 |}.

(** A filter of the given type, run in place on the image at address 0,
    with padding value 0 and neither voxel size nor orientation. *)
Definition filter_in_place (type : GradientFilter.gradient_type) : GradientFilter.t :=
  {| GradientFilter._type := type;
     GradientFilter._UseVoxelSize := false;
     GradientFilter._UseOrientation := false;
     GradientFilter._Padding := 0;
     GradientFilter._input := Some 0%nat;
     GradientFilter._output := Some 0%nat;
     GradientFilter._tmp := None |}.

(** The same filter after [Initialize]: its output is the new image at
    address 1, initialised with the attributes of the input, and the caller's
    image is kept in [_tmp]. *)
Definition filter_buffered (type : GradientFilter.gradient_type) : GradientFilter.t :=
  {| GradientFilter._type := type;
     GradientFilter._UseVoxelSize := false;
     GradientFilter._UseOrientation := false;
     GradientFilter._Padding := 0;
     GradientFilter._input := Some 0%nat;
     GradientFilter._output := Some 1%nat;
     GradientFilter._tmp := Some 0%nat |}.

Definition memory_buffered : GradientFilter.memory :=
  GradientFilter.store 1
    (GradientFilter.image_Initialize GradientFilter.new_image
       (_attr (GradientFilter.meta image_row)) None)
    (snd (GradientFilter.new memory_row)).

Definition log_buffered : list GradientFilter.action :=
  [GradientFilter.Debug "irtkImageToImage::Initialize";
   GradientFilter.Debug "irtkGradientImageFilter::Initialize: Filter requires buffering";
   GradientFilter.Debug "irtkGradientImageFilter::Initialize: Filter has internal buffer"].

(* ===================================================================== *)
(** ** Lemmas on lists *)
(* ===================================================================== *)

Lemma in_zseq (n : nat) : forall b i, In i (zseq b n) <-> b <= i < b + Z.of_nat n.
Proof.
  induction n as [|n IH]; intros b i; simpl zseq.
  - simpl. lia.
  - simpl In. rewrite IH. lia.
Qed.

Lemma in_interval (b e i : Z) : In i (interval b e) <-> b <= i < e.
Proof. unfold interval. rewrite in_zseq. lia. Qed.

Lemma length_zseq (n : nat) : forall b, List.length (zseq b n) = n.
Proof. induction n; intros; simpl; auto. Qed.

Lemma sorted_zseq (n : nat) : forall b, StronglySorted Z.lt (zseq b n).
Proof.
  induction n as [|n IH]; intros b; simpl; constructor.
  - apply IH.
  - apply Forall_forall. intros i Hi. apply in_zseq in Hi. lia.
Qed.

Lemma sorted_interval (b e : Z) : StronglySorted Z.lt (interval b e).
Proof. apply sorted_zseq. Qed.

Lemma interval_empty (b e : Z) : e <= b -> interval b e = [].
Proof.
  intros H. unfold interval. replace (Z.to_nat (e - b)) with O by lia. reflexivity.
Qed.

Lemma map_flat_map {A B C : Type} (f : B -> C) (g : A -> list B) (l : list A) :
  map f (flat_map g l) = flat_map (fun a => map f (g a)) l.
Proof.
  induction l as [|a l IH]; simpl; [reflexivity|].
  now rewrite map_app, IH.
Qed.

Lemma flat_map_single {A B : Type} (f : A -> B) (l : list A) :
  flat_map (fun a => [f a]) l = map f l.
Proof. induction l; simpl; congruence. Qed.

Lemma flat_map_ext_in {A B : Type} (f g : A -> list B) (l : list A) :
  (forall a, In a l -> f a = g a) -> flat_map f l = flat_map g l.
Proof.
  induction l as [|a l IH]; simpl; intros H; [reflexivity|].
  rewrite H by auto. rewrite IH; auto.
Qed.

Lemma sorted_app {A : Type} (R : A -> A -> Prop) (l1 l2 : list A) :
  StronglySorted R l1 -> StronglySorted R l2 ->
  (forall x y, In x l1 -> In y l2 -> R x y) ->
  StronglySorted R (l1 ++ l2).
Proof.
  induction l1 as [|a l1 IH]; simpl; intros H1 H2 H; [assumption|].
  inversion H1 as [|? ? Hs Hf]; subst. constructor.
  - apply IH; auto.
  - apply Forall_app. split; [assumption|].
    apply Forall_forall. intros y Hy. apply H; auto.
Qed.

(** Blocks laid out one after the other are sorted when each block is and
    every element of an earlier block precedes every element of a later one. *)
Lemma sorted_flat_map {A B : Type} (lt : A -> A -> Prop) (R : B -> B -> Prop)
  (f : A -> list B) (l : list A) :
  StronglySorted lt l ->
  (forall a, In a l -> StronglySorted R (f a)) ->
  (forall a a' x x', lt a a' -> In x (f a) -> In x' (f a') -> R x x') ->
  StronglySorted R (flat_map f l).
Proof.
  induction 1 as [|a l Hs IH Hf]; simpl; intros Hblock Hcross; [constructor|].
  apply sorted_app.
  - apply Hblock. now left.
  - apply IH; auto.
  - intros x y Hx Hy. apply in_flat_map in Hy as (a' & Ha' & Hy).
    rewrite Forall_forall in Hf. eapply Hcross; eauto.
Qed.

Lemma sorted_map {A B : Type} (lt : A -> A -> Prop) (R : B -> B -> Prop)
  (f : A -> B) (l : list A) :
  (forall a a', lt a a' -> R (f a) (f a')) ->
  StronglySorted lt l -> StronglySorted R (map f l).
Proof.
  intros Hf. induction 1 as [|a l Hs IH Hall]; simpl; constructor; auto.
  rewrite Forall_forall in *. intros y Hy.
  apply in_map_iff in Hy as (a' & <- & Ha'). auto.
Qed.

Lemma sorted_NoDup {A : Type} (R : A -> A -> Prop) (l : list A) :
  (forall a, ~ R a a) -> StronglySorted R l -> NoDup l.
Proof.
  intros Hirr. induction 1 as [|a l Hs IH Hall]; constructor; auto.
  intros Hin. rewrite Forall_forall in Hall. exact (Hirr a (Hall a Hin)).
Qed.

Lemma before_irrefl (a : args) : ~ before a a.
Proof. destruct a; simpl; lia. Qed.

(* --------------------------------------------------------------------- *)
(** *** Rows, planes, volumes, boxes *)

Lemma in_row (a : args) (j k l bi ei : Z) :
  In a (row j k l bi ei) <-> exists i, a = Coord i j k l /\ bi <= i < ei.
Proof.
  unfold row. rewrite in_map_iff. split.
  - intros (i & <- & Hi). apply in_interval in Hi. eauto.
  - intros (i & -> & Hi). exists i. split; [reflexivity|]. now apply in_interval.
Qed.

Lemma in_plane (a : args) (k l bj ej bi ei : Z) :
  In a (plane k l bj ej bi ei) <->
  exists i j, a = Coord i j k l /\ bi <= i < ei /\ bj <= j < ej.
Proof.
  unfold plane. rewrite in_flat_map. split.
  - intros (j & Hj & Ha). apply in_interval in Hj. apply in_row in Ha as (i & -> & Hi).
    eauto 6.
  - intros (i & j & -> & Hi & Hj). exists j. split; [now apply in_interval|].
    apply in_row. eauto.
Qed.

Lemma in_volume (a : args) (l bk ek bj ej bi ei : Z) :
  In a (volume l bk ek bj ej bi ei) <->
  exists i j k, a = Coord i j k l /\ bi <= i < ei /\ bj <= j < ej /\ bk <= k < ek.
Proof.
  unfold volume. rewrite in_flat_map. split.
  - intros (k & Hk & Ha). apply in_interval in Hk.
    apply in_plane in Ha as (i & j & -> & Hi & Hj). eauto 8.
  - intros (i & j & k & -> & Hi & Hj & Hk). exists k. split; [now apply in_interval|].
    apply in_plane. eauto 6.
Qed.

Lemma in_box (a : args) (bl el bk ek bj ej bi ei : Z) :
  In a (box bl el bk ek bj ej bi ei) <->
  exists i j k l, a = Coord i j k l /\
    bi <= i < ei /\ bj <= j < ej /\ bk <= k < ek /\ bl <= l < el.
Proof.
  unfold box. rewrite in_flat_map. split.
  - intros (l & Hl & Ha). apply in_interval in Hl.
    apply in_volume in Ha as (i & j & k & -> & Hi & Hj & Hk). eauto 10.
  - intros (i & j & k & l & -> & Hi & Hj & Hk & Hl). exists l.
    split; [now apply in_interval|]. apply in_volume. eauto 8.
Qed.

Lemma sorted_row (j k l bi ei : Z) : StronglySorted before (row j k l bi ei).
Proof.
  unfold row. eapply sorted_map; [|apply sorted_interval].
  intros a a' H. simpl. lia.
Qed.

Lemma sorted_plane (k l bj ej bi ei : Z) :
  StronglySorted before (plane k l bj ej bi ei).
Proof.
  unfold plane. eapply sorted_flat_map; [apply sorted_interval| |].
  - intros. apply sorted_row.
  - intros j j' x x' Hlt Hx Hx'.
    apply in_row in Hx as (i & -> & _). apply in_row in Hx' as (i' & -> & _).
    simpl. lia.
Qed.

Lemma sorted_volume (l bk ek bj ej bi ei : Z) :
  StronglySorted before (volume l bk ek bj ej bi ei).
Proof.
  unfold volume. eapply sorted_flat_map; [apply sorted_interval| |].
  - intros. apply sorted_plane.
  - intros k k' x x' Hlt Hx Hx'.
    apply in_plane in Hx as (i & j & -> & _). apply in_plane in Hx' as (i' & j' & -> & _).
    simpl. lia.
Qed.

Lemma sorted_box (bl el bk ek bj ej bi ei : Z) :
  StronglySorted before (box bl el bk ek bj ej bi ei).
Proof.
  unfold box. eapply sorted_flat_map; [apply sorted_interval| |].
  - intros. apply sorted_volume.
  - intros l l' x x' Hlt Hx Hx'.
    apply in_volume in Hx as (i & j & k & -> & _).
    apply in_volume in Hx' as (i' & j' & k' & -> & _).
    simpl. lia.
Qed.

(* ===================================================================== *)
(** ** Lemmas on pointers and loops *)
(* ===================================================================== *)

Lemma ptr_add_0 (p : pointer) : ptr_add p 0 = p.
Proof. destruct p. unfold ptr_add. simpl. now rewrite Z.add_0_r. Qed.

Lemma ptr_add_add (p : pointer) (a b : Z) : ptr_add (ptr_add p a) b = ptr_add p (a + b).
Proof. unfold ptr_add. simpl. now rewrite Z.add_assoc. Qed.

Lemma advance_0 (c : cursors) : advance 0 c = c.
Proof. destruct c. unfold advance. simpl. now rewrite !ptr_add_0. Qed.

Lemma advance_advance (c : cursors) (a b : Z) :
  advance b (advance a c) = advance (a + b) c.
Proof. unfold advance. simpl. now rewrite !ptr_add_add. Qed.

(** The loop combinator agrees with the guard of the C++ loop: the body
    runs while [b < e], then the counter is incremented. *)
Lemma For_unfold {St : Type} (b e : Z) (step : Z -> St -> St) (s : St) :
  For b e step s = if b <? e then For (b + 1) e step (step b s) else s.
Proof.
  unfold For. destruct (Z.ltb_spec b e) as [H|H].
  - replace (Z.to_nat (e - b)) with (S (Z.to_nat (e - (b + 1)))) by lia.
    reflexivity.
  - replace (Z.to_nat (e - b)) with O by lia. reflexivity.
Qed.

Lemma iterate_invariant {St : Type} (P : St -> Prop) (step : Z -> St -> St) (n : nat) :
  forall b s,
    (forall i s, b <= i < b + Z.of_nat n -> P s -> P (step i s)) ->
    P s -> P (iterate n b step s).
Proof.
  induction n as [|n IH]; intros b s Hstep Hs; simpl; [assumption|].
  apply IH.
  - intros i s' Hi. apply Hstep. lia.
  - apply Hstep; [lia | assumption].
Qed.

(** A property kept by every iteration is kept by the loop. *)
Lemma For_invariant {St : Type} (P : St -> Prop) (b e : Z) (step : Z -> St -> St) (s : St) :
  (forall i s, b <= i < e -> P s -> P (step i s)) -> P s -> P (For b e step s).
Proof.
  intros Hstep Hs. unfold For. apply iterate_invariant; [|assumption].
  intros i s' Hi. apply Hstep. lia.
Qed.

Lemma iterate_sim {St St' : Type} (R : St -> St' -> Prop)
  (step : Z -> St -> St) (step' : Z -> St' -> St') (n : nat) :
  (forall i s s', R s s' -> R (step i s) (step' i s')) ->
  forall b s s', R s s' -> R (iterate n b step s) (iterate n b step' s').
Proof.
  intros Hstep. induction n as [|n IH]; intros b s s' H; simpl; auto.
Qed.

(** Two loops over the same range whose iterations keep a relation between
    their states keep it. *)
Lemma For_sim {St St' : Type} (R : St -> St' -> Prop) (b e : Z)
  (step : Z -> St -> St) (step' : Z -> St' -> St') (s : St) (s' : St') :
  (forall i s s', R s s' -> R (step i s) (step' i s')) ->
  R s s' -> R (For b e step s) (For b e step' s').
Proof. intros Hstep H. unfold For. now apply iterate_sim. Qed.

Lemma emits_call (f : functor_id) (a : args) :
  emits (fun st => bump 1 (call f a st)) 1
        (fun c => [{| callee := f; arguments := a; ptrs := c |}]).
Proof. intros c log. reflexivity. Qed.

Lemma emits_bump (F : state -> state) (d s : Z) (L : cursors -> list invocation) :
  emits F d L -> emits (fun st => bump s (F st)) (d + s) L.
Proof.
  intros H c log. rewrite H. unfold bump. simpl. now rewrite advance_advance.
Qed.

Lemma emits_iterate (step : Z -> state -> state) (d : Z)
  (L : Z -> cursors -> list invocation) (n : nat) :
  (forall i, emits (step i) d (L i)) ->
  forall b, emits (iterate n b step) (Z.of_nat n * d)
              (fun c => flat_map (fun i => L i (advance ((i - b) * d) c)) (zseq b n)).
Proof.
  intros Hstep. induction n as [|n IH]; intros b c log.
  - simpl. now rewrite advance_0, app_nil_r.
  - cbn [iterate zseq flat_map]. rewrite Hstep, IH, advance_advance.
    f_equal; [f_equal; lia|].
    rewrite <- app_assoc. f_equal. f_equal.
    + f_equal. replace ((b - b) * d) with 0 by lia. now rewrite advance_0.
    + apply flat_map_ext_in. intros i _. f_equal.
      rewrite advance_advance. f_equal. lia.
Qed.

(** A loop whose every iteration moves the cursors by [d] lays the
    iterations' invocations out one after the other, iteration [i] starting
    [(i - b) * d] voxels after the loop's start. *)
Lemma emits_For (step : Z -> state -> state) (d : Z)
  (L : Z -> cursors -> list invocation) (b e : Z) :
  (forall i, emits (step i) d (L i)) ->
  emits (For b e step) (Z.of_nat (Z.to_nat (e - b)) * d)
        (fun c => flat_map (fun i => L i (advance ((i - b) * d) c)) (interval b e)).
Proof. intros H. unfold For, interval. now apply emits_iterate. Qed.

Lemma emits_snd (F : state -> state) (d : Z) (L : cursors -> list invocation) (c : cursors) :
  emits F d L -> snd (F (c, [])) = L c.
Proof. intros H. now rewrite H. Qed.

(* ===================================================================== *)
(** ** Closed forms of the traversal bodies *)
(* ===================================================================== *)

Lemma trips_pos (b e : Z) : b <= e -> trips b e = e - b.
Proof. unfold trips. lia. Qed.

Lemma run_1d_closed (b : Body.t) (re : blocked_range) :
  Body.run_1d b re =
  map (fun idx => {| callee := VoxelFunc; arguments := Index (Body.im3 b) idx;
                     ptrs := advance (idx - rbegin re)
                               (body_cursors b (fun im => ptr_add (GetPointerToVoxels im) (rbegin re))) |})
      (interval (rbegin re) (rend re)).
Proof.
  unfold Body.run_1d. cbv zeta.
  erewrite emits_snd.
  2:{ apply emits_For. intros idx. apply emits_call. }
  cbv beta. rewrite flat_map_single. apply map_ext. intros idx.
  now rewrite Z.mul_1_r.
Qed.

Lemma run_attr_closed (b : Body.t) (attr : irtkImageAttributes) :
  let T := if nonzero (_dt attr) then _t attr else 1 in
  let dy := trips 0 (_x attr) * 1 in
  let dz := trips 0 (_y attr) * dy in
  let dt := trips 0 (_z attr) * dz in
  Body.run_attr b attr =
  flat_map (fun l => flat_map (fun k => flat_map (fun j => flat_map (fun i =>
    [{| callee := VoxelFunc; arguments := Coord i j k l;
        ptrs := advance ((i - 0) * 1) (advance ((j - 0) * dy) (advance ((k - 0) * dz)
                  (advance ((l - 0) * dt) (body_cursors b GetPointerToVoxels)))) |}])
    (interval 0 (_x attr))) (interval 0 (_y attr))) (interval 0 (_z attr))) (interval 0 T).
Proof.
  unfold Body.run_attr. cbv zeta.
  erewrite emits_snd.
  2:{ apply emits_For. intros l. apply emits_For. intros k.
      apply emits_For. intros j. apply emits_For. intros i. apply emits_call. }
  reflexivity.
Qed.

Lemma run_2d_closed (b : Body.t) (re : blocked_range2d) :
  let bi := rbegin (cols2 re) in
  let bj := rbegin (rows2 re) in
  let ei := rend (cols2 re) in
  let ej := rend (rows2 re) in
  let s1 := GetX (Body.im3 b) - (ei - bi) in
  let c := body_cursors b (fun im => GetPointerToVoxelsAt im bi bj (Body._k b) (Body._l b)) in
  Body.run_2d b re =
  flat_map (fun j => flat_map (fun i =>
    [{| callee := VoxelFunc; arguments := Coord i j (Body._k b) (Body._l b);
        ptrs := advance ((i - bi) * 1) (advance ((j - bj) * (trips bi ei * 1 + s1)) c) |}])
    (interval bi ei)) (interval bj ej).
Proof.
  unfold Body.run_2d. cbv zeta.
  erewrite emits_snd.
  2:{ apply emits_For. intros j. apply emits_bump.
      apply emits_For. intros i. apply emits_call. }
  reflexivity.
Qed.

Lemma run_3d_closed (b : Body.t) (re : blocked_range3d) :
  let bi := rbegin (cols re) in
  let bj := rbegin (rows re) in
  let bk := rbegin (pages re) in
  let ei := rend (cols re) in
  let ej := rend (rows re) in
  let ek := rend (pages re) in
  let s1 := GetX (Body.im3 b) - (ei - bi) in
  let s2 := (GetY (Body.im3 b) - (ej - bj)) * GetX (Body.im3 b) in
  let c := body_cursors b (fun im => GetPointerToVoxelsAt im bi bj bk (Body._l b)) in
  Body.run_3d b re =
  flat_map (fun k => flat_map (fun j => flat_map (fun i =>
    [{| callee := VoxelFunc; arguments := Coord i j k (Body._l b);
        ptrs := advance ((i - bi) * 1) (advance ((j - bj) * (trips bi ei * 1 + s1))
                  (advance ((k - bk) * (trips bj ej * (trips bi ei * 1 + s1) + s2)) c)) |}])
    (interval bi ei)) (interval bj ej)) (interval bk ek).
Proof.
  unfold Body.run_3d. cbv zeta.
  erewrite emits_snd.
  2:{ apply emits_For. intros k. apply emits_bump.
      apply emits_For. intros j. apply emits_bump.
      apply emits_For. intros i. apply emits_call. }
  reflexivity.
Qed.

(** The arguments of the calls, in call order. *)
Lemma run_1d_arguments (b : Body.t) (re : blocked_range) :
  map arguments (Body.run_1d b re) =
  map (Index (Body.im3 b)) (interval (rbegin re) (rend re)).
Proof. rewrite run_1d_closed, map_map. reflexivity. Qed.

Lemma run_attr_arguments (b : Body.t) (attr : irtkImageAttributes) :
  map arguments (Body.run_attr b attr) =
  box 0 (if nonzero (_dt attr) then _t attr else 1) 0 (_z attr) 0 (_y attr) 0 (_x attr).
Proof.
  rewrite run_attr_closed. cbv zeta. unfold box, volume, plane, row.
  rewrite map_flat_map. apply flat_map_ext_in. intros l _.
  rewrite map_flat_map. apply flat_map_ext_in. intros k _.
  rewrite map_flat_map. apply flat_map_ext_in. intros j _.
  rewrite map_flat_map. cbn [map arguments]. now rewrite flat_map_single.
Qed.

Lemma run_2d_arguments (b : Body.t) (re : blocked_range2d) :
  map arguments (Body.run_2d b re) =
  plane (Body._k b) (Body._l b) (rbegin (rows2 re)) (rend (rows2 re))
        (rbegin (cols2 re)) (rend (cols2 re)).
Proof.
  rewrite run_2d_closed. cbv zeta. unfold plane, row.
  rewrite map_flat_map. apply flat_map_ext_in. intros j _.
  rewrite map_flat_map. cbn [map arguments]. now rewrite flat_map_single.
Qed.

Lemma run_3d_arguments (b : Body.t) (re : blocked_range3d) :
  map arguments (Body.run_3d b re) =
  volume (Body._l b) (rbegin (pages re)) (rend (pages re))
         (rbegin (rows re)) (rend (rows re)) (rbegin (cols re)) (rend (cols re)).
Proof.
  rewrite run_3d_closed. cbv zeta. unfold volume, plane, row.
  rewrite map_flat_map. apply flat_map_ext_in. intros k _.
  rewrite map_flat_map. apply flat_map_ext_in. intros j _.
  rewrite map_flat_map. cbn [map arguments]. now rewrite flat_map_single.
Qed.



Lemma run_2d_positions (b : Body.t) (re : blocked_range2d) :
  Body.run_2d b re
  = map (fun a => plain_call a
                    (advance (range_position (Body.im3 b) (rbegin (cols2 re))
                                (rbegin (rows2 re)) (Body._k b) a)
                       (body_cursors b (fun im =>
                          GetPointerToVoxelsAt im (rbegin (cols2 re)) (rbegin (rows2 re))
                                               (Body._k b) (Body._l b)))))
        (coords2 (Body._k b) (Body._l b) re).
Proof.
  rewrite run_2d_closed. cbv zeta.
  unfold coords2, plane, row. rewrite map_flat_map.
  apply flat_map_ext_in. intros j Hj.
  rewrite map_map, <- flat_map_single. apply flat_map_ext_in. intros i Hi.
  apply in_interval in Hi. unfold plain_call, range_position.
  rewrite !advance_advance, !trips_pos by lia. do 3 f_equal. ring.
Qed.

Lemma run_3d_positions (b : Body.t) (re : blocked_range3d) :
  Body.run_3d b re
  = map (fun a => plain_call a
                    (advance (range_position (Body.im3 b) (rbegin (cols re))
                                (rbegin (rows re)) (rbegin (pages re)) a)
                       (body_cursors b (fun im =>
                          GetPointerToVoxelsAt im (rbegin (cols re)) (rbegin (rows re))
                                               (rbegin (pages re)) (Body._l b)))))
        (coords3 (Body._l b) re).
Proof.
  rewrite run_3d_closed. cbv zeta.
  unfold coords3, volume, plane, row. rewrite map_flat_map.
  apply flat_map_ext_in. intros k Hk. rewrite map_flat_map.
  apply flat_map_ext_in. intros j Hj.
  rewrite map_map, <- flat_map_single. apply flat_map_ext_in. intros i Hi.
  apply in_interval in Hi, Hj. unfold plain_call, range_position.
  rewrite !advance_advance, !trips_pos by lia. do 3 f_equal. ring.
Qed.



(* ===================================================================== *)
(** ** The predicated body against the plain body *)
(* ===================================================================== *)

Lemma routed_call (D : Domain) (im : irtkGenericImage) (a : args) (s s' : state) :
  routed D im s s' ->
  routed D im (bump 1 (call VoxelFunc a s))
              (bump 1 (if inside D im a (p3 (fst s'))
                       then call VoxelFunc a s' else call OutsideFunc a s')).
Proof.
  destruct s as [c log], s' as [c' log']. intros [Hc Hl]. simpl in Hc, Hl. subst.
  unfold routed, route. destruct (inside D im a (p3 c)) eqn:E;
    simpl; rewrite map_app; simpl; rewrite E; auto.
Qed.

Lemma routed_bump (D : Domain) (im : irtkGenericImage) (d : Z) (s s' : state) :
  routed D im s s' -> routed D im (bump d s) (bump d s').
Proof. intros [Hc Hl]. split; simpl; congruence. Qed.

Lemma routed_start (D : Domain) (im : irtkGenericImage) (c : cursors) :
  routed D im (c, []) (c, []).
Proof. split; reflexivity. Qed.

Lemma if_run_attr_route (D : Domain) (b : IfBody.t) (attr : irtkImageAttributes) :
  IfBody.run_attr D b attr = map (route D (IfBody.im3 b)) (Body.run_attr (plain b) attr).
Proof.
  unfold IfBody.run_attr, Body.run_attr. cbv zeta.
  apply (For_sim (routed D (IfBody.im3 b))); [|apply routed_start].
  intros l s s' H. apply For_sim; [|exact H]. clear. intros k s s' H.
  apply For_sim; [|exact H]. clear. intros j s s' H.
  apply For_sim; [|exact H]. clear. intros i s s' H.
  exact (routed_call D _ (Coord i j k l) s s' H).
Qed.

Lemma if_run_1d_route (D : Domain) (b : IfBody.t) (re : blocked_range) :
  IfBody.run_1d D b re = map (route D (IfBody.im3 b)) (Body.run_1d (plain b) re).
Proof.
  unfold IfBody.run_1d, Body.run_1d. cbv zeta.
  apply (For_sim (routed D (IfBody.im3 b))); [|apply routed_start].
  intros idx s s' H.
  exact (routed_call D _ (Index (IfBody.im3 b) idx) s s' H).
Qed.

Lemma if_run_2d_route (D : Domain) (b : IfBody.t) (re : blocked_range2d) :
  IfBody.run_2d D b re = map (route D (IfBody.im3 b)) (Body.run_2d (plain b) re).
Proof.
  unfold IfBody.run_2d, Body.run_2d. cbv zeta.
  apply (For_sim (routed D (IfBody.im3 b))); [|apply routed_start].
  intros j s s' H. apply routed_bump.
  apply For_sim; [|exact H]. clear. intros i s s' H.
  exact (routed_call D _ (Coord i j (IfBody._k b) (IfBody._l b)) s s' H).
Qed.

Lemma if_run_3d_route (D : Domain) (b : IfBody.t) (re : blocked_range3d) :
  IfBody.run_3d D b re = map (route D (IfBody.im3 b)) (Body.run_3d (plain b) re).
Proof.
  unfold IfBody.run_3d, Body.run_3d. cbv zeta.
  apply (For_sim (routed D (IfBody.im3 b))); [|apply routed_start].
  intros k s s' H. apply routed_bump.
  apply For_sim; [|exact H]. clear - b. intros j s s' H. apply routed_bump.
  apply For_sim; [|exact H]. clear - b. intros i s s' H.
  exact (routed_call D _ (Coord i j k (IfBody._l b)) s s' H).
Qed.

Lemma map_arguments_route (D : Domain) (im : irtkGenericImage) (l : list invocation) :
  map arguments (map (route D im) l) = map arguments l.
Proof. rewrite map_map. reflexivity. Qed.

Lemma map_ptrs_route (D : Domain) (im : irtkGenericImage) (l : list invocation) :
  map ptrs (map (route D im) l) = map ptrs l.
Proof. rewrite map_map. reflexivity. Qed.

(* ===================================================================== *)
(** ** Cursors against the number of calls made *)
(* ===================================================================== *)

Lemma tracked_start (c0 : cursors) : tracked c0 (c0, []).
Proof.
  split; simpl.
  - now rewrite advance_0.
  - intros [|n] inv H; discriminate H.
Qed.

Lemma tracked_call (c0 : cursors) (f : functor_id) (a : args) (st : state) :
  tracked c0 st -> tracked c0 (bump 1 (call f a st)).
Proof.
  destruct st as [c log]. intros [Hc Hlog]. simpl in Hc, Hlog. split; simpl.
  - rewrite Hc, advance_advance, length_app. simpl. f_equal. lia.
  - intros n inv H. destruct (Nat.lt_ge_cases n (List.length log)) as [Hn|Hn].
    + rewrite nth_error_app1 in H by assumption. now apply Hlog.
    + rewrite nth_error_app2 in H by assumption.
      destruct (n - List.length log)%nat as [|m] eqn:E.
      * simpl in H. injection H as <-. simpl. rewrite Hc. f_equal. lia.
      * simpl in H. destruct m; discriminate H.
Qed.

Lemma run_attr_tracked (b : Body.t) (attr : irtkImageAttributes) (n : nat) (inv : invocation) :
  nth_error (Body.run_attr b attr) n = Some inv ->
  ptrs inv = advance (Z.of_nat n) (body_cursors b GetPointerToVoxels).
Proof.
  revert n inv.
  change (forall n inv, nth_error (Body.run_attr b attr) n = Some inv ->
            ptrs inv = advance (Z.of_nat n) (body_cursors b GetPointerToVoxels)).
  unfold Body.run_attr. cbv zeta.
  apply (For_invariant (tracked (body_cursors b GetPointerToVoxels)));
    [|apply tracked_start].
  intros l s _ Hs. apply For_invariant; [|exact Hs]. intros k s' _ Hs'.
  apply For_invariant; [|exact Hs']. intros j s'' _ Hs''.
  apply For_invariant; [|exact Hs'']. intros i s3 _ Hs3.
  now apply tracked_call.
Qed.

(* ===================================================================== *)
(** ** Logs *)
(* ===================================================================== *)

Lemma invocations_app (l1 l2 : list event) :
  invocations (l1 ++ l2) = invocations l1 ++ invocations l2.
Proof.
  induction l1 as [|[inv|f r|msg] l1 IH]; simpl; congruence.
Qed.

Lemma joins_app (l1 l2 : list event) : joins (l1 ++ l2) = joins l1 ++ joins l2.
Proof.
  induction l1 as [|[inv|f r|msg] l1 IH]; simpl; congruence.
Qed.

Lemma invocations_Invoke (l : list invocation) : invocations (map Invoke l) = l.
Proof. induction l; simpl; congruence. Qed.

Lemma joins_Invoke (l : list invocation) : joins (map Invoke l) = [].
Proof. induction l; simpl; congruence. Qed.

Lemma joins_parallel_for {R : Type} `{Splittable R} (body : R -> list invocation)
  (sch : schedule) : forall re, joins (parallel_for sch re body) = [].
Proof.
  induction sch as [|axis m l IHl r IHr]; intros re; simpl.
  - apply joins_Invoke.
  - destruct (split_at axis m re) as [[re1 re2]|].
    + now rewrite joins_app, IHl, IHr.
    + apply joins_Invoke.
Qed.

Lemma concat_repeat_comm {A : Type} (x : list A) (n : nat) :
  x ++ List.concat (repeat x n) = List.concat (repeat x n) ++ x.
Proof.
  induction n as [|n IH]; simpl.
  - now rewrite app_nil_r.
  - now rewrite <- app_assoc, <- IH.
Qed.

(** A parallel reduction joins once per pair of sibling partitions. *)
Lemma joins_parallel_reduce {R : Type} `{Splittable R} (body : R -> list invocation)
  (J : list event) (sch : schedule) :
  forall re,
    joins (parallel_reduce sch re body J) = List.concat (repeat (joins J) (forks sch re)).
Proof.
  induction sch as [|axis m l IHl r IHr]; intros re; simpl.
  - apply joins_Invoke.
  - destruct (split_at axis m re) as [[re1 re2]|].
    + rewrite !joins_app, IHl, IHr. cbn [repeat List.concat].
      rewrite repeat_app, concat_app.
      pose proof (concat_repeat_comm (joins J) (forks l re1)) as Hl.
      pose proof (concat_repeat_comm (joins J) (forks r re2)) as Hr.
      rewrite <- Hr, (app_assoc _ (joins J)), <- Hl, <- app_assoc. reflexivity.
    + apply joins_Invoke.
Qed.

Lemma zseq_app (n1 n2 : nat) :
  forall b, zseq b (n1 + n2) = zseq b n1 ++ zseq (b + Z.of_nat n1) n2.
Proof.
  induction n1 as [|n1 IH]; intros b.
  - simpl. now rewrite Z.add_0_r.
  - cbn [Nat.add zseq app]. rewrite IH. do 3 f_equal. lia.
Qed.

Lemma interval_split (b m e : Z) :
  b <= m <= e -> interval b e = interval b m ++ interval m e.
Proof.
  intros H. unfold interval.
  replace (Z.to_nat (e - b)) with (Z.to_nat (m - b) + Z.to_nat (e - m))%nat by lia.
  rewrite zseq_app. do 2 f_equal. lia.
Qed.

(** Whatever the schedule, the partitions of a linear range cover it: in
    the order of the schedule tree, the calls are those of the whole range. *)
Lemma parallel_for_1d_arguments (body : blocked_range -> list invocation)
  (f : Z -> args) (sch : schedule) :
  (forall re, map arguments (body re) = map f (interval (rbegin re) (rend re))) ->
  forall re, map arguments (invocations (parallel_for sch re body)) =
             map f (interval (rbegin re) (rend re)).
Proof.
  intros Hbody. induction sch as [|axis m l IHl r IHr]; intros re; simpl.
  - now rewrite invocations_Invoke.
  - unfold split_at, split_blocked_range, split1.
    destruct ((rbegin re <? m) && (m <? rend re)) eqn:E.
    + apply andb_true_iff in E as [E1 E2]. apply Z.ltb_lt in E1, E2.
      rewrite invocations_app, map_app, IHl, IHr. simpl.
      rewrite (interval_split (rbegin re) m (rend re)) by lia.
      now rewrite map_app.
    + now rewrite invocations_Invoke.
Qed.

Lemma parallel_reduce_1d_arguments (body : blocked_range -> list invocation)
  (J : list event) (f : Z -> args) (sch : schedule) :
  invocations J = [] ->
  (forall re, map arguments (body re) = map f (interval (rbegin re) (rend re))) ->
  forall re, map arguments (invocations (parallel_reduce sch re body J)) =
             map f (interval (rbegin re) (rend re)).
Proof.
  intros HJ Hbody. induction sch as [|axis m l IHl r IHr]; intros re; simpl.
  - now rewrite invocations_Invoke.
  - unfold split_at, split_blocked_range, split1.
    destruct ((rbegin re <? m) && (m <? rend re)) eqn:E.
    + apply andb_true_iff in E as [E1 E2]. apply Z.ltb_lt in E1, E2.
      rewrite !invocations_app, HJ, app_nil_r, map_app, IHl, IHr. simpl.
      rewrite (interval_split (rbegin re) m (rend re)) by lia.
      now rewrite map_app.
    + now rewrite invocations_Invoke.
Qed.

Lemma if_run_1d_arguments (D : Domain) (b : IfBody.t) (re : blocked_range) :
  map arguments (IfBody.run_1d D b re) =
  map (Index (IfBody.im3 b)) (interval (rbegin re) (rend re)).
Proof. now rewrite if_run_1d_route, map_arguments_route, run_1d_arguments. Qed.

(* ===================================================================== *)
(** ** Whole-domain traversal *)
(* ===================================================================== *)


Lemma run_attr_callee (b : Body.t) (attr : irtkImageAttributes) :
  Forall (fun inv => callee inv = VoxelFunc) (Body.run_attr b attr).
Proof.
  unfold Body.run_attr. cbv zeta.
  apply (For_invariant (fun st : state => Forall (fun inv => callee inv = VoxelFunc) (snd st)));
    [|constructor].
  intros l s _ Hs. apply For_invariant; [|exact Hs]. intros k s1 _ Hs1.
  apply For_invariant; [|exact Hs1]. intros j s2 _ Hs2.
  apply For_invariant; [|exact Hs2]. intros i s3 _ Hs3.
  simpl. apply Forall_app. split; [assumption|]. now repeat constructor.
Qed.


(* --------------------------------------------------------------------- *)
(** *** A domain with sizeT = 0 *)

(** C9, counterexample: over a domain of 2 x 1 x 1 voxels with sizeT = 0
    and a nonzero temporal spacing the whole-domain traversal, plain or
    predicated, calls the functor zero times, not once per spatial voxel as
    it would if sizeT were taken as 1. *)
Lemma no_frames_time_series_makes_no_call :
  _t attr_no_frames = 0 /\
  Body.run_attr (ByReference.body 0 0 image_2x1 image_2x1 image_2x1) attr_no_frames = [] /\
  IfBody.run_attr Always (ByReference.ifbody 0 0 image_2x1 image_2x1 image_2x1)
                  attr_no_frames = [] /\
  box 0 1 0 (_z attr_no_frames) 0 (_y attr_no_frames) 0 (_x attr_no_frames)
  = [Coord 0 0 0 0; Coord 1 0 0 0].
Proof. repeat split. Qed.

(** C9, amended: a domain whose temporal spacing is zero is traversed as
    if its sizeT were 1, whatever its sizeT is, 0 included: the whole-domain
    traversal, plain or predicated, then calls the functor exactly once per
    spatial voxel, in one temporal iteration with t = 0. *)
Theorem zero_spacing_is_one_temporal_pass
  (D : Domain) (b : Body.t) (bif : IfBody.t) (attr : irtkImageAttributes) :
  nonzero (_dt attr) = false ->
  map arguments (Body.run_attr b attr)
  = box 0 1 0 (_z attr) 0 (_y attr) 0 (_x attr) /\
  map arguments (IfBody.run_attr D bif attr)
  = box 0 1 0 (_z attr) 0 (_y attr) 0 (_x attr) /\
  NoDup (box 0 1 0 (_z attr) 0 (_y attr) 0 (_x attr)) /\
  (forall i j k l,
      In (Coord i j k l) (box 0 1 0 (_z attr) 0 (_y attr) 0 (_x attr)) <->
      0 <= i < _x attr /\ 0 <= j < _y attr /\ 0 <= k < _z attr /\ l = 0).
Proof.
  intros Hdt. split; [|split; [|split]].
  - rewrite run_attr_arguments, Hdt. reflexivity.
  - rewrite if_run_attr_route, map_arguments_route, run_attr_arguments, Hdt. reflexivity.
  - eapply sorted_NoDup; [apply before_irrefl | apply sorted_box].
  - intros i j k l. rewrite in_box. split.
    + intros (i' & j' & k' & l' & E & Hi & Hj & Hk & Hl). injection E as -> -> -> ->.
      repeat split; lia.
    + intros (Hi & Hj & Hk & ->). exists i, j, k, 0. repeat split; lia.
Qed.

Lemma zero_spacing_is_one_temporal_pass_witness :
  map arguments (Body.run_attr (ByReference.body 0 0 image_2x1 image_2x1 image_2x1)
                               attr_vector_no_frames)
  = [Coord 0 0 0 0; Coord 1 0 0 0].
Proof.
  exact (proj1 (zero_spacing_is_one_temporal_pass Always
                  (ByReference.body 0 0 image_2x1 image_2x1 image_2x1)
                  (ByReference.ifbody 0 0 image_2x1 image_2x1 image_2x1)
                  attr_vector_no_frames eq_refl)).
Defined.

(* ===================================================================== *)
(** ** Predicated traversal *)
(* ===================================================================== *)





(* ===================================================================== *)
(** ** 2-D and 3-D ranges *)
(* ===================================================================== *)

Lemma p1_advance (d : Z) (c : cursors) : p1 (advance d c) = ptr_add (p1 c) d.
Proof. reflexivity. Qed.

Lemma p2_advance (d : Z) (c : cursors) : p2 (advance d c) = ptr_add (p2 c) d.
Proof. reflexivity. Qed.

Lemma p3_advance (d : Z) (c : cursors) : p3 (advance d c) = ptr_add (p3 c) d.
Proof. reflexivity. Qed.

(** Moving from the voxel (bi, bj, bk, l) of an image by whole rows of
    [w] voxels and whole planes of [w * h] voxels reaches the voxel
    (i, j, k, l) when [w] and [h] are the image's own width and height. *)
Lemma voxel_offset (im : irtkGenericImage) (w h i j k l bi bj bk : Z) :
  GetX im = w -> GetY im = h ->
  ptr_add (GetPointerToVoxelsAt im bi bj bk l)
          ((k - bk) * (h * w) + (j - bj) * w + (i - bi))
  = GetPointerToVoxelsAt im i j k l.
Proof.
  intros Hw Hh. unfold GetPointerToVoxelsAt. rewrite ptr_add_add. f_equal.
  unfold VoxelToIndex. rewrite Hw, Hh. ring.
Qed.

Lemma row_offset (im : irtkGenericImage) (w i j k l bi bj : Z) :
  GetX im = w ->
  ptr_add (GetPointerToVoxelsAt im bi bj k l) ((j - bj) * w + (i - bi))
  = GetPointerToVoxelsAt im i j k l.
Proof.
  intros Hw. unfold GetPointerToVoxelsAt. rewrite ptr_add_add. f_equal.
  unfold VoxelToIndex. rewrite Hw. ring.
Qed.

Lemma run_2d_strides (b : Body.t) (re : blocked_range2d) (inv : invocation) :
  let bi := rbegin (cols2 re) in
  let bj := rbegin (rows2 re) in
  let ei := rend (cols2 re) in
  let ej := rend (rows2 re) in
  let s1 := GetX (Body.im3 b) - (ei - bi) in
  In inv (Body.run_2d b re) ->
  exists i j,
    arguments inv = Coord i j (Body._k b) (Body._l b) /\
    bi <= i < ei /\ bj <= j < ej /\
    ptrs inv = advance ((j - bj) * ((ei - bi) + s1) + (i - bi))
                 (body_cursors b (fun im => GetPointerToVoxelsAt im bi bj (Body._k b) (Body._l b))).
Proof.
  intros bi bj ei ej s1. rewrite run_2d_closed. cbv zeta.
  fold bi bj ei ej s1. intros H.
  apply in_flat_map in H as (j & Hj & H). apply in_flat_map in H as (i & Hi & H).
  apply in_interval in Hi, Hj. destruct H as [<-|[]].
  exists i, j. repeat split; try lia. simpl.
  rewrite advance_advance, trips_pos by lia. f_equal. ring.
Qed.

Lemma run_3d_strides (b : Body.t) (re : blocked_range3d) (inv : invocation) :
  let bi := rbegin (cols re) in
  let bj := rbegin (rows re) in
  let bk := rbegin (pages re) in
  let ei := rend (cols re) in
  let ej := rend (rows re) in
  let ek := rend (pages re) in
  let s1 := GetX (Body.im3 b) - (ei - bi) in
  let s2 := (GetY (Body.im3 b) - (ej - bj)) * GetX (Body.im3 b) in
  In inv (Body.run_3d b re) ->
  exists i j k,
    arguments inv = Coord i j k (Body._l b) /\
    bi <= i < ei /\ bj <= j < ej /\ bk <= k < ek /\
    ptrs inv = advance ((k - bk) * ((ej - bj) * ((ei - bi) + s1) + s2)
                        + (j - bj) * ((ei - bi) + s1) + (i - bi))
                 (body_cursors b (fun im => GetPointerToVoxelsAt im bi bj bk (Body._l b))).
Proof.
  intros bi bj bk ei ej ek s1 s2. rewrite run_3d_closed. cbv zeta.
  fold bi bj bk ei ej ek s1 s2. intros H.
  apply in_flat_map in H as (k & Hk & H). apply in_flat_map in H as (j & Hj & H).
  apply in_flat_map in H as (i & Hi & H).
  apply in_interval in Hi, Hj, Hk. destruct H as [<-|[]].
  exists i, j, k. repeat split; try lia. simpl.
  rewrite !advance_advance, !trips_pos by lia. f_equal. ring.
Qed.

(** An image's cursor, [d] voxels after the start of a traversal that
    began at the image's voxel [first im]. *)
Lemma cursor_of_nonempty (im1 im2 im3 : irtkGenericImage)
  (first : irtkGenericImage -> pointer) (d : Z) :
  let c := advance d (cursors_at im1 im2 im3 first) in
  (IsEmpty im1 = false -> p1 c = ptr_add (first im1) d) /\
  (IsEmpty im2 = false -> p2 c = ptr_add (first im2) d) /\
  (IsEmpty im3 = false -> p3 c = ptr_add (first im3) d).
Proof.
  cbv zeta. unfold cursors_at. simpl.
  repeat split; intros ->; reflexivity.
Qed.

(** C7: a 2-D range traversal calls the functor exactly once per
    (i, j, currentPlane, currentChannel) with i and j in the range, rows
    outermost; at its call for (i, j) every cursor stands
    (j - bj) * ((ei - bi) + s1) + (i - bi) voxels after its start, where the
    row stride s1 is the row width of the last image minus the width of the
    range, whatever the widths of the other two images: each finished row
    moves every cursor by s1 more than the row's own calls, that is by one row
    of the last image in all. A 3-D range traversal does the same per
    (i, j, k, currentChannel), pages outermost, each finished page moving every
    cursor by the plane stride s2 = (imageHeight - (ej - bj)) * imageWidth
    more, height and width being those of the last image. The cursor of the
    last image, when that is not empty, is the address of the voxel the call
    is for; so is the cursor of another image that is not empty when that
    image has the width (and, for 3-D, the height) of the last image. *)
Theorem range_strides_address_current_voxel
  (b : Body.t) (re2 : blocked_range2d) (re3 : blocked_range3d) :
  (* 2-D *)
  (let bi := rbegin (cols2 re2) in
   let bj := rbegin (rows2 re2) in
   let ei := rend (cols2 re2) in
   let ej := rend (rows2 re2) in
   let s1 := GetX (Body.im3 b) - (ei - bi) in
   let start := body_cursors b (fun im =>
                  GetPointerToVoxelsAt im bi bj (Body._k b) (Body._l b)) in
   let calls := Body.run_2d b re2 in
   calls = map (fun a => plain_call a
                  (advance (range_position (Body.im3 b) bi bj (Body._k b) a) start))
               (plane (Body._k b) (Body._l b) bj ej bi ei) /\
   map arguments calls = plane (Body._k b) (Body._l b) bj ej bi ei /\
   NoDup (map arguments calls) /\
   (forall i j, In (Coord i j (Body._k b) (Body._l b)) (map arguments calls)
                <-> bi <= i < ei /\ bj <= j < ej) /\
   forall inv, In inv calls ->
     exists i j,
       arguments inv = Coord i j (Body._k b) (Body._l b) /\
       bi <= i < ei /\ bj <= j < ej /\
       ptrs inv = advance ((j - bj) * ((ei - bi) + s1) + (i - bi)) start /\
       ptrs inv = advance ((j - bj) * GetX (Body.im3 b) + (i - bi)) start /\
       (IsEmpty (Body.im3 b) = false ->
        p3 (ptrs inv) = GetPointerToVoxelsAt (Body.im3 b) i j (Body._k b) (Body._l b)) /\
       (IsEmpty (Body.im1 b) = false -> GetX (Body.im1 b) = GetX (Body.im3 b) ->
        p1 (ptrs inv) = GetPointerToVoxelsAt (Body.im1 b) i j (Body._k b) (Body._l b)) /\
       (IsEmpty (Body.im2 b) = false -> GetX (Body.im2 b) = GetX (Body.im3 b) ->
        p2 (ptrs inv) = GetPointerToVoxelsAt (Body.im2 b) i j (Body._k b) (Body._l b))) /\
  (* 3-D *)
  (let bi := rbegin (cols re3) in
   let bj := rbegin (rows re3) in
   let bk := rbegin (pages re3) in
   let ei := rend (cols re3) in
   let ej := rend (rows re3) in
   let ek := rend (pages re3) in
   let s1 := GetX (Body.im3 b) - (ei - bi) in
   let s2 := (GetY (Body.im3 b) - (ej - bj)) * GetX (Body.im3 b) in
   let start := body_cursors b (fun im =>
                  GetPointerToVoxelsAt im bi bj bk (Body._l b)) in
   let calls := Body.run_3d b re3 in
   calls = map (fun a => plain_call a
                  (advance (range_position (Body.im3 b) bi bj bk a) start))
               (volume (Body._l b) bk ek bj ej bi ei) /\
   map arguments calls = volume (Body._l b) bk ek bj ej bi ei /\
   NoDup (map arguments calls) /\
   (forall i j k, In (Coord i j k (Body._l b)) (map arguments calls)
                  <-> bi <= i < ei /\ bj <= j < ej /\ bk <= k < ek) /\
   forall inv, In inv calls ->
     exists i j k,
       arguments inv = Coord i j k (Body._l b) /\
       bi <= i < ei /\ bj <= j < ej /\ bk <= k < ek /\
       ptrs inv = advance ((k - bk) * ((ej - bj) * ((ei - bi) + s1) + s2)
                           + (j - bj) * ((ei - bi) + s1) + (i - bi)) start /\
       ptrs inv = advance ((k - bk) * (GetY (Body.im3 b) * GetX (Body.im3 b))
                           + (j - bj) * GetX (Body.im3 b) + (i - bi)) start /\
       (IsEmpty (Body.im3 b) = false ->
        p3 (ptrs inv) = GetPointerToVoxelsAt (Body.im3 b) i j k (Body._l b)) /\
       (IsEmpty (Body.im1 b) = false ->
        GetX (Body.im1 b) = GetX (Body.im3 b) -> GetY (Body.im1 b) = GetY (Body.im3 b) ->
        p1 (ptrs inv) = GetPointerToVoxelsAt (Body.im1 b) i j k (Body._l b)) /\
       (IsEmpty (Body.im2 b) = false ->
        GetX (Body.im2 b) = GetX (Body.im3 b) -> GetY (Body.im2 b) = GetY (Body.im3 b) ->
        p2 (ptrs inv) = GetPointerToVoxelsAt (Body.im2 b) i j k (Body._l b))).
Proof.
  split.
  - cbv zeta. split; [apply run_2d_positions|].
    rewrite run_2d_arguments. split; [reflexivity|]. split; [|split].
    + eapply sorted_NoDup; [apply before_irrefl | apply sorted_plane].
    + intros i j. rewrite in_plane. split.
      * intros (i' & j' & E & Hi & Hj). injection E as -> ->. auto.
      * intros [Hi Hj]. eauto.
    + intros inv Hin. apply run_2d_strides in Hin as (i & j & Ha & Hi & Hj & Hp).
      cbv zeta in Hp. exists i, j. split; [exact Ha|].
      split; [exact Hi|]. split; [exact Hj|]. split; [exact Hp|].
      assert (Hq : ptrs inv
                   = advance ((j - rbegin (rows2 re2)) * GetX (Body.im3 b)
                              + (i - rbegin (cols2 re2)))
                       (body_cursors b (fun im =>
                          GetPointerToVoxelsAt im (rbegin (cols2 re2)) (rbegin (rows2 re2))
                                               (Body._k b) (Body._l b)))).
      { rewrite Hp. f_equal. ring. }
      split; [exact Hq|]. rewrite Hq. unfold body_cursors.
      match goal with |- context [advance ?d _] =>
        pose proof (cursor_of_nonempty (Body.im1 b) (Body.im2 b) (Body.im3 b)
          (fun im => GetPointerToVoxelsAt im (rbegin (cols2 re2)) (rbegin (rows2 re2))
                       (Body._k b) (Body._l b)) d) as (C1 & C2 & C3)
      end.
      cbv zeta in C1, C2, C3.
      split; [|split].
      * intros He. rewrite (C3 He). now apply row_offset.
      * intros He HX. rewrite (C1 He). now apply row_offset.
      * intros He HX. rewrite (C2 He). now apply row_offset.
  - cbv zeta. split; [apply run_3d_positions|].
    rewrite run_3d_arguments. split; [reflexivity|]. split; [|split].
    + eapply sorted_NoDup; [apply before_irrefl | apply sorted_volume].
    + intros i j k. rewrite in_volume. split.
      * intros (i' & j' & k' & E & Hi & Hj & Hk). injection E as -> -> ->. auto.
      * intros (Hi & Hj & Hk). eauto 8.
    + intros inv Hin. apply run_3d_strides in Hin as (i & j & k & Ha & Hi & Hj & Hk & Hp).
      cbv zeta in Hp. exists i, j, k. split; [exact Ha|].
      split; [exact Hi|]. split; [exact Hj|]. split; [exact Hk|]. split; [exact Hp|].
      assert (Hq : ptrs inv
                   = advance ((k - rbegin (pages re3)) * (GetY (Body.im3 b) * GetX (Body.im3 b))
                              + (j - rbegin (rows re3)) * GetX (Body.im3 b)
                              + (i - rbegin (cols re3)))
                       (body_cursors b (fun im =>
                          GetPointerToVoxelsAt im (rbegin (cols re3)) (rbegin (rows re3))
                                               (rbegin (pages re3)) (Body._l b)))).
      { rewrite Hp. f_equal. ring. }
      split; [exact Hq|]. rewrite Hq. unfold body_cursors.
      match goal with |- context [advance ?d _] =>
        pose proof (cursor_of_nonempty (Body.im1 b) (Body.im2 b) (Body.im3 b)
          (fun im => GetPointerToVoxelsAt im (rbegin (cols re3)) (rbegin (rows re3))
                       (rbegin (pages re3)) (Body._l b)) d) as (C1 & C2 & C3)
      end.
      cbv zeta in C1, C2, C3.
      split; [|split].
      * intros He. rewrite (C3 He). now apply voxel_offset.
      * intros He HX HY. rewrite (C1 He). now apply voxel_offset.
      * intros He HX HY. rewrite (C2 He). now apply voxel_offset.
Qed.

Lemma range_strides_address_current_voxel_witness :
  map (fun inv => (arguments inv, offset (p1 (ptrs inv)), offset (p3 (ptrs inv))))
      (Body.run_2d body_3x3x2 block_2d)
  = [(Coord 0 1 1 0, 12, 12); (Coord 1 1 1 0, 13, 13);
     (Coord 0 2 1 0, 15, 15); (Coord 1 2 1 0, 16, 16)] /\
  map (fun inv => (arguments inv, offset (p1 (ptrs inv)), offset (p3 (ptrs inv))))
      (Body.run_3d body_3x3x2 block_3d)
  = [(Coord 1 1 0 0, 4, 4); (Coord 1 2 0 0, 7, 7);
     (Coord 1 1 1 0, 13, 13); (Coord 1 2 1 0, 16, 16)].
Proof.
  pose proof (range_strides_address_current_voxel body_3x3x2 block_2d block_3d) as [H2 H3].
  split; [rewrite (proj1 H2) | rewrite (proj1 H3)]; reflexivity.
Defined.

(* ===================================================================== *)
(** ** Linear ranges *)
(* ===================================================================== *)

Lemma sorted_indices (im : irtkGenericImage) (b e : Z) :
  StronglySorted before (map (Index im) (interval b e)).
Proof.
  eapply sorted_map; [|apply sorted_interval]. intros a a' H. exact H.
Qed.

Lemma in_indices (f : Z -> args) (l : list invocation) (b e : Z) (inv : invocation) :
  map arguments l = map f (interval b e) ->
  In inv l -> exists idx, arguments inv = f idx /\ b <= idx < e.
Proof.
  intros Hl Hin. apply (in_map arguments) in Hin. rewrite Hl in Hin.
  apply in_map_iff in Hin as (idx & <- & Hidx). apply in_interval in Hidx. eauto.
Qed.

Lemma parallel_1d_arguments (sch : schedule) (vf : functor) (b : Body.t) (re : blocked_range) :
  map arguments (invocations (log_of
    (if IsReduction vf
     then Returns (parallel_reduce sch re (Body.run_1d b) Body_join) ;; ByReference.vf_join
     else Returns (parallel_for sch re (Body.run_1d b)))))
  = map (Index (Body.im3 b)) (interval (rbegin re) (rend re)).
Proof.
  destruct (IsReduction vf); simpl.
  - rewrite invocations_app. simpl. rewrite app_nil_r.
    apply parallel_reduce_1d_arguments; [reflexivity|]. intros. apply run_1d_arguments.
  - apply parallel_for_1d_arguments. intros. apply run_1d_arguments.
Qed.

Lemma parallel_if_1d_arguments (sch : schedule) (D : Domain) (vf of_ : functor)
  (b : IfBody.t) (re : blocked_range) :
  map arguments (invocations (log_of
    (if IsReduction vf || IsReduction of_
     then Returns (parallel_reduce sch re (IfBody.run_1d D b) IfBody_join) ;;
          ByReference.vf_join ;; ByReference.of_join
     else Returns (parallel_for sch re (IfBody.run_1d D b)))))
  = map (Index (IfBody.im3 b)) (interval (rbegin re) (rend re)).
Proof.
  destruct (IsReduction vf || IsReduction of_); simpl.
  - rewrite invocations_app. simpl. rewrite app_nil_r.
    apply parallel_reduce_1d_arguments; [reflexivity|]. intros. apply if_run_1d_arguments.
  - apply parallel_for_1d_arguments. intros. apply if_run_1d_arguments.
Qed.

Lemma sequential_arguments (calls : list invocation) (joined : result) :
  invocations (log_of joined) = [] ->
  (exists log, joined = Returns log) ->
  map arguments (invocations (log_of (run calls ;; joined))) = map arguments calls.
Proof.
  intros Hj [log ->]. simpl in *. rewrite invocations_app, invocations_Invoke, Hj.
  now rewrite app_nil_r.
Qed.

(** C10: a linear-range traversal, plain or predicated, calls the functor
    in its (image, index) form with the third image as the image argument,
    once for every index of the range, in increasing order from the begin of
    the range to its end. The sequential entry points over a linear range make
    exactly these calls in this order. In the parallel entry points every call
    is of this form, with the third image and an index of the range. *)
Theorem linear_range_passes_last_image_in_order
  (D : Domain) (re : blocked_range) (im1 im2 im3 : irtkGenericImage) (k0 l0 : Z) :
  let indices := map (Index im3) (interval (rbegin re) (rend re)) in
  StronglySorted before indices /\
  map arguments (Body.run_1d (ByReference.body k0 l0 im1 im2 im3) re) = indices /\
  map arguments (IfBody.run_1d D (ByReference.ifbody k0 l0 im1 im2 im3) re) = indices /\
  (forall vf,
      map arguments (invocations (log_of
        (ByPointer.ForEachVoxel_1d k0 l0 vf re im1 im2 im3))) = indices /\
      map arguments (invocations (log_of
        (ByReference.ForEachVoxel_1d k0 l0 vf re im1 im2 im3))) = indices) /\
  (forall vf of_,
      map arguments (invocations (log_of
        (ByPointer.ForEachVoxelIf_1d k0 l0 D vf of_ re im1 im2 im3))) = indices /\
      map arguments (invocations (log_of
        (ByReference.ForEachVoxelIf_1d k0 l0 D vf of_ re im1 im2 im3))) = indices) /\
  (forall sch vf inv,
      In inv (invocations (log_of
        (ByPointer.ParallelForEachVoxel_1d k0 l0 sch vf re im1 im2 im3))) \/
      In inv (invocations (log_of
        (ByReference.ParallelForEachVoxel_1d k0 l0 sch vf re im1 im2 im3))) ->
      exists idx, arguments inv = Index im3 idx /\ rbegin re <= idx < rend re) /\
  (forall sch vf of_ inv,
      In inv (invocations (log_of
        (ByPointer.ParallelForEachVoxelIf_1d k0 l0 sch D vf of_ re im1 im2 im3))) \/
      In inv (invocations (log_of
        (ByReference.ParallelForEachVoxelIf_1d k0 l0 sch D vf of_ re im1 im2 im3))) ->
      exists idx, arguments inv = Index im3 idx /\ rbegin re <= idx < rend re).
Proof.
  intros indices. split; [apply sorted_indices|].
  split; [apply run_1d_arguments|]. split; [apply if_run_1d_arguments|].
  split; [|split; [|split]].
  - intros vf. split;
      (etransitivity; [apply sequential_arguments; [reflexivity | eexists; reflexivity]
                      | apply run_1d_arguments]).
  - intros vf of_. split;
      (etransitivity; [apply sequential_arguments; [reflexivity | eexists; reflexivity]
                      | apply if_run_1d_arguments]).
  - intros sch vf inv H.
    apply (in_indices (Index im3) (invocations (log_of
             (ByReference.ParallelForEachVoxel_1d k0 l0 sch vf re im1 im2 im3)))).
    + apply (parallel_1d_arguments sch vf (ByReference.body k0 l0 im1 im2 im3) re).
    + destruct H as [H|H]; exact H.
  - intros sch vf of_ inv H.
    apply (in_indices (Index im3) (invocations (log_of
             (ByReference.ParallelForEachVoxelIf_1d k0 l0 sch D vf of_ re im1 im2 im3)))).
    + apply (parallel_if_1d_arguments sch D vf of_ (ByReference.ifbody k0 l0 im1 im2 im3) re).
    + destruct H as [H|H]; exact H.
Qed.

(* ===================================================================== *)
(** ** Entry points that take the functor by value *)
(* ===================================================================== *)

(** The guard of every by-value entry point: with a reduction the call
    ends in [exit(1)] after one line on [cerr] and nothing else; without one
    the entry point does what it delegates to. *)
Lemma guard_reduction (delegate : result) :
  when true _irtkforeachternaryvoxelfunction_must_not_be_reduction ;; delegate
  = _irtkforeachternaryvoxelfunction_must_not_be_reduction.
Proof. reflexivity. Qed.

Lemma guard_no_reduction (delegate : result) :
  when false _irtkforeachternaryvoxelfunction_must_not_be_reduction ;; delegate
  = delegate.
Proof. destruct delegate; reflexivity. Qed.

(** C1, at the failing input: the predicated sequential pass that takes
    two functors by value, a 3-D range and the images by pointer does not
    delegate to the by-reference implementation for a 3-D range. It passes on
    the images and functors without the range, so it runs the pass without a
    range: its result does not depend on the range it was given; asked for the
    first voxel of a 2-voxel image it calls the functor in the flat-index form
    for both voxels, where the by-reference implementation for a 3-D range,
    and the same entry point with the images by reference, call it once, for
    the coordinate (0, 0, 0). *)
Theorem by_value_3d_predicated_pass_drops_its_range :
  (forall k0 l0 fuel D vf of_ re re' im1 im2 im3,
      ByPointer.ForEachVoxelIf_3d_v k0 l0 fuel D vf of_ re im1 im2 im3
      = ByPointer.ForEachVoxelIf_3d_v k0 l0 fuel D vf of_ re' im1 im2 im3) /\
  map arguments (invocations (log_of
    (ByPointer.ForEachVoxelIf_3d_v 0 0 1 Always no_reduction no_reduction first_voxel
       image_vector_2x1 image_vector_2x1 image_vector_2x1)))
  = [Index image_vector_2x1 0; Index image_vector_2x1 1] /\
  map arguments (invocations (log_of
    (ByReference.ForEachVoxelIf_3d 0 0 Always no_reduction no_reduction first_voxel
       image_vector_2x1 image_vector_2x1 image_vector_2x1)))
  = [Coord 0 0 0 0] /\
  map arguments (invocations (log_of
    (ByReference.ForEachVoxelIf_3d_v 0 0 Always no_reduction no_reduction first_voxel
       image_vector_2x1 image_vector_2x1 image_vector_2x1)))
  = [Coord 0 0 0 0].
Proof. repeat split. Qed.

(* ===================================================================== *)
(** ** The parallel predicated pass without a range *)
(* ===================================================================== *)

Lemma ParallelForEachVoxelIf_loops (k0 l0 : Z) (sch : schedule) (D : Domain)
  (vf of_ : functor) (im1 im2 im3 : irtkGenericImage) :
  nonzero (GetTSize im3) = true ->
  forall fuel,
    ByReference.ParallelForEachVoxelIf k0 l0 fuel sch D vf of_ im1 im2 im3 = OutOfFuel.
Proof.
  intros Hdt. induction fuel as [|fuel IH]; simpl; [reflexivity|].
  rewrite Hdt. exact IH.
Qed.

(** C3, at the failing inputs: when the last image reports a nonzero
    temporal spacing, the parallel predicated pass without a range makes no
    functor call and does not return, with the images by reference or by
    pointer: the by-reference overload calls itself with its own arguments,
    and the by-pointer overload calls the by-reference one; whatever the fuel,
    the call chain is longer. [ParallelForEachScalarIf], which the pass would
    be expected to call, returns after one call per scalar element. *)
Theorem parallel_predicated_pass_on_time_series_never_returns
  (k0 l0 : Z) (fuel : nat) (sch : schedule) (D : Domain) (vf of_ : functor)
  (im1 im2 im3 : irtkGenericImage) :
  nonzero (GetTSize im3) = true ->
  ByReference.ParallelForEachVoxelIf k0 l0 fuel sch D vf of_ im1 im2 im3 = OutOfFuel /\
  ByPointer.ParallelForEachVoxelIf k0 l0 fuel sch D vf of_ im1 im2 im3 = OutOfFuel /\
  (exists log, ByPointer.ParallelForEachScalarIf k0 l0 sch D vf of_ im1 im2 im3
               = Returns log) /\
  map arguments (invocations (log_of
    (ByPointer.ParallelForEachScalarIf k0 l0 sch D vf of_ im1 im2 im3)))
  = map (Index im3) (interval 0 (GetNumberOfVoxels im3)).
Proof.
  intros Hdt. split; [|split; [|split]].
  - now apply ParallelForEachVoxelIf_loops.
  - unfold ByPointer.ParallelForEachVoxelIf. rewrite Hdt.
    now apply ParallelForEachVoxelIf_loops.
  - unfold ByPointer.ParallelForEachScalarIf.
    destruct (IsReduction vf || IsReduction of_); simpl; eexists; reflexivity.
  - apply (parallel_if_1d_arguments sch D vf of_ (ByReference.ifbody k0 l0 im1 im2 im3)
             {| rbegin := 0; rend := GetNumberOfVoxels im3 |}).
Qed.

Lemma parallel_predicated_pass_on_time_series_never_returns_witness :
  ByPointer.ParallelForEachVoxelIf 0 0 1000 Run Always no_reduction no_reduction
    image_2x1 image_2x1 image_2x1 = OutOfFuel.
Proof.
  exact (proj1 (proj2 (parallel_predicated_pass_on_time_series_never_returns
    0 0 1000 Run Always no_reduction no_reduction image_2x1 image_2x1 image_2x1 eq_refl))).
Defined.

(* ===================================================================== *)
(** ** The passes without a range *)
(* ===================================================================== *)

(** C4, counterexample: for a time series of 4 scalars in 2 frames the
    claim has the pass cover totalVoxels / sizeT = 2 elements, and the
    program covers all 4; for the same data as 2-vectors the claim has it
    cover 4 elements, and the program covers 2. *)
Lemma rangeless_pass_extents_are_swapped :
  (claimed_elements image_series = 2 /\
   map arguments (invocations (log_of
     (ByPointer.ForEachVoxel 0 0 no_reduction image_series image_series image_series)))
   = map (Index image_series) [0; 1; 2; 3] /\
   map arguments (invocations (log_of
     (ByPointer.ParallelForEachVoxel 0 0 Run no_reduction
        image_series image_series image_series)))
   = map (Index image_series) [0; 1; 2; 3]) /\
  (claimed_elements image_vectors = 4 /\
   map arguments (invocations (log_of
     (ByPointer.ForEachVoxel 0 0 no_reduction image_vectors image_vectors image_vectors)))
   = map (Index image_vectors) [0; 1] /\
   map arguments (invocations (log_of
     (ByPointer.ParallelForEachVoxel 0 0 Run no_reduction
        image_vectors image_vectors image_vectors)))
   = map (Index image_vectors) [0; 1]).
Proof. repeat split. Qed.

Lemma rangeless_sequential (k0 l0 : Z) (vf : functor) (im1 im2 im3 : irtkGenericImage) :
  ByReference.ForEachVoxel k0 l0 vf im1 im2 im3
  = ByPointer.ForEachVoxel k0 l0 vf im1 im2 im3 /\
  match elements im3 with
  | Some n =>
      (exists log, ByPointer.ForEachVoxel k0 l0 vf im1 im2 im3 = Returns log) /\
      map arguments (invocations (log_of (ByPointer.ForEachVoxel k0 l0 vf im1 im2 im3)))
      = map (Index im3) (interval 0 n)
  | None => ByPointer.ForEachVoxel k0 l0 vf im1 im2 im3 = Undefined []
  end.
Proof.
  split; [reflexivity|].
  unfold elements, ByPointer.ForEachVoxel, ByReference.ForEachScalar.
  destruct (nonzero (GetTSize im3)).
  - split; [eexists; reflexivity|].
    etransitivity; [apply sequential_arguments; [reflexivity | eexists; reflexivity]|].
    apply run_1d_arguments.
  - destruct (int_div (GetNumberOfVoxels im3) (GetT im3)) as [n|]; [|reflexivity].
    split; [eexists; reflexivity|].
    etransitivity; [apply sequential_arguments; [reflexivity | eexists; reflexivity]|].
    apply run_1d_arguments.
Qed.

Lemma rangeless_parallel (k0 l0 : Z) (sch : schedule) (vf : functor)
  (im1 im2 im3 : irtkGenericImage) :
  ByReference.ParallelForEachVoxel k0 l0 sch vf im1 im2 im3
  = ByPointer.ParallelForEachVoxel k0 l0 sch vf im1 im2 im3 /\
  match elements im3 with
  | Some n =>
      (exists log, ByPointer.ParallelForEachVoxel k0 l0 sch vf im1 im2 im3 = Returns log) /\
      map arguments (invocations (log_of
        (ByPointer.ParallelForEachVoxel k0 l0 sch vf im1 im2 im3)))
      = map (Index im3) (interval 0 n)
  | None => ByPointer.ParallelForEachVoxel k0 l0 sch vf im1 im2 im3 = Undefined []
  end.
Proof.
  split; [reflexivity|].
  unfold elements, ByPointer.ParallelForEachVoxel, ByReference.ParallelForEachScalar.
  destruct (nonzero (GetTSize im3)).
  - split; [destruct (IsReduction vf); eexists; reflexivity|].
    apply (parallel_1d_arguments sch vf (ByReference.body k0 l0 im1 im2 im3)
             {| rbegin := 0; rend := GetNumberOfVoxels im3 |}).
  - destruct (int_div (GetNumberOfVoxels im3) (GetT im3)) as [n|]; [|reflexivity].
    split; [destruct (IsReduction vf); eexists; reflexivity|].
    apply (parallel_1d_arguments sch vf (ByReference.body k0 l0 im1 im2 im3)
             {| rbegin := 0; rend := n |}).
Qed.

(** C4, amended: a [ForEachVoxel] or [ParallelForEachVoxel] call without a
    range makes one linear-range pass in the flat-index call form on the last
    image, over all totalVoxels elements when the last image reports a nonzero
    temporal spacing, and over totalVoxels / sizeT elements when it reports a
    zero one (with sizeT = 0 the division is undefined and no functor call is
    made). The number of elements depends on the last image alone, and each
    call makes a single pass over a single extent. With the images by
    reference the pass is the same. *)
Theorem rangeless_pass_extent (k0 l0 : Z) (sch : schedule) (vf : functor)
  (im1 im2 im3 : irtkGenericImage) :
  elements im3
  = (if nonzero (GetTSize im3)
     then Some (GetNumberOfVoxels im3)
     else if GetT im3 =? 0 then None
          else Some (Z.quot (GetNumberOfVoxels im3) (GetT im3))) /\
  ByReference.ForEachVoxel k0 l0 vf im1 im2 im3
  = ByPointer.ForEachVoxel k0 l0 vf im1 im2 im3 /\
  ByReference.ParallelForEachVoxel k0 l0 sch vf im1 im2 im3
  = ByPointer.ParallelForEachVoxel k0 l0 sch vf im1 im2 im3 /\
  match elements im3 with
  | Some n =>
      (exists log, ByPointer.ForEachVoxel k0 l0 vf im1 im2 im3 = Returns log) /\
      map arguments (invocations (log_of (ByPointer.ForEachVoxel k0 l0 vf im1 im2 im3)))
      = map (Index im3) (interval 0 n) /\
      (exists log, ByPointer.ParallelForEachVoxel k0 l0 sch vf im1 im2 im3 = Returns log) /\
      map arguments (invocations (log_of
        (ByPointer.ParallelForEachVoxel k0 l0 sch vf im1 im2 im3)))
      = map (Index im3) (interval 0 n)
  | None =>
      ByPointer.ForEachVoxel k0 l0 vf im1 im2 im3 = Undefined [] /\
      ByPointer.ParallelForEachVoxel k0 l0 sch vf im1 im2 im3 = Undefined []
  end.
Proof.
  pose proof (rangeless_sequential k0 l0 vf im1 im2 im3) as [Hs1 Hs2].
  pose proof (rangeless_parallel k0 l0 sch vf im1 im2 im3) as [Hp1 Hp2].
  split; [reflexivity|]. split; [exact Hs1|]. split; [exact Hp1|].
  destruct (elements im3) as [n|].
  - destruct Hs2 as [Hs2 Hs3], Hp2 as [Hp2 Hp3]. auto.
  - auto.
Qed.

(* ===================================================================== *)
(** ** Calls of join *)
(* ===================================================================== *)

Lemma concat_repeat_single {A : Type} (x : A) (n : nat) :
  List.concat (repeat [x] n) = repeat x n.
Proof. induction n; simpl; congruence. Qed.

(** C5, counterexample: the sequential scalar pass over a 2-voxel image
    calls [join] on the caller's functor although the functor is not a
    reduction; the parallel predicated scalar pass with a reduction as inside
    functor calls [join] on the outside functor too, which is not one. *)
Lemma join_is_called_on_functors_that_are_no_reductions :
  IsReduction no_reduction = false /\
  joins (log_of (ByPointer.ForEachScalar 0 0 no_reduction image_2x1 image_2x1 image_2x1))
  = [(VoxelFunc, CallersFunctor)] /\
  joins (log_of (ByPointer.ParallelForEachScalarIf 0 0 Run Always reduction no_reduction
                   image_2x1 image_2x1 image_2x1))
  = [(VoxelFunc, CallersFunctor); (OutsideFunc, CallersFunctor)].
Proof. repeat split. Qed.

Lemma skip_andthen (r : result) : Returns [] ;; r = r.
Proof. destruct r; reflexivity. Qed.

Lemma For_append {A : Type} (F : Z -> list A) (b e : Z) (init : list A) :
  For b e (fun l log => log ++ F l) init = init ++ flat_map F (interval b e).
Proof.
  unfold For, interval. generalize (Z.to_nat (e - b)) as n. intros n. revert b init.
  induction n as [|n IH]; intros b init; simpl.
  - now rewrite app_nil_r.
  - now rewrite IH, <- app_assoc.
Qed.

Lemma joins_flat_map {A : Type} (F : A -> list event) (l : list A) :
  joins (flat_map F l) = flat_map (fun a => joins (F a)) l.
Proof.
  induction l as [|a l IH]; simpl; [reflexivity|]. now rewrite joins_app, IH.
Qed.

Lemma ForEachVoxelIf_loops (k0 l0 : Z) (D : Domain) (vf of_ : functor)
  (im1 im2 im3 : irtkGenericImage) :
  nonzero (GetTSize im3) = true ->
  forall fuel, ByReference.ForEachVoxelIf k0 l0 fuel D vf of_ im1 im2 im3 = OutOfFuel.
Proof.
  intros Hdt. induction fuel as [|fuel IH]; simpl; [reflexivity|].
  rewrite Hdt. exact IH.
Qed.

Lemma joins_scheduled {R : Type} `{Splittable R} (c : bool) (sch : schedule) (re : R)
  (body : R -> list invocation) (J joined : list event) :
  joins (if c then parallel_reduce sch re body J ++ joined else parallel_for sch re body)
  = if c then List.concat (repeat (joins J) (forks sch re)) ++ joins joined else [].
Proof.
  destruct c.
  - now rewrite joins_app, joins_parallel_reduce.
  - apply joins_parallel_for.
Qed.

Lemma joins_scheduled_frames {R : Type} `{Splittable R} (c : bool) (sch : Z -> schedule)
  (re : R) (body : Z -> R -> list invocation) (J joined : list event) (frames : list Z) :
  joins (if c
         then flat_map (fun l => parallel_reduce (sch l) re (body l) J) frames ++ joined
         else flat_map (fun l => parallel_for (sch l) re (body l)) frames)
  = if c
    then flat_map (fun l => List.concat (repeat (joins J) (forks (sch l) re))) frames
         ++ joins joined
    else [].
Proof.
  destruct c.
  - rewrite joins_app, joins_flat_map. f_equal.
    apply flat_map_ext. intros l. apply joins_parallel_reduce.
  - rewrite joins_flat_map.
    induction frames as [|l ls IH]; simpl; [reflexivity|].
    now rewrite joins_parallel_for, IH.
Qed.

(** The result of a pass, by cases on what its control flow depends on. *)
Ltac pass_cases :=
  cbv beta zeta iota delta [ByReference.body ByReference.ifbody ByReference.vf_join ByReference.of_join ByReference.ForEachScalar ByReference.ForEachVoxel ByReference.ForEachVoxel_attr ByReference.ForEachVoxel_1d ByReference.ForEachVoxel_2d ByReference.ForEachVoxel_3d ByReference.ForEachScalarIf ByReference.ForEachScalarIf_nop ByReference.ForEachVoxelIf_nop ByReference.ForEachVoxelIf_attr ByReference.ForEachVoxelIf_attr_nop ByReference.ForEachVoxelIf_1d ByReference.ForEachVoxelIf_2d ByReference.ForEachVoxelIf_2d_nop ByReference.ForEachVoxelIf_3d ByReference.ForEachVoxelIf_3d_nop ByReference.set_l ByReference.if_set_l ByReference.ParallelForEachScalar ByReference.ParallelForEachVoxel ByReference.ParallelForEachVoxel_attr ByReference.ParallelForEachVoxel_1d ByReference.ParallelForEachVoxel_2d ByReference.ParallelForEachVoxel_3d ByReference.ParallelForEachScalarIf ByReference.ParallelForEachScalarIf_nop ByReference.ParallelForEachVoxelIf_nop ByReference.ParallelForEachVoxelIf_attr ByReference.ParallelForEachVoxelIf_attr_nop ByReference.ParallelForEachVoxelIf_1d ByReference.ParallelForEachVoxelIf_1d_nop ByReference.ParallelForEachVoxelIf_2d ByReference.ParallelForEachVoxelIf_2d_nop ByReference.ParallelForEachVoxelIf_3d ByReference.ParallelForEachVoxelIf_3d_nop ByPointer.body ByPointer.ifbody ByPointer.vf_join ByPointer.of_join ByPointer.ForEachScalar ByPointer.ForEachVoxel ByPointer.ForEachVoxel_attr ByPointer.ForEachVoxel_1d ByPointer.ForEachVoxel_2d ByPointer.ForEachVoxel_3d ByPointer.ForEachScalarIf ByPointer.ForEachScalarIf_nop ByPointer.ForEachVoxelIf ByPointer.ForEachVoxelIf_nop ByPointer.ForEachVoxelIf_attr ByPointer.ForEachVoxelIf_attr_nop ByPointer.ForEachVoxelIf_1d ByPointer.ForEachVoxelIf_2d ByPointer.ForEachVoxelIf_2d_nop ByPointer.ForEachVoxelIf_3d ByPointer.ForEachVoxelIf_3d_nop ByPointer.ParallelForEachScalar ByPointer.ParallelForEachVoxel ByPointer.ParallelForEachVoxel_attr ByPointer.ParallelForEachVoxel_1d ByPointer.ParallelForEachVoxel_2d ByPointer.ParallelForEachVoxel_3d ByPointer.ParallelForEachScalarIf ByPointer.ParallelForEachScalarIf_nop ByPointer.ParallelForEachVoxelIf ByPointer.ParallelForEachVoxelIf_nop ByPointer.ParallelForEachVoxelIf_attr ByPointer.ParallelForEachVoxelIf_attr_nop ByPointer.ParallelForEachVoxelIf_1d ByPointer.ParallelForEachVoxelIf_1d_nop ByPointer.ParallelForEachVoxelIf_2d ByPointer.ParallelForEachVoxelIf_2d_nop ByPointer.ParallelForEachVoxelIf_3d ByPointer.ParallelForEachVoxelIf_3d_nop
    ByReference.vf_join ByReference.of_join ByPointer.vf_join ByPointer.of_join
    joined_once joined_both scheduled_once scheduled_both scheduled_frames_once
    scheduled_frames_both over_elements elements frames_of full_range run andthen];
  repeat match goal with
         | |- context [IsReduction ?f] => is_var f; destruct (IsReduction f)
         | |- context [nonzero ?d] => destruct (nonzero d)
         | |- context [int_div ?x ?y] => destruct (int_div x y)
         end;
  cbv beta iota delta [orb andthen];
  rewrite ?For_append; cbn [flat_map]; rewrite ?app_nil_r;
  reflexivity.

Ltac self_calling_pass loops :=
  match goal with
  | |- context [nonzero ?d] =>
      destruct (nonzero d) eqn:Hdt;
      [ cbv beta zeta delta [ByPointer.ForEachVoxelIf_nop ByReference.ForEachVoxelIf_nop
                             ByPointer.ParallelForEachVoxelIf_nop
                             ByReference.ParallelForEachVoxelIf_nop
                             ByPointer.ParallelForEachVoxelIf];
        rewrite ?Hdt; now apply loops
      | cbv beta zeta delta [ByPointer.ForEachVoxelIf_nop ByReference.ForEachVoxelIf_nop
                             ByPointer.ParallelForEachVoxelIf_nop
                             ByReference.ParallelForEachVoxelIf_nop
                             ByPointer.ParallelForEachVoxelIf
                             over_elements elements];
        cbn [ByReference.ForEachVoxelIf ByReference.ParallelForEachVoxelIf];
        rewrite ?Hdt; pass_cases ]
  end.

(** C5, amended: the calls of [join] of every pass. A sequential pass that
    takes its functor(s) by reference and returns has made its functor calls
    and then called [join] on the caller's functor exactly once, whatever
    [IsReduction()] says; a predicated pass has called it on the caller's
    inside functor and then on the caller's outside functor. A parallel pass
    that takes its functor(s) by reference and returns has called [join] only
    when [IsReduction()] is true of its functor (a predicated pass: of either
    functor, and then every [join] is made for both): the scheduler joins the
    functor copies of the bodies once per pair of sibling partitions, after
    the calls of both, and the pass joins the caller's functor(s) once more,
    last; the parallel pass over a whole domain with a nonzero temporal
    spacing calls the scheduler once per frame and joins the caller's
    functor(s) once, after the last frame; when no functor is a reduction a
    parallel pass calls no [join]. A pass that takes its functor(s) by value
    ends in [exit(1)] without a functor call or a [join] when a functor is a
    reduction, and is otherwise the pass by reference that its body calls.
    The passes that do not return call no [join]: a pass without a range
    divides by zero when the last image has a zero temporal spacing and
    sizeT = 0, and on a last image with a nonzero temporal spacing
    [ForEachVoxelIf] without a range (a single functor, or the images by
    reference) and [ParallelForEachVoxelIf] without a range call themselves
    without end. *)
Theorem join_calls_of_every_pass (k0 l0 : Z) (D : Domain) (vf of_ : functor)
  (im1 im2 im3 : irtkGenericImage) :
  let b := ByReference.body k0 l0 im1 im2 im3 in
  let ib := ByReference.ifbody k0 l0 im1 im2 im3 in
  let all := {| rbegin := 0; rend := GetNumberOfVoxels im3 |} in
  let either := IsReduction vf || IsReduction of_ in
  let once := [(VoxelFunc, CallersFunctor)] in
  let both := [(VoxelFunc, CallersFunctor); (OutsideFunc, CallersFunctor)] in
  let pair := [(VoxelFunc, BodysFunctor)] in
  let pairs := [(VoxelFunc, BodysFunctor); (OutsideFunc, BodysFunctor)] in
  (* the scheduler *)
  (forall (R : Type) (S : Splittable R) (sch : schedule) (re : R)
          (body : R -> list invocation) (J : list event),
      joins (parallel_for sch re body) = [] /\
      joins (parallel_reduce sch re body J) = List.concat (repeat (joins J) (forks sch re)) /\
      parallel_reduce Run re body J = map Invoke (body re) /\
      forall axis m l r re1 re2,
        split_at axis m re = Some (re1, re2) ->
        parallel_reduce (Fork axis m l r) re body J
        = parallel_reduce l re1 body J ++ parallel_reduce r re2 body J ++ J /\
        forks (Fork axis m l r) re = Datatypes.S (forks l re1 + forks r re2)) /\
  (* the join calls of a pass that returned *)
  ((forall calls, joins (log_of (joined_once calls)) = once) /\
   (forall calls, joins (log_of (joined_both calls)) = both) /\
   (forall (R : Type) (S : Splittable R) c sch (re : R) body,
       joins (log_of (scheduled_once c sch re body))
       = (if c then List.concat (repeat pair (forks sch re)) ++ once else []) /\
       joins (log_of (scheduled_both c sch re body))
       = (if c then List.concat (repeat pairs (forks sch re)) ++ both else [])) /\
   (forall (R : Type) (S : Splittable R) c schl (re : R) body frames,
       joins (log_of (scheduled_frames_once c schl re body frames))
       = (if c
          then flat_map (fun l => List.concat (repeat pair (forks (schl l) re))) frames ++ once
          else []) /\
       joins (log_of (scheduled_frames_both c schl re body frames))
       = (if c
          then flat_map (fun l => List.concat (repeat pairs (forks (schl l) re))) frames ++ both
          else []))) /\
  (* sequential passes, functor(s) by reference *)
  (forall (fuel : nat) (attr : irtkImageAttributes) (re1 : blocked_range)
          (re2 : blocked_range2d) (re3 : blocked_range3d),
   ByReference.ForEachScalar k0 l0 vf im1 im2 im3
   = joined_once (Body.run_1d b all) /\
   ByReference.ForEachVoxel k0 l0 vf im1 im2 im3
   = over_elements im3 (fun re => joined_once (Body.run_1d b re)) /\
   ByReference.ForEachVoxel_attr k0 l0 vf attr im1 im2 im3
   = joined_once (Body.run_attr b attr) /\
   ByReference.ForEachVoxel_1d k0 l0 vf re1 im1 im2 im3
   = joined_once (Body.run_1d b re1) /\
   ByReference.ForEachVoxel_2d k0 l0 vf re2 im1 im2 im3
   = joined_once (Body.run_2d b re2) /\
   ByReference.ForEachVoxel_3d k0 l0 vf re3 im1 im2 im3
   = joined_once (Body.run_3d b re3) /\
   ByReference.ForEachScalarIf k0 l0 D vf of_ im1 im2 im3
   = joined_both (IfBody.run_1d D ib all) /\
   ByReference.ForEachScalarIf_nop k0 l0 D vf im1 im2 im3
   = joined_both (IfBody.run_1d D ib all) /\
   ByReference.ForEachVoxelIf k0 l0 (S fuel) D vf of_ im1 im2 im3
   = (if nonzero (GetTSize im3) then OutOfFuel
      else over_elements im3 (fun re => joined_both (IfBody.run_1d D ib re))) /\
   ByReference.ForEachVoxelIf_nop k0 l0 (S fuel) D vf im1 im2 im3
   = (if nonzero (GetTSize im3) then OutOfFuel
      else over_elements im3 (fun re => joined_both (IfBody.run_1d D ib re))) /\
   ByReference.ForEachVoxelIf_attr k0 l0 D vf of_ attr im1 im2 im3
   = joined_both (IfBody.run_attr D ib attr) /\
   ByReference.ForEachVoxelIf_attr_nop k0 l0 D vf attr im1 im2 im3
   = joined_both (IfBody.run_attr D ib attr) /\
   ByReference.ForEachVoxelIf_1d k0 l0 D vf of_ re1 im1 im2 im3
   = joined_both (IfBody.run_1d D ib re1) /\
   ByReference.ForEachVoxelIf_2d k0 l0 D vf of_ re2 im1 im2 im3
   = joined_both (IfBody.run_2d D ib re2) /\
   ByReference.ForEachVoxelIf_2d_nop k0 l0 D vf re2 im1 im2 im3
   = joined_both (IfBody.run_2d D ib re2) /\
   ByReference.ForEachVoxelIf_3d k0 l0 D vf of_ re3 im1 im2 im3
   = joined_both (IfBody.run_3d D ib re3) /\
   ByReference.ForEachVoxelIf_3d_nop k0 l0 D vf re3 im1 im2 im3
   = joined_both (IfBody.run_3d D ib re3) /\
   ByPointer.ForEachScalar k0 l0 vf im1 im2 im3
   = joined_once (Body.run_1d b all) /\
   ByPointer.ForEachVoxel k0 l0 vf im1 im2 im3
   = over_elements im3 (fun re => joined_once (Body.run_1d b re)) /\
   ByPointer.ForEachVoxel_attr k0 l0 vf attr im1 im2 im3
   = joined_once (Body.run_attr b attr) /\
   ByPointer.ForEachVoxel_1d k0 l0 vf re1 im1 im2 im3
   = joined_once (Body.run_1d b re1) /\
   ByPointer.ForEachVoxel_2d k0 l0 vf re2 im1 im2 im3
   = joined_once (Body.run_2d b re2) /\
   ByPointer.ForEachVoxel_3d k0 l0 vf re3 im1 im2 im3
   = joined_once (Body.run_3d b re3) /\
   ByPointer.ForEachScalarIf k0 l0 D vf of_ im1 im2 im3
   = joined_both (IfBody.run_1d D ib all) /\
   ByPointer.ForEachScalarIf_nop k0 l0 D vf im1 im2 im3
   = joined_both (IfBody.run_1d D ib all) /\
   ByPointer.ForEachVoxelIf k0 l0 D vf of_ im1 im2 im3
   = over_elements im3 (fun re => joined_both (IfBody.run_1d D ib re)) /\
   ByPointer.ForEachVoxelIf_nop k0 l0 (S fuel) D vf im1 im2 im3
   = (if nonzero (GetTSize im3) then OutOfFuel
      else over_elements im3 (fun re => joined_both (IfBody.run_1d D ib re))) /\
   ByPointer.ForEachVoxelIf_attr k0 l0 D vf of_ attr im1 im2 im3
   = joined_both (IfBody.run_attr D ib attr) /\
   ByPointer.ForEachVoxelIf_attr_nop k0 l0 D vf attr im1 im2 im3
   = joined_both (IfBody.run_attr D ib attr) /\
   ByPointer.ForEachVoxelIf_1d k0 l0 D vf of_ re1 im1 im2 im3
   = joined_both (IfBody.run_1d D ib re1) /\
   ByPointer.ForEachVoxelIf_2d k0 l0 D vf of_ re2 im1 im2 im3
   = joined_both (IfBody.run_2d D ib re2) /\
   ByPointer.ForEachVoxelIf_2d_nop k0 l0 D vf re2 im1 im2 im3
   = joined_both (IfBody.run_2d D ib re2) /\
   ByPointer.ForEachVoxelIf_3d k0 l0 D vf of_ re3 im1 im2 im3
   = joined_both (IfBody.run_3d D ib re3) /\
   ByPointer.ForEachVoxelIf_3d_nop k0 l0 D vf re3 im1 im2 im3
   = joined_both (IfBody.run_3d D ib re3)) /\
  (* parallel passes, functor(s) by reference *)
  (forall (fuel : nat) (sch : schedule) (schl : Z -> schedule) (attr : irtkImageAttributes)
          (re1 : blocked_range) (re2 : blocked_range2d) (re3 : blocked_range3d),
   ByReference.ParallelForEachScalar k0 l0 sch vf im1 im2 im3
   = scheduled_once (IsReduction vf) sch all (Body.run_1d b) /\
   ByReference.ParallelForEachVoxel k0 l0 sch vf im1 im2 im3
   = over_elements im3 (fun re => scheduled_once (IsReduction vf) sch re (Body.run_1d b)) /\
   ByReference.ParallelForEachVoxel_attr k0 l0 schl vf attr im1 im2 im3
   = scheduled_frames_once (IsReduction vf) schl (full_range attr)
       (fun l => Body.run_3d (ByReference.set_l b l)) (frames_of attr l0) /\
   ByReference.ParallelForEachVoxel_1d k0 l0 sch vf re1 im1 im2 im3
   = scheduled_once (IsReduction vf) sch re1 (Body.run_1d b) /\
   ByReference.ParallelForEachVoxel_2d k0 l0 sch vf re2 im1 im2 im3
   = scheduled_once (IsReduction vf) sch re2 (Body.run_2d b) /\
   ByReference.ParallelForEachVoxel_3d k0 l0 sch vf re3 im1 im2 im3
   = scheduled_once (IsReduction vf) sch re3 (Body.run_3d b) /\
   ByReference.ParallelForEachScalarIf k0 l0 sch D vf of_ im1 im2 im3
   = scheduled_both either sch all (IfBody.run_1d D ib) /\
   ByReference.ParallelForEachScalarIf_nop k0 l0 sch D vf im1 im2 im3
   = scheduled_both (IsReduction vf) sch all (IfBody.run_1d D ib) /\
   ByReference.ParallelForEachVoxelIf k0 l0 (S fuel) sch D vf of_ im1 im2 im3
   = (if nonzero (GetTSize im3) then OutOfFuel
      else over_elements im3 (fun re => scheduled_both either sch re (IfBody.run_1d D ib))) /\
   ByReference.ParallelForEachVoxelIf_nop k0 l0 (S fuel) sch D vf im1 im2 im3
   = (if nonzero (GetTSize im3) then OutOfFuel
      else over_elements im3 (fun re => scheduled_both (IsReduction vf) sch re (IfBody.run_1d D ib))) /\
   ByReference.ParallelForEachVoxelIf_attr k0 l0 schl D vf of_ attr im1 im2 im3
   = scheduled_frames_both either schl (full_range attr)
       (fun l => IfBody.run_3d D (ByReference.if_set_l ib l)) (frames_of attr l0) /\
   ByReference.ParallelForEachVoxelIf_attr_nop k0 l0 schl D vf attr im1 im2 im3
   = scheduled_frames_both (IsReduction vf) schl (full_range attr)
       (fun l => IfBody.run_3d D (ByReference.if_set_l ib l)) (frames_of attr l0) /\
   ByReference.ParallelForEachVoxelIf_1d k0 l0 sch D vf of_ re1 im1 im2 im3
   = scheduled_both either sch re1 (IfBody.run_1d D ib) /\
   ByReference.ParallelForEachVoxelIf_1d_nop k0 l0 sch D vf re1 im1 im2 im3
   = scheduled_both (IsReduction vf) sch re1 (IfBody.run_1d D ib) /\
   ByReference.ParallelForEachVoxelIf_2d k0 l0 sch D vf of_ re2 im1 im2 im3
   = scheduled_both either sch re2 (IfBody.run_2d D ib) /\
   ByReference.ParallelForEachVoxelIf_2d_nop k0 l0 sch D vf re2 im1 im2 im3
   = scheduled_both (IsReduction vf) sch re2 (IfBody.run_2d D ib) /\
   ByReference.ParallelForEachVoxelIf_3d k0 l0 sch D vf of_ re3 im1 im2 im3
   = scheduled_both either sch re3 (IfBody.run_3d D ib) /\
   ByReference.ParallelForEachVoxelIf_3d_nop k0 l0 sch D vf re3 im1 im2 im3
   = scheduled_both (IsReduction vf) sch re3 (IfBody.run_3d D ib) /\
   ByPointer.ParallelForEachScalar k0 l0 sch vf im1 im2 im3
   = scheduled_once (IsReduction vf) sch all (Body.run_1d b) /\
   ByPointer.ParallelForEachVoxel k0 l0 sch vf im1 im2 im3
   = over_elements im3 (fun re => scheduled_once (IsReduction vf) sch re (Body.run_1d b)) /\
   ByPointer.ParallelForEachVoxel_attr k0 l0 schl vf attr im1 im2 im3
   = scheduled_frames_once (IsReduction vf) schl (full_range attr)
       (fun l => Body.run_3d (ByReference.set_l b l)) (frames_of attr l0) /\
   ByPointer.ParallelForEachVoxel_1d k0 l0 sch vf re1 im1 im2 im3
   = scheduled_once (IsReduction vf) sch re1 (Body.run_1d b) /\
   ByPointer.ParallelForEachVoxel_2d k0 l0 sch vf re2 im1 im2 im3
   = scheduled_once (IsReduction vf) sch re2 (Body.run_2d b) /\
   ByPointer.ParallelForEachVoxel_3d k0 l0 sch vf re3 im1 im2 im3
   = scheduled_once (IsReduction vf) sch re3 (Body.run_3d b) /\
   ByPointer.ParallelForEachScalarIf k0 l0 sch D vf of_ im1 im2 im3
   = scheduled_both either sch all (IfBody.run_1d D ib) /\
   ByPointer.ParallelForEachScalarIf_nop k0 l0 sch D vf im1 im2 im3
   = scheduled_both (IsReduction vf) sch all (IfBody.run_1d D ib) /\
   ByPointer.ParallelForEachVoxelIf k0 l0 fuel sch D vf of_ im1 im2 im3
   = (if nonzero (GetTSize im3) then OutOfFuel
      else over_elements im3 (fun re => scheduled_both either sch re (IfBody.run_1d D ib))) /\
   ByPointer.ParallelForEachVoxelIf_nop k0 l0 (S fuel) sch D vf im1 im2 im3
   = (if nonzero (GetTSize im3) then OutOfFuel
      else over_elements im3 (fun re => scheduled_both (IsReduction vf) sch re (IfBody.run_1d D ib))) /\
   ByPointer.ParallelForEachVoxelIf_attr k0 l0 schl D vf of_ attr im1 im2 im3
   = scheduled_frames_both either schl (full_range attr)
       (fun l => IfBody.run_3d D (ByReference.if_set_l ib l)) (frames_of attr l0) /\
   ByPointer.ParallelForEachVoxelIf_attr_nop k0 l0 schl D vf attr im1 im2 im3
   = scheduled_frames_both (IsReduction vf) schl (full_range attr)
       (fun l => IfBody.run_3d D (ByReference.if_set_l ib l)) (frames_of attr l0) /\
   ByPointer.ParallelForEachVoxelIf_1d k0 l0 sch D vf of_ re1 im1 im2 im3
   = scheduled_both either sch re1 (IfBody.run_1d D ib) /\
   ByPointer.ParallelForEachVoxelIf_1d_nop k0 l0 sch D vf re1 im1 im2 im3
   = scheduled_both (IsReduction vf) sch re1 (IfBody.run_1d D ib) /\
   ByPointer.ParallelForEachVoxelIf_2d k0 l0 sch D vf of_ re2 im1 im2 im3
   = scheduled_both either sch re2 (IfBody.run_2d D ib) /\
   ByPointer.ParallelForEachVoxelIf_2d_nop k0 l0 sch D vf re2 im1 im2 im3
   = scheduled_both (IsReduction vf) sch re2 (IfBody.run_2d D ib) /\
   ByPointer.ParallelForEachVoxelIf_3d k0 l0 sch D vf of_ re3 im1 im2 im3
   = scheduled_both either sch re3 (IfBody.run_3d D ib) /\
   ByPointer.ParallelForEachVoxelIf_3d_nop k0 l0 sch D vf re3 im1 im2 im3
   = scheduled_both (IsReduction vf) sch re3 (IfBody.run_3d D ib)) /\
  (* functor(s) by value *)
  (forall (fuel : nat) (sch : schedule) (schl : Z -> schedule) (attr : irtkImageAttributes)
          (re1 : blocked_range) (re2 : blocked_range2d) (re3 : blocked_range3d),
   ByReference.ForEachScalar_v k0 l0 vf im1 im2 im3
   = (if IsReduction vf
      then _irtkforeachternaryvoxelfunction_must_not_be_reduction
      else ByReference.ForEachScalar k0 l0 vf im1 im2 im3) /\
   ByReference.ForEachVoxel_v k0 l0 vf im1 im2 im3
   = (if IsReduction vf
      then _irtkforeachternaryvoxelfunction_must_not_be_reduction
      else ByReference.ForEachVoxel k0 l0 vf im1 im2 im3) /\
   ByReference.ForEachVoxel_attr_v k0 l0 vf attr im1 im2 im3
   = (if IsReduction vf
      then _irtkforeachternaryvoxelfunction_must_not_be_reduction
      else ByReference.ForEachVoxel_attr k0 l0 vf attr im1 im2 im3) /\
   ByReference.ForEachVoxel_1d_v k0 l0 vf re1 im1 im2 im3
   = (if IsReduction vf
      then _irtkforeachternaryvoxelfunction_must_not_be_reduction
      else ByReference.ForEachVoxel_1d k0 l0 vf re1 im1 im2 im3) /\
   ByReference.ForEachVoxel_2d_v k0 l0 vf re2 im1 im2 im3
   = (if IsReduction vf
      then _irtkforeachternaryvoxelfunction_must_not_be_reduction
      else ByReference.ForEachVoxel_2d k0 l0 vf re2 im1 im2 im3) /\
   ByReference.ForEachVoxel_3d_v k0 l0 vf re3 im1 im2 im3
   = (if IsReduction vf
      then _irtkforeachternaryvoxelfunction_must_not_be_reduction
      else ByReference.ForEachVoxel_3d k0 l0 vf re3 im1 im2 im3) /\
   ByReference.ForEachScalarIf_v k0 l0 D vf of_ im1 im2 im3
   = (if IsReduction vf || IsReduction of_
      then _irtkforeachternaryvoxelfunction_must_not_be_reduction
      else ByReference.ForEachScalarIf k0 l0 D vf of_ im1 im2 im3) /\
   ByReference.ForEachScalarIf_nop_v k0 l0 D vf im1 im2 im3
   = (if IsReduction vf
      then _irtkforeachternaryvoxelfunction_must_not_be_reduction
      else ByReference.ForEachScalarIf_nop k0 l0 D vf im1 im2 im3) /\
   ByReference.ForEachVoxelIf_v k0 l0 fuel D vf of_ im1 im2 im3
   = (if IsReduction vf || IsReduction of_
      then _irtkforeachternaryvoxelfunction_must_not_be_reduction
      else ByReference.ForEachVoxelIf k0 l0 fuel D vf of_ im1 im2 im3) /\
   ByReference.ForEachVoxelIf_nop_v k0 l0 fuel D vf im1 im2 im3
   = (if IsReduction vf
      then _irtkforeachternaryvoxelfunction_must_not_be_reduction
      else ByReference.ForEachVoxelIf_nop k0 l0 fuel D vf im1 im2 im3) /\
   ByReference.ForEachVoxelIf_attr_v k0 l0 D vf of_ attr im1 im2 im3
   = (if IsReduction vf || IsReduction of_
      then _irtkforeachternaryvoxelfunction_must_not_be_reduction
      else ByReference.ForEachVoxelIf_attr k0 l0 D vf of_ attr im1 im2 im3) /\
   ByReference.ForEachVoxelIf_attr_nop_v k0 l0 D vf attr im1 im2 im3
   = (if IsReduction vf
      then _irtkforeachternaryvoxelfunction_must_not_be_reduction
      else ByReference.ForEachVoxelIf_attr_nop k0 l0 D vf attr im1 im2 im3) /\
   ByReference.ForEachVoxelIf_1d_v k0 l0 D vf of_ re1 im1 im2 im3
   = (if IsReduction vf || IsReduction of_
      then _irtkforeachternaryvoxelfunction_must_not_be_reduction
      else ByReference.ForEachVoxelIf_1d k0 l0 D vf of_ re1 im1 im2 im3) /\
   ByReference.ForEachVoxelIf_2d_v k0 l0 D vf of_ re2 im1 im2 im3
   = (if IsReduction vf || IsReduction of_
      then _irtkforeachternaryvoxelfunction_must_not_be_reduction
      else ByReference.ForEachVoxelIf_2d k0 l0 D vf of_ re2 im1 im2 im3) /\
   ByReference.ForEachVoxelIf_2d_nop_v k0 l0 D vf re2 im1 im2 im3
   = (if IsReduction vf
      then _irtkforeachternaryvoxelfunction_must_not_be_reduction
      else ByReference.ForEachVoxelIf_2d_nop k0 l0 D vf re2 im1 im2 im3) /\
   ByReference.ForEachVoxelIf_3d_v k0 l0 D vf of_ re3 im1 im2 im3
   = (if IsReduction vf || IsReduction of_
      then _irtkforeachternaryvoxelfunction_must_not_be_reduction
      else ByReference.ForEachVoxelIf_3d k0 l0 D vf of_ re3 im1 im2 im3) /\
   ByReference.ForEachVoxelIf_3d_nop_v k0 l0 D vf re3 im1 im2 im3
   = (if IsReduction vf
      then _irtkforeachternaryvoxelfunction_must_not_be_reduction
      else ByReference.ForEachVoxelIf_3d_nop k0 l0 D vf re3 im1 im2 im3) /\
   ByReference.ParallelForEachScalar_v k0 l0 sch vf im1 im2 im3
   = (if IsReduction vf
      then _irtkforeachternaryvoxelfunction_must_not_be_reduction
      else ByReference.ParallelForEachScalar k0 l0 sch vf im1 im2 im3) /\
   ByReference.ParallelForEachVoxel_v k0 l0 sch vf im1 im2 im3
   = (if IsReduction vf
      then _irtkforeachternaryvoxelfunction_must_not_be_reduction
      else ByReference.ParallelForEachVoxel k0 l0 sch vf im1 im2 im3) /\
   ByReference.ParallelForEachVoxel_attr_v k0 l0 schl vf attr im1 im2 im3
   = (if IsReduction vf
      then _irtkforeachternaryvoxelfunction_must_not_be_reduction
      else ByReference.ParallelForEachVoxel_attr k0 l0 schl vf attr im1 im2 im3) /\
   ByReference.ParallelForEachVoxel_1d_v k0 l0 sch vf re1 im1 im2 im3
   = (if IsReduction vf
      then _irtkforeachternaryvoxelfunction_must_not_be_reduction
      else ByReference.ParallelForEachVoxel_1d k0 l0 sch vf re1 im1 im2 im3) /\
   ByReference.ParallelForEachVoxel_2d_v k0 l0 sch vf re2 im1 im2 im3
   = (if IsReduction vf
      then _irtkforeachternaryvoxelfunction_must_not_be_reduction
      else ByReference.ParallelForEachVoxel_2d k0 l0 sch vf re2 im1 im2 im3) /\
   ByReference.ParallelForEachVoxel_3d_v k0 l0 sch vf re3 im1 im2 im3
   = (if IsReduction vf
      then _irtkforeachternaryvoxelfunction_must_not_be_reduction
      else ByReference.ParallelForEachVoxel_3d k0 l0 sch vf re3 im1 im2 im3) /\
   ByReference.ParallelForEachScalarIf_v k0 l0 sch D vf of_ im1 im2 im3
   = (if IsReduction vf || IsReduction of_
      then _irtkforeachternaryvoxelfunction_must_not_be_reduction
      else ByReference.ParallelForEachScalarIf k0 l0 sch D vf of_ im1 im2 im3) /\
   ByReference.ParallelForEachScalarIf_nop_v k0 l0 sch D vf im1 im2 im3
   = (if IsReduction vf
      then _irtkforeachternaryvoxelfunction_must_not_be_reduction
      else ByReference.ParallelForEachScalarIf_nop k0 l0 sch D vf im1 im2 im3) /\
   ByReference.ParallelForEachVoxelIf_v k0 l0 fuel sch D vf of_ im1 im2 im3
   = (if IsReduction vf || IsReduction of_
      then _irtkforeachternaryvoxelfunction_must_not_be_reduction
      else ByReference.ParallelForEachVoxelIf k0 l0 fuel sch D vf of_ im1 im2 im3) /\
   ByReference.ParallelForEachVoxelIf_nop_v k0 l0 fuel sch D vf im1 im2 im3
   = (if IsReduction vf
      then _irtkforeachternaryvoxelfunction_must_not_be_reduction
      else ByReference.ParallelForEachVoxelIf_nop k0 l0 fuel sch D vf im1 im2 im3) /\
   ByReference.ParallelForEachVoxelIf_attr_v k0 l0 schl D vf of_ attr im1 im2 im3
   = (if IsReduction vf || IsReduction of_
      then _irtkforeachternaryvoxelfunction_must_not_be_reduction
      else ByReference.ParallelForEachVoxelIf_attr k0 l0 schl D vf of_ attr im1 im2 im3) /\
   ByReference.ParallelForEachVoxelIf_attr_nop_v k0 l0 schl D vf attr im1 im2 im3
   = (if IsReduction vf
      then _irtkforeachternaryvoxelfunction_must_not_be_reduction
      else ByReference.ParallelForEachVoxelIf_attr_nop k0 l0 schl D vf attr im1 im2 im3) /\
   ByReference.ParallelForEachVoxelIf_1d_v k0 l0 sch D vf of_ re1 im1 im2 im3
   = (if IsReduction vf || IsReduction of_
      then _irtkforeachternaryvoxelfunction_must_not_be_reduction
      else ByReference.ParallelForEachVoxelIf_1d k0 l0 sch D vf of_ re1 im1 im2 im3) /\
   ByReference.ParallelForEachVoxelIf_1d_nop_v k0 l0 sch D vf re1 im1 im2 im3
   = (if IsReduction vf
      then _irtkforeachternaryvoxelfunction_must_not_be_reduction
      else ByReference.ParallelForEachVoxelIf_1d_nop k0 l0 sch D vf re1 im1 im2 im3) /\
   ByReference.ParallelForEachVoxelIf_2d_v k0 l0 sch D vf of_ re2 im1 im2 im3
   = (if IsReduction vf || IsReduction of_
      then _irtkforeachternaryvoxelfunction_must_not_be_reduction
      else ByReference.ParallelForEachVoxelIf_2d k0 l0 sch D vf of_ re2 im1 im2 im3) /\
   ByReference.ParallelForEachVoxelIf_2d_nop_v k0 l0 sch D vf re2 im1 im2 im3
   = (if IsReduction vf
      then _irtkforeachternaryvoxelfunction_must_not_be_reduction
      else ByReference.ParallelForEachVoxelIf_2d_nop k0 l0 sch D vf re2 im1 im2 im3) /\
   ByReference.ParallelForEachVoxelIf_3d_v k0 l0 sch D vf of_ re3 im1 im2 im3
   = (if IsReduction vf || IsReduction of_
      then _irtkforeachternaryvoxelfunction_must_not_be_reduction
      else ByReference.ParallelForEachVoxelIf_3d k0 l0 sch D vf of_ re3 im1 im2 im3) /\
   ByReference.ParallelForEachVoxelIf_3d_nop_v k0 l0 sch D vf re3 im1 im2 im3
   = (if IsReduction vf
      then _irtkforeachternaryvoxelfunction_must_not_be_reduction
      else ByReference.ParallelForEachVoxelIf_3d_nop k0 l0 sch D vf re3 im1 im2 im3) /\
   ByPointer.ForEachScalar_v k0 l0 vf im1 im2 im3
   = (if IsReduction vf
      then _irtkforeachternaryvoxelfunction_must_not_be_reduction
      else ByReference.ForEachScalar k0 l0 vf im1 im2 im3) /\
   ByPointer.ForEachVoxel_v k0 l0 vf im1 im2 im3
   = (if IsReduction vf
      then _irtkforeachternaryvoxelfunction_must_not_be_reduction
      else ByReference.ForEachVoxel k0 l0 vf im1 im2 im3) /\
   ByPointer.ForEachVoxel_attr_v k0 l0 vf attr im1 im2 im3
   = (if IsReduction vf
      then _irtkforeachternaryvoxelfunction_must_not_be_reduction
      else ByReference.ForEachVoxel_attr k0 l0 vf attr im1 im2 im3) /\
   ByPointer.ForEachVoxel_1d_v k0 l0 vf re1 im1 im2 im3
   = (if IsReduction vf
      then _irtkforeachternaryvoxelfunction_must_not_be_reduction
      else ByReference.ForEachVoxel_1d k0 l0 vf re1 im1 im2 im3) /\
   ByPointer.ForEachVoxel_2d_v k0 l0 vf re2 im1 im2 im3
   = (if IsReduction vf
      then _irtkforeachternaryvoxelfunction_must_not_be_reduction
      else ByReference.ForEachVoxel_2d k0 l0 vf re2 im1 im2 im3) /\
   ByPointer.ForEachVoxel_3d_v k0 l0 vf re3 im1 im2 im3
   = (if IsReduction vf
      then _irtkforeachternaryvoxelfunction_must_not_be_reduction
      else ByReference.ForEachVoxel_3d k0 l0 vf re3 im1 im2 im3) /\
   ByPointer.ForEachScalarIf_v k0 l0 D vf of_ im1 im2 im3
   = (if IsReduction vf || IsReduction of_
      then _irtkforeachternaryvoxelfunction_must_not_be_reduction
      else ByReference.ForEachScalarIf k0 l0 D vf of_ im1 im2 im3) /\
   ByPointer.ForEachScalarIf_nop_v k0 l0 D vf im1 im2 im3
   = (if IsReduction vf
      then _irtkforeachternaryvoxelfunction_must_not_be_reduction
      else ByReference.ForEachScalarIf_nop k0 l0 D vf im1 im2 im3) /\
   ByPointer.ForEachVoxelIf_v k0 l0 fuel D vf of_ im1 im2 im3
   = (if IsReduction vf || IsReduction of_
      then _irtkforeachternaryvoxelfunction_must_not_be_reduction
      else ByReference.ForEachVoxelIf k0 l0 fuel D vf of_ im1 im2 im3) /\
   ByPointer.ForEachVoxelIf_nop_v k0 l0 fuel D vf im1 im2 im3
   = (if IsReduction vf
      then _irtkforeachternaryvoxelfunction_must_not_be_reduction
      else ByReference.ForEachVoxelIf_nop k0 l0 fuel D vf im1 im2 im3) /\
   ByPointer.ForEachVoxelIf_attr_v k0 l0 D vf of_ attr im1 im2 im3
   = (if IsReduction vf || IsReduction of_
      then _irtkforeachternaryvoxelfunction_must_not_be_reduction
      else ByReference.ForEachVoxelIf_attr k0 l0 D vf of_ attr im1 im2 im3) /\
   ByPointer.ForEachVoxelIf_attr_nop_v k0 l0 D vf attr im1 im2 im3
   = (if IsReduction vf
      then _irtkforeachternaryvoxelfunction_must_not_be_reduction
      else ByReference.ForEachVoxelIf_attr_nop k0 l0 D vf attr im1 im2 im3) /\
   ByPointer.ForEachVoxelIf_1d_v k0 l0 D vf of_ re1 im1 im2 im3
   = (if IsReduction vf || IsReduction of_
      then _irtkforeachternaryvoxelfunction_must_not_be_reduction
      else ByReference.ForEachVoxelIf_1d k0 l0 D vf of_ re1 im1 im2 im3) /\
   ByPointer.ForEachVoxelIf_2d_v k0 l0 D vf of_ re2 im1 im2 im3
   = (if IsReduction vf || IsReduction of_
      then _irtkforeachternaryvoxelfunction_must_not_be_reduction
      else ByReference.ForEachVoxelIf_2d k0 l0 D vf of_ re2 im1 im2 im3) /\
   ByPointer.ForEachVoxelIf_2d_nop_v k0 l0 D vf re2 im1 im2 im3
   = (if IsReduction vf
      then _irtkforeachternaryvoxelfunction_must_not_be_reduction
      else ByReference.ForEachVoxelIf_2d_nop k0 l0 D vf re2 im1 im2 im3) /\
   ByPointer.ForEachVoxelIf_3d_v k0 l0 fuel D vf of_ re3 im1 im2 im3
   = (if IsReduction vf || IsReduction of_
      then _irtkforeachternaryvoxelfunction_must_not_be_reduction
      else ByReference.ForEachVoxelIf k0 l0 fuel D vf of_ im1 im2 im3) /\
   ByPointer.ForEachVoxelIf_3d_nop_v k0 l0 D vf re3 im1 im2 im3
   = (if IsReduction vf
      then _irtkforeachternaryvoxelfunction_must_not_be_reduction
      else ByReference.ForEachVoxelIf_3d_nop k0 l0 D vf re3 im1 im2 im3) /\
   ByPointer.ParallelForEachScalar_v k0 l0 sch vf im1 im2 im3
   = (if IsReduction vf
      then _irtkforeachternaryvoxelfunction_must_not_be_reduction
      else ByReference.ParallelForEachScalar k0 l0 sch vf im1 im2 im3) /\
   ByPointer.ParallelForEachVoxel_v k0 l0 sch vf im1 im2 im3
   = (if IsReduction vf
      then _irtkforeachternaryvoxelfunction_must_not_be_reduction
      else ByReference.ParallelForEachVoxel k0 l0 sch vf im1 im2 im3) /\
   ByPointer.ParallelForEachVoxel_attr_v k0 l0 schl vf attr im1 im2 im3
   = (if IsReduction vf
      then _irtkforeachternaryvoxelfunction_must_not_be_reduction
      else ByReference.ParallelForEachVoxel_attr k0 l0 schl vf attr im1 im2 im3) /\
   ByPointer.ParallelForEachVoxel_1d_v k0 l0 sch vf re1 im1 im2 im3
   = (if IsReduction vf
      then _irtkforeachternaryvoxelfunction_must_not_be_reduction
      else ByReference.ParallelForEachVoxel_1d k0 l0 sch vf re1 im1 im2 im3) /\
   ByPointer.ParallelForEachVoxel_2d_v k0 l0 sch vf re2 im1 im2 im3
   = (if IsReduction vf
      then _irtkforeachternaryvoxelfunction_must_not_be_reduction
      else ByReference.ParallelForEachVoxel_2d k0 l0 sch vf re2 im1 im2 im3) /\
   ByPointer.ParallelForEachVoxel_3d_v k0 l0 sch vf re3 im1 im2 im3
   = (if IsReduction vf
      then _irtkforeachternaryvoxelfunction_must_not_be_reduction
      else ByReference.ParallelForEachVoxel_3d k0 l0 sch vf re3 im1 im2 im3) /\
   ByPointer.ParallelForEachScalarIf_v k0 l0 sch D vf of_ im1 im2 im3
   = (if IsReduction vf || IsReduction of_
      then _irtkforeachternaryvoxelfunction_must_not_be_reduction
      else ByReference.ParallelForEachScalarIf k0 l0 sch D vf of_ im1 im2 im3) /\
   ByPointer.ParallelForEachScalarIf_nop_v k0 l0 sch D vf im1 im2 im3
   = (if IsReduction vf
      then _irtkforeachternaryvoxelfunction_must_not_be_reduction
      else ByReference.ParallelForEachScalarIf_nop k0 l0 sch D vf im1 im2 im3) /\
   ByPointer.ParallelForEachVoxelIf_v k0 l0 fuel sch D vf of_ im1 im2 im3
   = (if IsReduction vf || IsReduction of_
      then _irtkforeachternaryvoxelfunction_must_not_be_reduction
      else ByReference.ParallelForEachVoxelIf k0 l0 fuel sch D vf of_ im1 im2 im3) /\
   ByPointer.ParallelForEachVoxelIf_nop_v k0 l0 fuel sch D vf im1 im2 im3
   = (if IsReduction vf
      then _irtkforeachternaryvoxelfunction_must_not_be_reduction
      else ByReference.ParallelForEachVoxelIf_nop k0 l0 fuel sch D vf im1 im2 im3) /\
   ByPointer.ParallelForEachVoxelIf_attr_v k0 l0 schl D vf of_ attr im1 im2 im3
   = (if IsReduction vf || IsReduction of_
      then _irtkforeachternaryvoxelfunction_must_not_be_reduction
      else ByReference.ParallelForEachVoxelIf_attr k0 l0 schl D vf of_ attr im1 im2 im3) /\
   ByPointer.ParallelForEachVoxelIf_attr_nop_v k0 l0 schl D vf attr im1 im2 im3
   = (if IsReduction vf
      then _irtkforeachternaryvoxelfunction_must_not_be_reduction
      else ByReference.ParallelForEachVoxelIf_attr_nop k0 l0 schl D vf attr im1 im2 im3) /\
   ByPointer.ParallelForEachVoxelIf_1d_v k0 l0 sch D vf of_ re1 im1 im2 im3
   = (if IsReduction vf || IsReduction of_
      then _irtkforeachternaryvoxelfunction_must_not_be_reduction
      else ByReference.ParallelForEachVoxelIf_1d k0 l0 sch D vf of_ re1 im1 im2 im3) /\
   ByPointer.ParallelForEachVoxelIf_1d_nop_v k0 l0 sch D vf re1 im1 im2 im3
   = (if IsReduction vf
      then _irtkforeachternaryvoxelfunction_must_not_be_reduction
      else ByReference.ParallelForEachVoxelIf_1d_nop k0 l0 sch D vf re1 im1 im2 im3) /\
   ByPointer.ParallelForEachVoxelIf_2d_v k0 l0 sch D vf of_ re2 im1 im2 im3
   = (if IsReduction vf || IsReduction of_
      then _irtkforeachternaryvoxelfunction_must_not_be_reduction
      else ByReference.ParallelForEachVoxelIf_2d k0 l0 sch D vf of_ re2 im1 im2 im3) /\
   ByPointer.ParallelForEachVoxelIf_2d_nop_v k0 l0 sch D vf re2 im1 im2 im3
   = (if IsReduction vf
      then _irtkforeachternaryvoxelfunction_must_not_be_reduction
      else ByReference.ParallelForEachVoxelIf_2d_nop k0 l0 sch D vf re2 im1 im2 im3) /\
   ByPointer.ParallelForEachVoxelIf_3d_v k0 l0 sch D vf of_ re3 im1 im2 im3
   = (if IsReduction vf || IsReduction of_
      then _irtkforeachternaryvoxelfunction_must_not_be_reduction
      else ByReference.ParallelForEachVoxelIf_3d k0 l0 sch D vf of_ re3 im1 im2 im3) /\
   ByPointer.ParallelForEachVoxelIf_3d_nop_v k0 l0 sch D vf re3 im1 im2 im3
   = (if IsReduction vf
      then _irtkforeachternaryvoxelfunction_must_not_be_reduction
      else ByReference.ParallelForEachVoxelIf_3d_nop k0 l0 sch D vf re3 im1 im2 im3)) /\
  (* the scalar passes *)
  (forall sch : schedule,
   ByPointer.ForEachScalar k0 l0 vf im1 im2 im3
   = Returns (map Invoke (Body.run_1d (ByPointer.body k0 l0 im1 im2 im3) all)
              ++ [Join VoxelFunc CallersFunctor]) /\
   ByPointer.ForEachScalarIf k0 l0 D vf of_ im1 im2 im3
   = Returns (map Invoke (IfBody.run_1d D (ByPointer.ifbody k0 l0 im1 im2 im3) all)
              ++ [Join VoxelFunc CallersFunctor; Join OutsideFunc CallersFunctor]) /\
   joins (log_of (ByPointer.ParallelForEachScalar k0 l0 sch vf im1 im2 im3))
   = (if IsReduction vf
      then repeat (VoxelFunc, BodysFunctor) (forks sch all) ++ [(VoxelFunc, CallersFunctor)]
      else []) /\
   joins (log_of (ByPointer.ParallelForEachScalarIf k0 l0 sch D vf of_ im1 im2 im3))
   = (if IsReduction vf || IsReduction of_
      then List.concat (repeat [(VoxelFunc, BodysFunctor); (OutsideFunc, BodysFunctor)]
                               (forks sch all))
           ++ [(VoxelFunc, CallersFunctor); (OutsideFunc, CallersFunctor)]
      else [])).
Proof.
  intros b ib all either once both pair pairs.
  split; [|split; [|split; [|split; [|split]]]].
  - intros R S sch re body J. split; [apply joins_parallel_for|].
    split; [apply joins_parallel_reduce|]. split; [reflexivity|].
    intros axis m l r re1 re2 E. simpl. now rewrite E.
  - split; [|split; [|split]].
    + intros calls. simpl. now rewrite joins_app, joins_Invoke.
    + intros calls. simpl. now rewrite joins_app, joins_Invoke.
    + intros R S c sch re body. split.
      * apply (joins_scheduled c sch re body Body_join [Join VoxelFunc CallersFunctor]).
      * apply (joins_scheduled c sch re body IfBody_join
                 [Join VoxelFunc CallersFunctor; Join OutsideFunc CallersFunctor]).
    + intros R S c schl re body frames. split.
      * apply (joins_scheduled_frames c schl re body Body_join
                 [Join VoxelFunc CallersFunctor]).
      * apply (joins_scheduled_frames c schl re body IfBody_join
                 [Join VoxelFunc CallersFunctor; Join OutsideFunc CallersFunctor]).
  - intros fuel attr re1 re2 re3. subst b ib all either. repeat apply conj.
    + pass_cases.
    + pass_cases.
    + pass_cases.
    + pass_cases.
    + pass_cases.
    + pass_cases.
    + pass_cases.
    + pass_cases.
    + self_calling_pass ForEachVoxelIf_loops.
    + self_calling_pass ForEachVoxelIf_loops.
    + pass_cases.
    + pass_cases.
    + pass_cases.
    + pass_cases.
    + pass_cases.
    + pass_cases.
    + pass_cases.
    + pass_cases.
    + pass_cases.
    + pass_cases.
    + pass_cases.
    + pass_cases.
    + pass_cases.
    + pass_cases.
    + pass_cases.
    + pass_cases.
    + self_calling_pass ForEachVoxelIf_loops.
    + pass_cases.
    + pass_cases.
    + pass_cases.
    + pass_cases.
    + pass_cases.
    + pass_cases.
    + pass_cases.
  - intros fuel sch schl attr re1 re2 re3. subst b ib all either. repeat apply conj.
    + pass_cases.
    + pass_cases.
    + pass_cases.
    + pass_cases.
    + pass_cases.
    + pass_cases.
    + pass_cases.
    + pass_cases.
    + self_calling_pass ParallelForEachVoxelIf_loops.
    + self_calling_pass ParallelForEachVoxelIf_loops.
    + pass_cases.
    + pass_cases.
    + pass_cases.
    + pass_cases.
    + pass_cases.
    + pass_cases.
    + pass_cases.
    + pass_cases.
    + pass_cases.
    + pass_cases.
    + pass_cases.
    + pass_cases.
    + pass_cases.
    + pass_cases.
    + pass_cases.
    + pass_cases.
    + self_calling_pass ParallelForEachVoxelIf_loops.
    + self_calling_pass ParallelForEachVoxelIf_loops.
    + pass_cases.
    + pass_cases.
    + pass_cases.
    + pass_cases.
    + pass_cases.
    + pass_cases.
    + pass_cases.
    + pass_cases.
  - intros fuel sch schl attr re1 re2 re3. repeat apply conj.
    + unfold ByReference.ForEachScalar_v, when. destruct (IsReduction vf); [reflexivity | apply skip_andthen].
    + unfold ByReference.ForEachVoxel_v, when. destruct (IsReduction vf); [reflexivity | apply skip_andthen].
    + unfold ByReference.ForEachVoxel_attr_v, when. destruct (IsReduction vf); [reflexivity | apply skip_andthen].
    + unfold ByReference.ForEachVoxel_1d_v, when. destruct (IsReduction vf); [reflexivity | apply skip_andthen].
    + unfold ByReference.ForEachVoxel_2d_v, when. destruct (IsReduction vf); [reflexivity | apply skip_andthen].
    + unfold ByReference.ForEachVoxel_3d_v, when. destruct (IsReduction vf); [reflexivity | apply skip_andthen].
    + unfold ByReference.ForEachScalarIf_v, when. destruct (IsReduction vf || IsReduction of_); [reflexivity | apply skip_andthen].
    + unfold ByReference.ForEachScalarIf_nop_v, when. destruct (IsReduction vf); [reflexivity | apply skip_andthen].
    + unfold ByReference.ForEachVoxelIf_v, when. destruct (IsReduction vf || IsReduction of_); [reflexivity | apply skip_andthen].
    + unfold ByReference.ForEachVoxelIf_nop_v, when. destruct (IsReduction vf); [reflexivity | apply skip_andthen].
    + unfold ByReference.ForEachVoxelIf_attr_v, when. destruct (IsReduction vf || IsReduction of_); [reflexivity | apply skip_andthen].
    + unfold ByReference.ForEachVoxelIf_attr_nop_v, when. destruct (IsReduction vf); [reflexivity | apply skip_andthen].
    + unfold ByReference.ForEachVoxelIf_1d_v, when. destruct (IsReduction vf || IsReduction of_); [reflexivity | apply skip_andthen].
    + unfold ByReference.ForEachVoxelIf_2d_v, when. destruct (IsReduction vf || IsReduction of_); [reflexivity | apply skip_andthen].
    + unfold ByReference.ForEachVoxelIf_2d_nop_v, when. destruct (IsReduction vf); [reflexivity | apply skip_andthen].
    + unfold ByReference.ForEachVoxelIf_3d_v, when. destruct (IsReduction vf || IsReduction of_); [reflexivity | apply skip_andthen].
    + unfold ByReference.ForEachVoxelIf_3d_nop_v, when. destruct (IsReduction vf); [reflexivity | apply skip_andthen].
    + unfold ByReference.ParallelForEachScalar_v, when. destruct (IsReduction vf); [reflexivity | apply skip_andthen].
    + unfold ByReference.ParallelForEachVoxel_v, when. destruct (IsReduction vf); [reflexivity | apply skip_andthen].
    + unfold ByReference.ParallelForEachVoxel_attr_v, when. destruct (IsReduction vf); [reflexivity | apply skip_andthen].
    + unfold ByReference.ParallelForEachVoxel_1d_v, when. destruct (IsReduction vf); [reflexivity | apply skip_andthen].
    + unfold ByReference.ParallelForEachVoxel_2d_v, when. destruct (IsReduction vf); [reflexivity | apply skip_andthen].
    + unfold ByReference.ParallelForEachVoxel_3d_v, when. destruct (IsReduction vf); [reflexivity | apply skip_andthen].
    + unfold ByReference.ParallelForEachScalarIf_v, when. destruct (IsReduction vf || IsReduction of_); [reflexivity | apply skip_andthen].
    + unfold ByReference.ParallelForEachScalarIf_nop_v, when. destruct (IsReduction vf); [reflexivity | apply skip_andthen].
    + unfold ByReference.ParallelForEachVoxelIf_v, when. destruct (IsReduction vf || IsReduction of_); [reflexivity | apply skip_andthen].
    + unfold ByReference.ParallelForEachVoxelIf_nop_v, when. destruct (IsReduction vf); [reflexivity | apply skip_andthen].
    + unfold ByReference.ParallelForEachVoxelIf_attr_v, when. destruct (IsReduction vf || IsReduction of_); [reflexivity | apply skip_andthen].
    + unfold ByReference.ParallelForEachVoxelIf_attr_nop_v, when. destruct (IsReduction vf); [reflexivity | apply skip_andthen].
    + unfold ByReference.ParallelForEachVoxelIf_1d_v, when. destruct (IsReduction vf || IsReduction of_); [reflexivity | apply skip_andthen].
    + unfold ByReference.ParallelForEachVoxelIf_1d_nop_v, when. destruct (IsReduction vf); [reflexivity | apply skip_andthen].
    + unfold ByReference.ParallelForEachVoxelIf_2d_v, when. destruct (IsReduction vf || IsReduction of_); [reflexivity | apply skip_andthen].
    + unfold ByReference.ParallelForEachVoxelIf_2d_nop_v, when. destruct (IsReduction vf); [reflexivity | apply skip_andthen].
    + unfold ByReference.ParallelForEachVoxelIf_3d_v, when. destruct (IsReduction vf || IsReduction of_); [reflexivity | apply skip_andthen].
    + unfold ByReference.ParallelForEachVoxelIf_3d_nop_v, when. destruct (IsReduction vf); [reflexivity | apply skip_andthen].
    + unfold ByPointer.ForEachScalar_v, when. destruct (IsReduction vf); [reflexivity | apply skip_andthen].
    + unfold ByPointer.ForEachVoxel_v, when. destruct (IsReduction vf); [reflexivity | apply skip_andthen].
    + unfold ByPointer.ForEachVoxel_attr_v, when. destruct (IsReduction vf); [reflexivity | apply skip_andthen].
    + unfold ByPointer.ForEachVoxel_1d_v, when. destruct (IsReduction vf); [reflexivity | apply skip_andthen].
    + unfold ByPointer.ForEachVoxel_2d_v, when. destruct (IsReduction vf); [reflexivity | apply skip_andthen].
    + unfold ByPointer.ForEachVoxel_3d_v, when. destruct (IsReduction vf); [reflexivity | apply skip_andthen].
    + unfold ByPointer.ForEachScalarIf_v, when. destruct (IsReduction vf || IsReduction of_); [reflexivity | apply skip_andthen].
    + unfold ByPointer.ForEachScalarIf_nop_v, when. destruct (IsReduction vf); [reflexivity | apply skip_andthen].
    + unfold ByPointer.ForEachVoxelIf_v, when. destruct (IsReduction vf || IsReduction of_); [reflexivity | apply skip_andthen].
    + unfold ByPointer.ForEachVoxelIf_nop_v, when. destruct (IsReduction vf); [reflexivity | apply skip_andthen].
    + unfold ByPointer.ForEachVoxelIf_attr_v, when. destruct (IsReduction vf || IsReduction of_); [reflexivity | apply skip_andthen].
    + unfold ByPointer.ForEachVoxelIf_attr_nop_v, when. destruct (IsReduction vf); [reflexivity | apply skip_andthen].
    + unfold ByPointer.ForEachVoxelIf_1d_v, when. destruct (IsReduction vf || IsReduction of_); [reflexivity | apply skip_andthen].
    + unfold ByPointer.ForEachVoxelIf_2d_v, when. destruct (IsReduction vf || IsReduction of_); [reflexivity | apply skip_andthen].
    + unfold ByPointer.ForEachVoxelIf_2d_nop_v, when. destruct (IsReduction vf); [reflexivity | apply skip_andthen].
    + unfold ByPointer.ForEachVoxelIf_3d_v, when. destruct (IsReduction vf || IsReduction of_); [reflexivity | apply skip_andthen].
    + unfold ByPointer.ForEachVoxelIf_3d_nop_v, when. destruct (IsReduction vf); [reflexivity | apply skip_andthen].
    + unfold ByPointer.ParallelForEachScalar_v, when. destruct (IsReduction vf); [reflexivity | apply skip_andthen].
    + unfold ByPointer.ParallelForEachVoxel_v, when. destruct (IsReduction vf); [reflexivity | apply skip_andthen].
    + unfold ByPointer.ParallelForEachVoxel_attr_v, when. destruct (IsReduction vf); [reflexivity | apply skip_andthen].
    + unfold ByPointer.ParallelForEachVoxel_1d_v, when. destruct (IsReduction vf); [reflexivity | apply skip_andthen].
    + unfold ByPointer.ParallelForEachVoxel_2d_v, when. destruct (IsReduction vf); [reflexivity | apply skip_andthen].
    + unfold ByPointer.ParallelForEachVoxel_3d_v, when. destruct (IsReduction vf); [reflexivity | apply skip_andthen].
    + unfold ByPointer.ParallelForEachScalarIf_v, when. destruct (IsReduction vf || IsReduction of_); [reflexivity | apply skip_andthen].
    + unfold ByPointer.ParallelForEachScalarIf_nop_v, when. destruct (IsReduction vf); [reflexivity | apply skip_andthen].
    + unfold ByPointer.ParallelForEachVoxelIf_v, when. destruct (IsReduction vf || IsReduction of_); [reflexivity | apply skip_andthen].
    + unfold ByPointer.ParallelForEachVoxelIf_nop_v, when. destruct (IsReduction vf); [reflexivity | apply skip_andthen].
    + unfold ByPointer.ParallelForEachVoxelIf_attr_v, when. destruct (IsReduction vf || IsReduction of_); [reflexivity | apply skip_andthen].
    + unfold ByPointer.ParallelForEachVoxelIf_attr_nop_v, when. destruct (IsReduction vf); [reflexivity | apply skip_andthen].
    + unfold ByPointer.ParallelForEachVoxelIf_1d_v, when. destruct (IsReduction vf || IsReduction of_); [reflexivity | apply skip_andthen].
    + unfold ByPointer.ParallelForEachVoxelIf_1d_nop_v, when. destruct (IsReduction vf); [reflexivity | apply skip_andthen].
    + unfold ByPointer.ParallelForEachVoxelIf_2d_v, when. destruct (IsReduction vf || IsReduction of_); [reflexivity | apply skip_andthen].
    + unfold ByPointer.ParallelForEachVoxelIf_2d_nop_v, when. destruct (IsReduction vf); [reflexivity | apply skip_andthen].
    + unfold ByPointer.ParallelForEachVoxelIf_3d_v, when. destruct (IsReduction vf || IsReduction of_); [reflexivity | apply skip_andthen].
    + unfold ByPointer.ParallelForEachVoxelIf_3d_nop_v, when. destruct (IsReduction vf); [reflexivity | apply skip_andthen].
  - intros sch. split; [|split; [|split]].
    + reflexivity.
    + reflexivity.
    + unfold ByPointer.ParallelForEachScalar. destruct (IsReduction vf); simpl.
      * rewrite joins_app, joins_parallel_reduce. simpl.
        now rewrite concat_repeat_single.
      * apply joins_parallel_for.
    + unfold ByPointer.ParallelForEachScalarIf.
      destruct (IsReduction vf || IsReduction of_); simpl.
      * rewrite joins_app, joins_parallel_reduce. reflexivity.
      * apply joins_parallel_for.
Qed.

(* ===================================================================== *)
(** ** Empty images *)
(* ===================================================================== *)

(** C8, at the failing input: with an empty first image beside two
    2-voxel images, the pointer passed for the first image is null at the
    first call only. The traversal increments the null cursor like the others,
    so the second call gets the null pointer advanced by one voxel, in the
    linear-range traversal and in the whole-domain traversal alike. The
    cursor never points into the empty image's buffer. *)
Theorem empty_image_cursor_is_null_at_the_first_call_only :
  let b := ByReference.body 0 0 image_empty image_2x1 image_2x1 in
  IsEmpty image_empty = true /\
  map (fun inv => p1 (ptrs inv)) (Body.run_1d b two_elements)
  = [NULL; ptr_add NULL 1] /\
  map (fun inv => is_null (p1 (ptrs inv))) (Body.run_1d b two_elements)
  = [true; false] /\
  map (fun inv => is_null (p1 (ptrs inv))) (Body.run_attr b (_attr image_2x1))
  = [true; false] /\
  map (fun inv => block (p1 (ptrs inv))) (Body.run_1d b two_elements)
  = [Null; Null].
Proof. repeat split. Qed.

(* ===================================================================== *)
(** ** The guard of the by-value entry points *)
(* ===================================================================== *)

(** X1: every entry point that takes its functor(s) by value, sequential or
    parallel, plain or predicated, whatever the range and with the images by
    pointer or by reference: when the functor is a reduction (a predicated
    pass with two functors: when either is) the call writes the message to
    [cerr] and ends in [exit(1)], and no functor call is made. *)
Theorem by_value_entry_points_refuse_reductions
  (k0 l0 : Z) (fuel : nat) (sch : schedule) (schl : Z -> schedule) (D : Domain)
  (attr : irtkImageAttributes) (re1 : blocked_range) (re2 : blocked_range2d)
  (re3 : blocked_range3d) (im1 im2 im3 : irtkGenericImage) (other : functor) :
  ByReference.ForEachScalar_v k0 l0 reduction im1 im2 im3
  = _irtkforeachternaryvoxelfunction_must_not_be_reduction /\
  ByReference.ForEachVoxel_v k0 l0 reduction im1 im2 im3
  = _irtkforeachternaryvoxelfunction_must_not_be_reduction /\
  ByReference.ForEachVoxel_attr_v k0 l0 reduction attr im1 im2 im3
  = _irtkforeachternaryvoxelfunction_must_not_be_reduction /\
  ByReference.ForEachVoxel_1d_v k0 l0 reduction re1 im1 im2 im3
  = _irtkforeachternaryvoxelfunction_must_not_be_reduction /\
  ByReference.ForEachVoxel_2d_v k0 l0 reduction re2 im1 im2 im3
  = _irtkforeachternaryvoxelfunction_must_not_be_reduction /\
  ByReference.ForEachVoxel_3d_v k0 l0 reduction re3 im1 im2 im3
  = _irtkforeachternaryvoxelfunction_must_not_be_reduction /\
  ByReference.ForEachScalarIf_v k0 l0 D reduction other im1 im2 im3
  = _irtkforeachternaryvoxelfunction_must_not_be_reduction /\
  ByReference.ForEachScalarIf_v k0 l0 D other reduction im1 im2 im3
  = _irtkforeachternaryvoxelfunction_must_not_be_reduction /\
  ByReference.ForEachScalarIf_nop_v k0 l0 D reduction im1 im2 im3
  = _irtkforeachternaryvoxelfunction_must_not_be_reduction /\
  ByReference.ForEachVoxelIf_v k0 l0 fuel D reduction other im1 im2 im3
  = _irtkforeachternaryvoxelfunction_must_not_be_reduction /\
  ByReference.ForEachVoxelIf_v k0 l0 fuel D other reduction im1 im2 im3
  = _irtkforeachternaryvoxelfunction_must_not_be_reduction /\
  ByReference.ForEachVoxelIf_nop_v k0 l0 fuel D reduction im1 im2 im3
  = _irtkforeachternaryvoxelfunction_must_not_be_reduction /\
  ByReference.ForEachVoxelIf_attr_v k0 l0 D reduction other attr im1 im2 im3
  = _irtkforeachternaryvoxelfunction_must_not_be_reduction /\
  ByReference.ForEachVoxelIf_attr_v k0 l0 D other reduction attr im1 im2 im3
  = _irtkforeachternaryvoxelfunction_must_not_be_reduction /\
  ByReference.ForEachVoxelIf_attr_nop_v k0 l0 D reduction attr im1 im2 im3
  = _irtkforeachternaryvoxelfunction_must_not_be_reduction /\
  ByReference.ForEachVoxelIf_1d_v k0 l0 D reduction other re1 im1 im2 im3
  = _irtkforeachternaryvoxelfunction_must_not_be_reduction /\
  ByReference.ForEachVoxelIf_1d_v k0 l0 D other reduction re1 im1 im2 im3
  = _irtkforeachternaryvoxelfunction_must_not_be_reduction /\
  ByReference.ForEachVoxelIf_2d_v k0 l0 D reduction other re2 im1 im2 im3
  = _irtkforeachternaryvoxelfunction_must_not_be_reduction /\
  ByReference.ForEachVoxelIf_2d_v k0 l0 D other reduction re2 im1 im2 im3
  = _irtkforeachternaryvoxelfunction_must_not_be_reduction /\
  ByReference.ForEachVoxelIf_2d_nop_v k0 l0 D reduction re2 im1 im2 im3
  = _irtkforeachternaryvoxelfunction_must_not_be_reduction /\
  ByReference.ForEachVoxelIf_3d_v k0 l0 D reduction other re3 im1 im2 im3
  = _irtkforeachternaryvoxelfunction_must_not_be_reduction /\
  ByReference.ForEachVoxelIf_3d_v k0 l0 D other reduction re3 im1 im2 im3
  = _irtkforeachternaryvoxelfunction_must_not_be_reduction /\
  ByReference.ForEachVoxelIf_3d_nop_v k0 l0 D reduction re3 im1 im2 im3
  = _irtkforeachternaryvoxelfunction_must_not_be_reduction /\
  ByReference.ParallelForEachScalar_v k0 l0 sch reduction im1 im2 im3
  = _irtkforeachternaryvoxelfunction_must_not_be_reduction /\
  ByReference.ParallelForEachVoxel_v k0 l0 sch reduction im1 im2 im3
  = _irtkforeachternaryvoxelfunction_must_not_be_reduction /\
  ByReference.ParallelForEachVoxel_attr_v k0 l0 schl reduction attr im1 im2 im3
  = _irtkforeachternaryvoxelfunction_must_not_be_reduction /\
  ByReference.ParallelForEachVoxel_1d_v k0 l0 sch reduction re1 im1 im2 im3
  = _irtkforeachternaryvoxelfunction_must_not_be_reduction /\
  ByReference.ParallelForEachVoxel_2d_v k0 l0 sch reduction re2 im1 im2 im3
  = _irtkforeachternaryvoxelfunction_must_not_be_reduction /\
  ByReference.ParallelForEachVoxel_3d_v k0 l0 sch reduction re3 im1 im2 im3
  = _irtkforeachternaryvoxelfunction_must_not_be_reduction /\
  ByReference.ParallelForEachScalarIf_v k0 l0 sch D reduction other im1 im2 im3
  = _irtkforeachternaryvoxelfunction_must_not_be_reduction /\
  ByReference.ParallelForEachScalarIf_v k0 l0 sch D other reduction im1 im2 im3
  = _irtkforeachternaryvoxelfunction_must_not_be_reduction /\
  ByReference.ParallelForEachScalarIf_nop_v k0 l0 sch D reduction im1 im2 im3
  = _irtkforeachternaryvoxelfunction_must_not_be_reduction /\
  ByReference.ParallelForEachVoxelIf_v k0 l0 fuel sch D reduction other im1 im2 im3
  = _irtkforeachternaryvoxelfunction_must_not_be_reduction /\
  ByReference.ParallelForEachVoxelIf_v k0 l0 fuel sch D other reduction im1 im2 im3
  = _irtkforeachternaryvoxelfunction_must_not_be_reduction /\
  ByReference.ParallelForEachVoxelIf_nop_v k0 l0 fuel sch D reduction im1 im2 im3
  = _irtkforeachternaryvoxelfunction_must_not_be_reduction /\
  ByReference.ParallelForEachVoxelIf_attr_v k0 l0 schl D reduction other attr im1 im2 im3
  = _irtkforeachternaryvoxelfunction_must_not_be_reduction /\
  ByReference.ParallelForEachVoxelIf_attr_v k0 l0 schl D other reduction attr im1 im2 im3
  = _irtkforeachternaryvoxelfunction_must_not_be_reduction /\
  ByReference.ParallelForEachVoxelIf_attr_nop_v k0 l0 schl D reduction attr im1 im2 im3
  = _irtkforeachternaryvoxelfunction_must_not_be_reduction /\
  ByReference.ParallelForEachVoxelIf_1d_v k0 l0 sch D reduction other re1 im1 im2 im3
  = _irtkforeachternaryvoxelfunction_must_not_be_reduction /\
  ByReference.ParallelForEachVoxelIf_1d_v k0 l0 sch D other reduction re1 im1 im2 im3
  = _irtkforeachternaryvoxelfunction_must_not_be_reduction /\
  ByReference.ParallelForEachVoxelIf_1d_nop_v k0 l0 sch D reduction re1 im1 im2 im3
  = _irtkforeachternaryvoxelfunction_must_not_be_reduction /\
  ByReference.ParallelForEachVoxelIf_2d_v k0 l0 sch D reduction other re2 im1 im2 im3
  = _irtkforeachternaryvoxelfunction_must_not_be_reduction /\
  ByReference.ParallelForEachVoxelIf_2d_v k0 l0 sch D other reduction re2 im1 im2 im3
  = _irtkforeachternaryvoxelfunction_must_not_be_reduction /\
  ByReference.ParallelForEachVoxelIf_2d_nop_v k0 l0 sch D reduction re2 im1 im2 im3
  = _irtkforeachternaryvoxelfunction_must_not_be_reduction /\
  ByReference.ParallelForEachVoxelIf_3d_v k0 l0 sch D reduction other re3 im1 im2 im3
  = _irtkforeachternaryvoxelfunction_must_not_be_reduction /\
  ByReference.ParallelForEachVoxelIf_3d_v k0 l0 sch D other reduction re3 im1 im2 im3
  = _irtkforeachternaryvoxelfunction_must_not_be_reduction /\
  ByReference.ParallelForEachVoxelIf_3d_nop_v k0 l0 sch D reduction re3 im1 im2 im3
  = _irtkforeachternaryvoxelfunction_must_not_be_reduction /\
  ByPointer.ForEachScalar_v k0 l0 reduction im1 im2 im3
  = _irtkforeachternaryvoxelfunction_must_not_be_reduction /\
  ByPointer.ForEachVoxel_v k0 l0 reduction im1 im2 im3
  = _irtkforeachternaryvoxelfunction_must_not_be_reduction /\
  ByPointer.ForEachVoxel_attr_v k0 l0 reduction attr im1 im2 im3
  = _irtkforeachternaryvoxelfunction_must_not_be_reduction /\
  ByPointer.ForEachVoxel_1d_v k0 l0 reduction re1 im1 im2 im3
  = _irtkforeachternaryvoxelfunction_must_not_be_reduction /\
  ByPointer.ForEachVoxel_2d_v k0 l0 reduction re2 im1 im2 im3
  = _irtkforeachternaryvoxelfunction_must_not_be_reduction /\
  ByPointer.ForEachVoxel_3d_v k0 l0 reduction re3 im1 im2 im3
  = _irtkforeachternaryvoxelfunction_must_not_be_reduction /\
  ByPointer.ForEachScalarIf_v k0 l0 D reduction other im1 im2 im3
  = _irtkforeachternaryvoxelfunction_must_not_be_reduction /\
  ByPointer.ForEachScalarIf_v k0 l0 D other reduction im1 im2 im3
  = _irtkforeachternaryvoxelfunction_must_not_be_reduction /\
  ByPointer.ForEachScalarIf_nop_v k0 l0 D reduction im1 im2 im3
  = _irtkforeachternaryvoxelfunction_must_not_be_reduction /\
  ByPointer.ForEachVoxelIf_v k0 l0 fuel D reduction other im1 im2 im3
  = _irtkforeachternaryvoxelfunction_must_not_be_reduction /\
  ByPointer.ForEachVoxelIf_v k0 l0 fuel D other reduction im1 im2 im3
  = _irtkforeachternaryvoxelfunction_must_not_be_reduction /\
  ByPointer.ForEachVoxelIf_nop_v k0 l0 fuel D reduction im1 im2 im3
  = _irtkforeachternaryvoxelfunction_must_not_be_reduction /\
  ByPointer.ForEachVoxelIf_attr_v k0 l0 D reduction other attr im1 im2 im3
  = _irtkforeachternaryvoxelfunction_must_not_be_reduction /\
  ByPointer.ForEachVoxelIf_attr_v k0 l0 D other reduction attr im1 im2 im3
  = _irtkforeachternaryvoxelfunction_must_not_be_reduction /\
  ByPointer.ForEachVoxelIf_attr_nop_v k0 l0 D reduction attr im1 im2 im3
  = _irtkforeachternaryvoxelfunction_must_not_be_reduction /\
  ByPointer.ForEachVoxelIf_1d_v k0 l0 D reduction other re1 im1 im2 im3
  = _irtkforeachternaryvoxelfunction_must_not_be_reduction /\
  ByPointer.ForEachVoxelIf_1d_v k0 l0 D other reduction re1 im1 im2 im3
  = _irtkforeachternaryvoxelfunction_must_not_be_reduction /\
  ByPointer.ForEachVoxelIf_2d_v k0 l0 D reduction other re2 im1 im2 im3
  = _irtkforeachternaryvoxelfunction_must_not_be_reduction /\
  ByPointer.ForEachVoxelIf_2d_v k0 l0 D other reduction re2 im1 im2 im3
  = _irtkforeachternaryvoxelfunction_must_not_be_reduction /\
  ByPointer.ForEachVoxelIf_2d_nop_v k0 l0 D reduction re2 im1 im2 im3
  = _irtkforeachternaryvoxelfunction_must_not_be_reduction /\
  ByPointer.ForEachVoxelIf_3d_v k0 l0 fuel D reduction other re3 im1 im2 im3
  = _irtkforeachternaryvoxelfunction_must_not_be_reduction /\
  ByPointer.ForEachVoxelIf_3d_v k0 l0 fuel D other reduction re3 im1 im2 im3
  = _irtkforeachternaryvoxelfunction_must_not_be_reduction /\
  ByPointer.ForEachVoxelIf_3d_nop_v k0 l0 D reduction re3 im1 im2 im3
  = _irtkforeachternaryvoxelfunction_must_not_be_reduction /\
  ByPointer.ParallelForEachScalar_v k0 l0 sch reduction im1 im2 im3
  = _irtkforeachternaryvoxelfunction_must_not_be_reduction /\
  ByPointer.ParallelForEachVoxel_v k0 l0 sch reduction im1 im2 im3
  = _irtkforeachternaryvoxelfunction_must_not_be_reduction /\
  ByPointer.ParallelForEachVoxel_attr_v k0 l0 schl reduction attr im1 im2 im3
  = _irtkforeachternaryvoxelfunction_must_not_be_reduction /\
  ByPointer.ParallelForEachVoxel_1d_v k0 l0 sch reduction re1 im1 im2 im3
  = _irtkforeachternaryvoxelfunction_must_not_be_reduction /\
  ByPointer.ParallelForEachVoxel_2d_v k0 l0 sch reduction re2 im1 im2 im3
  = _irtkforeachternaryvoxelfunction_must_not_be_reduction /\
  ByPointer.ParallelForEachVoxel_3d_v k0 l0 sch reduction re3 im1 im2 im3
  = _irtkforeachternaryvoxelfunction_must_not_be_reduction /\
  ByPointer.ParallelForEachScalarIf_v k0 l0 sch D reduction other im1 im2 im3
  = _irtkforeachternaryvoxelfunction_must_not_be_reduction /\
  ByPointer.ParallelForEachScalarIf_v k0 l0 sch D other reduction im1 im2 im3
  = _irtkforeachternaryvoxelfunction_must_not_be_reduction /\
  ByPointer.ParallelForEachScalarIf_nop_v k0 l0 sch D reduction im1 im2 im3
  = _irtkforeachternaryvoxelfunction_must_not_be_reduction /\
  ByPointer.ParallelForEachVoxelIf_v k0 l0 fuel sch D reduction other im1 im2 im3
  = _irtkforeachternaryvoxelfunction_must_not_be_reduction /\
  ByPointer.ParallelForEachVoxelIf_v k0 l0 fuel sch D other reduction im1 im2 im3
  = _irtkforeachternaryvoxelfunction_must_not_be_reduction /\
  ByPointer.ParallelForEachVoxelIf_nop_v k0 l0 fuel sch D reduction im1 im2 im3
  = _irtkforeachternaryvoxelfunction_must_not_be_reduction /\
  ByPointer.ParallelForEachVoxelIf_attr_v k0 l0 schl D reduction other attr im1 im2 im3
  = _irtkforeachternaryvoxelfunction_must_not_be_reduction /\
  ByPointer.ParallelForEachVoxelIf_attr_v k0 l0 schl D other reduction attr im1 im2 im3
  = _irtkforeachternaryvoxelfunction_must_not_be_reduction /\
  ByPointer.ParallelForEachVoxelIf_attr_nop_v k0 l0 schl D reduction attr im1 im2 im3
  = _irtkforeachternaryvoxelfunction_must_not_be_reduction /\
  ByPointer.ParallelForEachVoxelIf_1d_v k0 l0 sch D reduction other re1 im1 im2 im3
  = _irtkforeachternaryvoxelfunction_must_not_be_reduction /\
  ByPointer.ParallelForEachVoxelIf_1d_v k0 l0 sch D other reduction re1 im1 im2 im3
  = _irtkforeachternaryvoxelfunction_must_not_be_reduction /\
  ByPointer.ParallelForEachVoxelIf_1d_nop_v k0 l0 sch D reduction re1 im1 im2 im3
  = _irtkforeachternaryvoxelfunction_must_not_be_reduction /\
  ByPointer.ParallelForEachVoxelIf_2d_v k0 l0 sch D reduction other re2 im1 im2 im3
  = _irtkforeachternaryvoxelfunction_must_not_be_reduction /\
  ByPointer.ParallelForEachVoxelIf_2d_v k0 l0 sch D other reduction re2 im1 im2 im3
  = _irtkforeachternaryvoxelfunction_must_not_be_reduction /\
  ByPointer.ParallelForEachVoxelIf_2d_nop_v k0 l0 sch D reduction re2 im1 im2 im3
  = _irtkforeachternaryvoxelfunction_must_not_be_reduction /\
  ByPointer.ParallelForEachVoxelIf_3d_v k0 l0 sch D reduction other re3 im1 im2 im3
  = _irtkforeachternaryvoxelfunction_must_not_be_reduction /\
  ByPointer.ParallelForEachVoxelIf_3d_v k0 l0 sch D other reduction re3 im1 im2 im3
  = _irtkforeachternaryvoxelfunction_must_not_be_reduction /\
  ByPointer.ParallelForEachVoxelIf_3d_nop_v k0 l0 sch D reduction re3 im1 im2 im3
  = _irtkforeachternaryvoxelfunction_must_not_be_reduction.
Proof.
  repeat apply conj.
  - unfold ByReference.ForEachScalar_v. reflexivity.
  - unfold ByReference.ForEachVoxel_v. reflexivity.
  - unfold ByReference.ForEachVoxel_attr_v. reflexivity.
  - unfold ByReference.ForEachVoxel_1d_v. reflexivity.
  - unfold ByReference.ForEachVoxel_2d_v. reflexivity.
  - unfold ByReference.ForEachVoxel_3d_v. reflexivity.
  - unfold ByReference.ForEachScalarIf_v. reflexivity.
  - unfold ByReference.ForEachScalarIf_v. cbn [IsReduction reduction]. now rewrite orb_true_r.
  - unfold ByReference.ForEachScalarIf_nop_v. reflexivity.
  - unfold ByReference.ForEachVoxelIf_v. reflexivity.
  - unfold ByReference.ForEachVoxelIf_v. cbn [IsReduction reduction]. now rewrite orb_true_r.
  - unfold ByReference.ForEachVoxelIf_nop_v. reflexivity.
  - unfold ByReference.ForEachVoxelIf_attr_v. reflexivity.
  - unfold ByReference.ForEachVoxelIf_attr_v. cbn [IsReduction reduction]. now rewrite orb_true_r.
  - unfold ByReference.ForEachVoxelIf_attr_nop_v. reflexivity.
  - unfold ByReference.ForEachVoxelIf_1d_v. reflexivity.
  - unfold ByReference.ForEachVoxelIf_1d_v. cbn [IsReduction reduction]. now rewrite orb_true_r.
  - unfold ByReference.ForEachVoxelIf_2d_v. reflexivity.
  - unfold ByReference.ForEachVoxelIf_2d_v. cbn [IsReduction reduction]. now rewrite orb_true_r.
  - unfold ByReference.ForEachVoxelIf_2d_nop_v. reflexivity.
  - unfold ByReference.ForEachVoxelIf_3d_v. reflexivity.
  - unfold ByReference.ForEachVoxelIf_3d_v. cbn [IsReduction reduction]. now rewrite orb_true_r.
  - unfold ByReference.ForEachVoxelIf_3d_nop_v. reflexivity.
  - unfold ByReference.ParallelForEachScalar_v. reflexivity.
  - unfold ByReference.ParallelForEachVoxel_v. reflexivity.
  - unfold ByReference.ParallelForEachVoxel_attr_v. reflexivity.
  - unfold ByReference.ParallelForEachVoxel_1d_v. reflexivity.
  - unfold ByReference.ParallelForEachVoxel_2d_v. reflexivity.
  - unfold ByReference.ParallelForEachVoxel_3d_v. reflexivity.
  - unfold ByReference.ParallelForEachScalarIf_v. reflexivity.
  - unfold ByReference.ParallelForEachScalarIf_v. cbn [IsReduction reduction]. now rewrite orb_true_r.
  - unfold ByReference.ParallelForEachScalarIf_nop_v. reflexivity.
  - unfold ByReference.ParallelForEachVoxelIf_v. reflexivity.
  - unfold ByReference.ParallelForEachVoxelIf_v. cbn [IsReduction reduction]. now rewrite orb_true_r.
  - unfold ByReference.ParallelForEachVoxelIf_nop_v. reflexivity.
  - unfold ByReference.ParallelForEachVoxelIf_attr_v. reflexivity.
  - unfold ByReference.ParallelForEachVoxelIf_attr_v. cbn [IsReduction reduction]. now rewrite orb_true_r.
  - unfold ByReference.ParallelForEachVoxelIf_attr_nop_v. reflexivity.
  - unfold ByReference.ParallelForEachVoxelIf_1d_v. reflexivity.
  - unfold ByReference.ParallelForEachVoxelIf_1d_v. cbn [IsReduction reduction]. now rewrite orb_true_r.
  - unfold ByReference.ParallelForEachVoxelIf_1d_nop_v. reflexivity.
  - unfold ByReference.ParallelForEachVoxelIf_2d_v. reflexivity.
  - unfold ByReference.ParallelForEachVoxelIf_2d_v. cbn [IsReduction reduction]. now rewrite orb_true_r.
  - unfold ByReference.ParallelForEachVoxelIf_2d_nop_v. reflexivity.
  - unfold ByReference.ParallelForEachVoxelIf_3d_v. reflexivity.
  - unfold ByReference.ParallelForEachVoxelIf_3d_v. cbn [IsReduction reduction]. now rewrite orb_true_r.
  - unfold ByReference.ParallelForEachVoxelIf_3d_nop_v. reflexivity.
  - unfold ByPointer.ForEachScalar_v. reflexivity.
  - unfold ByPointer.ForEachVoxel_v. reflexivity.
  - unfold ByPointer.ForEachVoxel_attr_v. reflexivity.
  - unfold ByPointer.ForEachVoxel_1d_v. reflexivity.
  - unfold ByPointer.ForEachVoxel_2d_v. reflexivity.
  - unfold ByPointer.ForEachVoxel_3d_v. reflexivity.
  - unfold ByPointer.ForEachScalarIf_v. reflexivity.
  - unfold ByPointer.ForEachScalarIf_v. cbn [IsReduction reduction]. now rewrite orb_true_r.
  - unfold ByPointer.ForEachScalarIf_nop_v. reflexivity.
  - unfold ByPointer.ForEachVoxelIf_v. reflexivity.
  - unfold ByPointer.ForEachVoxelIf_v. cbn [IsReduction reduction]. now rewrite orb_true_r.
  - unfold ByPointer.ForEachVoxelIf_nop_v. reflexivity.
  - unfold ByPointer.ForEachVoxelIf_attr_v. reflexivity.
  - unfold ByPointer.ForEachVoxelIf_attr_v. cbn [IsReduction reduction]. now rewrite orb_true_r.
  - unfold ByPointer.ForEachVoxelIf_attr_nop_v. reflexivity.
  - unfold ByPointer.ForEachVoxelIf_1d_v. reflexivity.
  - unfold ByPointer.ForEachVoxelIf_1d_v. cbn [IsReduction reduction]. now rewrite orb_true_r.
  - unfold ByPointer.ForEachVoxelIf_2d_v. reflexivity.
  - unfold ByPointer.ForEachVoxelIf_2d_v. cbn [IsReduction reduction]. now rewrite orb_true_r.
  - unfold ByPointer.ForEachVoxelIf_2d_nop_v. reflexivity.
  - unfold ByPointer.ForEachVoxelIf_3d_v. reflexivity.
  - unfold ByPointer.ForEachVoxelIf_3d_v. cbn [IsReduction reduction]. now rewrite orb_true_r.
  - unfold ByPointer.ForEachVoxelIf_3d_nop_v. reflexivity.
  - unfold ByPointer.ParallelForEachScalar_v. reflexivity.
  - unfold ByPointer.ParallelForEachVoxel_v. reflexivity.
  - unfold ByPointer.ParallelForEachVoxel_attr_v. reflexivity.
  - unfold ByPointer.ParallelForEachVoxel_1d_v. reflexivity.
  - unfold ByPointer.ParallelForEachVoxel_2d_v. reflexivity.
  - unfold ByPointer.ParallelForEachVoxel_3d_v. reflexivity.
  - unfold ByPointer.ParallelForEachScalarIf_v. reflexivity.
  - unfold ByPointer.ParallelForEachScalarIf_v. cbn [IsReduction reduction]. now rewrite orb_true_r.
  - unfold ByPointer.ParallelForEachScalarIf_nop_v. reflexivity.
  - unfold ByPointer.ParallelForEachVoxelIf_v. reflexivity.
  - unfold ByPointer.ParallelForEachVoxelIf_v. cbn [IsReduction reduction]. now rewrite orb_true_r.
  - unfold ByPointer.ParallelForEachVoxelIf_nop_v. reflexivity.
  - unfold ByPointer.ParallelForEachVoxelIf_attr_v. reflexivity.
  - unfold ByPointer.ParallelForEachVoxelIf_attr_v. cbn [IsReduction reduction]. now rewrite orb_true_r.
  - unfold ByPointer.ParallelForEachVoxelIf_attr_nop_v. reflexivity.
  - unfold ByPointer.ParallelForEachVoxelIf_1d_v. reflexivity.
  - unfold ByPointer.ParallelForEachVoxelIf_1d_v. cbn [IsReduction reduction]. now rewrite orb_true_r.
  - unfold ByPointer.ParallelForEachVoxelIf_1d_nop_v. reflexivity.
  - unfold ByPointer.ParallelForEachVoxelIf_2d_v. reflexivity.
  - unfold ByPointer.ParallelForEachVoxelIf_2d_v. cbn [IsReduction reduction]. now rewrite orb_true_r.
  - unfold ByPointer.ParallelForEachVoxelIf_2d_nop_v. reflexivity.
  - unfold ByPointer.ParallelForEachVoxelIf_3d_v. reflexivity.
  - unfold ByPointer.ParallelForEachVoxelIf_3d_v. cbn [IsReduction reduction]. now rewrite orb_true_r.
  - unfold ByPointer.ParallelForEachVoxelIf_3d_nop_v. reflexivity.
Qed.

(** X2: every entry point that takes its functor(s) by value, other than the
    predicated sequential pass with two functors, a 3-D range and the images
    by pointer: when no functor is a reduction, the call is the call of the
    entry point of the same name, range and functors that takes the images by
    reference and the functor(s) by reference. *)
Theorem by_value_entry_points_delegate
  (k0 l0 : Z) (fuel : nat) (sch : schedule) (schl : Z -> schedule) (D : Domain)
  (attr : irtkImageAttributes) (re1 : blocked_range) (re2 : blocked_range2d)
  (re3 : blocked_range3d) (im1 im2 im3 : irtkGenericImage) (other : functor) :
  ByReference.ForEachScalar_v k0 l0 no_reduction im1 im2 im3
  = ByReference.ForEachScalar k0 l0 no_reduction im1 im2 im3 /\
  ByReference.ForEachVoxel_v k0 l0 no_reduction im1 im2 im3
  = ByReference.ForEachVoxel k0 l0 no_reduction im1 im2 im3 /\
  ByReference.ForEachVoxel_attr_v k0 l0 no_reduction attr im1 im2 im3
  = ByReference.ForEachVoxel_attr k0 l0 no_reduction attr im1 im2 im3 /\
  ByReference.ForEachVoxel_1d_v k0 l0 no_reduction re1 im1 im2 im3
  = ByReference.ForEachVoxel_1d k0 l0 no_reduction re1 im1 im2 im3 /\
  ByReference.ForEachVoxel_2d_v k0 l0 no_reduction re2 im1 im2 im3
  = ByReference.ForEachVoxel_2d k0 l0 no_reduction re2 im1 im2 im3 /\
  ByReference.ForEachVoxel_3d_v k0 l0 no_reduction re3 im1 im2 im3
  = ByReference.ForEachVoxel_3d k0 l0 no_reduction re3 im1 im2 im3 /\
  ByReference.ForEachScalarIf_v k0 l0 D no_reduction no_reduction im1 im2 im3
  = ByReference.ForEachScalarIf k0 l0 D no_reduction no_reduction im1 im2 im3 /\
  ByReference.ForEachScalarIf_nop_v k0 l0 D no_reduction im1 im2 im3
  = ByReference.ForEachScalarIf_nop k0 l0 D no_reduction im1 im2 im3 /\
  ByReference.ForEachVoxelIf_v k0 l0 fuel D no_reduction no_reduction im1 im2 im3
  = ByReference.ForEachVoxelIf k0 l0 fuel D no_reduction no_reduction im1 im2 im3 /\
  ByReference.ForEachVoxelIf_nop_v k0 l0 fuel D no_reduction im1 im2 im3
  = ByReference.ForEachVoxelIf_nop k0 l0 fuel D no_reduction im1 im2 im3 /\
  ByReference.ForEachVoxelIf_attr_v k0 l0 D no_reduction no_reduction attr im1 im2 im3
  = ByReference.ForEachVoxelIf_attr k0 l0 D no_reduction no_reduction attr im1 im2 im3 /\
  ByReference.ForEachVoxelIf_attr_nop_v k0 l0 D no_reduction attr im1 im2 im3
  = ByReference.ForEachVoxelIf_attr_nop k0 l0 D no_reduction attr im1 im2 im3 /\
  ByReference.ForEachVoxelIf_1d_v k0 l0 D no_reduction no_reduction re1 im1 im2 im3
  = ByReference.ForEachVoxelIf_1d k0 l0 D no_reduction no_reduction re1 im1 im2 im3 /\
  ByReference.ForEachVoxelIf_2d_v k0 l0 D no_reduction no_reduction re2 im1 im2 im3
  = ByReference.ForEachVoxelIf_2d k0 l0 D no_reduction no_reduction re2 im1 im2 im3 /\
  ByReference.ForEachVoxelIf_2d_nop_v k0 l0 D no_reduction re2 im1 im2 im3
  = ByReference.ForEachVoxelIf_2d_nop k0 l0 D no_reduction re2 im1 im2 im3 /\
  ByReference.ForEachVoxelIf_3d_v k0 l0 D no_reduction no_reduction re3 im1 im2 im3
  = ByReference.ForEachVoxelIf_3d k0 l0 D no_reduction no_reduction re3 im1 im2 im3 /\
  ByReference.ForEachVoxelIf_3d_nop_v k0 l0 D no_reduction re3 im1 im2 im3
  = ByReference.ForEachVoxelIf_3d_nop k0 l0 D no_reduction re3 im1 im2 im3 /\
  ByReference.ParallelForEachScalar_v k0 l0 sch no_reduction im1 im2 im3
  = ByReference.ParallelForEachScalar k0 l0 sch no_reduction im1 im2 im3 /\
  ByReference.ParallelForEachVoxel_v k0 l0 sch no_reduction im1 im2 im3
  = ByReference.ParallelForEachVoxel k0 l0 sch no_reduction im1 im2 im3 /\
  ByReference.ParallelForEachVoxel_attr_v k0 l0 schl no_reduction attr im1 im2 im3
  = ByReference.ParallelForEachVoxel_attr k0 l0 schl no_reduction attr im1 im2 im3 /\
  ByReference.ParallelForEachVoxel_1d_v k0 l0 sch no_reduction re1 im1 im2 im3
  = ByReference.ParallelForEachVoxel_1d k0 l0 sch no_reduction re1 im1 im2 im3 /\
  ByReference.ParallelForEachVoxel_2d_v k0 l0 sch no_reduction re2 im1 im2 im3
  = ByReference.ParallelForEachVoxel_2d k0 l0 sch no_reduction re2 im1 im2 im3 /\
  ByReference.ParallelForEachVoxel_3d_v k0 l0 sch no_reduction re3 im1 im2 im3
  = ByReference.ParallelForEachVoxel_3d k0 l0 sch no_reduction re3 im1 im2 im3 /\
  ByReference.ParallelForEachScalarIf_v k0 l0 sch D no_reduction no_reduction im1 im2 im3
  = ByReference.ParallelForEachScalarIf k0 l0 sch D no_reduction no_reduction im1 im2 im3 /\
  ByReference.ParallelForEachScalarIf_nop_v k0 l0 sch D no_reduction im1 im2 im3
  = ByReference.ParallelForEachScalarIf_nop k0 l0 sch D no_reduction im1 im2 im3 /\
  ByReference.ParallelForEachVoxelIf_v k0 l0 fuel sch D no_reduction no_reduction im1 im2 im3
  = ByReference.ParallelForEachVoxelIf k0 l0 fuel sch D no_reduction no_reduction im1 im2 im3 /\
  ByReference.ParallelForEachVoxelIf_nop_v k0 l0 fuel sch D no_reduction im1 im2 im3
  = ByReference.ParallelForEachVoxelIf_nop k0 l0 fuel sch D no_reduction im1 im2 im3 /\
  ByReference.ParallelForEachVoxelIf_attr_v k0 l0 schl D no_reduction no_reduction attr im1 im2 im3
  = ByReference.ParallelForEachVoxelIf_attr k0 l0 schl D no_reduction no_reduction attr im1 im2 im3 /\
  ByReference.ParallelForEachVoxelIf_attr_nop_v k0 l0 schl D no_reduction attr im1 im2 im3
  = ByReference.ParallelForEachVoxelIf_attr_nop k0 l0 schl D no_reduction attr im1 im2 im3 /\
  ByReference.ParallelForEachVoxelIf_1d_v k0 l0 sch D no_reduction no_reduction re1 im1 im2 im3
  = ByReference.ParallelForEachVoxelIf_1d k0 l0 sch D no_reduction no_reduction re1 im1 im2 im3 /\
  ByReference.ParallelForEachVoxelIf_1d_nop_v k0 l0 sch D no_reduction re1 im1 im2 im3
  = ByReference.ParallelForEachVoxelIf_1d_nop k0 l0 sch D no_reduction re1 im1 im2 im3 /\
  ByReference.ParallelForEachVoxelIf_2d_v k0 l0 sch D no_reduction no_reduction re2 im1 im2 im3
  = ByReference.ParallelForEachVoxelIf_2d k0 l0 sch D no_reduction no_reduction re2 im1 im2 im3 /\
  ByReference.ParallelForEachVoxelIf_2d_nop_v k0 l0 sch D no_reduction re2 im1 im2 im3
  = ByReference.ParallelForEachVoxelIf_2d_nop k0 l0 sch D no_reduction re2 im1 im2 im3 /\
  ByReference.ParallelForEachVoxelIf_3d_v k0 l0 sch D no_reduction no_reduction re3 im1 im2 im3
  = ByReference.ParallelForEachVoxelIf_3d k0 l0 sch D no_reduction no_reduction re3 im1 im2 im3 /\
  ByReference.ParallelForEachVoxelIf_3d_nop_v k0 l0 sch D no_reduction re3 im1 im2 im3
  = ByReference.ParallelForEachVoxelIf_3d_nop k0 l0 sch D no_reduction re3 im1 im2 im3 /\
  ByPointer.ForEachScalar_v k0 l0 no_reduction im1 im2 im3
  = ByReference.ForEachScalar k0 l0 no_reduction im1 im2 im3 /\
  ByPointer.ForEachVoxel_v k0 l0 no_reduction im1 im2 im3
  = ByReference.ForEachVoxel k0 l0 no_reduction im1 im2 im3 /\
  ByPointer.ForEachVoxel_attr_v k0 l0 no_reduction attr im1 im2 im3
  = ByReference.ForEachVoxel_attr k0 l0 no_reduction attr im1 im2 im3 /\
  ByPointer.ForEachVoxel_1d_v k0 l0 no_reduction re1 im1 im2 im3
  = ByReference.ForEachVoxel_1d k0 l0 no_reduction re1 im1 im2 im3 /\
  ByPointer.ForEachVoxel_2d_v k0 l0 no_reduction re2 im1 im2 im3
  = ByReference.ForEachVoxel_2d k0 l0 no_reduction re2 im1 im2 im3 /\
  ByPointer.ForEachVoxel_3d_v k0 l0 no_reduction re3 im1 im2 im3
  = ByReference.ForEachVoxel_3d k0 l0 no_reduction re3 im1 im2 im3 /\
  ByPointer.ForEachScalarIf_v k0 l0 D no_reduction no_reduction im1 im2 im3
  = ByReference.ForEachScalarIf k0 l0 D no_reduction no_reduction im1 im2 im3 /\
  ByPointer.ForEachScalarIf_nop_v k0 l0 D no_reduction im1 im2 im3
  = ByReference.ForEachScalarIf_nop k0 l0 D no_reduction im1 im2 im3 /\
  ByPointer.ForEachVoxelIf_v k0 l0 fuel D no_reduction no_reduction im1 im2 im3
  = ByReference.ForEachVoxelIf k0 l0 fuel D no_reduction no_reduction im1 im2 im3 /\
  ByPointer.ForEachVoxelIf_nop_v k0 l0 fuel D no_reduction im1 im2 im3
  = ByReference.ForEachVoxelIf_nop k0 l0 fuel D no_reduction im1 im2 im3 /\
  ByPointer.ForEachVoxelIf_attr_v k0 l0 D no_reduction no_reduction attr im1 im2 im3
  = ByReference.ForEachVoxelIf_attr k0 l0 D no_reduction no_reduction attr im1 im2 im3 /\
  ByPointer.ForEachVoxelIf_attr_nop_v k0 l0 D no_reduction attr im1 im2 im3
  = ByReference.ForEachVoxelIf_attr_nop k0 l0 D no_reduction attr im1 im2 im3 /\
  ByPointer.ForEachVoxelIf_1d_v k0 l0 D no_reduction no_reduction re1 im1 im2 im3
  = ByReference.ForEachVoxelIf_1d k0 l0 D no_reduction no_reduction re1 im1 im2 im3 /\
  ByPointer.ForEachVoxelIf_2d_v k0 l0 D no_reduction no_reduction re2 im1 im2 im3
  = ByReference.ForEachVoxelIf_2d k0 l0 D no_reduction no_reduction re2 im1 im2 im3 /\
  ByPointer.ForEachVoxelIf_2d_nop_v k0 l0 D no_reduction re2 im1 im2 im3
  = ByReference.ForEachVoxelIf_2d_nop k0 l0 D no_reduction re2 im1 im2 im3 /\
  ByPointer.ForEachVoxelIf_3d_nop_v k0 l0 D no_reduction re3 im1 im2 im3
  = ByReference.ForEachVoxelIf_3d_nop k0 l0 D no_reduction re3 im1 im2 im3 /\
  ByPointer.ParallelForEachScalar_v k0 l0 sch no_reduction im1 im2 im3
  = ByReference.ParallelForEachScalar k0 l0 sch no_reduction im1 im2 im3 /\
  ByPointer.ParallelForEachVoxel_v k0 l0 sch no_reduction im1 im2 im3
  = ByReference.ParallelForEachVoxel k0 l0 sch no_reduction im1 im2 im3 /\
  ByPointer.ParallelForEachVoxel_attr_v k0 l0 schl no_reduction attr im1 im2 im3
  = ByReference.ParallelForEachVoxel_attr k0 l0 schl no_reduction attr im1 im2 im3 /\
  ByPointer.ParallelForEachVoxel_1d_v k0 l0 sch no_reduction re1 im1 im2 im3
  = ByReference.ParallelForEachVoxel_1d k0 l0 sch no_reduction re1 im1 im2 im3 /\
  ByPointer.ParallelForEachVoxel_2d_v k0 l0 sch no_reduction re2 im1 im2 im3
  = ByReference.ParallelForEachVoxel_2d k0 l0 sch no_reduction re2 im1 im2 im3 /\
  ByPointer.ParallelForEachVoxel_3d_v k0 l0 sch no_reduction re3 im1 im2 im3
  = ByReference.ParallelForEachVoxel_3d k0 l0 sch no_reduction re3 im1 im2 im3 /\
  ByPointer.ParallelForEachScalarIf_v k0 l0 sch D no_reduction no_reduction im1 im2 im3
  = ByReference.ParallelForEachScalarIf k0 l0 sch D no_reduction no_reduction im1 im2 im3 /\
  ByPointer.ParallelForEachScalarIf_nop_v k0 l0 sch D no_reduction im1 im2 im3
  = ByReference.ParallelForEachScalarIf_nop k0 l0 sch D no_reduction im1 im2 im3 /\
  ByPointer.ParallelForEachVoxelIf_v k0 l0 fuel sch D no_reduction no_reduction im1 im2 im3
  = ByReference.ParallelForEachVoxelIf k0 l0 fuel sch D no_reduction no_reduction im1 im2 im3 /\
  ByPointer.ParallelForEachVoxelIf_nop_v k0 l0 fuel sch D no_reduction im1 im2 im3
  = ByReference.ParallelForEachVoxelIf_nop k0 l0 fuel sch D no_reduction im1 im2 im3 /\
  ByPointer.ParallelForEachVoxelIf_attr_v k0 l0 schl D no_reduction no_reduction attr im1 im2 im3
  = ByReference.ParallelForEachVoxelIf_attr k0 l0 schl D no_reduction no_reduction attr im1 im2 im3 /\
  ByPointer.ParallelForEachVoxelIf_attr_nop_v k0 l0 schl D no_reduction attr im1 im2 im3
  = ByReference.ParallelForEachVoxelIf_attr_nop k0 l0 schl D no_reduction attr im1 im2 im3 /\
  ByPointer.ParallelForEachVoxelIf_1d_v k0 l0 sch D no_reduction no_reduction re1 im1 im2 im3
  = ByReference.ParallelForEachVoxelIf_1d k0 l0 sch D no_reduction no_reduction re1 im1 im2 im3 /\
  ByPointer.ParallelForEachVoxelIf_1d_nop_v k0 l0 sch D no_reduction re1 im1 im2 im3
  = ByReference.ParallelForEachVoxelIf_1d_nop k0 l0 sch D no_reduction re1 im1 im2 im3 /\
  ByPointer.ParallelForEachVoxelIf_2d_v k0 l0 sch D no_reduction no_reduction re2 im1 im2 im3
  = ByReference.ParallelForEachVoxelIf_2d k0 l0 sch D no_reduction no_reduction re2 im1 im2 im3 /\
  ByPointer.ParallelForEachVoxelIf_2d_nop_v k0 l0 sch D no_reduction re2 im1 im2 im3
  = ByReference.ParallelForEachVoxelIf_2d_nop k0 l0 sch D no_reduction re2 im1 im2 im3 /\
  ByPointer.ParallelForEachVoxelIf_3d_v k0 l0 sch D no_reduction no_reduction re3 im1 im2 im3
  = ByReference.ParallelForEachVoxelIf_3d k0 l0 sch D no_reduction no_reduction re3 im1 im2 im3 /\
  ByPointer.ParallelForEachVoxelIf_3d_nop_v k0 l0 sch D no_reduction re3 im1 im2 im3
  = ByReference.ParallelForEachVoxelIf_3d_nop k0 l0 sch D no_reduction re3 im1 im2 im3.
Proof.
  repeat apply conj.
  - unfold ByReference.ForEachScalar_v. apply guard_no_reduction.
  - unfold ByReference.ForEachVoxel_v. apply guard_no_reduction.
  - unfold ByReference.ForEachVoxel_attr_v. apply guard_no_reduction.
  - unfold ByReference.ForEachVoxel_1d_v. apply guard_no_reduction.
  - unfold ByReference.ForEachVoxel_2d_v. apply guard_no_reduction.
  - unfold ByReference.ForEachVoxel_3d_v. apply guard_no_reduction.
  - unfold ByReference.ForEachScalarIf_v. apply guard_no_reduction.
  - unfold ByReference.ForEachScalarIf_nop_v. apply guard_no_reduction.
  - unfold ByReference.ForEachVoxelIf_v. apply guard_no_reduction.
  - unfold ByReference.ForEachVoxelIf_nop_v. apply guard_no_reduction.
  - unfold ByReference.ForEachVoxelIf_attr_v. apply guard_no_reduction.
  - unfold ByReference.ForEachVoxelIf_attr_nop_v. apply guard_no_reduction.
  - unfold ByReference.ForEachVoxelIf_1d_v. apply guard_no_reduction.
  - unfold ByReference.ForEachVoxelIf_2d_v. apply guard_no_reduction.
  - unfold ByReference.ForEachVoxelIf_2d_nop_v. apply guard_no_reduction.
  - unfold ByReference.ForEachVoxelIf_3d_v. apply guard_no_reduction.
  - unfold ByReference.ForEachVoxelIf_3d_nop_v. apply guard_no_reduction.
  - unfold ByReference.ParallelForEachScalar_v. apply guard_no_reduction.
  - unfold ByReference.ParallelForEachVoxel_v. apply guard_no_reduction.
  - unfold ByReference.ParallelForEachVoxel_attr_v. apply guard_no_reduction.
  - unfold ByReference.ParallelForEachVoxel_1d_v. apply guard_no_reduction.
  - unfold ByReference.ParallelForEachVoxel_2d_v. apply guard_no_reduction.
  - unfold ByReference.ParallelForEachVoxel_3d_v. apply guard_no_reduction.
  - unfold ByReference.ParallelForEachScalarIf_v. apply guard_no_reduction.
  - unfold ByReference.ParallelForEachScalarIf_nop_v. apply guard_no_reduction.
  - unfold ByReference.ParallelForEachVoxelIf_v. apply guard_no_reduction.
  - unfold ByReference.ParallelForEachVoxelIf_nop_v. apply guard_no_reduction.
  - unfold ByReference.ParallelForEachVoxelIf_attr_v. apply guard_no_reduction.
  - unfold ByReference.ParallelForEachVoxelIf_attr_nop_v. apply guard_no_reduction.
  - unfold ByReference.ParallelForEachVoxelIf_1d_v. apply guard_no_reduction.
  - unfold ByReference.ParallelForEachVoxelIf_1d_nop_v. apply guard_no_reduction.
  - unfold ByReference.ParallelForEachVoxelIf_2d_v. apply guard_no_reduction.
  - unfold ByReference.ParallelForEachVoxelIf_2d_nop_v. apply guard_no_reduction.
  - unfold ByReference.ParallelForEachVoxelIf_3d_v. apply guard_no_reduction.
  - unfold ByReference.ParallelForEachVoxelIf_3d_nop_v. apply guard_no_reduction.
  - unfold ByPointer.ForEachScalar_v. apply guard_no_reduction.
  - unfold ByPointer.ForEachVoxel_v. apply guard_no_reduction.
  - unfold ByPointer.ForEachVoxel_attr_v. apply guard_no_reduction.
  - unfold ByPointer.ForEachVoxel_1d_v. apply guard_no_reduction.
  - unfold ByPointer.ForEachVoxel_2d_v. apply guard_no_reduction.
  - unfold ByPointer.ForEachVoxel_3d_v. apply guard_no_reduction.
  - unfold ByPointer.ForEachScalarIf_v. apply guard_no_reduction.
  - unfold ByPointer.ForEachScalarIf_nop_v. apply guard_no_reduction.
  - unfold ByPointer.ForEachVoxelIf_v. apply guard_no_reduction.
  - unfold ByPointer.ForEachVoxelIf_nop_v. apply guard_no_reduction.
  - unfold ByPointer.ForEachVoxelIf_attr_v. apply guard_no_reduction.
  - unfold ByPointer.ForEachVoxelIf_attr_nop_v. apply guard_no_reduction.
  - unfold ByPointer.ForEachVoxelIf_1d_v. apply guard_no_reduction.
  - unfold ByPointer.ForEachVoxelIf_2d_v. apply guard_no_reduction.
  - unfold ByPointer.ForEachVoxelIf_2d_nop_v. apply guard_no_reduction.
  - unfold ByPointer.ForEachVoxelIf_3d_nop_v. apply guard_no_reduction.
  - unfold ByPointer.ParallelForEachScalar_v. apply guard_no_reduction.
  - unfold ByPointer.ParallelForEachVoxel_v. apply guard_no_reduction.
  - unfold ByPointer.ParallelForEachVoxel_attr_v. apply guard_no_reduction.
  - unfold ByPointer.ParallelForEachVoxel_1d_v. apply guard_no_reduction.
  - unfold ByPointer.ParallelForEachVoxel_2d_v. apply guard_no_reduction.
  - unfold ByPointer.ParallelForEachVoxel_3d_v. apply guard_no_reduction.
  - unfold ByPointer.ParallelForEachScalarIf_v. apply guard_no_reduction.
  - unfold ByPointer.ParallelForEachScalarIf_nop_v. apply guard_no_reduction.
  - unfold ByPointer.ParallelForEachVoxelIf_v. apply guard_no_reduction.
  - unfold ByPointer.ParallelForEachVoxelIf_nop_v. apply guard_no_reduction.
  - unfold ByPointer.ParallelForEachVoxelIf_attr_v. apply guard_no_reduction.
  - unfold ByPointer.ParallelForEachVoxelIf_attr_nop_v. apply guard_no_reduction.
  - unfold ByPointer.ParallelForEachVoxelIf_1d_v. apply guard_no_reduction.
  - unfold ByPointer.ParallelForEachVoxelIf_1d_nop_v. apply guard_no_reduction.
  - unfold ByPointer.ParallelForEachVoxelIf_2d_v. apply guard_no_reduction.
  - unfold ByPointer.ParallelForEachVoxelIf_2d_nop_v. apply guard_no_reduction.
  - unfold ByPointer.ParallelForEachVoxelIf_3d_v. apply guard_no_reduction.
  - unfold ByPointer.ParallelForEachVoxelIf_3d_nop_v. apply guard_no_reduction.
Qed.

(* ===================================================================== *)
(** ** The number of functor calls *)
(* ===================================================================== *)

Lemma length_interval (b e : Z) : List.length (interval b e) = Z.to_nat (e - b).
Proof. apply length_zseq. Qed.

Lemma length_flat_map_const {A B : Type} (f : A -> list B) (n : nat) (l : list A) :
  (forall a, List.length (f a) = n) ->
  List.length (flat_map f l) = (List.length l * n)%nat.
Proof.
  intros Hf. induction l as [|a l IH]; simpl; [reflexivity|].
  now rewrite length_app, Hf, IH.
Qed.

Lemma length_row (j k l bi ei : Z) :
  List.length (row j k l bi ei) = Z.to_nat (ei - bi).
Proof. unfold row. now rewrite length_map, length_interval. Qed.

Lemma length_plane (k l bj ej bi ei : Z) :
  List.length (plane k l bj ej bi ei) = (Z.to_nat (ej - bj) * Z.to_nat (ei - bi))%nat.
Proof.
  unfold plane. rewrite (length_flat_map_const _ (Z.to_nat (ei - bi))).
  - now rewrite length_interval.
  - intros j. apply length_row.
Qed.

Lemma length_volume (l bk ek bj ej bi ei : Z) :
  List.length (volume l bk ek bj ej bi ei)
  = (Z.to_nat (ek - bk) * (Z.to_nat (ej - bj) * Z.to_nat (ei - bi)))%nat.
Proof.
  unfold volume. rewrite (length_flat_map_const _ (Z.to_nat (ej - bj) * Z.to_nat (ei - bi))).
  - now rewrite length_interval.
  - intros k. apply length_plane.
Qed.

Lemma length_box (bl el bk ek bj ej bi ei : Z) :
  List.length (box bl el bk ek bj ej bi ei)
  = (Z.to_nat (el - bl) * (Z.to_nat (ek - bk) * (Z.to_nat (ej - bj) * Z.to_nat (ei - bi))))%nat.
Proof.
  unfold box.
  rewrite (length_flat_map_const _
             (Z.to_nat (ek - bk) * (Z.to_nat (ej - bj) * Z.to_nat (ei - bi)))).
  - now rewrite length_interval.
  - intros l. apply length_volume.
Qed.

Lemma length_arguments (l : list invocation) (a : list args) :
  map arguments l = a -> List.length l = List.length a.
Proof. intros <-. now rewrite length_map. Qed.

Lemma length_routed (D : Domain) (im : irtkGenericImage) (l : list invocation) (a : list args) :
  map arguments l = a -> List.length (map (route D im) l) = List.length a.
Proof. intros <-. now rewrite !length_map. Qed.

(** X3: the number of functor calls of a traversal is the product of the
    numbers of iterations of its loops, an extent that is not positive
    counting as zero: [T * z * y * x] for the whole domain, with
    [T = (_dt ? _t : 1)], and the product of the extents [end - begin] of a
    1-D, 2-D or 3-D range. The predicated body makes as many calls as the
    plain body, whatever the domain predicate answers. So a range that is
    empty or reversed along one of its axes makes no functor call. *)
Theorem number_of_functor_calls (D : Domain) (b : Body.t) (bif : IfBody.t) :
  (forall attr,
      let T := if nonzero (_dt attr) then _t attr else 1 in
      let n := (Z.to_nat T * (Z.to_nat (_z attr) * (Z.to_nat (_y attr) * Z.to_nat (_x attr))))%nat in
      List.length (Body.run_attr b attr) = n /\
      List.length (IfBody.run_attr D bif attr) = n) /\
  (forall re,
      let n := Z.to_nat (rend re - rbegin re) in
      List.length (Body.run_1d b re) = n /\
      List.length (IfBody.run_1d D bif re) = n) /\
  (forall re,
      let n := (Z.to_nat (rend (rows2 re) - rbegin (rows2 re))
                * Z.to_nat (rend (cols2 re) - rbegin (cols2 re)))%nat in
      List.length (Body.run_2d b re) = n /\
      List.length (IfBody.run_2d D bif re) = n) /\
  (forall re,
      let n := (Z.to_nat (rend (pages re) - rbegin (pages re))
                * (Z.to_nat (rend (rows re) - rbegin (rows re))
                   * Z.to_nat (rend (cols re) - rbegin (cols re))))%nat in
      List.length (Body.run_3d b re) = n /\
      List.length (IfBody.run_3d D bif re) = n) /\
  (forall re, rend re <= rbegin re ->
      Body.run_1d b re = [] /\ IfBody.run_1d D bif re = []) /\
  (forall re,
      rend (rows2 re) <= rbegin (rows2 re) \/ rend (cols2 re) <= rbegin (cols2 re) ->
      Body.run_2d b re = [] /\ IfBody.run_2d D bif re = []) /\
  (forall re,
      rend (pages re) <= rbegin (pages re) \/ rend (rows re) <= rbegin (rows re) \/
      rend (cols re) <= rbegin (cols re) ->
      Body.run_3d b re = [] /\ IfBody.run_3d D bif re = []).
Proof.
  assert (H1 : forall re,
      List.length (Body.run_1d b re) = Z.to_nat (rend re - rbegin re) /\
      List.length (IfBody.run_1d D bif re) = Z.to_nat (rend re - rbegin re)).
  { intros re. split.
    - rewrite (length_arguments _ _ (run_1d_arguments b re)).
      now rewrite length_map, length_interval.
    - rewrite if_run_1d_route, (length_routed _ _ _ _ (run_1d_arguments (plain bif) re)).
      now rewrite length_map, length_interval. }
  assert (H2 : forall re,
      let n := (Z.to_nat (rend (rows2 re) - rbegin (rows2 re))
                * Z.to_nat (rend (cols2 re) - rbegin (cols2 re)))%nat in
      List.length (Body.run_2d b re) = n /\ List.length (IfBody.run_2d D bif re) = n).
  { intros re n. split.
    - rewrite (length_arguments _ _ (run_2d_arguments b re)). apply length_plane.
    - rewrite if_run_2d_route, (length_routed _ _ _ _ (run_2d_arguments (plain bif) re)).
      apply length_plane. }
  assert (H3 : forall re,
      let n := (Z.to_nat (rend (pages re) - rbegin (pages re))
                * (Z.to_nat (rend (rows re) - rbegin (rows re))
                   * Z.to_nat (rend (cols re) - rbegin (cols re))))%nat in
      List.length (Body.run_3d b re) = n /\ List.length (IfBody.run_3d D bif re) = n).
  { intros re n. split.
    - rewrite (length_arguments _ _ (run_3d_arguments b re)). apply length_volume.
    - rewrite if_run_3d_route, (length_routed _ _ _ _ (run_3d_arguments (plain bif) re)).
      apply length_volume. }
  repeat apply conj.
  - intros attr T n. split.
    + rewrite (length_arguments _ _ (run_attr_arguments b attr)), length_box.
      subst n T. now rewrite !Z.sub_0_r.
    + rewrite if_run_attr_route, (length_routed _ _ _ _ (run_attr_arguments (plain bif) attr)).
      rewrite length_box. subst n T. now rewrite !Z.sub_0_r.
  - exact H1.
  - exact H2.
  - exact H3.
  - intros re Hre. destruct (H1 re) as [Ha Hb].
    replace (Z.to_nat (rend re - rbegin re)) with 0%nat in Ha, Hb by lia.
    split; now apply length_zero_iff_nil.
  - intros re Hre. destruct (H2 re) as [Ha Hb].
    replace (Z.to_nat (rend (rows2 re) - rbegin (rows2 re))
             * Z.to_nat (rend (cols2 re) - rbegin (cols2 re)))%nat with 0%nat in Ha, Hb by nia.
    split; now apply length_zero_iff_nil.
  - intros re Hre. destruct (H3 re) as [Ha Hb].
    replace (Z.to_nat (rend (pages re) - rbegin (pages re))
             * (Z.to_nat (rend (rows re) - rbegin (rows re))
                * Z.to_nat (rend (cols re) - rbegin (cols re))))%nat with 0%nat in Ha, Hb by nia.
    split; now apply length_zero_iff_nil.
Qed.

(* ===================================================================== *)
(** ** Where the cursors point *)
(* ===================================================================== *)

Lemma cursors_nonempty (im1 im2 im3 : irtkGenericImage)
  (first : irtkGenericImage -> pointer) (d : Z) :
  IsEmpty im1 = false -> IsEmpty im2 = false -> IsEmpty im3 = false ->
  advance d (cursors_at im1 im2 im3 first)
  = {| p1 := ptr_add (first im1) d; p2 := ptr_add (first im2) d; p3 := ptr_add (first im3) d |}.
Proof. intros H1 H2 H3. unfold cursors_at, advance. simpl. now rewrite H1, H2, H3. Qed.

Lemma run_1d_call_at (b : Body.t) (re : blocked_range) :
  IsEmpty (Body.im1 b) = false -> IsEmpty (Body.im2 b) = false ->
  IsEmpty (Body.im3 b) = false ->
  Body.run_1d b re
  = map (fun idx => call_at (Body.im1 b) (Body.im2 b) (Body.im3 b) (Index (Body.im3 b) idx))
        (interval (rbegin re) (rend re)).
Proof.
  intros H1 H2 H3. rewrite run_1d_closed. apply map_ext. intros idx.
  unfold body_cursors, call_at. rewrite cursors_nonempty by assumption.
  rewrite !ptr_add_add. repeat f_equal; lia.
Qed.

(** X4: in a linear-range traversal over three images none of which is
    empty, the call for element [idx] gets, for each image, the pointer to
    element [idx] of its buffer, [GetPointerToVoxels() + idx]; the predicated
    traversal passes the same pointers, to whichever functor the domain test
    selects. *)
Theorem linear_range_cursors_address_the_element
  (D : Domain) (b : Body.t) (re : blocked_range) :
  IsEmpty (Body.im1 b) = false ->
  IsEmpty (Body.im2 b) = false ->
  IsEmpty (Body.im3 b) = false ->
  let at_ := fun idx => call_at (Body.im1 b) (Body.im2 b) (Body.im3 b) (Index (Body.im3 b) idx) in
  Body.run_1d b re = map at_ (interval (rbegin re) (rend re)) /\
  (forall bif, plain bif = b ->
     IfBody.run_1d D bif re
     = map (fun idx => route D (Body.im3 b) (at_ idx)) (interval (rbegin re) (rend re))) /\
  (forall idx,
     p1 (ptrs (at_ idx)) = ptr_add (GetPointerToVoxels (Body.im1 b)) idx /\
     p2 (ptrs (at_ idx)) = ptr_add (GetPointerToVoxels (Body.im2 b)) idx /\
     p3 (ptrs (at_ idx)) = ptr_add (GetPointerToVoxels (Body.im3 b)) idx).
Proof.
  intros H1 H2 H3 at_. split; [|split].
  - now apply run_1d_call_at.
  - intros bif <-. rewrite if_run_1d_route, run_1d_call_at by assumption.
    now rewrite map_map.
  - intros idx. repeat split.
Qed.

Lemma linear_range_cursors_address_the_element_witness :
  map (fun inv => offset (p3 (ptrs inv)))
      (Body.run_1d (ByReference.body 0 0 image_2x1 image_2x1 image_2x1)
                   {| rbegin := 1; rend := 2 |})
  = [1].
Proof.
  rewrite (proj1 (linear_range_cursors_address_the_element Always
                    (ByReference.body 0 0 image_2x1 image_2x1 image_2x1)
                    {| rbegin := 1; rend := 2 |} eq_refl eq_refl eq_refl)).
  reflexivity.
Defined.

Lemma run_attr_linear (b : Body.t) (attr : irtkImageAttributes) (inv : invocation) :
  In inv (Body.run_attr b attr) ->
  exists i j k l,
    0 <= i < _x attr /\ 0 <= j < _y attr /\ 0 <= k < _z attr /\
    0 <= l < (if nonzero (_dt attr) then _t attr else 1) /\
    inv = {| callee := VoxelFunc; arguments := Coord i j k l;
             ptrs := advance (i + _x attr * (j + _y attr * (k + _z attr * l)))
                             (body_cursors b GetPointerToVoxels) |}.
Proof.
  rewrite run_attr_closed. cbv zeta. intros H.
  apply in_flat_map in H as (l & Hl & H). apply in_flat_map in H as (k & Hk & H).
  apply in_flat_map in H as (j & Hj & H). apply in_flat_map in H as (i & Hi & H).
  apply in_interval in Hl, Hk, Hj, Hi. destruct H as [<-|[]].
  exists i, j, k, l. repeat (split; [assumption|]).
  rewrite !advance_advance. unfold trips.
  rewrite !Z2Nat.id by lia. do 2 f_equal. ring.
Qed.

(** X5: the whole-domain traversal walks the three buffers linearly. At
    the call for (i, j, k, l) every cursor stands
    [i + x * (j + y * (k + z * l))] voxels after its start, with x, y, z the
    extents of the attributes given to the traversal; the extents of the
    images play no part. For an image that is not empty and whose x, y and z
    extents are those of the attributes, this is the address of the voxel
    (i, j, k, l) of the image. *)
Theorem whole_domain_cursors_address_the_voxel
  (b : Body.t) (attr : irtkImageAttributes) (inv : invocation) :
  In inv (Body.run_attr b attr) ->
  exists i j k l,
    arguments inv = Coord i j k l /\
    ptrs inv = advance (i + _x attr * (j + _y attr * (k + _z attr * l)))
                       (body_cursors b GetPointerToVoxels) /\
    (IsEmpty (Body.im1 b) = false ->
     GetX (Body.im1 b) = _x attr -> GetY (Body.im1 b) = _y attr ->
     GetZ (Body.im1 b) = _z attr ->
     p1 (ptrs inv) = GetPointerToVoxelsAt (Body.im1 b) i j k l) /\
    (IsEmpty (Body.im2 b) = false ->
     GetX (Body.im2 b) = _x attr -> GetY (Body.im2 b) = _y attr ->
     GetZ (Body.im2 b) = _z attr ->
     p2 (ptrs inv) = GetPointerToVoxelsAt (Body.im2 b) i j k l) /\
    (IsEmpty (Body.im3 b) = false ->
     GetX (Body.im3 b) = _x attr -> GetY (Body.im3 b) = _y attr ->
     GetZ (Body.im3 b) = _z attr ->
     p3 (ptrs inv) = GetPointerToVoxelsAt (Body.im3 b) i j k l).
Proof.
  intros H. apply run_attr_linear in H as (i & j & k & l & _ & _ & _ & _ & ->).
  exists i, j, k, l. split; [reflexivity|]. split; [reflexivity|].
  cbn [ptrs].
  destruct (cursor_of_nonempty (Body.im1 b) (Body.im2 b) (Body.im3 b) GetPointerToVoxels
              (i + _x attr * (j + _y attr * (k + _z attr * l)))) as (C1 & C2 & C3).
  unfold body_cursors, GetPointerToVoxelsAt, VoxelToIndex.
  repeat split; intros He Hx Hy Hz; rewrite Hx, Hy, Hz; auto.
Qed.

Lemma whole_domain_cursors_address_the_voxel_witness :
  exists i j k l,
    Coord 1 0 0 0 = Coord i j k l /\
    {| p1 := GetPointerToVoxelsAt image_2x1 1 0 0 0;
       p2 := GetPointerToVoxelsAt image_2x1 1 0 0 0;
       p3 := GetPointerToVoxelsAt image_2x1 1 0 0 0 |}
    = advance (i + 2 * (j + 1 * (k + 1 * l)))
        (body_cursors (ByReference.body 0 0 image_2x1 image_2x1 image_2x1) GetPointerToVoxels).
Proof.
  destruct (whole_domain_cursors_address_the_voxel
              (ByReference.body 0 0 image_2x1 image_2x1 image_2x1) (_attr image_2x1)
              (call_at image_2x1 image_2x1 image_2x1 (Coord 1 0 0 0)))
    as (i & j & k & l & Ha & Hp & _).
  - vm_compute. right. left. reflexivity.
  - exists i, j, k, l. split; [exact Ha | exact Hp].
Defined.

(* ===================================================================== *)
(** ** Partitions of a range *)
(* ===================================================================== *)

Lemma split1_spec (m : Z) (re re1 re2 : blocked_range) :
  split1 m re = Some (re1, re2) ->
  rbegin re < m < rend re /\
  re1 = {| rbegin := rbegin re; rend := m |} /\
  re2 = {| rbegin := m; rend := rend re |}.
Proof.
  unfold split1. destruct (rbegin re <? m) eqn:Hb; [|discriminate].
  destruct (m <? rend re) eqn:He; [|discriminate]. simpl.
  intros [= <- <-]. apply Z.ltb_lt in Hb, He. auto.
Qed.

Lemma perm_flat_map_app {A B : Type} (f g : A -> list B) (l : list A) :
  Permutation (flat_map (fun a => f a ++ g a) l) (flat_map f l ++ flat_map g l).
Proof.
  induction l as [|a l IH]; simpl; [constructor|].
  rewrite <- !app_assoc. apply Permutation_app_head.
  transitivity (g a ++ flat_map f l ++ flat_map g l).
  - now apply Permutation_app_head.
  - rewrite !app_assoc. apply Permutation_app_tail, Permutation_app_comm.
Qed.

Lemma perm_flat_map_ext {A B : Type} (f g : A -> list B) (l : list A) :
  (forall a, Permutation (f a) (g a)) -> Permutation (flat_map f l) (flat_map g l).
Proof.
  intros Hfg. induction l as [|a l IH]; simpl; [constructor|].
  now apply Permutation_app.
Qed.

Lemma row_split (j k l bi m ei : Z) :
  bi <= m <= ei -> row j k l bi ei = row j k l bi m ++ row j k l m ei.
Proof. intros Hm. unfold row. now rewrite (interval_split bi m ei), map_app. Qed.

Lemma plane_split_rows (k l bj m ej bi ei : Z) :
  bj <= m <= ej ->
  plane k l bj ej bi ei = plane k l bj m bi ei ++ plane k l m ej bi ei.
Proof. intros Hm. unfold plane. now rewrite (interval_split bj m ej), flat_map_app. Qed.

Lemma plane_split_cols (k l bj ej bi m ei : Z) :
  bi <= m <= ei ->
  Permutation (plane k l bj ej bi ei) (plane k l bj ej bi m ++ plane k l bj ej m ei).
Proof.
  intros Hm. unfold plane.
  rewrite (flat_map_ext_in _ (fun j => row j k l bi m ++ row j k l m ei)).
  - apply perm_flat_map_app.
  - intros j _. now apply row_split.
Qed.

Lemma volume_split_pages (l bk m ek bj ej bi ei : Z) :
  bk <= m <= ek ->
  volume l bk ek bj ej bi ei = volume l bk m bj ej bi ei ++ volume l m ek bj ej bi ei.
Proof. intros Hm. unfold volume. now rewrite (interval_split bk m ek), flat_map_app. Qed.

Lemma volume_split_rows (l bk ek bj m ej bi ei : Z) :
  bj <= m <= ej ->
  Permutation (volume l bk ek bj ej bi ei)
              (volume l bk ek bj m bi ei ++ volume l bk ek m ej bi ei).
Proof.
  intros Hm. unfold volume.
  rewrite (flat_map_ext_in _ (fun k => plane k l bj m bi ei ++ plane k l m ej bi ei)).
  - apply perm_flat_map_app.
  - intros k _. now apply plane_split_rows.
Qed.

Lemma volume_split_cols (l bk ek bj ej bi m ei : Z) :
  bi <= m <= ei ->
  Permutation (volume l bk ek bj ej bi ei)
              (volume l bk ek bj ej bi m ++ volume l bk ek bj ej m ei).
Proof.
  intros Hm. unfold volume.
  transitivity (flat_map (fun k => plane k l bj ej bi m ++ plane k l bj ej m ei)
                         (interval bk ek)).
  - apply perm_flat_map_ext. intros k. now apply plane_split_cols.
  - apply perm_flat_map_app.
Qed.

Lemma split_plane (k l : Z) (axis : nat) (m : Z) (re re1 re2 : blocked_range2d) :
  split_at axis m re = Some (re1, re2) ->
  Permutation (coords2 k l re) (coords2 k l re1 ++ coords2 k l re2).
Proof.
  unfold split_at, split_blocked_range2d, coords2. intros Hs.
  destruct axis as [|[|axis]].
  - destruct (split1 m (cols2 re)) as [[a b]|] eqn:E; [|discriminate].
    injection Hs as <- <-. apply split1_spec in E as (Hm & -> & ->). simpl.
    apply plane_split_cols. lia.
  - destruct (split1 m (rows2 re)) as [[a b]|] eqn:E; [|discriminate].
    injection Hs as <- <-. apply split1_spec in E as (Hm & -> & ->). simpl.
    rewrite (plane_split_rows k l _ m) by lia. reflexivity.
  - destruct (split1 m (cols2 re)) as [[a b]|] eqn:E; [|discriminate].
    injection Hs as <- <-. apply split1_spec in E as (Hm & -> & ->). simpl.
    apply plane_split_cols. lia.
Qed.

Lemma split_volume (l : Z) (axis : nat) (m : Z) (re re1 re2 : blocked_range3d) :
  split_at axis m re = Some (re1, re2) ->
  Permutation (coords3 l re) (coords3 l re1 ++ coords3 l re2).
Proof.
  unfold split_at, split_blocked_range3d, coords3. intros Hs.
  destruct axis as [|[|axis]].
  - destruct (split1 m (pages re)) as [[a b]|] eqn:E; [|discriminate].
    injection Hs as <- <-. apply split1_spec in E as (Hm & -> & ->). simpl.
    rewrite (volume_split_pages l _ m) by lia. reflexivity.
  - destruct (split1 m (rows re)) as [[a b]|] eqn:E; [|discriminate].
    injection Hs as <- <-. apply split1_spec in E as (Hm & -> & ->). simpl.
    apply volume_split_rows. lia.
  - destruct (split1 m (cols re)) as [[a b]|] eqn:E; [|discriminate].
    injection Hs as <- <-. apply split1_spec in E as (Hm & -> & ->). simpl.
    apply volume_split_cols. lia.
Qed.

Section Scheduled.

Context {R B : Type} `{Splittable R}.
Variable view : invocation -> B.
Variable expected : R -> list B.
Variable body : R -> list invocation.

Hypothesis body_expected : forall re, map view (body re) = expected re.
Hypothesis split_expected : forall axis m re re1 re2,
  split_at axis m re = Some (re1, re2) ->
  Permutation (expected re) (expected re1 ++ expected re2).

Lemma parallel_for_calls (sch : schedule) :
  forall re, Permutation (map view (invocations (parallel_for sch re body))) (expected re).
Proof.
  induction sch as [|axis m l IHl r IHr]; intros re; simpl.
  - now rewrite invocations_Invoke, body_expected.
  - destruct (split_at axis m re) as [[re1 re2]|] eqn:E.
    + rewrite invocations_app, map_app, (split_expected _ _ _ _ _ E).
      now apply Permutation_app.
    + now rewrite invocations_Invoke, body_expected.
Qed.

Lemma parallel_reduce_calls (J : list event) (sch : schedule) :
  invocations J = [] ->
  forall re, Permutation (map view (invocations (parallel_reduce sch re body J))) (expected re).
Proof.
  intros HJ. induction sch as [|axis m l IHl r IHr]; intros re; simpl.
  - now rewrite invocations_Invoke, body_expected.
  - destruct (split_at axis m re) as [[re1 re2]|] eqn:E.
    + rewrite !invocations_app, HJ, app_nil_r, map_app, (split_expected _ _ _ _ _ E).
      now apply Permutation_app.
    + now rewrite invocations_Invoke, body_expected.
Qed.

End Scheduled.

Lemma invocations_flat_map {A : Type} (F : A -> list event) (l : list A) :
  invocations (flat_map F l) = flat_map (fun a => invocations (F a)) l.
Proof.
  induction l as [|a l IH]; simpl; [reflexivity|].
  now rewrite invocations_app, IH.
Qed.

(* ===================================================================== *)
(** ** Range traversals as maps over their coordinates *)
(* ===================================================================== *)

Lemma run_2d_call_at (b : Body.t) (re : blocked_range2d) :
  IsEmpty (Body.im1 b) = false -> IsEmpty (Body.im2 b) = false ->
  IsEmpty (Body.im3 b) = false ->
  GetX (Body.im1 b) = GetX (Body.im3 b) -> GetX (Body.im2 b) = GetX (Body.im3 b) ->
  Body.run_2d b re
  = map (call_at (Body.im1 b) (Body.im2 b) (Body.im3 b))
        (plane (Body._k b) (Body._l b) (rbegin (rows2 re)) (rend (rows2 re))
               (rbegin (cols2 re)) (rend (cols2 re))).
Proof.
  intros H1 H2 H3 X1 X2. rewrite run_2d_closed. cbv zeta.
  unfold plane, row. rewrite map_flat_map.
  apply flat_map_ext_in. intros j Hj.
  rewrite map_map, <- flat_map_single. apply flat_map_ext_in. intros i Hi.
  apply in_interval in Hi. unfold body_cursors, call_at.
  rewrite advance_advance, cursors_nonempty by assumption.
  rewrite trips_pos by lia.
  set (w := GetX (Body.im3 b)).
  replace ((j - rbegin (rows2 re)) * ((rend (cols2 re) - rbegin (cols2 re)) * 1
             + (w - (rend (cols2 re) - rbegin (cols2 re))))
           + (i - rbegin (cols2 re)) * 1)
    with ((j - rbegin (rows2 re)) * w + (i - rbegin (cols2 re))) by ring.
  now rewrite !row_offset.
Qed.

Lemma run_3d_call_at (b : Body.t) (re : blocked_range3d) :
  IsEmpty (Body.im1 b) = false -> IsEmpty (Body.im2 b) = false ->
  IsEmpty (Body.im3 b) = false ->
  GetX (Body.im1 b) = GetX (Body.im3 b) -> GetX (Body.im2 b) = GetX (Body.im3 b) ->
  GetY (Body.im1 b) = GetY (Body.im3 b) -> GetY (Body.im2 b) = GetY (Body.im3 b) ->
  Body.run_3d b re
  = map (call_at (Body.im1 b) (Body.im2 b) (Body.im3 b))
        (volume (Body._l b) (rbegin (pages re)) (rend (pages re))
                (rbegin (rows re)) (rend (rows re)) (rbegin (cols re)) (rend (cols re))).
Proof.
  intros H1 H2 H3 X1 X2 Y1 Y2. rewrite run_3d_closed. cbv zeta.
  unfold volume, plane, row. rewrite map_flat_map.
  apply flat_map_ext_in. intros k Hk. rewrite map_flat_map.
  apply flat_map_ext_in. intros j Hj.
  rewrite map_map, <- flat_map_single. apply flat_map_ext_in. intros i Hi.
  apply in_interval in Hi, Hj. unfold body_cursors, call_at.
  rewrite !advance_advance, cursors_nonempty by assumption.
  rewrite !trips_pos by lia.
  set (w := GetX (Body.im3 b)). set (h := GetY (Body.im3 b)).
  match goal with
  | |- context [ptr_add _ ?d] =>
      replace d with ((k - rbegin (pages re)) * (h * w)
                      + (j - rbegin (rows re)) * w + (i - rbegin (cols re))) by ring
  end.
  now rewrite !voxel_offset.
Qed.

Lemma run_attr_call_at (b : Body.t) (attr : irtkImageAttributes) :
  IsEmpty (Body.im1 b) = false -> IsEmpty (Body.im2 b) = false ->
  IsEmpty (Body.im3 b) = false ->
  same_extents (Body.im1 b) attr -> same_extents (Body.im2 b) attr ->
  same_extents (Body.im3 b) attr ->
  Body.run_attr b attr
  = map (call_at (Body.im1 b) (Body.im2 b) (Body.im3 b))
        (box 0 (if nonzero (_dt attr) then _t attr else 1)
             0 (_z attr) 0 (_y attr) 0 (_x attr)).
Proof.
  intros H1 H2 H3 (X1 & Y1 & Z1) (X2 & Y2 & Z2) (X3 & Y3 & Z3).
  rewrite run_attr_closed. cbv zeta.
  unfold box, volume, plane, row. rewrite map_flat_map.
  apply flat_map_ext_in. intros l Hl. rewrite map_flat_map.
  apply flat_map_ext_in. intros k Hk. rewrite map_flat_map.
  apply flat_map_ext_in. intros j Hj.
  rewrite map_map, <- flat_map_single. apply flat_map_ext_in. intros i Hi.
  apply in_interval in Hi, Hj, Hk. unfold body_cursors, call_at.
  rewrite !advance_advance, cursors_nonempty by assumption.
  unfold trips. rewrite !Z2Nat.id by lia.
  unfold GetPointerToVoxelsAt, VoxelToIndex.
  rewrite X1, Y1, Z1, X2, Y2, Z2, X3, Y3, Z3.
  match goal with
  | |- context [ptr_add _ ?d] =>
      replace d with (i + _x attr * (j + _y attr * (k + _z attr * l))) by ring
  end.
  reflexivity.
Qed.

(* ===================================================================== *)
(** ** Parallel passes over 2-D and 3-D ranges and over the whole domain *)
(* ===================================================================== *)

Lemma NoDup_plane (k l bj ej bi ei : Z) : NoDup (plane k l bj ej bi ei).
Proof. exact (sorted_NoDup before _ before_irrefl (sorted_plane k l bj ej bi ei)). Qed.

Lemma NoDup_volume (l bk ek bj ej bi ei : Z) : NoDup (volume l bk ek bj ej bi ei).
Proof. exact (sorted_NoDup before _ before_irrefl (sorted_volume l bk ek bj ej bi ei)). Qed.

Lemma NoDup_box (bl el bk ek bj ej bi ei : Z) : NoDup (box bl el bk ek bj ej bi ei).
Proof. exact (sorted_NoDup before _ before_irrefl (sorted_box bl el bk ek bj ej bi ei)). Qed.

(** What a parallel entry point logs: the scheduler's log, followed by the
    joins on the caller's functors when there is a reduction. *)
Lemma parallel_log {B : Type} (view : invocation -> B) (c : bool)
  (reduce for_ : list event) (joined : result) (expected : list B) :
  (exists log, joined = Returns log /\ invocations log = []) ->
  Permutation (map view (invocations reduce)) expected ->
  Permutation (map view (invocations for_)) expected ->
  Permutation (map view (invocations (log_of
                 (if c then Returns reduce ;; joined else Returns for_)))) expected.
Proof.
  intros (log & -> & Hlog) Hr Hf. destruct c; simpl; [|exact Hf].
  now rewrite invocations_app, Hlog, app_nil_r.
Qed.

Lemma joined_one : exists log, ByReference.vf_join = Returns log /\ invocations log = [].
Proof. eexists. split; reflexivity. Qed.

Lemma joined_two :
  exists log, ByReference.vf_join ;; ByReference.of_join = Returns log /\ invocations log = [].
Proof. eexists. split; reflexivity. Qed.

Lemma if_run_2d_arguments (D : Domain) (b : IfBody.t) (re : blocked_range2d) :
  map arguments (IfBody.run_2d D b re)
  = plane (IfBody._k b) (IfBody._l b) (rbegin (rows2 re)) (rend (rows2 re))
          (rbegin (cols2 re)) (rend (cols2 re)).
Proof.
  rewrite if_run_2d_route, map_arguments_route. apply (run_2d_arguments (plain b)).
Qed.

Lemma if_run_3d_arguments (D : Domain) (b : IfBody.t) (re : blocked_range3d) :
  map arguments (IfBody.run_3d D b re)
  = volume (IfBody._l b) (rbegin (pages re)) (rend (pages re))
           (rbegin (rows re)) (rend (rows re)) (rbegin (cols re)) (rend (cols re)).
Proof.
  rewrite if_run_3d_route, map_arguments_route. apply (run_3d_arguments (plain b)).
Qed.

(** The frames of a parallel whole-domain pass, one scheduler call each. *)
Lemma frames_calls {B : Type} (view : invocation -> B) (F : Z -> list event)
  (expected : Z -> list B) (b e : Z) :
  (forall l, Permutation (map view (invocations (F l))) (expected l)) ->
  Permutation (map view (invocations (For b e (fun l log => log ++ F l) [])))
              (flat_map expected (interval b e)).
Proof.
  intros HF. rewrite For_append, app_nil_l, invocations_flat_map, map_flat_map.
  now apply perm_flat_map_ext.
Qed.

(** X6: a parallel pass over a 2-D range, a 3-D range or the whole domain
    calls the functor once for each voxel of the range, whatever partition the
    scheduler chooses: the arguments of its calls are a rearrangement of the
    coordinates of the range, which hold no coordinate twice. The 2-D pass
    runs in the slice [_k], [_l] of the body, the 3-D pass in its frame [_l].
    The whole-domain pass makes one scheduler call per frame l = 0, ..., _t - 1
    when the temporal spacing is nonzero and a single one, in the frame the
    body starts with, when it is zero. The predicated passes cover the same
    coordinates. *)
Theorem parallel_passes_visit_each_voxel_once
  (k0 l0 : Z) (D : Domain) (vf of_ : functor) (im1 im2 im3 : irtkGenericImage) :
  (forall sch re,
      NoDup (coords2 k0 l0 re) /\
      Permutation (map arguments (invocations (log_of
        (ByPointer.ParallelForEachVoxel_2d k0 l0 sch vf re im1 im2 im3))))
        (coords2 k0 l0 re) /\
      Permutation (map arguments (invocations (log_of
        (ByPointer.ParallelForEachVoxelIf_2d k0 l0 sch D vf of_ re im1 im2 im3))))
        (coords2 k0 l0 re)) /\
  (forall sch re,
      NoDup (coords3 l0 re) /\
      Permutation (map arguments (invocations (log_of
        (ByPointer.ParallelForEachVoxel_3d k0 l0 sch vf re im1 im2 im3))))
        (coords3 l0 re) /\
      Permutation (map arguments (invocations (log_of
        (ByPointer.ParallelForEachVoxelIf_3d k0 l0 sch D vf of_ re im1 im2 im3))))
        (coords3 l0 re)) /\
  (forall sch attr,
      let cs := if nonzero (_dt attr)
                then box 0 (_t attr) 0 (_z attr) 0 (_y attr) 0 (_x attr)
                else volume l0 0 (_z attr) 0 (_y attr) 0 (_x attr) in
      NoDup cs /\
      Permutation (map arguments (invocations (log_of
        (ByPointer.ParallelForEachVoxel_attr k0 l0 sch vf attr im1 im2 im3)))) cs /\
      Permutation (map arguments (invocations (log_of
        (ByPointer.ParallelForEachVoxelIf_attr k0 l0 sch D vf of_ attr im1 im2 im3)))) cs).
Proof.
  split; [|split].
  - intros sch re. split; [apply NoDup_plane|]. split.
    + unfold ByPointer.ParallelForEachVoxel_2d.
      apply parallel_log; [apply joined_one | |].
      * apply (parallel_reduce_calls arguments (coords2 k0 l0));
          [intros r; apply run_2d_arguments | apply split_plane | reflexivity].
      * apply (parallel_for_calls arguments (coords2 k0 l0));
          [intros r; apply run_2d_arguments | apply split_plane].
    + unfold ByPointer.ParallelForEachVoxelIf_2d.
      apply parallel_log; [apply joined_two | |].
      * apply (parallel_reduce_calls arguments (coords2 k0 l0));
          [intros r; apply if_run_2d_arguments | apply split_plane | reflexivity].
      * apply (parallel_for_calls arguments (coords2 k0 l0));
          [intros r; apply if_run_2d_arguments | apply split_plane].
  - intros sch re. split; [apply NoDup_volume|]. split.
    + unfold ByPointer.ParallelForEachVoxel_3d.
      apply parallel_log; [apply joined_one | |].
      * apply (parallel_reduce_calls arguments (coords3 l0));
          [intros r; apply run_3d_arguments | apply split_volume | reflexivity].
      * apply (parallel_for_calls arguments (coords3 l0));
          [intros r; apply run_3d_arguments | apply split_volume].
    + unfold ByPointer.ParallelForEachVoxelIf_3d.
      apply parallel_log; [apply joined_two | |].
      * apply (parallel_reduce_calls arguments (coords3 l0));
          [intros r; apply if_run_3d_arguments | apply split_volume | reflexivity].
      * apply (parallel_for_calls arguments (coords3 l0));
          [intros r; apply if_run_3d_arguments | apply split_volume].
  - intros sch attr cs. subst cs.
    split; [destruct (nonzero (_dt attr)); [apply NoDup_box | apply NoDup_volume]|].
    split.
    + unfold ByPointer.ParallelForEachVoxel_attr.
      destruct (nonzero (_dt attr)).
      * apply parallel_log; [apply joined_one | |]; unfold box;
          apply (frames_calls arguments _
                   (fun l => volume l 0 (_z attr) 0 (_y attr) 0 (_x attr))); intros l.
        -- apply (parallel_reduce_calls arguments (coords3 l));
             [intros r; apply run_3d_arguments | apply split_volume | reflexivity].
        -- apply (parallel_for_calls arguments (coords3 l));
             [intros r; apply run_3d_arguments | apply split_volume].
      * apply parallel_log; [apply joined_one | |].
        -- apply (parallel_reduce_calls arguments (coords3 l0));
             [intros r; apply run_3d_arguments | apply split_volume | reflexivity].
        -- apply (parallel_for_calls arguments (coords3 l0));
             [intros r; apply run_3d_arguments | apply split_volume].
    + unfold ByPointer.ParallelForEachVoxelIf_attr.
      destruct (nonzero (_dt attr)).
      * apply parallel_log; [apply joined_two | |]; unfold box;
          apply (frames_calls arguments _
                   (fun l => volume l 0 (_z attr) 0 (_y attr) 0 (_x attr))); intros l.
        -- apply (parallel_reduce_calls arguments (coords3 l));
             [intros r; apply if_run_3d_arguments | apply split_volume | reflexivity].
        -- apply (parallel_for_calls arguments (coords3 l));
             [intros r; apply if_run_3d_arguments | apply split_volume].
      * apply parallel_log; [apply joined_two | |].
        -- apply (parallel_reduce_calls arguments (coords3 l0));
             [intros r; apply if_run_3d_arguments | apply split_volume | reflexivity].
        -- apply (parallel_for_calls arguments (coords3 l0));
             [intros r; apply if_run_3d_arguments | apply split_volume].
Qed.

Section ScheduledInOrder.

Context {B : Type}.
Variable view : invocation -> B.
Variable at_ : Z -> B.
Variable body : blocked_range -> list invocation.

Hypothesis body_at : forall re, map view (body re) = map at_ (interval (rbegin re) (rend re)).

Lemma parallel_for_1d_calls (sch : schedule) :
  forall re, map view (invocations (parallel_for sch re body))
             = map at_ (interval (rbegin re) (rend re)).
Proof.
  induction sch as [|axis m l IHl r IHr]; intros re; simpl.
  - now rewrite invocations_Invoke, body_at.
  - unfold split_at, split_blocked_range.
    destruct (split1 m re) as [[re1 re2]|] eqn:E.
    + apply split1_spec in E as (Hm & -> & ->).
      rewrite invocations_app, map_app, IHl, IHr. simpl.
      rewrite (interval_split (rbegin re) m (rend re)) by lia. now rewrite map_app.
    + now rewrite invocations_Invoke, body_at.
Qed.

Lemma parallel_reduce_1d_calls (J : list event) (sch : schedule) :
  invocations J = [] ->
  forall re, map view (invocations (parallel_reduce sch re body J))
             = map at_ (interval (rbegin re) (rend re)).
Proof.
  intros HJ. induction sch as [|axis m l IHl r IHr]; intros re; simpl.
  - now rewrite invocations_Invoke, body_at.
  - unfold split_at, split_blocked_range.
    destruct (split1 m re) as [[re1 re2]|] eqn:E.
    + apply split1_spec in E as (Hm & -> & ->).
      rewrite !invocations_app, HJ, app_nil_r, map_app, IHl, IHr. simpl.
      rewrite (interval_split (rbegin re) m (rend re)) by lia. now rewrite map_app.
    + now rewrite invocations_Invoke, body_at.
Qed.

End ScheduledInOrder.

Lemma parallel_log_eq (c : bool) (reduce for_ : list event) (joined : result)
  (expected : list invocation) :
  (exists log, joined = Returns log /\ invocations log = []) ->
  map (fun inv => inv) (invocations reduce) = expected ->
  map (fun inv => inv) (invocations for_) = expected ->
  invocations (log_of (if c then Returns reduce ;; joined else Returns for_)) = expected.
Proof.
  intros (log & -> & Hlog) Hr Hf. rewrite map_id in Hr, Hf. destruct c; simpl; [|exact Hf].
  now rewrite invocations_app, Hlog, app_nil_r.
Qed.

Lemma sequential_calls (calls : list invocation) (joined : result) :
  (exists log, joined = Returns log /\ invocations log = []) ->
  invocations (log_of (run calls ;; joined)) = calls.
Proof.
  intros (log & -> & Hlog). simpl.
  now rewrite invocations_app, invocations_Invoke, Hlog, app_nil_r.
Qed.

Lemma split_calls {R : Type} `{Splittable R} (g : args -> invocation) (coords : R -> list args) :
  (forall axis m re re1 re2, split_at axis m re = Some (re1, re2) ->
     Permutation (coords re) (coords re1 ++ coords re2)) ->
  forall axis m re re1 re2, split_at axis m re = Some (re1, re2) ->
    Permutation (map g (coords re)) (map g (coords re1) ++ map g (coords re2)).
Proof.
  intros Hc axis m re re1 re2 Hs. rewrite <- map_app.
  apply Permutation_map. now apply (Hc axis m).
Qed.

(** X7: when no image is empty and the three images have the same x and y
    extents, a parallel pass makes the functor calls of the sequential pass
    over the same range, with the same arguments and the same pointers,
    whatever partition the scheduler chooses and whether the functor is a
    reduction or not: over a linear range the same calls in the same order
    along the schedule, over a 2-D or 3-D range the same calls rearranged.
    A body that starts on a partition places its cursors on the first voxel
    of the partition, so a voxel gets the same call in every partition that
    holds it. *)
Theorem parallel_pass_makes_the_calls_of_the_sequential_pass
  (k0 l0 : Z) (D : Domain) (vf of_ : functor) (im1 im2 im3 : irtkGenericImage) :
  IsEmpty im1 = false -> IsEmpty im2 = false -> IsEmpty im3 = false ->
  GetX im1 = GetX im3 -> GetX im2 = GetX im3 ->
  GetY im1 = GetY im3 -> GetY im2 = GetY im3 ->
  (forall sch re,
      invocations (log_of (ByPointer.ParallelForEachVoxel_1d k0 l0 sch vf re im1 im2 im3))
      = invocations (log_of (ByPointer.ForEachVoxel_1d k0 l0 vf re im1 im2 im3)) /\
      invocations (log_of (ByPointer.ParallelForEachVoxelIf_1d k0 l0 sch D vf of_ re im1 im2 im3))
      = invocations (log_of (ByPointer.ForEachVoxelIf_1d k0 l0 D vf of_ re im1 im2 im3))) /\
  (forall sch re,
      Permutation
        (invocations (log_of (ByPointer.ParallelForEachVoxel_2d k0 l0 sch vf re im1 im2 im3)))
        (invocations (log_of (ByPointer.ForEachVoxel_2d k0 l0 vf re im1 im2 im3))) /\
      Permutation
        (invocations (log_of (ByPointer.ParallelForEachVoxelIf_2d k0 l0 sch D vf of_ re im1 im2 im3)))
        (invocations (log_of (ByPointer.ForEachVoxelIf_2d k0 l0 D vf of_ re im1 im2 im3)))) /\
  (forall sch re,
      Permutation
        (invocations (log_of (ByPointer.ParallelForEachVoxel_3d k0 l0 sch vf re im1 im2 im3)))
        (invocations (log_of (ByPointer.ForEachVoxel_3d k0 l0 vf re im1 im2 im3))) /\
      Permutation
        (invocations (log_of (ByPointer.ParallelForEachVoxelIf_3d k0 l0 sch D vf of_ re im1 im2 im3)))
        (invocations (log_of (ByPointer.ForEachVoxelIf_3d k0 l0 D vf of_ re im1 im2 im3)))).
Proof.
  intros H1 H2 H3 X1 X2 Y1 Y2.
  set (b := ByReference.body k0 l0 im1 im2 im3).
  set (bif := ByReference.ifbody k0 l0 im1 im2 im3).
  assert (Hb : plain bif = b) by reflexivity.
  set (g := call_at im1 im2 im3).
  set (r := route D im3).
  assert (E1 : forall re, Body.run_1d b re
             = map (fun idx => g (Index im3 idx)) (interval (rbegin re) (rend re))).
  { intros re. now apply (run_1d_call_at b). }
  assert (E2 : forall re, Body.run_2d b re = map g (coords2 k0 l0 re)).
  { intros re. now apply (run_2d_call_at b). }
  assert (E3 : forall re, Body.run_3d b re = map g (coords3 l0 re)).
  { intros re. now apply (run_3d_call_at b). }
  assert (F1 : forall re, IfBody.run_1d D bif re
             = map (fun idx => r (g (Index im3 idx))) (interval (rbegin re) (rend re))).
  { intros re. rewrite if_run_1d_route, Hb, E1. now rewrite map_map. }
  assert (F2 : forall re, IfBody.run_2d D bif re = map (fun a => r (g a)) (coords2 k0 l0 re)).
  { intros re. rewrite if_run_2d_route, Hb, E2. now rewrite map_map. }
  assert (F3 : forall re, IfBody.run_3d D bif re = map (fun a => r (g a)) (coords3 l0 re)).
  { intros re. rewrite if_run_3d_route, Hb, E3. now rewrite map_map. }
  split; [|split]; intros sch re; split.
  - unfold ByPointer.ParallelForEachVoxel_1d, ByPointer.ForEachVoxel_1d.
    rewrite sequential_calls by apply joined_one.
    change (ByPointer.body k0 l0 im1 im2 im3) with b. rewrite (E1 re).
    apply parallel_log_eq; [apply joined_one | |].
    + apply parallel_reduce_1d_calls; [|reflexivity].
      intros re'. rewrite map_id. apply E1.
    + apply parallel_for_1d_calls. intros re'. rewrite map_id. apply E1.
  - unfold ByPointer.ParallelForEachVoxelIf_1d, ByPointer.ForEachVoxelIf_1d.
    rewrite sequential_calls by apply joined_two.
    change (ByPointer.ifbody k0 l0 im1 im2 im3) with bif. rewrite (F1 re).
    apply parallel_log_eq; [apply joined_two | |].
    + apply parallel_reduce_1d_calls; [|reflexivity].
      intros re'. rewrite map_id. apply F1.
    + apply parallel_for_1d_calls. intros re'. rewrite map_id. apply F1.
  - unfold ByPointer.ParallelForEachVoxel_2d, ByPointer.ForEachVoxel_2d.
    rewrite sequential_calls by apply joined_one.
    change (ByPointer.body k0 l0 im1 im2 im3) with b. rewrite (E2 re). rewrite <- (map_id (invocations _)).
    apply parallel_log; [apply joined_one | |].
    + apply (parallel_reduce_calls _ (fun re => map g (coords2 k0 l0 re)));
        [intros re'; rewrite map_id; apply E2
        | apply split_calls, split_plane | reflexivity].
    + apply (parallel_for_calls _ (fun re => map g (coords2 k0 l0 re)));
        [intros re'; rewrite map_id; apply E2 | apply split_calls, split_plane].
  - unfold ByPointer.ParallelForEachVoxelIf_2d, ByPointer.ForEachVoxelIf_2d.
    rewrite sequential_calls by apply joined_two.
    change (ByPointer.ifbody k0 l0 im1 im2 im3) with bif. rewrite (F2 re). rewrite <- (map_id (invocations _)).
    apply parallel_log; [apply joined_two | |].
    + apply (parallel_reduce_calls _ (fun re => map (fun a => r (g a)) (coords2 k0 l0 re)));
        [intros re'; rewrite map_id; apply F2
        | apply split_calls, split_plane | reflexivity].
    + apply (parallel_for_calls _ (fun re => map (fun a => r (g a)) (coords2 k0 l0 re)));
        [intros re'; rewrite map_id; apply F2 | apply split_calls, split_plane].
  - unfold ByPointer.ParallelForEachVoxel_3d, ByPointer.ForEachVoxel_3d.
    rewrite sequential_calls by apply joined_one.
    change (ByPointer.body k0 l0 im1 im2 im3) with b. rewrite (E3 re). rewrite <- (map_id (invocations _)).
    apply parallel_log; [apply joined_one | |].
    + apply (parallel_reduce_calls _ (fun re => map g (coords3 l0 re)));
        [intros re'; rewrite map_id; apply E3
        | apply split_calls, split_volume | reflexivity].
    + apply (parallel_for_calls _ (fun re => map g (coords3 l0 re)));
        [intros re'; rewrite map_id; apply E3 | apply split_calls, split_volume].
  - unfold ByPointer.ParallelForEachVoxelIf_3d, ByPointer.ForEachVoxelIf_3d.
    rewrite sequential_calls by apply joined_two.
    change (ByPointer.ifbody k0 l0 im1 im2 im3) with bif. rewrite (F3 re). rewrite <- (map_id (invocations _)).
    apply parallel_log; [apply joined_two | |].
    + apply (parallel_reduce_calls _ (fun re => map (fun a => r (g a)) (coords3 l0 re)));
        [intros re'; rewrite map_id; apply F3
        | apply split_calls, split_volume | reflexivity].
    + apply (parallel_for_calls _ (fun re => map (fun a => r (g a)) (coords3 l0 re)));
        [intros re'; rewrite map_id; apply F3 | apply split_calls, split_volume].
Qed.

Lemma parallel_pass_makes_the_calls_of_the_sequential_pass_witness :
  Permutation
    (invocations (log_of (ByPointer.ParallelForEachVoxel_2d 1 0 cols_first no_reduction block_2d
                            (image_3x3x2 1) (image_3x3x2 2) (image_3x3x2 3))))
    (invocations (log_of (ByPointer.ForEachVoxel_2d 1 0 no_reduction block_2d
                            (image_3x3x2 1) (image_3x3x2 2) (image_3x3x2 3)))).
Proof.
  exact (proj1 (proj1 (proj2 (parallel_pass_makes_the_calls_of_the_sequential_pass
           1 0 Always no_reduction no_reduction (image_3x3x2 1) (image_3x3x2 2) (image_3x3x2 3)
           eq_refl eq_refl eq_refl eq_refl eq_refl eq_refl eq_refl)) cols_first block_2d)).
Defined.

Lemma box_one_frame (bk ek bj ej bi ei : Z) :
  box 0 1 bk ek bj ej bi ei = volume 0 bk ek bj ej bi ei.
Proof. unfold box. simpl. apply app_nil_r. Qed.

(** X8: when no image is empty and each image has the x, y and z extents
    of the attributes, the parallel whole-domain pass makes the functor calls
    of the sequential whole-domain pass, with the same arguments and the same
    pointers, rearranged, whatever partitions the scheduler chooses. With a
    zero temporal spacing the sequential pass calls the functor with l = 0
    and the parallel pass with the [_l] the body was constructed with, so the
    two agree when that is 0. *)
Theorem parallel_whole_domain_pass_makes_the_calls_of_the_sequential_pass
  (k0 l0 : Z) (D : Domain) (vf of_ : functor) (attr : irtkImageAttributes)
  (im1 im2 im3 : irtkGenericImage) (sch : Z -> schedule) :
  IsEmpty im1 = false -> IsEmpty im2 = false -> IsEmpty im3 = false ->
  same_extents im1 attr -> same_extents im2 attr -> same_extents im3 attr ->
  (nonzero (_dt attr) = false -> l0 = 0) ->
  Permutation
    (invocations (log_of (ByPointer.ParallelForEachVoxel_attr k0 l0 sch vf attr im1 im2 im3)))
    (invocations (log_of (ByPointer.ForEachVoxel_attr k0 l0 vf attr im1 im2 im3))) /\
  Permutation
    (invocations (log_of (ByPointer.ParallelForEachVoxelIf_attr k0 l0 sch D vf of_ attr im1 im2 im3)))
    (invocations (log_of (ByPointer.ForEachVoxelIf_attr k0 l0 D vf of_ attr im1 im2 im3))).
Proof.
  intros H1 H2 H3 S1 S2 S3 Hl.
  pose proof S1 as (X1 & Y1 & _). pose proof S2 as (X2 & Y2 & _).
  pose proof S3 as (X3 & Y3 & _).
  set (b := ByReference.body k0 l0 im1 im2 im3).
  set (bif := ByReference.ifbody k0 l0 im1 im2 im3).
  set (g := call_at im1 im2 im3).
  set (r := route D im3).
  set (re := {| pages := {| rbegin := 0; rend := _z attr |};
                rows := {| rbegin := 0; rend := _y attr |};
                cols := {| rbegin := 0; rend := _x attr |} |}).
  assert (E3 : forall l re, Body.run_3d (ByReference.set_l b l) re = map g (coords3 l re)).
  { intros l re'. apply (run_3d_call_at (ByReference.set_l b l)); simpl; congruence. }
  assert (F3 : forall l re, IfBody.run_3d D (ByReference.if_set_l bif l) re
                            = map (fun a => r (g a)) (coords3 l re)).
  { intros l re'. rewrite if_run_3d_route.
    change (plain (ByReference.if_set_l bif l)) with (ByReference.set_l b l).
    rewrite E3. now rewrite map_map. }
  assert (EA : Body.run_attr b attr
               = map g (box 0 (if nonzero (_dt attr) then _t attr else 1)
                            0 (_z attr) 0 (_y attr) 0 (_x attr))).
  { now apply (run_attr_call_at b). }
  assert (FA : IfBody.run_attr D bif attr
               = map (fun a => r (g a)) (box 0 (if nonzero (_dt attr) then _t attr else 1)
                                             0 (_z attr) 0 (_y attr) 0 (_x attr))).
  { rewrite if_run_attr_route. change (plain bif) with b. rewrite EA. now rewrite map_map. }
  split.
  - unfold ByPointer.ParallelForEachVoxel_attr, ByPointer.ForEachVoxel_attr.
    rewrite sequential_calls by apply joined_one.
    change (ByPointer.body k0 l0 im1 im2 im3) with b. fold re. rewrite EA.
    rewrite <- (map_id (invocations _)).
    destruct (nonzero (_dt attr)) eqn:Hdt.
    + apply parallel_log; [apply joined_one | |]; unfold box; rewrite map_flat_map;
        apply (frames_calls (fun inv => inv) _
                 (fun l => map g (volume l 0 (_z attr) 0 (_y attr) 0 (_x attr)))); intros l.
      * apply (parallel_reduce_calls _ (fun re => map g (coords3 l re)));
          [intros re'; rewrite map_id; apply E3
          | apply split_calls, split_volume | reflexivity].
      * apply (parallel_for_calls _ (fun re => map g (coords3 l re)));
          [intros re'; rewrite map_id; apply E3 | apply split_calls, split_volume].
    + rewrite box_one_frame. change (Body._l b) with l0.
      replace (volume 0 0 (_z attr) 0 (_y attr) 0 (_x attr)) with (coords3 l0 re)
        by (rewrite (Hl eq_refl); reflexivity).
      apply parallel_log; [apply joined_one | |].
      * apply (parallel_reduce_calls _ (fun re => map g (coords3 l0 re)));
          [intros re'; rewrite map_id; exact (E3 l0 re')
          | apply split_calls, split_volume | reflexivity].
      * apply (parallel_for_calls _ (fun re => map g (coords3 l0 re)));
          [intros re'; rewrite map_id; exact (E3 l0 re') | apply split_calls, split_volume].
  - unfold ByPointer.ParallelForEachVoxelIf_attr, ByPointer.ForEachVoxelIf_attr.
    rewrite sequential_calls by apply joined_two.
    change (ByPointer.ifbody k0 l0 im1 im2 im3) with bif. fold re. rewrite FA.
    rewrite <- (map_id (invocations _)).
    destruct (nonzero (_dt attr)) eqn:Hdt.
    + apply parallel_log; [apply joined_two | |]; unfold box; rewrite map_flat_map;
        apply (frames_calls (fun inv => inv) _
                 (fun l => map (fun a => r (g a))
                               (volume l 0 (_z attr) 0 (_y attr) 0 (_x attr)))); intros l.
      * apply (parallel_reduce_calls _ (fun re => map (fun a => r (g a)) (coords3 l re)));
          [intros re'; rewrite map_id; apply F3
          | apply split_calls, split_volume | reflexivity].
      * apply (parallel_for_calls _ (fun re => map (fun a => r (g a)) (coords3 l re)));
          [intros re'; rewrite map_id; apply F3 | apply split_calls, split_volume].
    + rewrite box_one_frame. change (IfBody._l bif) with l0.
      replace (volume 0 0 (_z attr) 0 (_y attr) 0 (_x attr)) with (coords3 l0 re)
        by (rewrite (Hl eq_refl); reflexivity).
      apply parallel_log; [apply joined_two | |].
      * apply (parallel_reduce_calls _ (fun re => map (fun a => r (g a)) (coords3 l0 re)));
          [intros re'; rewrite map_id; exact (F3 l0 re')
          | apply split_calls, split_volume | reflexivity].
      * apply (parallel_for_calls _ (fun re => map (fun a => r (g a)) (coords3 l0 re)));
          [intros re'; rewrite map_id; exact (F3 l0 re') | apply split_calls, split_volume].
Qed.

Lemma parallel_whole_domain_pass_makes_the_calls_of_the_sequential_pass_witness :
  Permutation
    (invocations (log_of (ByPointer.ParallelForEachVoxel_attr 0 0 (fun _ => cols_first)
                            no_reduction (_attr (image_2x2_series 1))
                            (image_2x2_series 1) (image_2x2_series 2) (image_2x2_series 3))))
    (invocations (log_of (ByPointer.ForEachVoxel_attr 0 0 no_reduction
                            (_attr (image_2x2_series 1))
                            (image_2x2_series 1) (image_2x2_series 2) (image_2x2_series 3)))).
Proof.
  exact (proj1 (parallel_whole_domain_pass_makes_the_calls_of_the_sequential_pass
           0 0 Always no_reduction no_reduction (_attr (image_2x2_series 1))
           (image_2x2_series 1) (image_2x2_series 2) (image_2x2_series 3)
           (fun _ => cols_first) eq_refl eq_refl eq_refl
           (conj eq_refl (conj eq_refl eq_refl))
           (conj eq_refl (conj eq_refl eq_refl))
           (conj eq_refl (conj eq_refl eq_refl))
           (fun _ => eq_refl))).
Defined.

(* ===================================================================== *)
(** ** The sequential predicated pass without a range *)
(* ===================================================================== *)

(** X9: [ForEachVoxelIf] without a range, with the images by pointer and
    the functors by reference, makes one predicated linear pass in the
    flat-index call form on the last image: over all totalVoxels elements
    when the last image reports a nonzero temporal spacing, over
    totalVoxels / sizeT elements when it reports a zero one; then it calls
    [join] on the inside functor and on the outside functor, once each, and
    returns. With a zero spacing and sizeT = 0 the division is undefined and
    nothing is called. *)
Theorem rangeless_predicated_pass_extent
  (k0 l0 : Z) (D : Domain) (vf of_ : functor) (im1 im2 im3 : irtkGenericImage) :
  match elements im3 with
  | Some n =>
      let calls := IfBody.run_1d D (ByPointer.ifbody k0 l0 im1 im2 im3)
                                 {| rbegin := 0; rend := n |} in
      ByPointer.ForEachVoxelIf k0 l0 D vf of_ im1 im2 im3
      = Returns (map Invoke calls
                 ++ [Join VoxelFunc CallersFunctor; Join OutsideFunc CallersFunctor]) /\
      map arguments calls = map (Index im3) (interval 0 n) /\
      calls = map (route D im3)
                  (Body.run_1d (ByPointer.body k0 l0 im1 im2 im3) {| rbegin := 0; rend := n |})
  | None => ByPointer.ForEachVoxelIf k0 l0 D vf of_ im1 im2 im3 = Undefined []
  end.
Proof.
  unfold elements, ByPointer.ForEachVoxelIf, ByReference.ForEachScalarIf.
  destruct (nonzero (GetTSize im3)).
  - cbv zeta. split; [reflexivity|]. split.
    + apply (if_run_1d_arguments D (ByReference.ifbody k0 l0 im1 im2 im3)).
    + apply (if_run_1d_route D (ByReference.ifbody k0 l0 im1 im2 im3)).
  - destruct (int_div (GetNumberOfVoxels im3) (GetT im3)) as [n|]; [|reflexivity].
    cbv zeta. split; [reflexivity|]. split.
    + apply (if_run_1d_arguments D (ByReference.ifbody k0 l0 im1 im2 im3)).
    + apply (if_run_1d_route D (ByReference.ifbody k0 l0 im1 im2 im3)).
Qed.

(** X10: [ForEachVoxelIf] without a range, with the images by reference
    and the functors by reference, is the pass of the by-pointer overload
    when the last image reports a zero temporal spacing. When it reports a
    nonzero one the overload calls [ForEachVoxelIf] with its own arguments,
    which is the same overload, where the by-pointer overload calls
    [ForEachScalarIf]: the call makes no functor call and does not return,
    whatever the depth allowed to the chain of calls. The single-functor
    forms, by reference and by pointer, end in this overload with [NOP] as
    outside functor, and so behave like it. *)
Theorem rangeless_predicated_pass_by_reference
  (k0 l0 : Z) (D : Domain) (vf of_ : functor) (im1 im2 im3 : irtkGenericImage)
  (fuel : nat) :
  ByReference.ForEachVoxelIf k0 l0 (S fuel) D vf of_ im1 im2 im3
  = (if nonzero (GetTSize im3)
     then OutOfFuel
     else ByPointer.ForEachVoxelIf k0 l0 D vf of_ im1 im2 im3) /\
  ByReference.ForEachVoxelIf_nop k0 l0 (S fuel) D vf im1 im2 im3
  = (if nonzero (GetTSize im3)
     then OutOfFuel
     else ByPointer.ForEachVoxelIf k0 l0 D vf NOP im1 im2 im3) /\
  ByPointer.ForEachVoxelIf_nop k0 l0 (S fuel) D vf im1 im2 im3
  = (if nonzero (GetTSize im3)
     then OutOfFuel
     else ByPointer.ForEachVoxelIf k0 l0 D vf NOP im1 im2 im3) /\
  (nonzero (GetTSize im3) = true ->
   exists log, ByPointer.ForEachVoxelIf k0 l0 D vf of_ im1 im2 im3 = Returns log /\
               map arguments (invocations log)
               = map (Index im3) (interval 0 (GetNumberOfVoxels im3))).
Proof.
  assert (H : forall of', ByReference.ForEachVoxelIf k0 l0 (S fuel) D vf of' im1 im2 im3
          = (if nonzero (GetTSize im3)
             then OutOfFuel
             else ByPointer.ForEachVoxelIf k0 l0 D vf of' im1 im2 im3)).
  { intros of'. destruct (nonzero (GetTSize im3)) eqn:Hdt.
    - now apply ForEachVoxelIf_loops.
    - unfold ByPointer.ForEachVoxelIf. simpl. now rewrite Hdt. }
  split; [apply H|]. split; [apply H|]. split; [apply H|].
  intros Hdt. unfold ByPointer.ForEachVoxelIf, ByReference.ForEachScalarIf. rewrite Hdt.
  eexists. split; [reflexivity|].
  rewrite invocations_app, invocations_Invoke. simpl. rewrite app_nil_r.
  apply (if_run_1d_arguments D (ByReference.ifbody k0 l0 im1 im2 im3)).
Qed.

(* ===================================================================== *)
(** ** Images by pointer and images by reference *)
(* ===================================================================== *)

(** X11: the header writes every entry point twice, once with the images
    by pointer and once with the images by reference. Of the 35 pairs of
    entry points that take their functor(s) by reference, 33 do the same for
    all arguments: [ForEachScalar(If)], [ForEachVoxel],
    [ParallelForEachScalar(If)], [ParallelForEachVoxel], the attribute, 1-D,
    2-D and 3-D forms of [(Parallel)ForEachVoxel(If)] with one or two
    functors, and the single-functor forms without a range of
    [(Parallel)ForEachVoxelIf]. The by-pointer [ParallelForEachVoxelIf]
    with two functors and no range does what the by-reference one does one
    call deeper. The remaining pair, [ForEachVoxelIf] with two functors and
    no range, differs: the by-reference one calls itself. *)
Theorem by_pointer_and_by_reference_entry_points_agree
  (k0 l0 : Z) (fuel : nat) (sch : schedule) (schl : Z -> schedule) (D : Domain)
  (vf of_ : functor) (attr : irtkImageAttributes)
  (re1 : blocked_range) (re2 : blocked_range2d) (re3 : blocked_range3d)
  (im1 im2 im3 : irtkGenericImage) :
  ByPointer.ForEachScalar k0 l0 vf im1 im2 im3
  = ByReference.ForEachScalar k0 l0 vf im1 im2 im3 /\
  ByPointer.ForEachVoxel k0 l0 vf im1 im2 im3
  = ByReference.ForEachVoxel k0 l0 vf im1 im2 im3 /\
  ByPointer.ForEachVoxel_attr k0 l0 vf attr im1 im2 im3
  = ByReference.ForEachVoxel_attr k0 l0 vf attr im1 im2 im3 /\
  ByPointer.ForEachVoxel_1d k0 l0 vf re1 im1 im2 im3
  = ByReference.ForEachVoxel_1d k0 l0 vf re1 im1 im2 im3 /\
  ByPointer.ForEachVoxel_2d k0 l0 vf re2 im1 im2 im3
  = ByReference.ForEachVoxel_2d k0 l0 vf re2 im1 im2 im3 /\
  ByPointer.ForEachVoxel_3d k0 l0 vf re3 im1 im2 im3
  = ByReference.ForEachVoxel_3d k0 l0 vf re3 im1 im2 im3 /\
  ByPointer.ForEachScalarIf k0 l0 D vf of_ im1 im2 im3
  = ByReference.ForEachScalarIf k0 l0 D vf of_ im1 im2 im3 /\
  ByPointer.ForEachScalarIf_nop k0 l0 D vf im1 im2 im3
  = ByReference.ForEachScalarIf_nop k0 l0 D vf im1 im2 im3 /\
  ByPointer.ForEachVoxelIf_nop k0 l0 fuel D vf im1 im2 im3
  = ByReference.ForEachVoxelIf_nop k0 l0 fuel D vf im1 im2 im3 /\
  ByPointer.ForEachVoxelIf_attr k0 l0 D vf of_ attr im1 im2 im3
  = ByReference.ForEachVoxelIf_attr k0 l0 D vf of_ attr im1 im2 im3 /\
  ByPointer.ForEachVoxelIf_attr_nop k0 l0 D vf attr im1 im2 im3
  = ByReference.ForEachVoxelIf_attr_nop k0 l0 D vf attr im1 im2 im3 /\
  ByPointer.ForEachVoxelIf_1d k0 l0 D vf of_ re1 im1 im2 im3
  = ByReference.ForEachVoxelIf_1d k0 l0 D vf of_ re1 im1 im2 im3 /\
  ByPointer.ForEachVoxelIf_2d k0 l0 D vf of_ re2 im1 im2 im3
  = ByReference.ForEachVoxelIf_2d k0 l0 D vf of_ re2 im1 im2 im3 /\
  ByPointer.ForEachVoxelIf_2d_nop k0 l0 D vf re2 im1 im2 im3
  = ByReference.ForEachVoxelIf_2d_nop k0 l0 D vf re2 im1 im2 im3 /\
  ByPointer.ForEachVoxelIf_3d k0 l0 D vf of_ re3 im1 im2 im3
  = ByReference.ForEachVoxelIf_3d k0 l0 D vf of_ re3 im1 im2 im3 /\
  ByPointer.ForEachVoxelIf_3d_nop k0 l0 D vf re3 im1 im2 im3
  = ByReference.ForEachVoxelIf_3d_nop k0 l0 D vf re3 im1 im2 im3 /\
  ByPointer.ParallelForEachScalar k0 l0 sch vf im1 im2 im3
  = ByReference.ParallelForEachScalar k0 l0 sch vf im1 im2 im3 /\
  ByPointer.ParallelForEachVoxel k0 l0 sch vf im1 im2 im3
  = ByReference.ParallelForEachVoxel k0 l0 sch vf im1 im2 im3 /\
  ByPointer.ParallelForEachVoxel_attr k0 l0 schl vf attr im1 im2 im3
  = ByReference.ParallelForEachVoxel_attr k0 l0 schl vf attr im1 im2 im3 /\
  ByPointer.ParallelForEachVoxel_1d k0 l0 sch vf re1 im1 im2 im3
  = ByReference.ParallelForEachVoxel_1d k0 l0 sch vf re1 im1 im2 im3 /\
  ByPointer.ParallelForEachVoxel_2d k0 l0 sch vf re2 im1 im2 im3
  = ByReference.ParallelForEachVoxel_2d k0 l0 sch vf re2 im1 im2 im3 /\
  ByPointer.ParallelForEachVoxel_3d k0 l0 sch vf re3 im1 im2 im3
  = ByReference.ParallelForEachVoxel_3d k0 l0 sch vf re3 im1 im2 im3 /\
  ByPointer.ParallelForEachScalarIf k0 l0 sch D vf of_ im1 im2 im3
  = ByReference.ParallelForEachScalarIf k0 l0 sch D vf of_ im1 im2 im3 /\
  ByPointer.ParallelForEachScalarIf_nop k0 l0 sch D vf im1 im2 im3
  = ByReference.ParallelForEachScalarIf_nop k0 l0 sch D vf im1 im2 im3 /\
  ByPointer.ParallelForEachVoxelIf k0 l0 fuel sch D vf of_ im1 im2 im3
  = ByReference.ParallelForEachVoxelIf k0 l0 (S fuel) sch D vf of_ im1 im2 im3 /\
  ByPointer.ParallelForEachVoxelIf_nop k0 l0 fuel sch D vf im1 im2 im3
  = ByReference.ParallelForEachVoxelIf_nop k0 l0 fuel sch D vf im1 im2 im3 /\
  ByPointer.ParallelForEachVoxelIf_attr k0 l0 schl D vf of_ attr im1 im2 im3
  = ByReference.ParallelForEachVoxelIf_attr k0 l0 schl D vf of_ attr im1 im2 im3 /\
  ByPointer.ParallelForEachVoxelIf_attr_nop k0 l0 schl D vf attr im1 im2 im3
  = ByReference.ParallelForEachVoxelIf_attr_nop k0 l0 schl D vf attr im1 im2 im3 /\
  ByPointer.ParallelForEachVoxelIf_1d k0 l0 sch D vf of_ re1 im1 im2 im3
  = ByReference.ParallelForEachVoxelIf_1d k0 l0 sch D vf of_ re1 im1 im2 im3 /\
  ByPointer.ParallelForEachVoxelIf_1d_nop k0 l0 sch D vf re1 im1 im2 im3
  = ByReference.ParallelForEachVoxelIf_1d_nop k0 l0 sch D vf re1 im1 im2 im3 /\
  ByPointer.ParallelForEachVoxelIf_2d k0 l0 sch D vf of_ re2 im1 im2 im3
  = ByReference.ParallelForEachVoxelIf_2d k0 l0 sch D vf of_ re2 im1 im2 im3 /\
  ByPointer.ParallelForEachVoxelIf_2d_nop k0 l0 sch D vf re2 im1 im2 im3
  = ByReference.ParallelForEachVoxelIf_2d_nop k0 l0 sch D vf re2 im1 im2 im3 /\
  ByPointer.ParallelForEachVoxelIf_3d k0 l0 sch D vf of_ re3 im1 im2 im3
  = ByReference.ParallelForEachVoxelIf_3d k0 l0 sch D vf of_ re3 im1 im2 im3 /\
  ByPointer.ParallelForEachVoxelIf_3d_nop k0 l0 sch D vf re3 im1 im2 im3
  = ByReference.ParallelForEachVoxelIf_3d_nop k0 l0 sch D vf re3 im1 im2 im3.
Proof.
  repeat apply conj.
  - reflexivity.
  - reflexivity.
  - reflexivity.
  - reflexivity.
  - reflexivity.
  - reflexivity.
  - reflexivity.
  - reflexivity.
  - reflexivity.
  - reflexivity.
  - reflexivity.
  - reflexivity.
  - reflexivity.
  - reflexivity.
  - reflexivity.
  - reflexivity.
  - reflexivity.
  - reflexivity.
  - reflexivity.
  - reflexivity.
  - reflexivity.
  - reflexivity.
  - reflexivity.
  - reflexivity.
  - reflexivity.
  - reflexivity.
  - reflexivity.
  - reflexivity.
  - reflexivity.
  - reflexivity.
  - reflexivity.
  - reflexivity.
  - reflexivity.
  - reflexivity.
Qed.

(* ===================================================================== *)
(** ** The calls of the inside and of the outside functor *)
(* ===================================================================== *)

Lemma run_1d_callee (b : Body.t) (re : blocked_range) :
  Forall (fun inv => callee inv = VoxelFunc) (Body.run_1d b re).
Proof.
  rewrite run_1d_closed. apply Forall_forall. intros inv H.
  apply in_map_iff in H as (idx & <- & _). reflexivity.
Qed.

Lemma run_2d_callee (b : Body.t) (re : blocked_range2d) :
  Forall (fun inv => callee inv = VoxelFunc) (Body.run_2d b re).
Proof.
  rewrite run_2d_closed. cbv zeta. apply Forall_forall. intros inv H.
  apply in_flat_map in H as (j & _ & H). apply in_flat_map in H as (i & _ & H).
  destruct H as [<-|[]]. reflexivity.
Qed.

Lemma run_3d_callee (b : Body.t) (re : blocked_range3d) :
  Forall (fun inv => callee inv = VoxelFunc) (Body.run_3d b re).
Proof.
  rewrite run_3d_closed. cbv zeta. apply Forall_forall. intros inv H.
  apply in_flat_map in H as (k & _ & H). apply in_flat_map in H as (j & _ & H).
  apply in_flat_map in H as (i & _ & H). destruct H as [<-|[]]. reflexivity.
Qed.

Lemma route_inside (D : Domain) (im : irtkGenericImage) (inv : invocation) :
  callee inv = VoxelFunc -> tested D im inv = true -> route D im inv = inv.
Proof.
  unfold route, tested. intros Hc ->. destruct inv as [c a p]. simpl in *. now subst.
Qed.

Lemma route_outside (D : Domain) (im : irtkGenericImage) (inv : invocation) :
  tested D im inv = false -> route D im inv = to_outside inv.
Proof. unfold route, tested, to_outside. now intros ->. Qed.

Lemma route_split (D : Domain) (im : irtkGenericImage) (l : list invocation) :
  Forall (fun inv => callee inv = VoxelFunc) l ->
  calls_on VoxelFunc (map (route D im) l) = filter (tested D im) l /\
  calls_on OutsideFunc (map (route D im) l)
  = map to_outside (filter (fun inv => negb (tested D im inv)) l) /\
  ((forall inv, In inv l -> tested D im inv = true) -> map (route D im) l = l).
Proof.
  unfold calls_on.
  induction 1 as [|inv l Hc Hl (IH1 & IH2 & IH3)]; [repeat split|].
  cbn [map filter]. destruct (tested D im inv) eqn:Ht; cbn [negb].
  - rewrite (route_inside D im inv Hc Ht), Hc, IH1, IH2.
    repeat split. intros Hall. f_equal. apply IH3. intros i Hi. apply Hall. now right.
  - rewrite (route_outside D im inv Ht). cbn [callee to_outside map]. rewrite IH1, IH2.
    repeat split. intros Hall. specialize (Hall inv (or_introl eq_refl)). congruence.
Qed.

(** X12: in a predicated traversal the inside functor gets exactly the
    calls of the plain traversal at which the domain test on the last image
    holds, and the outside functor gets the others, in the order of the
    traversal and with the arguments and pointers of the plain traversal; no
    voxel is passed to both and none is left out. When the test holds at
    every call of the traversal, the predicated traversal makes the calls of
    the plain traversal and the outside functor is never called. *)
Theorem predicated_calls_split_by_the_domain_test
  (D : Domain) (b : IfBody.t) (calls plain_calls : list invocation) :
  (exists attr, calls = IfBody.run_attr D b attr /\ plain_calls = Body.run_attr (plain b) attr) \/
  (exists re, calls = IfBody.run_1d D b re /\ plain_calls = Body.run_1d (plain b) re) \/
  (exists re, calls = IfBody.run_2d D b re /\ plain_calls = Body.run_2d (plain b) re) \/
  (exists re, calls = IfBody.run_3d D b re /\ plain_calls = Body.run_3d (plain b) re) ->
  calls_on VoxelFunc calls = filter (tested D (IfBody.im3 b)) plain_calls /\
  calls_on OutsideFunc calls
  = map to_outside (filter (fun inv => negb (tested D (IfBody.im3 b) inv)) plain_calls) /\
  (List.length (calls_on VoxelFunc calls) + List.length (calls_on OutsideFunc calls))%nat
  = List.length plain_calls /\
  ((forall inv, In inv plain_calls -> tested D (IfBody.im3 b) inv = true) ->
   calls = plain_calls /\ calls_on OutsideFunc calls = []).
Proof.
  intros H.
  assert (Hr : calls = map (route D (IfBody.im3 b)) plain_calls /\
               Forall (fun inv => callee inv = VoxelFunc) plain_calls).
  { destruct H as [(attr & -> & ->)|[(re & -> & ->)|[(re & -> & ->)|(re & -> & ->)]]].
    - split; [apply if_run_attr_route | apply run_attr_callee].
    - split; [apply if_run_1d_route | apply run_1d_callee].
    - split; [apply if_run_2d_route | apply run_2d_callee].
    - split; [apply if_run_3d_route | apply run_3d_callee]. }
  destruct Hr as (-> & Hc).
  destruct (route_split D (IfBody.im3 b) plain_calls Hc) as (R1 & R2 & R3).
  rewrite R1, R2. split; [reflexivity|]. split; [reflexivity|]. split.
  - rewrite length_map. clear. induction plain_calls as [|inv l IH]; simpl; [reflexivity|].
    destruct (tested D (IfBody.im3 b) inv); simpl; lia.
  - intros Hall. split; [now apply R3|].
    clear -Hall. induction plain_calls as [|inv l IH]; simpl; [reflexivity|].
    rewrite (Hall inv (or_introl eq_refl)). simpl. apply IH.
    intros i Hi. apply Hall. now right.
Qed.

Lemma predicated_calls_split_by_the_domain_test_witness :
  calls_on VoxelFunc (IfBody.run_1d Never (ByReference.ifbody 0 0 image_2x1 image_2x1 image_2x1)
                                    two_elements) = [] /\
  List.length (calls_on OutsideFunc
                 (IfBody.run_1d Never (ByReference.ifbody 0 0 image_2x1 image_2x1 image_2x1)
                                two_elements)) = 2%nat.
Proof.
  destruct (predicated_calls_split_by_the_domain_test Never
              (ByReference.ifbody 0 0 image_2x1 image_2x1 image_2x1)
              (IfBody.run_1d Never (ByReference.ifbody 0 0 image_2x1 image_2x1 image_2x1)
                             two_elements)
              (Body.run_1d (ByReference.body 0 0 image_2x1 image_2x1 image_2x1) two_elements))
    as (H1 & H2 & _).
  - right. left. exists two_elements. split; reflexivity.
  - split; [rewrite H1 | rewrite H2]; reflexivity.
Defined.

(* ===================================================================== *)
(** ** Calls of join in the passes over a range *)
(* ===================================================================== *)

Lemma sequential_joins (calls : list invocation) (joined : list event) :
  joins (log_of (run calls ;; Returns joined)) = joins joined.
Proof. simpl. now rewrite joins_app, joins_Invoke. Qed.

Lemma parallel_joins {R : Type} `{Splittable R} (c : bool) (sch : schedule) (re : R)
  (body : R -> list invocation) (J joined : list event) :
  joins (log_of (if c then Returns (parallel_reduce sch re body J) ;; Returns joined
                 else Returns (parallel_for sch re body)))
  = if c then List.concat (repeat (joins J) (forks sch re)) ++ joins joined else [].
Proof.
  destruct c; simpl.
  - now rewrite joins_app, joins_parallel_reduce.
  - apply joins_parallel_for.
Qed.

Lemma frames_joins {R : Type} `{Splittable R} (c : bool) (sch : Z -> schedule) (re : R)
  (body : Z -> R -> list invocation) (J joined : list event) (t : Z) :
  joins (log_of (if c
                 then Returns (For 0 t (fun l log =>
                                 log ++ parallel_reduce (sch l) re (body l) J) [])
                      ;; Returns joined
                 else Returns (For 0 t (fun l log =>
                                 log ++ parallel_for (sch l) re (body l)) [])))
  = if c
    then flat_map (fun l => List.concat (repeat (joins J) (forks (sch l) re))) (interval 0 t)
         ++ joins joined
    else [].
Proof.
  destruct c; simpl.
  - rewrite joins_app, For_append, app_nil_l, joins_flat_map. f_equal.
    apply flat_map_ext. intros l. apply joins_parallel_reduce.
  - rewrite For_append, app_nil_l, joins_flat_map.
    induction (interval 0 t) as [|l ls IH]; simpl; [reflexivity|].
    now rewrite joins_parallel_for, IH.
Qed.

(** X13: the log of each pass over the whole domain and over a 1-D, 2-D
    or 3-D range, with the images by pointer and the functor(s) by reference.
    A sequential pass returns with the functor calls of its traversal followed
    by one [join] on the caller's functor, reduction or not (a predicated pass:
    by one on the caller's inside functor and one on the caller's outside
    functor). A parallel pass returns with the log of [parallel_for], which
    holds no [join], unless a functor is a reduction; with one, it returns with
    the log of [parallel_reduce], in which the functor copies of the bodies are
    joined once per pair of sibling partitions, followed by one [join] on the
    caller's functor(s). The parallel pass over the whole domain makes one
    scheduler call per frame when the temporal spacing of the attributes is
    nonzero, and one for the frame the body starts with otherwise; the [join]
    on the caller's functor(s) follows the last of them. *)
Theorem join_calls_of_the_range_passes
  (k0 l0 : Z) (D : Domain) (vf of_ : functor) (im1 im2 im3 : irtkGenericImage) :
  let b := ByPointer.body k0 l0 im1 im2 im3 in
  let ib := ByPointer.ifbody k0 l0 im1 im2 im3 in
  let join_once := [Join VoxelFunc CallersFunctor] in
  let join_both := [Join VoxelFunc CallersFunctor; Join OutsideFunc CallersFunctor] in
  let once := [(VoxelFunc, CallersFunctor)] in
  let both := [(VoxelFunc, CallersFunctor); (OutsideFunc, CallersFunctor)] in
  let pair := [(VoxelFunc, BodysFunctor)] in
  let pairs := [(VoxelFunc, BodysFunctor); (OutsideFunc, BodysFunctor)] in
  (forall attr re1 re2 re3,
      ByPointer.ForEachVoxel_attr k0 l0 vf attr im1 im2 im3
      = Returns (map Invoke (Body.run_attr b attr) ++ join_once) /\
      ByPointer.ForEachVoxel_1d k0 l0 vf re1 im1 im2 im3
      = Returns (map Invoke (Body.run_1d b re1) ++ join_once) /\
      ByPointer.ForEachVoxel_2d k0 l0 vf re2 im1 im2 im3
      = Returns (map Invoke (Body.run_2d b re2) ++ join_once) /\
      ByPointer.ForEachVoxel_3d k0 l0 vf re3 im1 im2 im3
      = Returns (map Invoke (Body.run_3d b re3) ++ join_once) /\
      ByPointer.ForEachVoxelIf_attr k0 l0 D vf of_ attr im1 im2 im3
      = Returns (map Invoke (IfBody.run_attr D ib attr) ++ join_both) /\
      ByPointer.ForEachVoxelIf_1d k0 l0 D vf of_ re1 im1 im2 im3
      = Returns (map Invoke (IfBody.run_1d D ib re1) ++ join_both) /\
      ByPointer.ForEachVoxelIf_2d k0 l0 D vf of_ re2 im1 im2 im3
      = Returns (map Invoke (IfBody.run_2d D ib re2) ++ join_both) /\
      ByPointer.ForEachVoxelIf_3d k0 l0 D vf of_ re3 im1 im2 im3
      = Returns (map Invoke (IfBody.run_3d D ib re3) ++ join_both)) /\
  (forall sch re1 re2 re3,
      ByPointer.ParallelForEachVoxel_1d k0 l0 sch vf re1 im1 im2 im3
      = Returns (if IsReduction vf
                 then parallel_reduce sch re1 (Body.run_1d b) Body_join ++ join_once
                 else parallel_for sch re1 (Body.run_1d b)) /\
      ByPointer.ParallelForEachVoxel_2d k0 l0 sch vf re2 im1 im2 im3
      = Returns (if IsReduction vf
                 then parallel_reduce sch re2 (Body.run_2d b) Body_join ++ join_once
                 else parallel_for sch re2 (Body.run_2d b)) /\
      ByPointer.ParallelForEachVoxel_3d k0 l0 sch vf re3 im1 im2 im3
      = Returns (if IsReduction vf
                 then parallel_reduce sch re3 (Body.run_3d b) Body_join ++ join_once
                 else parallel_for sch re3 (Body.run_3d b)) /\
      ByPointer.ParallelForEachVoxelIf_1d k0 l0 sch D vf of_ re1 im1 im2 im3
      = Returns (if IsReduction vf || IsReduction of_
                 then parallel_reduce sch re1 (IfBody.run_1d D ib) IfBody_join ++ join_both
                 else parallel_for sch re1 (IfBody.run_1d D ib)) /\
      ByPointer.ParallelForEachVoxelIf_2d k0 l0 sch D vf of_ re2 im1 im2 im3
      = Returns (if IsReduction vf || IsReduction of_
                 then parallel_reduce sch re2 (IfBody.run_2d D ib) IfBody_join ++ join_both
                 else parallel_for sch re2 (IfBody.run_2d D ib)) /\
      ByPointer.ParallelForEachVoxelIf_3d k0 l0 sch D vf of_ re3 im1 im2 im3
      = Returns (if IsReduction vf || IsReduction of_
                 then parallel_reduce sch re3 (IfBody.run_3d D ib) IfBody_join ++ join_both
                 else parallel_for sch re3 (IfBody.run_3d D ib))) /\
  (forall sch attr,
      let re := {| pages := {| rbegin := 0; rend := _z attr |};
                   rows := {| rbegin := 0; rend := _y attr |};
                   cols := {| rbegin := 0; rend := _x attr |} |} in
      let frames_of := if nonzero (_dt attr) then interval 0 (_t attr) else [l0] in
      ByPointer.ParallelForEachVoxel_attr k0 l0 sch vf attr im1 im2 im3
      = Returns (if IsReduction vf
                 then flat_map (fun l => parallel_reduce (sch l) re
                                           (Body.run_3d (ByReference.set_l b l)) Body_join)
                               frames_of ++ join_once
                 else flat_map (fun l => parallel_for (sch l) re
                                           (Body.run_3d (ByReference.set_l b l)))
                               frames_of) /\
      ByPointer.ParallelForEachVoxelIf_attr k0 l0 sch D vf of_ attr im1 im2 im3
      = Returns (if IsReduction vf || IsReduction of_
                 then flat_map (fun l => parallel_reduce (sch l) re
                                           (IfBody.run_3d D (ByReference.if_set_l ib l))
                                           IfBody_join)
                               frames_of ++ join_both
                 else flat_map (fun l => parallel_for (sch l) re
                                           (IfBody.run_3d D (ByReference.if_set_l ib l)))
                               frames_of)) /\
  (forall attr re1 re2 re3,
      joins (log_of (ByPointer.ForEachVoxel_attr k0 l0 vf attr im1 im2 im3)) = once /\
      joins (log_of (ByPointer.ForEachVoxel_1d k0 l0 vf re1 im1 im2 im3)) = once /\
      joins (log_of (ByPointer.ForEachVoxel_2d k0 l0 vf re2 im1 im2 im3)) = once /\
      joins (log_of (ByPointer.ForEachVoxel_3d k0 l0 vf re3 im1 im2 im3)) = once /\
      joins (log_of (ByPointer.ForEachVoxelIf_attr k0 l0 D vf of_ attr im1 im2 im3)) = both /\
      joins (log_of (ByPointer.ForEachVoxelIf_1d k0 l0 D vf of_ re1 im1 im2 im3)) = both /\
      joins (log_of (ByPointer.ForEachVoxelIf_2d k0 l0 D vf of_ re2 im1 im2 im3)) = both /\
      joins (log_of (ByPointer.ForEachVoxelIf_3d k0 l0 D vf of_ re3 im1 im2 im3)) = both) /\
  (forall sch re1 re2 re3,
      joins (log_of (ByPointer.ParallelForEachVoxel_1d k0 l0 sch vf re1 im1 im2 im3))
      = (if IsReduction vf
         then List.concat (repeat pair (forks sch re1)) ++ once else []) /\
      joins (log_of (ByPointer.ParallelForEachVoxel_2d k0 l0 sch vf re2 im1 im2 im3))
      = (if IsReduction vf
         then List.concat (repeat pair (forks sch re2)) ++ once else []) /\
      joins (log_of (ByPointer.ParallelForEachVoxel_3d k0 l0 sch vf re3 im1 im2 im3))
      = (if IsReduction vf
         then List.concat (repeat pair (forks sch re3)) ++ once else []) /\
      joins (log_of (ByPointer.ParallelForEachVoxelIf_1d k0 l0 sch D vf of_ re1 im1 im2 im3))
      = (if IsReduction vf || IsReduction of_
         then List.concat (repeat pairs (forks sch re1)) ++ both else []) /\
      joins (log_of (ByPointer.ParallelForEachVoxelIf_2d k0 l0 sch D vf of_ re2 im1 im2 im3))
      = (if IsReduction vf || IsReduction of_
         then List.concat (repeat pairs (forks sch re2)) ++ both else []) /\
      joins (log_of (ByPointer.ParallelForEachVoxelIf_3d k0 l0 sch D vf of_ re3 im1 im2 im3))
      = (if IsReduction vf || IsReduction of_
         then List.concat (repeat pairs (forks sch re3)) ++ both else [])) /\
  (forall sch attr,
      let re := {| pages := {| rbegin := 0; rend := _z attr |};
                   rows := {| rbegin := 0; rend := _y attr |};
                   cols := {| rbegin := 0; rend := _x attr |} |} in
      let frames_of := if nonzero (_dt attr) then interval 0 (_t attr) else [l0] in
      joins (log_of (ByPointer.ParallelForEachVoxel_attr k0 l0 sch vf attr im1 im2 im3))
      = (if IsReduction vf
         then flat_map (fun l => List.concat (repeat pair (forks (sch l) re))) frames_of ++ once
         else []) /\
      joins (log_of (ByPointer.ParallelForEachVoxelIf_attr k0 l0 sch D vf of_ attr im1 im2 im3))
      = (if IsReduction vf || IsReduction of_
         then flat_map (fun l => List.concat (repeat pairs (forks (sch l) re))) frames_of ++ both
         else [])).
Proof.
  intros b ib join_once join_both once both pair pairs.
  split; [|split; [|split; [|split; [|split]]]].
  - intros attr re1 re2 re3. repeat apply conj; reflexivity.
  - intros sch re1 re2 re3. subst b ib join_once join_both. repeat apply conj; pass_cases.
  - intros sch attr re frames_of. subst b ib join_once join_both re frames_of.
    split; pass_cases.
  - intros attr re1 re2 re3. repeat apply conj.
    + apply (sequential_joins _ [Join VoxelFunc CallersFunctor]).
    + apply (sequential_joins _ [Join VoxelFunc CallersFunctor]).
    + apply (sequential_joins _ [Join VoxelFunc CallersFunctor]).
    + apply (sequential_joins _ [Join VoxelFunc CallersFunctor]).
    + apply (sequential_joins _ [Join VoxelFunc CallersFunctor; Join OutsideFunc CallersFunctor]).
    + apply (sequential_joins _ [Join VoxelFunc CallersFunctor; Join OutsideFunc CallersFunctor]).
    + apply (sequential_joins _ [Join VoxelFunc CallersFunctor; Join OutsideFunc CallersFunctor]).
    + apply (sequential_joins _ [Join VoxelFunc CallersFunctor; Join OutsideFunc CallersFunctor]).
  - intros sch re1 re2 re3. repeat apply conj.
    + apply (parallel_joins _ sch re1 _ Body_join [Join VoxelFunc CallersFunctor]).
    + apply (parallel_joins _ sch re2 _ Body_join [Join VoxelFunc CallersFunctor]).
    + apply (parallel_joins _ sch re3 _ Body_join [Join VoxelFunc CallersFunctor]).
    + apply (parallel_joins _ sch re1 _ IfBody_join
               [Join VoxelFunc CallersFunctor; Join OutsideFunc CallersFunctor]).
    + apply (parallel_joins _ sch re2 _ IfBody_join
               [Join VoxelFunc CallersFunctor; Join OutsideFunc CallersFunctor]).
    + apply (parallel_joins _ sch re3 _ IfBody_join
               [Join VoxelFunc CallersFunctor; Join OutsideFunc CallersFunctor]).
  - intros sch attr re frames_of. subst frames_of. split.
    + unfold ByPointer.ParallelForEachVoxel_attr. fold re.
      destruct (nonzero (_dt attr)).
      * apply (frames_joins (IsReduction vf) sch re
                 (fun l => Body.run_3d (ByReference.set_l (ByPointer.body k0 l0 im1 im2 im3) l))
                 Body_join [Join VoxelFunc CallersFunctor]).
      * cbn [flat_map]. rewrite app_nil_r.
        apply (parallel_joins _ (sch l0) re _ Body_join [Join VoxelFunc CallersFunctor]).
    + unfold ByPointer.ParallelForEachVoxelIf_attr. fold re.
      destruct (nonzero (_dt attr)).
      * apply (frames_joins (IsReduction vf || IsReduction of_) sch re
                 (fun l => IfBody.run_3d D
                             (ByReference.if_set_l (ByPointer.ifbody k0 l0 im1 im2 im3) l))
                 IfBody_join [Join VoxelFunc CallersFunctor; Join OutsideFunc CallersFunctor]).
      * cbn [flat_map]. rewrite app_nil_r.
        apply (parallel_joins _ (sch l0) re _ IfBody_join
                 [Join VoxelFunc CallersFunctor; Join OutsideFunc CallersFunctor]).
Qed.

(* ===================================================================== *)
(** ** The cursor of an empty image *)
(* ===================================================================== *)

Lemma cursor_of_empty (im1 im2 im3 : irtkGenericImage)
  (first : irtkGenericImage -> pointer) (d : Z) :
  let c := advance d (cursors_at im1 im2 im3 first) in
  (IsEmpty im1 = true -> p1 c = ptr_add NULL d) /\
  (IsEmpty im2 = true -> p2 c = ptr_add NULL d) /\
  (IsEmpty im3 = true -> p3 c = ptr_add NULL d).
Proof.
  unfold cursors_at, advance. simpl. repeat split; intros ->; reflexivity.
Qed.

(** X14: in the whole-domain and the linear-range traversal the cursor
    of an empty image never points into the buffer of the image: it starts as
    the null pointer and is advanced with the cursors of the other images, so
    at the n-th call, counting from 0, it is the null pointer advanced by n
    voxels: the null pointer at the first call and at no other call. *)
Theorem empty_image_cursor_counts_from_null
  (b : Body.t) (attr : irtkImageAttributes) (re : blocked_range) (n : nat)
  (inv : invocation) :
  nth_error (Body.run_attr b attr) n = Some inv \/
  nth_error (Body.run_1d b re) n = Some inv ->
  (IsEmpty (Body.im1 b) = true ->
   p1 (ptrs inv) = ptr_add NULL (Z.of_nat n) /\
   is_null (p1 (ptrs inv)) = (Z.of_nat n =? 0)) /\
  (IsEmpty (Body.im2 b) = true ->
   p2 (ptrs inv) = ptr_add NULL (Z.of_nat n) /\
   is_null (p2 (ptrs inv)) = (Z.of_nat n =? 0)) /\
  (IsEmpty (Body.im3 b) = true ->
   p3 (ptrs inv) = ptr_add NULL (Z.of_nat n) /\
   is_null (p3 (ptrs inv)) = (Z.of_nat n =? 0)).
Proof.
  intros H.
  assert (Hp : exists first, ptrs inv = advance (Z.of_nat n) (body_cursors b first)).
  { destruct H as [H|H].
    - exists GetPointerToVoxels. now apply (run_attr_tracked b attr).
    - exists (fun im => ptr_add (GetPointerToVoxels im) (rbegin re)).
      rewrite run_1d_closed in H. rewrite nth_error_map in H.
      destruct (nth_error (interval (rbegin re) (rend re)) n) as [idx|] eqn:E;
        [|discriminate].
      injection H as <-. cbn [ptrs]. f_equal.
      unfold interval in E. clear -E.
      assert (G : forall m b0 k, nth_error (zseq b0 m) k = Some idx -> idx = b0 + Z.of_nat k).
      { induction m as [|m IH]; intros b0 [|k] Hk; simpl in Hk; try discriminate.
        - injection Hk as <-. lia.
        - apply IH in Hk. lia. }
      apply G in E. lia. }
  destruct Hp as (first & ->).
  destruct (cursor_of_empty (Body.im1 b) (Body.im2 b) (Body.im3 b) first (Z.of_nat n))
    as (C1 & C2 & C3).
  unfold body_cursors.
  split; [|split]; intros He.
  - rewrite (C1 He). split; reflexivity.
  - rewrite (C2 He). split; reflexivity.
  - rewrite (C3 He). split; reflexivity.
Qed.

Lemma empty_image_cursor_counts_from_null_witness :
  p1 (ptrs {| callee := VoxelFunc; arguments := Index image_2x1 1;
              ptrs := {| p1 := ptr_add NULL 1;
                         p2 := ptr_add (GetPointerToVoxels image_2x1) 1;
                         p3 := ptr_add (GetPointerToVoxels image_2x1) 1 |} |})
  = ptr_add NULL (Z.of_nat 1).
Proof.
  exact (proj1 (proj1 (empty_image_cursor_counts_from_null
           (ByReference.body 0 0 image_empty image_2x1 image_2x1) (_attr image_2x1)
           two_elements 1
           {| callee := VoxelFunc; arguments := Index image_2x1 1;
              ptrs := {| p1 := ptr_add NULL 1;
                         p2 := ptr_add (GetPointerToVoxels image_2x1) 1;
                         p3 := ptr_add (GetPointerToVoxels image_2x1) 1 |} |}
           (or_intror eq_refl)) eq_refl)).
Defined.

(* ===================================================================== *)
(** ** The whole domain as a series of 3-D ranges *)
(* ===================================================================== *)

(** X15: when no image is empty and each image has the x, y and z extents
    of the attributes, the whole-domain traversal makes the calls of the 3-D
    range traversals over the full range [0, z) x [0, y) x [0, x), one after
    the other for [_l] = 0, ..., T - 1, with the same arguments and the same
    pointers; T is [_t] with a nonzero temporal spacing and 1 with a zero
    one. *)
Theorem whole_domain_is_a_series_of_3d_ranges
  (b : Body.t) (attr : irtkImageAttributes) :
  IsEmpty (Body.im1 b) = false -> IsEmpty (Body.im2 b) = false ->
  IsEmpty (Body.im3 b) = false ->
  same_extents (Body.im1 b) attr -> same_extents (Body.im2 b) attr ->
  same_extents (Body.im3 b) attr ->
  let full := {| pages := {| rbegin := 0; rend := _z attr |};
                 rows := {| rbegin := 0; rend := _y attr |};
                 cols := {| rbegin := 0; rend := _x attr |} |} in
  let T := if nonzero (_dt attr) then _t attr else 1 in
  Body.run_attr b attr
  = flat_map (fun l => Body.run_3d (ByReference.set_l b l) full) (interval 0 T).
Proof.
  intros H1 H2 H3 S1 S2 S3 full T.
  rewrite run_attr_call_at by assumption. fold T. unfold box. rewrite map_flat_map.
  apply flat_map_ext. intros l.
  destruct S1 as (X1 & Y1 & _), S2 as (X2 & Y2 & _), S3 as (X3 & Y3 & _).
  symmetry. apply (run_3d_call_at (ByReference.set_l b l) full); simpl; congruence.
Qed.

Lemma whole_domain_is_a_series_of_3d_ranges_witness :
  Body.run_attr (ByReference.body 0 0 (image_2x2_series 1) (image_2x2_series 2)
                                  (image_2x2_series 3)) (_attr (image_2x2_series 1))
  = flat_map (fun l => Body.run_3d
                         (ByReference.set_l
                            (ByReference.body 0 0 (image_2x2_series 1) (image_2x2_series 2)
                                              (image_2x2_series 3)) l)
                         {| pages := {| rbegin := 0; rend := 1 |};
                            rows := {| rbegin := 0; rend := 2 |};
                            cols := {| rbegin := 0; rend := 2 |} |})
             (interval 0 2).
Proof.
  exact (whole_domain_is_a_series_of_3d_ranges
           (ByReference.body 0 0 (image_2x2_series 1) (image_2x2_series 2) (image_2x2_series 3))
           (_attr (image_2x2_series 1)) eq_refl eq_refl eq_refl
           (conj eq_refl (conj eq_refl eq_refl))
           (conj eq_refl (conj eq_refl eq_refl))
           (conj eq_refl (conj eq_refl eq_refl))).
Defined.

(* ===================================================================== *)
(** ** The gradient image filter *)
(* ===================================================================== *)

Section GradientFilterProofs.

Import irtkGradientImageFilter.

Context {E : Environment}.

Lemma lower_max (c : Z) : lower c = Z.max 0 (c - 1).
Proof. unfold lower. cbv zeta. destruct (c - 1 <? 0) eqn:H; lia. Qed.

Lemma upper_min (n c : Z) : upper n c = Z.min (n - 1) (c + 1).
Proof. unfold upper. cbv zeta. destruct (c + 1 >? n - 1) eqn:H; lia. Qed.

Lemma derivative_slope (pad : VoxelType) (c1 c2 : Z) (get : Z -> option VoxelType)
  (v : Z -> VoxelType) :
  get c1 = Some (v c1) -> get c2 = Some (v c2) ->
  derivative pad c1 c2 get = Some (slope pad c1 c2 v).
Proof.
  intros H1 H2. unfold derivative, slope. rewrite H1, H2.
  destruct (negb (c1 =? c2)); [|reflexivity]. simpl.
  destruct (greater (v c2) pad); [|reflexivity]. simpl.
  destruct (greater (v c1) pad); reflexivity.
Qed.

Lemma differences_gradient (pad : VoxelType) (im : image)
  (v : Z -> Z -> Z -> VoxelType) (x y z : Z) :
  readable im v ->
  0 <= x < GetX (meta im) -> 0 <= y < GetY (meta im) -> 0 <= z < GetZ (meta im) ->
  differences pad im x y z = Some (gradient pad im v x y z).
Proof.
  intros Hv Hx Hy Hz. unfold differences, gradient. cbv zeta.
  rewrite !lower_max, !upper_min.
  rewrite (derivative_slope pad _ _ _ (fun c => v c y z)) by (apply Hv; lia).
  rewrite (derivative_slope pad _ _ _ (fun c => v x c z)) by (apply Hv; lia).
  rewrite (derivative_slope pad _ _ _ (fun c => v x y c)) by (apply Hv; lia).
  reflexivity.
Qed.

Lemma objects_store (p q : nat) (im : image) (m : memory) :
  q <> p -> objects (store p im m) q = objects m q.
Proof. intros H. simpl. apply Nat.eqb_neq in H. now rewrite H. Qed.

Lemma objects_puts (out : nat) (x y z : Z) (puts : list (Z * double)) :
  forall m,
    let m' := fold_left (fun m '(t, v) =>
                           store out (PutAsDouble (objects m out) x y z t v) m) puts m in
    (forall p, p <> out -> objects m' p = objects m p) /\ next m' = next m.
Proof.
  induction puts as [|[t v] puts IH]; intros m; simpl; [split; reflexivity|].
  destruct (IH (store out (PutAsDouble (objects m out) x y z t v) m)) as (Ho & Hn).
  split.
  - intros p Hp. rewrite (Ho p Hp). now apply objects_store.
  - rewrite Hn. reflexivity.
Qed.

Lemma components_written (f : t) (im : image) (d : vector) :
  known_type f ->
  components f (orientation f (GetWorldToImageOrientation (_attr (meta im)))
                  (voxel_size f im d))
  = Some (written f im d).
Proof.
  intros Hk. unfold components, orientation, voxel_size, written.
  destruct d as [[dx dy] dz].
  destruct (_UseVoxelSize f); cbn [andb];
    destruct (_UseOrientation f);
    destruct (_type f) eqn:Ht; try reflexivity; now destruct (Hk n).
Qed.

(** A loop whose every iteration returns, appends [L i] to the log and
    keeps [P] of the memory. *)
Lemma For_returns {A : Type} (P : A -> Prop) (step : Z -> outcome A -> outcome A)
  (L : Z -> list action) (b e : Z) :
  (forall i a log, b <= i < e -> P a ->
     exists a', step i (Done a log) = Done a' (log ++ L i) /\ P a') ->
  forall a log, P a ->
    exists a', For b e step (Done a log)
               = Done a' (log ++ flat_map L (interval b e)) /\ P a'.
Proof.
  unfold For, interval. intros Hstep.
  assert (H : forall n b', b <= b' -> b' + Z.of_nat n <= Z.max b e ->
            forall a log, P a ->
            exists a', iterate n b' step (Done a log)
                       = Done a' (log ++ flat_map L (zseq b' n)) /\ P a').
  { induction n as [|n IH]; intros b' Hb He a log Pa; simpl.
    - exists a. now rewrite app_nil_r.
    - destruct (Hstep b' a log) as (a' & Ha & Pa'); [lia | assumption |].
      rewrite Ha. destruct (IH (b' + 1)) with (a := a') (log := log ++ L b')
        as (a'' & Ha'' & Pa''); [lia | lia | assumption |].
      exists a''. now rewrite Ha'', <- app_assoc. }
  intros a log Pa. apply H; [lia | lia | assumption].
Qed.

Lemma voxel_puts (f : t) (inp out : nat) (m0 : memory) (v : Z -> Z -> Z -> VoxelType)
  (x y z : Z) (m : memory) (log : list action) :
  let im := objects m0 inp in
  inp <> out -> known_type f -> kept out m0 m -> readable im v ->
  0 <= x < GetX (meta im) -> 0 <= y < GetY (meta im) -> 0 <= z < GetZ (meta im) ->
  exists m',
    voxel f inp out (GetWorldToImageOrientation (_attr (meta im))) x y z m log
    = Done m' (log ++ puts_at f im v out x y z) /\ kept out m0 m'.
Proof.
  intros im Hio Hk (Hobj & Hnext) Hv Hx Hy Hz. unfold voxel, puts_at.
  rewrite (Hobj inp Hio). fold im.
  rewrite (differences_gradient _ im v) by assumption.
  rewrite (components_written f im _ Hk).
  eexists. split; [reflexivity|].
  destruct (objects_puts out x y z (written f im (gradient (_Padding f) im v x y z)) m)
    as (Ho & Hn).
  split.
  - intros p Hp. rewrite (Ho p Hp). now apply Hobj.
  - now rewrite Hn.
Qed.

Lemma loops_puts (f : t) (inp out : nat) (v : Z -> Z -> Z -> VoxelType)
  (m : memory) (log : list action) :
  inp <> out -> known_type f -> readable (objects m inp) v ->
  exists m',
    loops f inp out (GetWorldToImageOrientation (_attr (meta (objects m inp)))) m log
    = Done m' (log ++ puts_of f (objects m inp) v out) /\
    objects m' inp = objects m inp /\
    (forall p, p <> out -> objects m' p = objects m p) /\
    next m' = next m.
Proof.
  intros Hio Hk Hv.
  assert (H : exists m',
    loops f inp out (GetWorldToImageOrientation (_attr (meta (objects m inp)))) m log
    = Done m' (log ++ puts_of f (objects m inp) v out) /\ kept out m m').
  { unfold loops, puts_of. cbv zeta.
    apply (For_returns (kept out m)); [|split; reflexivity].
    intros z m1 log1 Hz P1.
    apply (For_returns (kept out m)); [|assumption].
    intros y m2 log2 Hy P2.
    apply (For_returns (kept out m)); [|assumption].
    intros x m3 log3 Hx P3.
    cbn [next_statement]. now apply voxel_puts. }
  destruct H as (m' & Hl & Hobj & Hnext).
  exists m'. split; [exact Hl|]. split; [now apply Hobj|]. split; assumption.
Qed.

Lemma For_skips {St : Type} (b e : Z) (step : Z -> St -> St) (s : St) :
  (forall i, b <= i < e -> step i s = s) -> For b e step s = s.
Proof.
  intros H. apply (For_invariant (fun s' => s' = s)); [|reflexivity].
  intros i s' Hi ->. now apply H.
Qed.

(** X16: [Initialize] checks the filter before anything else and ends the
    program in [exit(1)] after one line on [cerr] at the first check that
    fails, in this order: no input, no output, an empty input, an input of
    more than one frame. The line is the name of the class followed by the
    text of the check. Otherwise [Initialize] returns. [Run] starts with
    [Initialize], so a refused filter puts no voxel. *)
Theorem Initialize_refuses_a_filter_that_cannot_run (f : t) (m : memory) :
  (_input f = None ->
   Initialize f m = refused "::Run: Filter has no input") /\
  (forall inp, _input f = Some inp -> _output f = None ->
   Initialize f m = refused "::Run: Filter has no output") /\
  (forall inp out, _input f = Some inp -> _output f = Some out ->
   IsEmpty (meta (objects m inp)) = true ->
   Initialize f m = refused "::Run: Input is empty") /\
  (forall inp out, _input f = Some inp -> _output f = Some out ->
   IsEmpty (meta (objects m inp)) = false -> 1 < GetT (meta (objects m inp)) ->
   Initialize f m = refused "::Run: Only implemented for images with t = 1") /\
  (forall inp out, _input f = Some inp -> _output f = Some out ->
   IsEmpty (meta (objects m inp)) = false -> GetT (meta (objects m inp)) <= 1 ->
   exists f' m' log, Initialize f m = Done (f', m') log) /\
  (forall status log, Initialize f m = Exit status log -> Run f m = Exit status log).
Proof.
  repeat apply conj.
  - intros H. unfold Initialize. now rewrite H.
  - intros inp Hi Ho. unfold Initialize. now rewrite Hi, Ho.
  - intros inp out Hi Ho He. unfold Initialize. now rewrite Hi, Ho, He.
  - intros inp out Hi Ho He Ht. unfold Initialize. rewrite Hi, Ho, He.
    replace (GetT (meta (objects m inp)) >? 1) with true by lia. reflexivity.
  - intros inp out Hi Ho He Ht. unfold Initialize. rewrite Hi, Ho, He.
    replace (GetT (meta (objects m inp)) >? 1) with false by lia.
    destruct RequiresBuffering; simpl; rewrite ?Ho, ?Hi; destruct (_type f);
      repeat (simpl; match goal with
                     | |- context [Nat.eqb ?a ?b] => destruct (Nat.eqb a b)
                     end);
      simpl; repeat eexists.
  - intros status log H. unfold Run. now rewrite H.
Qed.

Ltac decide_eqb :=
  repeat match goal with
         | |- context [Nat.eqb ?a ?b] =>
             first [ replace (Nat.eqb a b) with true by (symmetry; apply Nat.eqb_eq; lia)
                   | replace (Nat.eqb a b) with false by (symmetry; apply Nat.eqb_neq; lia) ]
         end.

(** X17: a filter that requires buffering and passes the checks of
    [Initialize] never writes into its input. When input and output are the
    same image, [Initialize] gives the filter a new image as output and keeps
    the caller's image in [_tmp]; when they differ, the output stays and
    [_tmp] is null. The output is then initialised with the attributes of the
    input, with 3 frames for the two vector types. The input image, and every
    other image but the output, is left as it was, and so are the settings of
    the filter. *)
Theorem Initialize_buffers_a_filter_run_in_place
  (f : t) (m : memory) (inp out : nat) :
  _input f = Some inp -> _output f = Some out ->
  IsEmpty (meta (objects m inp)) = false -> GetT (meta (objects m inp)) <= 1 ->
  RequiresBuffering = true ->
  (inp < next m)%nat -> (out < next m)%nat ->
  let in_place := Nat.eqb inp out in
  let o := if in_place then next m else out in
  let three := match _type f with
               | GRADIENT_VECTOR | NORMALISED_GRADIENT_VECTOR => Some 3
               | _ => None
               end in
  exists f' m' log,
    Initialize f m = Done (f', m') log /\
    _input f' = Some inp /\
    _output f' = Some o /\
    o <> inp /\
    _tmp f' = (if in_place then Some out else None) /\
    (_type f', _UseVoxelSize f', _UseOrientation f', _Padding f')
    = (_type f, _UseVoxelSize f, _UseOrientation f, _Padding f) /\
    objects m' o
    = image_Initialize (if in_place then new_image else objects m out)
                       (_attr (meta (objects m inp))) three /\
    (forall p, p <> o -> (p < next m)%nat -> objects m' p = objects m p).
Proof.
  intros Hi Ho He Ht Hb Hin Hout in_place o three.
  unfold Initialize. rewrite Hi, Ho, He, Hb.
  replace (GetT (meta (objects m inp)) >? 1) with false by lia.
  subst in_place o three. cbn [same_pointer].
  destruct (Nat.eqb inp out) eqn:Eio.
  - apply Nat.eqb_eq in Eio. subst out.
    destruct (_type f) eqn:Et; cbn -[Nat.eqb]; decide_eqb; cbn -[Nat.eqb];
      do 3 eexists; (split; [reflexivity|]); cbn -[Nat.eqb]; decide_eqb;
      repeat (split; [first [reflexivity | lia | now rewrite Et]|]);
      intros p Hp Hlt; decide_eqb; reflexivity.
  - apply Nat.eqb_neq in Eio.
    destruct (_type f) eqn:Et; cbn -[Nat.eqb]; decide_eqb; cbn -[Nat.eqb]; rewrite ?Eio;
      decide_eqb; cbn -[Nat.eqb];
      do 3 eexists; (split; [reflexivity|]); cbn -[Nat.eqb]; decide_eqb;
      repeat (split; [first [reflexivity | lia | now rewrite Et]|]);
      intros p Hp Hlt; decide_eqb; reflexivity.
Qed.

Lemma written_frames (f : t) (im : image) (d : vector) :
  known_type f -> map fst (written f im d) = interval 0 (frames f).
Proof.
  intros Hk. unfold written, frames. destruct d as [[dx dy] dz].
  destruct (_type f) eqn:Ht; try reflexivity. now destruct (Hk n).
Qed.

(** X18: the run of a filter that passed [Initialize], has a type with a
    [case] label and an output that is not its input, on an input whose
    voxels all have a value: [Run] returns; it reads no voxel outside the
    input; going through the voxels of the input in the order z, y, x with x
    fastest, it puts for each voxel the frames 0, ..., n - 1 of the output,
    n = 3 for the two vector types and n = 1 otherwise, and nothing else. The
    values come from the difference quotients between the neighbours of the
    voxel in the input as it was when [Run] was called, one voxel down and one
    voxel up along each axis with the voxel itself standing in for a neighbour
    outside the image: each quotient divided by the voxel size along its axis
    when voxel sizes are used and the size is positive, the three multiplied
    by the orientation matrix when the orientation is used, and then the x, y
    or z component, the norm, the three components, or the three components
    divided by the norm plus 1E-10, as the type says. [Run] then calls
    [Finalize], on a filter and images among which the input is still as it
    was; what [Run] returns with is what [Finalize] makes of them. *)
Theorem Run_puts_the_gradient_of_each_voxel
  (f f' : t) (m m' : memory) (log0 : list action) (inp out : nat)
  (v : Z -> Z -> Z -> VoxelType) :
  Initialize f m = Done (f', m') log0 ->
  _input f' = Some inp -> _output f' = Some out -> inp <> out ->
  known_type f' -> readable (objects m' inp) v ->
  let im := objects m' inp in
  (exists m'',
      Run f m = Done (Finalize f' m'') (log0 ++ puts_of f' im v out ++ [CallFinalize]) /\
      objects m'' inp = im /\
      (forall p, p <> out -> objects m'' p = objects m' p) /\
      next m'' = next m') /\
  (forall x y z,
      0 <= x < GetX (meta im) -> 0 <= y < GetY (meta im) -> 0 <= z < GetZ (meta im) ->
      differences (_Padding f') im x y z = Some (gradient (_Padding f') im v x y z)) /\
  (forall d, map fst (written f' im d) = interval 0 (frames f')) /\
  (forall dx dy dz,
      _UseVoxelSize f' = false -> _UseOrientation f' = false ->
      written f' im (dx, dy, dz)
      = match _type f' with
        | GRADIENT_X => [(0, dx)]
        | GRADIENT_Y => [(0, dy)]
        | GRADIENT_Z => [(0, dz)]
        | GRADIENT_MAGNITUDE =>
            [(0, sqrt (add (add (mul dx dx) (mul dy dy)) (mul dz dz)))]
        | GRADIENT_VECTOR => [(0, dx); (1, dy); (2, dz)]
        | NORMALISED_GRADIENT_VECTOR =>
            let norm := sqrt (add (add (mul dx dx) (mul dy dy)) (mul dz dz)) in
            [(0, div dx (add norm epsilon)); (1, div dy (add norm epsilon));
             (2, div dz (add norm epsilon))]
        | unknown_type _ => []
        end).
Proof.
  intros HI Hi Ho Hio Hk Hv im. split; [|split; [|split]].
  - unfold Run. rewrite HI, Hi, Ho. cbv zeta.
    destruct (loops_puts f' inp out v m' log0 Hio Hk Hv) as (m'' & Hl & Hobj & Hoth & Hnext).
    rewrite Hl. exists m''. split; [|auto].
    now rewrite <- app_assoc.
  - intros x y z Hx Hy Hz. now apply differences_gradient.
  - intros d. now apply written_frames.
  - intros dx dy dz Hs Ho'. unfold written. rewrite Hs, Ho'. reflexivity.
Qed.

Lemma For_exits {A : Type} (b e : Z) (step : Z -> outcome A -> outcome A)
  (status : Z) (log : list action) :
  (forall i, step i (Exit status log) = Exit status log) ->
  For b e step (Exit status log) = Exit status log.
Proof. intros H. apply For_skips. intros i _. apply H. Qed.

(** X19: a filter whose type has no [case] label passes [Initialize]
    like any other; the type is looked at for the first time at the first
    voxel. When the input has a voxel, [Run] ends the program there in
    [exit(1)], after the line 'Unknown gradient computation' on [cerr] and
    without having put any voxel. When an extent of the input is zero, no
    voxel is visited and [Run] calls [Finalize] and returns as if the type
    were known. *)
Theorem Run_with_an_unknown_type
  (f f' : t) (m m' : memory) (log0 : list action) (inp out : nat) (n : Z)
  (v : Z -> Z -> Z -> VoxelType) :
  Initialize f m = Done (f', m') log0 ->
  _input f' = Some inp -> _output f' = Some out ->
  _type f' = unknown_type n -> readable (objects m' inp) v ->
  let im := meta (objects m' inp) in
  (0 < GetX im -> 0 < GetY im -> 0 < GetZ im ->
   Run f m = Exit 1 (log0 ++ [Stderr (NameOfClass ++ "::Run: Unknown gradient computation")])) /\
  (GetX im <= 0 \/ GetY im <= 0 \/ GetZ im <= 0 ->
   Run f m = Done (Finalize f' m') (log0 ++ [CallFinalize])).
Proof.
  intros HI Hi Ho Hty Hv. cbv zeta.
  set (im := meta (objects m' inp)) in *. split.
  - intros Hx Hy Hz. unfold Run. rewrite HI, Hi, Ho. cbv zeta. fold im.
    set (R := GetWorldToImageOrientation (_attr im)).
    set (msg := Stderr (NameOfClass ++ "::Run: Unknown gradient computation")).
    assert (Hv0 : voxel f' inp out R 0 0 0 m' log0 = Exit 1 (log0 ++ [msg])).
    { unfold voxel.
      rewrite (differences_gradient _ _ v) by (try assumption; fold im; lia).
      unfold components.
      destruct (orientation f' R _) as [[dx dy] dz]. now rewrite Hty. }
    assert (Hloops : loops f' inp out R m' log0 = Exit 1 (log0 ++ [msg])).
    { unfold loops. cbv zeta. fold im.
      rewrite For_unfold. replace (0 <? GetZ im) with true by lia.
      rewrite (For_unfold 0 (GetY im)). replace (0 <? GetY im) with true by lia.
      rewrite (For_unfold 0 (GetX im)). replace (0 <? GetX im) with true by lia.
      cbn [next_statement]. rewrite Hv0.
      rewrite (For_exits (0 + 1) (GetX im)) by reflexivity.
      rewrite (For_exits (0 + 1) (GetY im)) by (intros; now apply For_exits).
      apply For_exits. intros. apply For_exits. intros. now apply For_exits. }
    now rewrite Hloops.
  - intros Hempty. unfold Run. rewrite HI, Hi, Ho. cbv zeta. fold im.
    assert (Hloops : loops f' inp out (GetWorldToImageOrientation (_attr im)) m' log0
                     = Done m' log0).
    { unfold loops. cbv zeta. fold im.
      apply For_skips. intros z Hz. apply For_skips. intros y Hy.
      apply For_skips. intros x Hx. lia. }
    now rewrite Hloops.
Qed.

(** X20: the difference quotient the filter takes along an axis of
    extent [n] at position [c], from the values [v] along the axis: zero when
    the extent is 1; between the two neighbours of [c], at distance 2, inside
    the image; between [c] and its one neighbour, at distance 1, at either end
    of the axis; and zero wherever one of the two values is not above the
    padding value. No voxel outside the axis is read. *)
Theorem derivative_is_a_clamped_central_difference
  (pad : VoxelType) (n c : Z) (get : Z -> option VoxelType) (v : Z -> VoxelType) :
  0 <= c < n ->
  (forall c', 0 <= c' < n -> get c' = Some (v c')) ->
  let quotient := fun c2 c1 =>
    if greater (v c2) pad && greater (v c1) pad
    then difference_quotient (v c2) (v c1) (c2 - c1) else zero in
  0 <= lower c <= c /\ c <= upper n c < n /\
  derivative pad (lower c) (upper n c) get
  = Some (if n =? 1 then zero
          else if c =? 0 then quotient 1 0
          else if c =? n - 1 then quotient (n - 1) (n - 2)
          else quotient (c + 1) (c - 1)).
Proof.
  intros Hc Hget quotient. rewrite lower_max, upper_min.
  split; [lia|]. split; [lia|].
  rewrite (derivative_slope pad _ _ get v) by (apply Hget; lia).
  f_equal. unfold slope, quotient.
  destruct (n =? 1) eqn:E1.
  - replace (Z.max 0 (c - 1) =? Z.min (n - 1) (c + 1)) with true by lia. reflexivity.
  - destruct (c =? 0) eqn:E2.
    + replace (Z.max 0 (c - 1)) with 0 by lia.
      replace (Z.min (n - 1) (c + 1)) with 1 by lia. reflexivity.
    + destruct (c =? n - 1) eqn:E3.
      * replace (Z.max 0 (c - 1)) with (n - 2) by lia.
        replace (Z.min (n - 1) (c + 1)) with (n - 1) by lia.
        replace (n - 2 =? n - 1) with false by lia. reflexivity.
      * replace (Z.max 0 (c - 1)) with (c - 1) by lia.
        replace (Z.min (n - 1) (c + 1)) with (c + 1) by lia.
        replace (c - 1 =? c + 1) with false by lia. reflexivity.
Qed.

End GradientFilterProofs.

(** The row of three voxels can be read at each of its voxels. *)
Lemma row_is_readable : readable (GradientFilter.objects memory_buffered 0) values_row.
Proof.
  intros x y z Hx Hy Hz. cbn in Hx, Hy, Hz. cbn.
  replace (0 <=? x) with true by lia. replace (x <? 3) with true by lia.
  replace (0 <=? y) with true by lia. replace (y <? 1) with true by lia.
  replace (0 <=? z) with true by lia. replace (z <? 1) with true by lia.
  reflexivity.
Qed.

Lemma Initialize_buffers_a_filter_run_in_place_witness :
  exists f' m' log,
    GradientFilter.Initialize (filter_in_place GradientFilter.GRADIENT_X) memory_row
    = GradientFilter.Done (f', m') log /\
    GradientFilter._input f' = Some 0%nat /\
    GradientFilter._output f' = Some 1%nat /\
    GradientFilter._tmp f' = Some 0%nat.
Proof.
  destruct (Initialize_buffers_a_filter_run_in_place
              (filter_in_place GradientFilter.GRADIENT_X) memory_row 0 0
              eq_refl eq_refl eq_refl) as (f' & m' & log & H1 & H2 & H3 & _ & H5 & _).
  - apply Z.leb_le. reflexivity.
  - reflexivity.
  - apply Nat.ltb_lt. reflexivity.
  - apply Nat.ltb_lt. reflexivity.
  - exists f', m', log. repeat split; assumption.
Defined.

Lemma Run_puts_the_gradient_of_each_voxel_witness :
  exists m'',
    GradientFilter.Run (filter_in_place GradientFilter.GRADIENT_X) memory_row
    = GradientFilter.Done
        (GradientFilter.Finalize (filter_buffered GradientFilter.GRADIENT_X) m'')
        (log_buffered
         ++ [GradientFilter.Put 1 0 0 0 0 3; GradientFilter.Put 1 1 0 0 0 4;
             GradientFilter.Put 1 2 0 0 0 5]
         ++ [GradientFilter.CallFinalize]).
Proof.
  destruct (proj1 (Run_puts_the_gradient_of_each_voxel
              (filter_in_place GradientFilter.GRADIENT_X)
              (filter_buffered GradientFilter.GRADIENT_X)
              memory_row memory_buffered log_buffered 0 1 values_row
              eq_refl eq_refl eq_refl
              (fun H : 0%nat = 1%nat => O_S 0 H)
              (fun n H => ltac:(discriminate H))
              row_is_readable)) as (m'' & H & _).
  exists m''. exact H.
Defined.

Lemma Run_with_an_unknown_type_witness :
  GradientFilter.Run (filter_in_place (GradientFilter.unknown_type 7)) memory_row
  = GradientFilter.Exit 1
      (log_buffered
       ++ [GradientFilter.Stderr "irtkGradientImageFilter::Run: Unknown gradient computation"]).
Proof.
  exact (proj1 (Run_with_an_unknown_type
                  (filter_in_place (GradientFilter.unknown_type 7))
                  (filter_buffered (GradientFilter.unknown_type 7))
                  memory_row memory_buffered log_buffered 0 1 7 values_row
                  eq_refl eq_refl eq_refl eq_refl row_is_readable)
               eq_refl eq_refl eq_refl).
Defined.

Lemma derivative_is_a_clamped_central_difference_witness :
  GradientFilter.derivative 0 (GradientFilter.lower 0) (GradientFilter.upper 3 0)
    (fun c => Some ((c + 1) * (c + 1)))
  = Some 3.
Proof.
  exact (proj2 (proj2 (derivative_is_a_clamped_central_difference
                  0 3 0 (fun c => Some ((c + 1) * (c + 1))) (fun c => (c + 1) * (c + 1))
                  (conj (Z.le_refl 0) eq_refl) (fun c' _ => eq_refl)))).
Defined.
